(** * AppRun: event bus, component state machine and keyed reconciler

    A shallow embedding of [dist/apprun.js] (webpack modules 0, 3 and 5:
    the [App] event bus, the [vdom-my] reconciler and the [Component]
    class; of module 1 the function [app.start], of module 4 the
    [route] method of the router) together with the properties its
    specification states and further properties of the code.

    Mutable JavaScript objects are kept in explicit stores: option
    records live in a heap (they are shared between a subscription, the
    debounce timer and the commit routine), components live in a
    component store, and the process-wide default bus is a field of the
    world.  Synchronous calls are state passing in a small result monad
    with three outcomes: normal return, a thrown exception, or running
    out of fuel (the dispatch of an event can re-enter the bus).

    What the model leaves open.  Application handlers are opaque: a call
    is recorded in the trace with its arguments and, unless the handler
    is one that throws, returns.  Update functions of a component are
    pure functions of the state and the arguments.  Event names are
    assumed not to collide with members of [Object.prototype], so that
    [_events[name]] is [undefined] for a name never registered.  Numbers
    are integers; timers and promise reactions run from an explicit
    queue.  In the reconciler, the host document is a heap of nodes;
    markup parsed by the host ([innerHTML]) is carried as an opaque
    string, and reading the text of such a node is reported as
    unmodelled instead of guessed. *)

From stdpp Require Import gmap strings list fin_maps pretty.
From Stdlib Require Import ZArith Lia Ascii.

Local Open Scope string_scope.
Local Open Scope nat_scope.
Local Open Scope list_scope.

(** ** JavaScript values *)

#[warnings="-register-all"]
Inductive Val : Type :=
  | VUndefined
  | VNull
  | VBool (b : bool)
  | VNum (z : Z)
  | VStr (s : string)
  | VPromise (p : nat)
  | VComp (c : nat)
  | VOptions (r : nat)
  | VArr (items : list Val)
  | VObj (fields : list (string * Val)).

(** [!!v] *)
Definition truthy (v : Val) : bool :=
  match v with
  | VUndefined | VNull => false
  | VBool b => b
  | VNum z => negb (z =? 0)%Z
  | VStr s => negb (String.eqb s "")
  | VPromise _ | VComp _ | VOptions _ | VArr _ | VObj _ => true
  end.

(** [null == v] *)
Definition nullish (v : Val) : bool :=
  match v with
  | VUndefined | VNull => true
  | _ => false
  end.

(** [v instanceof Promise] *)
Definition is_promise (v : Val) : option nat :=
  match v with
  | VPromise p => Some p
  | _ => None
  end.

(** [a || b] on values *)
Definition js_or (a b : Val) : Val := if truthy a then a else b.

(** An update handler of a component: [handler(state, ...args)]. *)
Definition UpdateFn : Type := Val -> list Val -> Val.

(** ** Function values stored in subscriptions

    Application callables are opaque: calling [FUser id] is recorded in
    the world's call trace, [FThrowing id e] is an application handler
    that raises [e].  The remaining constructors are the closures the
    library itself creates. *)

Inductive Fn : Type :=
  | FUser (id : nat)
  | FThrowing (id : nat) (err : Val)
  | FNoop
  | FHistoryPrev (c : nat)
  | FHistoryNext (c : nat)
  | FAction (c : nat) (t : string) (e : UpdateFn) (n : nat).

(** ** Option records

    One JavaScript object serves as the subscription options of the bus
    ([once], [delay], and the timer handle [_t] the bus stores on it) and
    as the commit options of a component ([render], [history],
    [callback]). *)

Record Options : Type := mkOptions {
  once : bool;
  delay : option nat;
  _t : option nat;
  render : option bool;
  history : option bool;
  callback : option nat
}.

Definition empty_options : Options :=
  {| once := false; delay := None; _t := None;
     render := None; history := None; callback := None |}.

(** [!!i.delay]: a number is truthy when it is not zero. *)
Definition delay_truthy (o : Options) : bool :=
  match delay o with
  | Some (S _) => true
  | _ => false
  end.

(** [!!r._t] *)
Definition timer_truthy (o : Options) : bool :=
  match _t o with
  | Some (S _) => true
  | _ => false
  end.

Definition set_t (o : Options) (id : nat) : Options :=
  {| once := once o; delay := delay o; _t := Some id;
     render := render o; history := history o; callback := callback o |}.

(** A subscription [{fn, options}]; [options] is a heap reference. *)
Record Sub : Type := mkSub {
  fn : Fn;
  options : nat
}.

(** [this._events] *)
Abbreviation Events := (gmap string (list Sub)).

(** ** Components *)

Inductive Target : Type :=
  | TUndefined
  | TNull
  | TId (id : string)
  | TNode (n : nat).

(** [!!this.element] *)
Definition target_truthy (t : Target) : bool :=
  match t with
  | TUndefined | TNull => false
  | TId s => negb (String.eqb s "")
  | TNode _ => true
  end.

Inductive HistoryOpt : Type :=
  | HistBool (b : bool)
  | HistNames (prev next : option string).

Definition history_truthy (h : option HistoryOpt) : bool :=
  match h with
  | None | Some (HistBool false) => false
  | Some (HistBool true) | Some (HistNames _ _) => true
  end.

(** The configuration object handed to [mount]; an absent property is
    [None]. *)
Record MountOptions : Type := mkMountOptions {
  o_render : option bool;
  o_history : option HistoryOpt;
  o_global_event : option bool
}.

Definition no_mount_options : MountOptions :=
  {| o_render := None; o_history := None; o_global_event := None |}.

Definition or_else {A} (new old : option A) : option A :=
  match new with
  | Some x => Some x
  | None => old
  end.

(** [Object.assign(old, e)] *)
Definition assign_options (old e : MountOptions) : MountOptions :=
  {| o_render := or_else (o_render e) (o_render old);
     o_history := or_else (o_history e) (o_history old);
     o_global_event := or_else (o_global_event e) (o_global_event old) |}.

(** A value of the [update] map: a bare handler, a [[handler, options]]
    pair, or anything else (ignored by [add_actions]). *)
Inductive UpdateEntry : Type :=
  | UFn (e : UpdateFn)
  | UPair (e : UpdateFn) (n : option nat)
  | UOther.

Record Component : Type := mkComponent {
  state : Val;
  view : option (Val -> Val);
  update : list (string * UpdateEntry);
  comp_options : option MountOptions;
  model : Val;
  _app : Events;
  _history : list Val;
  _history_idx : Z;
  element : Target;
  global_event : bool;
  enable_history : bool;
  rendered : option nat
}.

(** [new Component(state, view, update, options)] *)
Definition new_component (st : Val) (v : option (Val -> Val))
    (u : list (string * UpdateEntry)) (o : option MountOptions) : Component :=
  {| state := st; view := v; update := u; comp_options := o;
     model := VUndefined; _app := ∅; _history := []; _history_idx := (-1)%Z;
     element := TUndefined; global_event := false; enable_history := false;
     rendered := None |}.

(** ** The world *)

Inductive Diag : Type :=
  | AssertFailed (msg : string)
  | ConsoleError (v : Val).

(** A pending [setTimeout] created by [App.prototype.delay]: the closure
    captures the options object [r], the handler [e] and the arguments. *)
Record Timer : Type := mkTimer {
  tid : nat;
  due : nat;
  t_opts : nat;
  t_fn : Fn;
  t_args : list Val
}.

(** The commit options of a [setState] call: an object literal, or the
    heap object attached to an update handler. *)
Inductive OptSrc : Type :=
  | OLit (r h : option bool)
  | ORef (n : nat).

Record World : Type := mkWorld {
  default_events : Events;
  comps : gmap nat Component;
  heap : gmap nat Options;
  timers : list Timer;
  next_timer : nat;
  now : nat;
  console : list Diag;
  trace : list (nat * list Val);
  document : gmap string nat;
  render_installed : bool;
  renders : list (nat * Val);
  node_component : gmap nat nat;
  pending : list (nat * (nat * OptSrc));
  unhandled : list Val
}.

Inductive BusId : Type :=
  | Default
  | Private (c : nat).

(** ** Outcomes of a synchronous call *)

Inductive Res (A : Type) : Type :=
  | Ok (a : A) (w : World)
  | Thrown (e : Val) (w : World)
  | Diverged.

Arguments Ok {A} a w.
Arguments Thrown {A} e w.
Arguments Diverged {A}.

Definition bind {A B} (m : Res A) (k : A -> World -> Res B) : Res B :=
  match m with
  | Ok a w => k a w
  | Thrown e w => Thrown e w
  | Diverged => Diverged
  end.

Notation "'do' p <- m 'in' k" := (bind m (fun p => k))
  (at level 10, p pattern, m at level 100, k at level 200).

(** A call that returns normally. *)
Definition ret (w : World) : Res unit := Ok tt w.

(** ** Store updates *)

Definition blank_component : Component := new_component VUndefined None [] None.

Definition get_comp (c : nat) (w : World) : Component :=
  default blank_component (comps w !! c).

Definition get_opts (r : nat) (w : World) : Options :=
  default empty_options (heap w !! r).

Definition with_default_events (f : Events -> Events) (w : World) : World :=
  {| default_events := f (default_events w); comps := comps w; heap := heap w;
     timers := timers w; next_timer := next_timer w; now := now w;
     console := console w; trace := trace w; document := document w;
     render_installed := render_installed w; renders := renders w;
     node_component := node_component w; pending := pending w;
     unhandled := unhandled w |}.

Definition with_comps (f : gmap nat Component -> gmap nat Component) (w : World) : World :=
  {| default_events := default_events w; comps := f (comps w); heap := heap w;
     timers := timers w; next_timer := next_timer w; now := now w;
     console := console w; trace := trace w; document := document w;
     render_installed := render_installed w; renders := renders w;
     node_component := node_component w; pending := pending w;
     unhandled := unhandled w |}.

Definition with_heap (f : gmap nat Options -> gmap nat Options) (w : World) : World :=
  {| default_events := default_events w; comps := comps w; heap := f (heap w);
     timers := timers w; next_timer := next_timer w; now := now w;
     console := console w; trace := trace w; document := document w;
     render_installed := render_installed w; renders := renders w;
     node_component := node_component w; pending := pending w;
     unhandled := unhandled w |}.

Definition with_timers (f : list Timer -> list Timer) (w : World) : World :=
  {| default_events := default_events w; comps := comps w; heap := heap w;
     timers := f (timers w); next_timer := next_timer w; now := now w;
     console := console w; trace := trace w; document := document w;
     render_installed := render_installed w; renders := renders w;
     node_component := node_component w; pending := pending w;
     unhandled := unhandled w |}.

Definition with_next_timer (n : nat) (w : World) : World :=
  {| default_events := default_events w; comps := comps w; heap := heap w;
     timers := timers w; next_timer := n; now := now w;
     console := console w; trace := trace w; document := document w;
     render_installed := render_installed w; renders := renders w;
     node_component := node_component w; pending := pending w;
     unhandled := unhandled w |}.

Definition with_now (n : nat) (w : World) : World :=
  {| default_events := default_events w; comps := comps w; heap := heap w;
     timers := timers w; next_timer := next_timer w; now := n;
     console := console w; trace := trace w; document := document w;
     render_installed := render_installed w; renders := renders w;
     node_component := node_component w; pending := pending w;
     unhandled := unhandled w |}.

Definition log_console (d : Diag) (w : World) : World :=
  {| default_events := default_events w; comps := comps w; heap := heap w;
     timers := timers w; next_timer := next_timer w; now := now w;
     console := console w ++ [d]; trace := trace w; document := document w;
     render_installed := render_installed w; renders := renders w;
     node_component := node_component w; pending := pending w;
     unhandled := unhandled w |}.

Definition log_call (id : nat) (args : list Val) (w : World) : World :=
  {| default_events := default_events w; comps := comps w; heap := heap w;
     timers := timers w; next_timer := next_timer w; now := now w;
     console := console w; trace := trace w ++ [(id, args)]; document := document w;
     render_installed := render_installed w; renders := renders w;
     node_component := node_component w; pending := pending w;
     unhandled := unhandled w |}.

Definition log_render (n : nat) (vdom : Val) (w : World) : World :=
  {| default_events := default_events w;
     comps := comps w;
     heap := heap w;
     timers := timers w;
     next_timer := next_timer w;
     now := now w;
     console := console w;
     trace := trace w;
     document := document w;
     render_installed := render_installed w;
     renders := renders w ++ [(n, vdom)];
     node_component := node_component w;
     pending := pending w;
     unhandled := unhandled w |}.

Definition set_node_component (n c : nat) (w : World) : World :=
  {| default_events := default_events w;
     comps := comps w;
     heap := heap w;
     timers := timers w;
     next_timer := next_timer w;
     now := now w;
     console := console w;
     trace := trace w;
     document := document w;
     render_installed := render_installed w;
     renders := renders w;
     node_component := <[n := c]> (node_component w);
     pending := pending w;
     unhandled := unhandled w |}.

Definition add_pending (p c : nat) (e : OptSrc) (w : World) : World :=
  {| default_events := default_events w;
     comps := comps w;
     heap := heap w;
     timers := timers w;
     next_timer := next_timer w;
     now := now w;
     console := console w;
     trace := trace w;
     document := document w;
     render_installed := render_installed w;
     renders := renders w;
     node_component := node_component w;
     pending := pending w ++ [(p, (c, e))];
     unhandled := unhandled w |}.

Definition with_pending (l : list (nat * (nat * OptSrc))) (w : World) : World :=
  {| default_events := default_events w;
     comps := comps w;
     heap := heap w;
     timers := timers w;
     next_timer := next_timer w;
     now := now w;
     console := console w;
     trace := trace w;
     document := document w;
     render_installed := render_installed w;
     renders := renders w;
     node_component := node_component w;
     pending := l;
     unhandled := unhandled w |}.

Definition log_unhandled (e : Val) (w : World) : World :=
  {| default_events := default_events w;
     comps := comps w;
     heap := heap w;
     timers := timers w;
     next_timer := next_timer w;
     now := now w;
     console := console w;
     trace := trace w;
     document := document w;
     render_installed := render_installed w;
     renders := renders w;
     node_component := node_component w;
     pending := pending w;
     unhandled := unhandled w ++ [e] |}.

Definition set_comp (c : nat) (x : Component) (w : World) : World :=
  with_comps (fun m => <[c := x]> m) w.

Definition set_opts (r : nat) (o : Options) (w : World) : World :=
  with_heap (fun h => <[r := o]> h) w.

(** [console.assert(cond, msg)]: a failed assertion writes a diagnostic
    and execution continues. *)
Definition console_assert (cond : bool) (msg : string) (w : World) : World :=
  if cond then w else log_console (AssertFailed msg) w.

(** [this._events] of a bus, and the assignment [this._events[t] = l]. *)
Definition events_of (b : BusId) (w : World) : Events :=
  match b with
  | Default => default_events w
  | Private c => _app (get_comp c w)
  end.

Definition with_app (f : Events -> Events) (x : Component) : Component :=
  {| state := state x; view := view x; update := update x;
     comp_options := comp_options x; model := model x; _app := f (_app x);
     _history := _history x; _history_idx := _history_idx x;
     element := element x; global_event := global_event x;
     enable_history := enable_history x; rendered := rendered x |}.

Definition set_event (b : BusId) (t : string) (l : list Sub) (w : World) : World :=
  match b with
  | Default => with_default_events (fun ev => <[t := l]> ev) w
  | Private c => set_comp c (with_app (fun ev => <[t := l]> ev) (get_comp c w)) w
  end.

(** ** Module 0: the event bus [App] *)

(** A fresh object literal [{}] on the heap. *)
Definition alloc_options (o : Options) (w : World) : nat * World :=
  let r := fresh (dom (heap w)) in (r, set_opts r o w).

(** [App.prototype.on(t, e, n)] *)
Definition on (b : BusId) (t : string) (e : Fn) (n : option nat) (w : World) : World :=
  let '(r, w1) :=
    match n with
    | Some r => (r, w)
    | None => alloc_options empty_options w
    end in
  let cur := default [] (events_of b w1 !! t) in
  set_event b t (cur ++ [{| fn := e; options := r |}]) w1.

(** [App.prototype.once(t, e)] *)
Definition once_ (b : BusId) (t : string) (e : Fn) (w : World) : World :=
  on b t e None w.

(** [clearTimeout(id)] and [setTimeout(callback, d)] of the host. *)
Definition clearTimeout (id : nat) (w : World) : World :=
  with_timers (filter (fun x => tid x ≠ id)) w.

Definition setTimeout (r : nat) (e : Fn) (args : list Val) (d : nat) (w : World)
    : nat * World :=
  let id := next_timer w in
  (id, with_next_timer (S id)
         (with_timers (fun l => l ++ [{| tid := id; due := now w + d; t_opts := r;
                                          t_fn := e; t_args := args |}]) w)).

(** [App.prototype.delay(t, e, n, r)] *)
Definition delay_ (e : Fn) (args : list Val) (r : nat) (w : World) : World :=
  let o := get_opts r w in
  let w1 := if timer_truthy o then clearTimeout (default 0 (_t o)) w else w in
  let '(id, w2) := setTimeout r e args (default 0 (delay (get_opts r w1))) w1 in
  set_opts r (set_t (get_opts r w2) id) w2.

(** ** Module 5: the component, on top of a dispatch function

    [Component.prototype.renderState], [setState] and the closures that
    [mount] and [add_action] register all reach the default bus through
    [app.run("debug", ...)], and the bus reaches them back when it
    invokes a subscription.  The knot is tied on the fuel of [run]
    below; here the dispatch function is a parameter. *)

Definition with_state (t : Val) (x : Component) : Component :=
  {| state := t; view := view x; update := update x;
     comp_options := comp_options x; model := model x; _app := _app x;
     _history := _history x; _history_idx := _history_idx x;
     element := element x; global_event := global_event x;
     enable_history := enable_history x; rendered := rendered x |}.

Definition with_history (h : list Val) (i : Z) (x : Component) : Component :=
  {| state := state x; view := view x; update := update x;
     comp_options := comp_options x; model := model x; _app := _app x;
     _history := h; _history_idx := i;
     element := element x; global_event := global_event x;
     enable_history := enable_history x; rendered := rendered x |}.

(** [!1 !== e.render], [!1 !== e.history] and [e.callback], read from
    the options of a commit. *)
Definition not_false (o : option bool) : bool :=
  match o with
  | Some false => false
  | _ => true
  end.

Definition render_flag (e : OptSrc) (w : World) : bool :=
  match e with
  | OLit r _ => not_false r
  | ORef n => not_false (render (get_opts n w))
  end.

Definition history_flag (e : OptSrc) (w : World) : bool :=
  match e with
  | OLit _ h => not_false h
  | ORef n => not_false (history (get_opts n w))
  end.

Definition callback_of (e : OptSrc) (w : World) : option nat :=
  match e with
  | OLit _ _ => None
  | ORef n => callback (get_opts n w)
  end.

(** ["string" == typeof this.element ? document.getElementById(this.element)
    : this.element] *)
Definition resolve_element (t : Target) (w : World) : option nat :=
  match t with
  | TId s => if String.eqb s "" then None else document w !! s
  | TNode k => Some k
  | TUndefined | TNull => None
  end.

Section Dispatch.

Variable run_rec : BusId -> string -> list Val -> World -> Res unit.

(** [Component.prototype.renderState(t)] *)
Definition renderState_ (c : nat) (t : Val) (w : World) : Res unit :=
  match view (get_comp c w) with
  | None => ret w
  | Some v =>
      let e := v t in
      do _ <- run_rec Default "debug"
                [VObj [("component", VComp c); ("state", t);
                       ("vdom", js_or e (VStr "[vdom is null - no render]"))]] w
      in fun w1 =>
      match resolve_element (element (get_comp c w1)) w1 with
      | None => ret w1
      | Some n =>
          let w2 := set_node_component n c w1 in
          if render_installed w2 then
            let w3 := log_render n e w2 in
            match rendered (get_comp c w3) with
            | Some cb => ret (log_call cb [state (get_comp c w3)] w3)
            | None => ret w3
            end
          else ret w2
      end
  end.

(** [Component.prototype.setState(t, e)] *)
Definition setState_ (c : nat) (t : Val) (e : OptSrc) (w : World) : Res unit :=
  match is_promise t with
  | Some p => ret (add_pending p c e w)
  | None =>
      if nullish t then ret w
      else
        let w1 := set_comp c (with_state t (get_comp c w)) w in
        do _ <- (if render_flag e w1 then renderState_ c t w1 else ret w1)
        in fun w2 =>
        let x := get_comp c w2 in
        let w3 :=
          if history_flag e w2 && enable_history x then
            let h := _history x ++ [t] in
            set_comp c (with_history h (Z.of_nat (length h) - 1) x) w2
          else w2 in
        match callback_of e w3 with
        | Some cb => ret (log_call cb [state (get_comp c w3)] w3)
        | None => ret w3
        end
  end.

(** [n._history[n._history_idx]] *)
Definition history_at (x : Component) (i : Z) : Val :=
  if (i <? 0)%Z then VUndefined
  else default VUndefined (_history x !! Z.to_nat i).

(** The closure registered by [mount] for the history-prev event. *)
Definition history_prev (c : nat) (w : World) : Res unit :=
  let x := get_comp c w in
  let i := (_history_idx x - 1)%Z in
  let w1 := set_comp c (with_history (_history x) i x) w in
  if (0 <=? i)%Z then
    setState_ c (history_at x i) (OLit (Some true) (Some false)) w1
  else ret (set_comp c (with_history (_history x) 0 x) w1).

(** The closure registered by [mount] for the history-next event. *)
Definition history_next (c : nat) (w : World) : Res unit :=
  let x := get_comp c w in
  let i := (_history_idx x + 1)%Z in
  let w1 := set_comp c (with_history (_history x) i x) w in
  if (i <? Z.of_nat (length (_history x)))%Z then
    setState_ c (history_at x i) (OLit (Some true) (Some false)) w1
  else ret (set_comp c (with_history (_history x)
                          (Z.of_nat (length (_history x)) - 1) x) w1).

(** The wrapper registered by [add_action(t, e, n)]. *)
Definition action (c : nat) (t : string) (e : UpdateFn) (n : nat)
    (args : list Val) (w : World) : Res unit :=
  let st := state (get_comp c w) in
  let s := e st args in
  do _ <- run_rec Default "debug"
            [VObj [("component", VComp c); ("event", VStr t); ("e", VArr args);
                   ("state", st); ("newState", s); ("options", VOptions n)]] w
  in fun w1 => setState_ c s (ORef n) w1.

(** [o.apply(e, n)]: calling a function value. *)
Definition apply_fn (f : Fn) (args : list Val) (w : World) : Res unit :=
  match f with
  | FUser id => ret (log_call id args w)
  | FThrowing id err => Thrown err (log_call id args w)
  | FNoop => ret w
  | FHistoryPrev c => history_prev c w
  | FHistoryNext c => history_next c w
  | FAction c t e n => action c t e n args w
  end.

(** The callback of [o.filter(...)] in [App.prototype.run], folded
    over the subscription array. *)
Fixpoint filter_subs (args : list Val) (subs : list Sub) (w : World)
    : Res (list Sub) :=
  match subs with
  | [] => Ok [] w
  | r :: rest =>
      let i := options r in
      do _ <- (if delay_truthy (get_opts i w)
               then ret (delay_ (fn r) args i w)
               else apply_fn (fn r) args w)
      in fun w1 =>
      let keep := negb (once (get_opts (options r) w1)) in
      do kept <- filter_subs args rest w1 in fun w2 =>
      Ok (if keep then r :: kept else kept) w2
  end.

(** [App.prototype.run(t, ...n)] *)
Definition run_body (b : BusId) (t : string) (args : list Val) (w : World)
    : Res unit :=
  let o := events_of b w !! t in
  let w1 := console_assert (bool_decide (is_Some o))
              ("No subscriber for event: " +:+ t) w in
  match o with
  | None => ret w1
  | Some subs =>
      do kept <- filter_subs args subs w1 in fun w2 =>
      ret (set_event b t kept w2)
  end.

End Dispatch.

(** The dispatch entry point: each nested dispatch consumes one unit of
    fuel. *)
Fixpoint run (fuel : nat) (b : BusId) (t : string) (args : list Val) (w : World)
    : Res unit :=
  match fuel with
  | 0 => Diverged
  | S fuel' => run_body (run fuel') b t args w
  end.

Definition renderState (fuel : nat) := renderState_ (run fuel).
Definition setState (fuel : nat) := setState_ (run fuel).

(** [Component.prototype.is_global_event(t)], as a condition. *)
Definition is_global_event (t : string) : bool :=
  negb (String.eqb t "") && (String.prefix "#" t || String.prefix "/" t).

(** The bus a component registers on and dispatches to. *)
Definition route (c : nat) (t : string) (w : World) : BusId :=
  if global_event (get_comp c w) || is_global_event t then Default else Private c.

(** [Component.prototype.on(t, e, n)] *)
Definition comp_on (c : nat) (t : string) (e : Fn) (n : option nat) (w : World)
    : World :=
  if global_event (get_comp c w) || is_global_event t
  then on Default t e n w
  else on (Private c) t e n w.

(** [Component.prototype.run(t, ...n)] *)
Definition comp_run (fuel : nat) (c : nat) (t : string) (args : list Val)
    (w : World) : Res unit :=
  if global_event (get_comp c w) || is_global_event t
  then run fuel Default t args w
  else run fuel (Private c) t args w.

(** [Component.prototype.add_action(t, e, n)] *)
Definition add_action (c : nat) (t : string) (e : UpdateFn) (n : option nat)
    (w : World) : World :=
  let '(r, w1) :=
    match n with
    | Some r => (r, w)
    | None => alloc_options empty_options w
    end in
  comp_on c t (FAction c t e r) (Some r) w1.

(** [t.split(",")] and [t.trim()] *)
Fixpoint split_on (sep : ascii) (s : string) : list string :=
  match s with
  | EmptyString => [EmptyString]
  | String a s' =>
      if Ascii.eqb a sep then EmptyString :: split_on sep s'
      else match split_on sep s' with
           | [] => [String a EmptyString]
           | x :: xs => String a x :: xs
           end
  end.

Definition is_space (a : ascii) : bool :=
  let n := nat_of_ascii a in
  Nat.eqb n 32 || (Nat.leb 9 n && Nat.leb n 13).

Fixpoint trim_start (s : string) : string :=
  match s with
  | EmptyString => EmptyString
  | String a s' => if is_space a then trim_start s' else s
  end.

Fixpoint trim_end (s : string) : string :=
  match s with
  | EmptyString => EmptyString
  | String a s' =>
      match trim_end s' with
      | EmptyString => if is_space a then EmptyString else String a EmptyString
      | r => String a r
      end
  end.

Definition trim (s : string) : string := trim_end (trim_start s).

(** [n[k] = v] on an object used as an ordered map. *)
Fixpoint assoc_set {A} (k : string) (v : A) (l : list (string * A))
    : list (string * A) :=
  match l with
  | [] => [(k, v)]
  | (k', v') :: l' =>
      if String.eqb k k' then (k, v) :: l' else (k', v') :: assoc_set k v l'
  end.

Definition is_handler (r : UpdateEntry) : bool :=
  match r with
  | UFn _ | UPair _ _ => true
  | UOther => false
  end.

(** The table [n] that [add_actions] builds from [this.update]: one
    entry per trimmed, comma-separated event name. *)
Definition action_table (u : list (string * UpdateEntry))
    : list (string * UpdateEntry) :=
  fold_left
    (fun n '(t, r) =>
       if is_handler r
       then fold_left (fun n t' => assoc_set (trim t') r n) (split_on ","%char t) n
       else n)
    u [].

(** [Component.prototype.add_actions()]; the component carries no
    decorator metadata. *)
Definition add_actions (c : nat) (w : World) : World :=
  fold_left
    (fun w '(t, r) =>
       match r with
       | UFn e => add_action c t e None w
       | UPair e n => add_action c t e n w
       | UOther => w
       end)
    (action_table (update (get_comp c w))) w.

Definition prev_name (h : option HistoryOpt) : string :=
  match h with
  | Some (HistNames (Some s) _) => if String.eqb s "" then "history-prev" else s
  | _ => "history-prev"
  end.

Definition next_name (h : option HistoryOpt) : string :=
  match h with
  | Some (HistNames _ (Some s)) => if String.eqb s "" then "history-next" else s
  | _ => "history-next"
  end.

Definition bound (t : Target) (e : MountOptions) (x : Component) : Component :=
  {| state := state x; view := view x; update := update x;
     comp_options := Some e; model := model x; _app := _app x;
     _history := _history x; _history_idx := _history_idx x;
     element := t;
     global_event := default false (o_global_event e);
     enable_history := history_truthy (o_history e);
     rendered := rendered x |}.

(** [Component.prototype.mount(t, e)]; [e = None] is a call without a
    configuration object. *)
Definition mount (fuel : nat) (c : nat) (t : Target) (e : option MountOptions)
    (w : World) : Res unit :=
  let t := match t with TUndefined => TNull | _ => t end in
  let x := get_comp c w in
  let w1 := console_assert (negb (target_truthy (element x)))
              "Component already mounted." w in
  let e := assign_options (default no_mount_options (comp_options x))
             (default no_mount_options e) in
  let w2 := set_comp c (bound t e x) w1 in
  let w3 :=
    if enable_history (get_comp c w2) then
      comp_on c (next_name (o_history e)) (FHistoryNext c) None
        (comp_on c (prev_name (o_history e)) (FHistoryPrev c) None w2)
    else w2 in
  let w4 := add_actions c w3 in
  let x4 := get_comp c w4 in
  let w5 :=
    match state x4 with
    | VUndefined => set_comp c (with_state (js_or (model x4) (VObj [])) x4) w4
    | _ => w4
    end in
  if default false (o_render e)
  then setState fuel c (state (get_comp c w5)) (OLit (Some true) (Some true)) w5
  else setState fuel c (state (get_comp c w5)) (OLit (Some false) (Some true)) w5.

(** ** The host: promise reactions and timers *)

Inductive Settled : Type :=
  | Resolved (v : Val)
  | Rejected (e : Val).

(** One reaction of
    [t.then(function (t) { n.setState(t, e) })
      .catch(function (t) { throw console.error(t), t })]:
    the rejection handler logs and re-throws, which leaves the derived
    promise rejected with nobody listening. *)
Definition reaction (fuel : nat) (s : Settled) (c : nat) (e : OptSrc) (w : World)
    : option World :=
  match s with
  | Resolved v =>
      match setState fuel c v e w with
      | Ok _ w' => Some w'
      | Thrown err w' => Some (log_unhandled err (log_console (ConsoleError err) w'))
      | Diverged => None
      end
  | Rejected err => Some (log_unhandled err (log_console (ConsoleError err) w))
  end.

Fixpoint reactions (fuel : nat) (s : Settled) (l : list (nat * (nat * OptSrc)))
    (w : World) : option World :=
  match l with
  | [] => Some w
  | (_, (c, e)) :: l' =>
      match reaction fuel s c e w with
      | Some w' => reactions fuel s l' w'
      | None => None
      end
  end.

(** Promise [p] settles: its reactions run in registration order. *)
Definition settle (fuel : nat) (p : nat) (s : Settled) (w : World) : option World :=
  let mine := filter (fun x => x.1 = p) (pending w) in
  let others := filter (fun x => x.1 ≠ p) (pending w) in
  reactions fuel s mine (with_pending others w).

(** The timer callback of [App.prototype.delay]:
    [function () { clearTimeout(r._t), e.apply(o, n) }].  An exception
    escaping a timer callback is reported by the host. *)
Definition fire (fuel : nat) (tm : Timer) (w : World) : option World :=
  let w1 :=
    match _t (get_opts (t_opts tm) w) with
    | Some id => clearTimeout id w
    | None => w
    end in
  match apply_fn (run fuel) (t_fn tm) (t_args tm) w1 with
  | Ok _ w2 => Some w2
  | Thrown e w2 => Some (log_unhandled e w2)
  | Diverged => None
  end.

(** The pending timer that expires first (the oldest among equals). *)
Fixpoint earliest (l : list Timer) : option Timer :=
  match l with
  | [] => None
  | x :: l' =>
      match earliest l' with
      | Some y => if due y <? due x then Some y else Some x
      | None => Some x
      end
  end.

(** Time passes until [T]: every timer that expires on the way fires, in
    order of expiry. *)
Fixpoint advance_to (fuel : nat) (T : nat) (w : World) : option World :=
  match earliest (timers w) with
  | Some tm =>
      if due tm <=? T then
        match fuel with
        | 0 => None
        | S fuel' =>
            let w1 := with_now (Nat.max (now w) (due tm)) (clearTimeout (tid tm) w) in
            match fire fuel' tm w1 with
            | Some w2 => advance_to fuel' T w2
            | None => None
            end
        end
      else Some (with_now (Nat.max (now w) T) w)
  | None => Some (with_now (Nat.max (now w) T) w)
  end.

(** ** Module initialisation *)

Definition empty_world : World :=
  {| default_events := ∅; comps := ∅; heap := ∅; timers := []; next_timer := 1;
     now := 0; console := []; trace := []; document := ∅;
     render_installed := true; renders := []; node_component := ∅;
     pending := []; unhandled := [] |}.

(** The router module subscribes no-op handlers to ["//"] and ["#"], and
    the entry module subscribes one to ["debug"], on the default bus. *)
Definition init_world : World :=
  on Default "debug" FNoop None
    (on Default "#" FNoop None
       (on Default "//" FNoop None empty_world)).

(** [new Component(...)], stored under a fresh identity. *)
Definition create (x : Component) (w : World) : nat * World :=
  let c := fresh (dom (comps w)) in (c, set_comp c x w).

(** * Properties *)

(** ** Dispatch to opaque handlers

    A subscription whose function is an application callable that
    returns ([FUser]) or the library's no-op does not re-enter the bus:
    its invocation is either a call recorded in the trace or, for a
    debounced subscription, a new timer. *)

Definition opaque (f : Fn) : bool :=
  match f with
  | FUser _ | FNoop => true
  | _ => false
  end.

Definition called (f : Fn) (args : list Val) (w : World) : World :=
  match f with
  | FUser id => log_call id args w
  | _ => w
  end.

Definition invoke_opaque (args : list Val) (w : World) (r : Sub) : World :=
  if delay_truthy (get_opts (options r) w)
  then delay_ (fn r) args (options r) w
  else called (fn r) args w.

Definition kept (w : World) (subs : list Sub) : list Sub :=
  filter (fun r => once (get_opts (options r) w) = false) subs.

Section OpaqueDispatch.

Variable rr : BusId -> string -> list Val -> World -> Res unit.

Lemma apply_fn_opaque f args w :
  opaque f = true -> apply_fn rr f args w = Ok tt (called f args w).
Proof. destruct f; simpl; intros; try discriminate; reflexivity. Qed.

Lemma get_opts_set_opts r r' o w :
  get_opts r (set_opts r' o w) = if decide (r' = r) then o else get_opts r w.
Proof.
  unfold get_opts, set_opts; simpl. rewrite lookup_insert.
  destruct (decide (r' = r)); reflexivity.
Qed.

Lemma get_opts_called r f args w : get_opts r (called f args w) = get_opts r w.
Proof. destruct f; reflexivity. Qed.

Lemma get_opts_delay r f args r' w :
  get_opts r (delay_ f args r' w)
  = if decide (r' = r) then set_t (get_opts r w) (next_timer w) else get_opts r w.
Proof.
  unfold delay_.
  assert (Hc : forall i, get_opts r'
            (if timer_truthy (get_opts r' w) then clearTimeout i w else w)
            = get_opts r' w) by (intros; destruct (timer_truthy _); reflexivity).
  assert (Hn : forall i, next_timer
            (if timer_truthy (get_opts r' w) then clearTimeout i w else w)
            = next_timer w) by (intros; destruct (timer_truthy _); reflexivity).
  unfold setTimeout. rewrite get_opts_set_opts. simpl.
  destruct (decide (r' = r)) as [->|Hne].
  - rewrite Hn. f_equal. destruct (timer_truthy _); reflexivity.
  - destruct (timer_truthy _); reflexivity.
Qed.

Lemma once_invoke_opaque r args w s :
  once (get_opts r (invoke_opaque args w s)) = once (get_opts r w).
Proof.
  unfold invoke_opaque. destruct (delay_truthy _).
  - rewrite get_opts_delay. destruct (decide _); reflexivity.
  - rewrite get_opts_called. reflexivity.
Qed.

Lemma delay_invoke_opaque r args w s :
  delay (get_opts r (invoke_opaque args w s)) = delay (get_opts r w).
Proof.
  unfold invoke_opaque. destruct (delay_truthy _).
  - rewrite get_opts_delay. destruct (decide _); reflexivity.
  - rewrite get_opts_called. reflexivity.
Qed.

Lemma kept_invoke_opaque args w s subs :
  kept (invoke_opaque args w s) subs = kept w subs.
Proof.
  unfold kept. apply list_filter_iff. intros x.
  rewrite once_invoke_opaque. reflexivity.
Qed.

Lemma kept_foldl args subs0 w subs :
  kept (foldl (invoke_opaque args) w subs0) subs = kept w subs.
Proof.
  revert w. induction subs0 as [|s subs0 IH]; intros w; simpl; [reflexivity|].
  rewrite IH. apply kept_invoke_opaque.
Qed.

(** The filter callback over opaque subscriptions: every subscription
    is invoked in array order and the ones without [once] are kept. *)
Lemma filter_subs_opaque args subs w :
  Forall (fun r => opaque (fn r) = true) subs ->
  filter_subs rr args subs w
  = Ok (kept w subs) (foldl (invoke_opaque args) w subs).
Proof.
  intros H. revert w. induction H as [|r subs Hr _ IH]; intros w; simpl.
  - reflexivity.
  - assert (Hstep :
      (if delay_truthy (get_opts (options r) w)
       then ret (delay_ (fn r) args (options r) w)
       else apply_fn rr (fn r) args w) = Ok tt (invoke_opaque args w r)).
    { unfold invoke_opaque. destruct (delay_truthy _); [reflexivity|].
      apply apply_fn_opaque, Hr. }
    rewrite Hstep. simpl. rewrite IH. simpl.
    rewrite kept_invoke_opaque, once_invoke_opaque.
    f_equal. unfold kept. rewrite filter_cons.
    destruct (decide (once (get_opts (options r) w) = false)) as [e|n].
    + rewrite e. reflexivity.
    + destruct (once _); [reflexivity|congruence].
Qed.

End OpaqueDispatch.

Definition log_calls (l : list (nat * list Val)) (w : World) : World :=
  {| default_events := default_events w; comps := comps w; heap := heap w;
     timers := timers w; next_timer := next_timer w; now := now w;
     console := console w; trace := trace w ++ l; document := document w;
     render_installed := render_installed w; renders := renders w;
     node_component := node_component w; pending := pending w;
     unhandled := unhandled w |}.

Lemma log_calls_nil w : log_calls [] w = w.
Proof. destruct w; unfold log_calls; simpl. rewrite app_nil_r. reflexivity. Qed.

Lemma log_calls_app l1 l2 w : log_calls l2 (log_calls l1 w) = log_calls (l1 ++ l2) w.
Proof. unfold log_calls; simpl. rewrite app_assoc. reflexivity. Qed.

Lemma log_call_calls id args w : log_call id args w = log_calls [(id, args)] w.
Proof. reflexivity. Qed.

Lemma set_event_id b t l w :
  events_of b w !! t = Some l -> set_event b t l w = w.
Proof.
  destruct b as [|c]; simpl; intros H.
  - unfold with_default_events. rewrite insert_id by exact H. destruct w; reflexivity.
  - unfold get_comp in *. destruct (comps w !! c) as [x|] eqn:Hc; simpl in *.
    + unfold set_comp, with_comps, with_app.
      rewrite (insert_id (_app x)) by exact H.
      replace {| state := state x; view := view x; update := update x;
                 comp_options := comp_options x; model := model x; _app := _app x;
                 _history := _history x; _history_idx := _history_idx x;
                 element := element x; global_event := global_event x;
                 enable_history := enable_history x; rendered := rendered x |}
        with x by (destruct x; reflexivity).
      rewrite insert_id by exact Hc. destruct w; reflexivity.
    + rewrite lookup_empty in H. discriminate.
Qed.

Lemma run_no_event fuel b t args w :
  events_of b w !! t = None ->
  run (S fuel) b t args w
  = Ok tt (log_console (AssertFailed ("No subscriber for event: " +:+ t)) w).
Proof. intros H. simpl. unfold run_body. rewrite H. reflexivity. Qed.

Lemma run_opaque fuel b t args w subs :
  events_of b w !! t = Some subs ->
  Forall (fun r => opaque (fn r) = true) subs ->
  run (S fuel) b t args w
  = Ok tt (set_event b t (kept w subs) (foldl (invoke_opaque args) w subs)).
Proof.
  intros H Hop. simpl. unfold run_body. rewrite H.
  rewrite bool_decide_eq_true_2 by eauto. simpl.
  rewrite filter_subs_opaque by exact Hop. reflexivity.
Qed.

(** Subscriptions to application callables without [once] and without
    a (truthy) [delay]. *)
Definition plain (w : World) (r : Sub) : Prop :=
  once (get_opts (options r) w) = false
  /\ delay_truthy (get_opts (options r) w) = false.

Definition call_of (args : list Val) (r : Sub) : list (nat * list Val) :=
  match fn r with
  | FUser id => [(id, args)]
  | _ => []
  end.

Lemma get_opts_log_calls r l w : get_opts r (log_calls l w) = get_opts r w.
Proof. reflexivity. Qed.

Lemma foldl_invoke_plain args subs w :
  Forall (plain w) subs ->
  foldl (invoke_opaque args) w subs = log_calls (concat (map (call_of args) subs)) w.
Proof.
  intros H.
  enough (G : forall acc, foldl (invoke_opaque args) (log_calls acc w) subs
                          = log_calls (acc ++ concat (map (call_of args) subs)) w).
  { specialize (G []). rewrite log_calls_nil in G. exact G. }
  induction H as [|r subs [_ Hd] _ IH]; intros acc; simpl.
  - rewrite app_nil_r. reflexivity.
  - unfold invoke_opaque at 2. rewrite get_opts_log_calls, Hd.
    replace (called (fn r) args (log_calls acc w))
      with (log_calls (acc ++ call_of args r) w).
    + rewrite IH, app_assoc. reflexivity.
    + unfold called, call_of. destruct (fn r); simpl;
        try (rewrite app_nil_r; reflexivity).
      rewrite log_call_calls, log_calls_app. reflexivity.
Qed.

Lemma kept_plain w subs : Forall (plain w) subs -> kept w subs = subs.
Proof.
  intros H. unfold kept. induction H as [|r subs [Ho _] _ IH]; [reflexivity|].
  rewrite filter_cons, IH. destruct (decide _); [reflexivity|contradiction].
Qed.

Lemma run_plain fuel b t args w subs :
  events_of b w !! t = Some subs ->
  Forall (fun r => opaque (fn r) = true) subs ->
  Forall (plain w) subs ->
  run (S fuel) b t args w = Ok tt (log_calls (concat (map (call_of args) subs)) w).
Proof.
  intros H Hop Hp. rewrite (run_opaque _ _ _ _ _ _ H Hop).
  rewrite kept_plain, foldl_invoke_plain by exact Hp.
  rewrite set_event_id; [reflexivity|].
  destruct b; exact H.
Qed.

(** ** The event bus *)

(** The subscription of application handler [hr.1] under the options
    object [hr.2]. *)
Definition user_sub (hr : nat * nat) : Sub := {| fn := FUser hr.1; options := hr.2 |}.

Lemma call_of_user_subs args hs :
  concat (map (call_of args) (map user_sub hs)) = map (fun hr => (hr.1, args)) hs.
Proof. induction hs as [|hr hs IH]; simpl; [reflexivity|]. f_equal. exact IH. Qed.

Lemma opaque_user_subs hs : Forall (fun r => opaque (fn r) = true) (map user_sub hs).
Proof. apply Forall_forall. intros r Hr. apply list_elem_of_fmap in Hr as [hr [-> _]]. reflexivity. Qed.

(** C2: an event with N subscriptions (application handlers), none of
    which has the once flag or a delay, is dispatched: the N handlers
    are called during the dispatch, in registration order, with the
    dispatched arguments; no timer is scheduled; and the event's
    subscription list is the same afterwards, so it still has length N
    and the next dispatch finds the same situation. *)
Theorem dispatch_in_registration_order fuel b t args w (hs : list (nat * nat)) :
  events_of b w !! t = Some (map user_sub hs) ->
  Forall (plain w) (map user_sub hs) ->
  exists w',
    run (S fuel) b t args w = Ok tt w'
    /\ trace w' = trace w ++ map (fun hr => (hr.1, args)) hs
    /\ timers w' = timers w
    /\ events_of b w' !! t = Some (map user_sub hs)
    /\ length (default [] (events_of b w' !! t)) = length hs
    /\ Forall (plain w') (map user_sub hs).
Proof.
  intros H Hp.
  exists (log_calls (map (fun hr => (hr.1, args)) hs) w).
  rewrite (run_plain fuel b t args w _ H (opaque_user_subs hs) Hp).
  rewrite call_of_user_subs.
  assert (He : events_of b (log_calls (map (fun hr => (hr.1, args)) hs) w) = events_of b w)
    by (destruct b; reflexivity).
  rewrite He, H. simpl. rewrite length_map.
  repeat split; try reflexivity.
  eapply Forall_impl; [exact Hp|]. intros r [Ho Hd]. split; assumption.
Qed.

Definition two_handlers : World :=
  on Default "tick" (FUser 2) None (on Default "tick" (FUser 1) None init_world).

Lemma dispatch_in_registration_order_witness :
  exists w',
    run 1 Default "tick" [VNum 7] two_handlers = Ok tt w'
    /\ trace w' = trace two_handlers ++ [(1, [VNum 7]); (2, [VNum 7])]
    /\ timers w' = timers two_handlers
    /\ events_of Default w' !! "tick" = Some (map user_sub [(1, 3); (2, 4)])
    /\ length (default [] (events_of Default w' !! "tick")) = 2
    /\ Forall (plain w') (map user_sub [(1, 3); (2, 4)]).
Proof.
  apply (dispatch_in_registration_order 0 Default "tick" [VNum 7] two_handlers
           [(1, 3); (2, 4)]).
  - vm_compute. reflexivity.
  - repeat constructor.
Defined.

Lemma events_of_set_event b t l w : events_of b (set_event b t l w) !! t = Some l.
Proof.
  destruct b as [|c]; simpl.
  - apply lookup_insert_eq.
  - unfold get_comp, set_comp; simpl. rewrite lookup_insert_eq. simpl.
    apply lookup_insert_eq.
Qed.

Lemma get_opts_set_event r b t l w : get_opts r (set_event b t l w) = get_opts r w.
Proof. destruct b; reflexivity. Qed.

Lemma trace_set_event b t l w : trace (set_event b t l w) = trace w.
Proof. destruct b; reflexivity. Qed.

Lemma console_set_event b t l w : console (set_event b t l w) = console w.
Proof. destruct b; reflexivity. Qed.

Lemma trace_delay f args r w : trace (delay_ f args r w) = trace w.
Proof.
  unfold delay_. destruct (timer_truthy _); reflexivity.
Qed.

(** What one dispatch to opaque subscriptions appends to the trace: the
    calls of the subscriptions that are not debounced, in order. *)
Definition direct_calls (args : list Val) (w : World) (subs : list Sub)
    : list (nat * list Val) :=
  concat (map (fun r => if delay_truthy (get_opts (options r) w)
                        then [] else call_of args r) subs).

Lemma delay_truthy_invoke_opaque r args w s :
  delay_truthy (get_opts r (invoke_opaque args w s)) = delay_truthy (get_opts r w).
Proof. unfold delay_truthy. rewrite delay_invoke_opaque. reflexivity. Qed.

Lemma direct_calls_invoke_opaque args w s subs :
  direct_calls args (invoke_opaque args w s) subs = direct_calls args w subs.
Proof.
  unfold direct_calls. f_equal. apply map_ext. intros r.
  rewrite delay_truthy_invoke_opaque. reflexivity.
Qed.

Lemma trace_foldl_invoke args subs w :
  trace (foldl (invoke_opaque args) w subs) = trace w ++ direct_calls args w subs.
Proof.
  revert w. induction subs as [|s subs IH]; intros w; simpl.
  - unfold direct_calls; simpl. rewrite app_nil_r. reflexivity.
  - rewrite IH, direct_calls_invoke_opaque.
    unfold direct_calls at 2; simpl. fold (direct_calls args w subs).
    rewrite app_assoc. f_equal.
    unfold invoke_opaque. destruct (delay_truthy _).
    + rewrite trace_delay, app_nil_r. reflexivity.
    + unfold called, call_of. destruct (fn s); simpl;
        rewrite ?app_nil_r; reflexivity.
Qed.

Lemma get_opts_foldl_invoke_once r args subs w :
  once (get_opts r (foldl (invoke_opaque args) w subs)) = once (get_opts r w).
Proof.
  revert w. induction subs as [|s subs IH]; intros w; simpl; [reflexivity|].
  rewrite IH. apply once_invoke_opaque.
Qed.

Lemma get_opts_foldl_invoke_delay r args subs w :
  delay (get_opts r (foldl (invoke_opaque args) w subs)) = delay (get_opts r w).
Proof.
  revert w. induction subs as [|s subs IH]; intros w; simpl; [reflexivity|].
  rewrite IH. apply delay_invoke_opaque.
Qed.

(** A sequence of dispatches of one event. *)
Fixpoint run_many (fuel : nat) (b : BusId) (t : string) (argss : list (list Val))
    (w : World) : Res unit :=
  match argss with
  | [] => ret w
  | args :: rest =>
      do _ <- run fuel b t args w in fun w1 => run_many fuel b t rest w1
  end.

Lemma sublist_singleton {A} (x : A) (l : list A) : x ∈ l -> sublist [x] l.
Proof.
  intros H. apply list_elem_of_split in H as (l1 & l2 & ->).
  apply sublist_inserts_l. apply sublist_skip. apply sublist_nil_l.
Qed.

(** A plain subscription of an application handler survives any
    sequence of dispatches and is called at each of them. *)
Lemma plain_sub_run_many fuel b t h r argss : forall w subs,
  events_of b w !! t = Some subs ->
  Forall (fun s => opaque (fn s) = true) subs ->
  {| fn := FUser h; options := r |} ∈ subs ->
  plain w {| fn := FUser h; options := r |} ->
  exists w' tr,
    run_many (S fuel) b t argss w = Ok tt w'
    /\ {| fn := FUser h; options := r |} ∈ default [] (events_of b w' !! t)
    /\ trace w' = trace w ++ tr
    /\ sublist (map (fun args => (h, args)) argss) tr.
Proof.
  induction argss as [|args argss IH]; intros w subs He Hop Hin Hp.
  - exists w, []. simpl. rewrite He, app_nil_r. repeat split; try assumption.
    constructor.
  - cbn [run_many]. rewrite (run_opaque fuel b t args w subs He Hop).
    cbn [bind].
    set (w1 := set_event b t (kept w subs) (foldl (invoke_opaque args) w subs)).
    destruct Hp as [Ho Hd]; simpl in Ho, Hd.
    assert (Hin1 : {| fn := FUser h; options := r |} ∈ kept w subs).
    { unfold kept. apply list_elem_of_filter. split; [exact Ho|exact Hin]. }
    destruct (IH w1 (kept w subs)) as (w' & tr & Hrun & Hin' & Htr & Hsub).
    + apply events_of_set_event.
    + unfold kept. apply Forall_forall. intros s Hs.
      apply list_elem_of_filter in Hs as [_ Hs].
      rewrite Forall_forall in Hop. apply Hop, Hs.
    + exact Hin1.
    + split; simpl; unfold w1; rewrite get_opts_set_event.
      * rewrite get_opts_foldl_invoke_once. exact Ho.
      * unfold delay_truthy. rewrite get_opts_foldl_invoke_delay. exact Hd.
    + exists w', (direct_calls args w subs ++ tr).
      repeat split; try assumption.
      * rewrite Htr. unfold w1. rewrite trace_set_event, trace_foldl_invoke.
        rewrite app_assoc. reflexivity.
      * change (sublist ([(h, args)] ++ map (fun a => (h, a)) argss)
                  (direct_calls args w subs ++ tr)).
        apply sublist_app; [|exact Hsub].
        apply sublist_singleton. unfold direct_calls.
        apply list_elem_of_In, in_concat.
        exists [(h, args)]. split; [|left; reflexivity].
        apply in_map_iff. exists {| fn := FUser h; options := r |}.
        simpl. rewrite Hd. split; [reflexivity|]. apply list_elem_of_In, Hin.
Qed.

Lemma on_fresh_spec b t e w :
  let r := fresh (dom (heap w)) in
  let w1 := on b t e None w in
  events_of b w1 !! t
  = Some (default [] (events_of b w !! t) ++ [{| fn := e; options := r |}])
  /\ heap w1 !! r = Some empty_options
  /\ trace w1 = trace w.
Proof.
  unfold on, alloc_options. cbn zeta.
  split; [|split].
  - rewrite events_of_set_event. destruct b; reflexivity.
  - destruct b; simpl; apply lookup_insert_eq.
  - destruct b; reflexivity.
Qed.



(** Dispatch to a name that was never registered: a diagnostic, and the
    registries are untouched. *)
Lemma dispatch_unregistered fuel b t args w :
  events_of b w !! t = None ->
  exists w',
    run (S fuel) b t args w = Ok tt w'
    /\ console w' = console w ++ [AssertFailed ("No subscriber for event: " +:+ t)]
    /\ default_events w' = default_events w
    /\ comps w' = comps w.
Proof.
  intros H. rewrite (run_no_event _ _ _ _ _ H).
  eexists. split; [reflexivity|]. repeat split.
Qed.

(** Dispatch to a registered name whose list has become empty: nothing
    at all happens, not even the diagnostic. *)
Lemma dispatch_emptied fuel b t args w :
  events_of b w !! t = Some [] -> run (S fuel) b t args w = Ok tt w.
Proof.
  intros H. rewrite (run_plain fuel b t args w [] H); [|constructor|constructor].
  simpl. rewrite log_calls_nil. reflexivity.
Qed.

Definition once_options : Options :=
  {| once := true; delay := None; _t := None;
     render := None; history := None; callback := None |}.

(** One once-subscription to ["ping"], dispatched once. *)
Definition emptied_world : World :=
  let '(r, w) := alloc_options once_options init_world in
  match run 1 Default "ping" [] (on Default "ping" (FUser 1) (Some r) w) with
  | Ok _ w' => w'
  | _ => w
  end.

(** C4, at the failing input: after its only (once) subscription has
    been consumed, the event ["ping"] has zero subscriptions; a further
    dispatch returns normally and leaves the world as it is, so no
    diagnostic is written to the console (it is still empty), whereas
    the same dispatch of a never-registered name writes one. *)
Theorem dispatch_to_emptied_event_is_silent :
  events_of Default emptied_world !! "ping" = Some []
  /\ trace emptied_world = [(1, [])]
  /\ run 1 Default "ping" [] emptied_world = Ok tt emptied_world
  /\ console emptied_world = []
  /\ (exists w', run 1 Default "pong" [] emptied_world = Ok tt w'
                 /\ console w' = [AssertFailed "No subscriber for event: pong"]).
Proof.
  assert (H : events_of Default emptied_world !! "ping" = Some [])
    by (vm_compute; reflexivity).
  split; [exact H|]. split; [vm_compute; reflexivity|].
  split; [apply dispatch_emptied, H|]. split; [vm_compute; reflexivity|].
  destruct (dispatch_unregistered 0 Default "pong" [] emptied_world) as (w' & Hr & Hc & _).
  - vm_compute. reflexivity.
  - exists w'. split; [exact Hr|]. rewrite Hc. vm_compute. reflexivity.
Qed.

(** ** Dispatching ["debug"] from inside a component

    [renderState] and the update wrapper dispatch ["debug"] on the
    default bus.  When its subscribers are opaque the dispatch returns
    and touches neither a component nor the rendered output. *)

Definition quiet_debug (w : World) : Prop :=
  Forall (fun s => opaque (fn s) = true) (default [] (default_events w !! "debug")).

(** The part of the world a dispatch to opaque handlers cannot change. *)
Definition app_part (w : World) :=
  (comps w, renders w, pending w, unhandled w, document w, render_installed w,
   node_component w).

Definition commit_opts (r : nat) (w : World) :=
  (render (get_opts r w), history (get_opts r w), callback (get_opts r w)).

Lemma app_part_delay f args r w : app_part (delay_ f args r w) = app_part w.
Proof. unfold delay_. destruct (timer_truthy _); reflexivity. Qed.

Lemma console_delay f args r w : console (delay_ f args r w) = console w.
Proof. unfold delay_. destruct (timer_truthy _); reflexivity. Qed.

Lemma default_events_delay f args r w :
  default_events (delay_ f args r w) = default_events w.
Proof. unfold delay_. destruct (timer_truthy _); reflexivity. Qed.

Lemma app_part_invoke_opaque args w s : app_part (invoke_opaque args w s) = app_part w.
Proof.
  unfold invoke_opaque. destruct (delay_truthy _); [apply app_part_delay|].
  destruct (fn s); reflexivity.
Qed.

Lemma console_invoke_opaque args w s : console (invoke_opaque args w s) = console w.
Proof.
  unfold invoke_opaque. destruct (delay_truthy _); [apply console_delay|].
  destruct (fn s); reflexivity.
Qed.

Lemma commit_opts_invoke_opaque r args w s :
  commit_opts r (invoke_opaque args w s) = commit_opts r w.
Proof.
  unfold commit_opts, invoke_opaque. destruct (delay_truthy _).
  - rewrite get_opts_delay. destruct (decide _); reflexivity.
  - rewrite get_opts_called. reflexivity.
Qed.

Lemma foldl_invoke_frame args subs w :
  let w' := foldl (invoke_opaque args) w subs in
  app_part w' = app_part w /\ console w' = console w
  /\ forall r, commit_opts r w' = commit_opts r w.
Proof.
  revert w. induction subs as [|s subs IH]; intros w; simpl.
  - repeat split.
  - destruct (IH (invoke_opaque args w s)) as (Ha & Hc & Ho).
    rewrite Ha, Hc, app_part_invoke_opaque, console_invoke_opaque.
    repeat split. intros r. rewrite Ho. apply commit_opts_invoke_opaque.
Qed.

Lemma run_debug_quiet fuel args w :
  quiet_debug w ->
  exists w1 tl,
    run (S fuel) Default "debug" args w = Ok tt w1
    /\ app_part w1 = app_part w
    /\ console w1 = console w ++ tl
    /\ (forall r, commit_opts r w1 = commit_opts r w)
    /\ quiet_debug w1.
Proof.
  unfold quiet_debug. intros Hq.
  destruct (default_events w !! "debug") as [subs|] eqn:He.
  - simpl in Hq.
    rewrite (run_opaque fuel Default "debug" args w subs He Hq).
    destruct (foldl_invoke_frame args subs w) as (Ha & Hc & Ho).
    eexists. exists []. split; [reflexivity|].
    split; [exact Ha|]. split; [rewrite app_nil_r; exact Hc|].
    split; [exact Ho|].
    simpl. rewrite lookup_insert_eq. simpl.
    unfold kept. apply Forall_forall. intros s Hs.
    apply list_elem_of_filter in Hs as [_ Hs].
    rewrite Forall_forall in Hq. apply Hq, Hs.
  - rewrite (run_no_event fuel Default "debug" args w He).
    eexists. eexists. split; [reflexivity|].
    split; [reflexivity|]. split; [reflexivity|]. split; [reflexivity|].
    simpl. rewrite He. constructor.
Qed.

(** What [renderState(t)] hands to [app.render]: nothing when the
    component has no view, when its mount target does not resolve, or
    when no renderer is installed. *)
Definition render_out (c : nat) (t : Val) (w : World) : list (nat * Val) :=
  match view (get_comp c w), resolve_element (element (get_comp c w)) w with
  | Some v, Some n => if render_installed w then [(n, v t)] else []
  | _, _ => []
  end.

(** The component after a commit of [t]. *)
Definition commit (t : Val) (record : bool) (x : Component) : Component :=
  if record && enable_history x
  then with_history (_history x ++ [t]) (Z.of_nat (length (_history x ++ [t])) - 1)
         (with_state t x)
  else with_state t x.

(** What a component operation leaves alone besides the components and
    the render log. *)
Definition host_part (w : World) :=
  (pending w, unhandled w, document w, render_installed w).

Lemma app_part_inv w1 w :
  app_part w1 = app_part w ->
  comps w1 = comps w /\ renders w1 = renders w /\ host_part w1 = host_part w.
Proof. unfold app_part, host_part. intros H. injection H as -> -> -> -> -> -> _. auto. Qed.

Lemma get_comp_eq c w1 w : comps w1 = comps w -> get_comp c w1 = get_comp c w.
Proof. unfold get_comp. intros ->. reflexivity. Qed.

Lemma resolve_element_eq t w1 w :
  host_part w1 = host_part w -> resolve_element t w1 = resolve_element t w.
Proof.
  unfold host_part. intros H. injection H as _ _ Hd _.
  unfold resolve_element. rewrite Hd. reflexivity.
Qed.

Lemma render_installed_eq w1 w :
  host_part w1 = host_part w -> render_installed w1 = render_installed w.
Proof. unfold host_part. intros H. injection H as _ _ _ Hd. exact Hd. Qed.

Lemma renderState_quiet fuel c t w :
  quiet_debug w ->
  exists w' tl,
    renderState (S fuel) c t w = Ok tt w'
    /\ comps w' = comps w
    /\ renders w' = renders w ++ render_out c t w
    /\ host_part w' = host_part w
    /\ console w' = console w ++ tl
    /\ (forall r, commit_opts r w' = commit_opts r w)
    /\ quiet_debug w'.
Proof.
  intros Hq. unfold renderState, renderState_, render_out.
  destruct (view (get_comp c w)) as [v|] eqn:Hv.
  2:{ exists w, []. rewrite !app_nil_r. repeat split; auto. }
  destruct (run_debug_quiet fuel
              [VObj [("component", VComp c); ("state", t);
                     ("vdom", js_or (v t) (VStr "[vdom is null - no render]"))]] w Hq)
    as (w1 & tl & Hr & Ha & Hc & Ho & Hq1).
  rewrite Hr. cbn [bind].
  apply app_part_inv in Ha as (Hcomps & Hrend & Hhost).
  rewrite (get_comp_eq c w1 w Hcomps), (resolve_element_eq _ w1 w Hhost).
  destruct (resolve_element (element (get_comp c w)) w) as [n|].
  2:{ exists w1, tl. rewrite app_nil_r. repeat split; auto. }
  change (render_installed (set_node_component n c w1)) with (render_installed w1).
  rewrite (render_installed_eq w1 w Hhost).
  destruct (render_installed w).
  - change (get_comp c (log_render n (v t) (set_node_component n c w1)))
      with (get_comp c w1).
    destruct (rendered (get_comp c w1)); eexists; exists tl;
      (split; [reflexivity|]); simpl; rewrite Hrend;
      repeat split; auto.
  - eexists; exists tl. split; [reflexivity|]. simpl. rewrite app_nil_r.
    repeat split; auto.
Qed.

Lemma get_comp_set_comp c x w : get_comp c (set_comp c x w) = x.
Proof. unfold get_comp, set_comp; simpl. rewrite lookup_insert_eq. reflexivity. Qed.

Lemma render_flag_eq e w1 w :
  (forall r, commit_opts r w1 = commit_opts r w) -> render_flag e w1 = render_flag e w.
Proof.
  intros H. destruct e as [|n]; [reflexivity|]. simpl.
  specialize (H n). unfold commit_opts in H. injection H as -> _ _. reflexivity.
Qed.

Lemma history_flag_eq e w1 w :
  (forall r, commit_opts r w1 = commit_opts r w) -> history_flag e w1 = history_flag e w.
Proof.
  intros H. destruct e as [|n]; [reflexivity|]. simpl.
  specialize (H n). unfold commit_opts in H. injection H as _ -> _. reflexivity.
Qed.

Lemma callback_of_eq e w1 w :
  (forall r, commit_opts r w1 = commit_opts r w) -> callback_of e w1 = callback_of e w.
Proof.
  intros H. destruct e as [|n]; [reflexivity|]. simpl.
  specialize (H n). unfold commit_opts in H. injection H as _ _ ->. reflexivity.
Qed.

(** A commit of a present, settled value, in closed form. *)
Lemma setState_quiet fuel c t e w :
  quiet_debug w -> is_promise t = None -> nullish t = false ->
  exists w' tl,
    setState (S fuel) c t e w = Ok tt w'
    /\ comps w' = <[c := commit t (history_flag e w) (get_comp c w)]> (comps w)
    /\ renders w'
       = renders w ++ (if render_flag e w
                       then render_out c t (set_comp c (with_state t (get_comp c w)) w)
                       else [])
    /\ host_part w' = host_part w
    /\ console w' = console w ++ tl
    /\ (forall r, commit_opts r w' = commit_opts r w)
    /\ quiet_debug w'.
Proof.
  intros Hq Hp Hn. unfold setState, setState_. rewrite Hp, Hn.
  set (w1 := set_comp c (with_state t (get_comp c w)) w).
  assert (Hq1 : quiet_debug w1) by exact Hq.
  assert (Hrf : render_flag e w1 = render_flag e w) by (destruct e; reflexivity).
  rewrite Hrf.
  assert (Hmid : exists w2 tl,
    (if render_flag e w then renderState_ (run (S fuel)) c t w1 else ret w1) = Ok tt w2
    /\ comps w2 = comps w1
    /\ renders w2 = renders w ++ (if render_flag e w then render_out c t w1 else [])
    /\ host_part w2 = host_part w
    /\ console w2 = console w ++ tl
    /\ (forall r, commit_opts r w2 = commit_opts r w)
    /\ quiet_debug w2).
  { destruct (render_flag e w).
    - destruct (renderState_quiet fuel c t w1 Hq1) as (w2 & tl & H).
      exists w2, tl. exact H.
    - exists w1, []. rewrite !app_nil_r. repeat split; auto. }
  destruct Hmid as (w2 & tl & Hr & Hc & Hrend & Hhost & Hcons & Ho & Hq2).
  rewrite Hr. cbn [bind].
  rewrite (history_flag_eq e w2 w Ho).
  assert (Hx : get_comp c w2 = with_state t (get_comp c w)).
  { rewrite (get_comp_eq c w2 w1 Hc). apply get_comp_set_comp. }
  rewrite Hx.
  change (enable_history (with_state t (get_comp c w)))
    with (enable_history (get_comp c w)).
  set (w3 := if history_flag e w && enable_history (get_comp c w)
             then set_comp c
                    (with_history (_history (with_state t (get_comp c w)) ++ [t])
                       (Z.of_nat (length (_history (with_state t (get_comp c w)) ++ [t])) - 1)
                       (with_state t (get_comp c w))) w2
             else w2).
  assert (H3 : comps w3 = <[c := commit t (history_flag e w) (get_comp c w)]> (comps w)
               /\ renders w3 = renders w2 /\ host_part w3 = host_part w2
               /\ console w3 = console w2
               /\ (forall r, commit_opts r w3 = commit_opts r w2)
               /\ quiet_debug w3).
  { unfold w3, commit.
    destruct (history_flag e w && enable_history (get_comp c w)).
    - simpl. rewrite Hc. unfold w1; simpl. rewrite insert_insert_eq.
      repeat split; auto.
    - rewrite Hc. repeat split; auto. }
  destruct H3 as (Hc3 & Hr3 & Hh3 & Hk3 & Ho3 & Hq3).
  assert (Hcb : callback_of e w3 = callback_of e w).
  { rewrite (callback_of_eq e w3 w2 Ho3). apply callback_of_eq, Ho. }
  rewrite Hcb.
  assert (Hfin : forall w4,
            app_part w4 = app_part w3 -> console w4 = console w3 ->
            (forall r, commit_opts r w4 = commit_opts r w3) ->
            default_events w4 = default_events w3 ->
            comps w4 = <[c := commit t (history_flag e w) (get_comp c w)]> (comps w)
            /\ renders w4 = renders w ++ (if render_flag e w then render_out c t w1 else [])
            /\ host_part w4 = host_part w
            /\ console w4 = console w ++ tl
            /\ (forall r, commit_opts r w4 = commit_opts r w)
            /\ quiet_debug w4).
  { intros w4 Ha Hk Hoo Hd. apply app_part_inv in Ha as (Ha1 & Ha2 & Ha3).
    rewrite Ha1, Ha2, Ha3, Hk, Hc3, Hr3, Hh3, Hk3, Hrend, Hhost, Hcons.
    repeat split; auto.
    - intros r. rewrite Hoo, Ho3. apply Ho.
    - unfold quiet_debug. rewrite Hd. exact Hq3. }
  destruct (callback_of e w); eexists; exists tl; (split; [reflexivity|]);
    apply Hfin; reflexivity.
Qed.

(** ** The component state machine *)

(** C7: a commit whose new state is absent or empty ([undefined] or
    [null], the values for which [null == newState] holds) is skipped
    silently: the call returns normally and the world is exactly as it
    was, so the committed state, the rendered output and the history
    are unchanged and nothing is written to the console.  The same holds
    when the absent value arrives as the resolution of an asynchronous
    result. *)
Theorem empty_commit_is_skipped fuel c t e w :
  nullish t = true ->
  setState fuel c t e w = Ok tt w
  /\ reaction fuel (Resolved t) c e w = Some w.
Proof.
  intros H.
  assert (Hs : setState fuel c t e w = Ok tt w).
  { unfold setState, setState_. destruct t; try discriminate; reflexivity. }
  split; [exact Hs|]. unfold reaction. rewrite Hs. reflexivity.
Qed.

Lemma empty_commit_is_skipped_witness :
  setState 0 0 VNull (OLit None None) init_world = Ok tt init_world
  /\ reaction 0 (Resolved VNull) 0 (OLit None None) init_world = Some init_world.
Proof.
  apply (empty_commit_is_skipped 0 0 VNull (OLit None None) init_world).
  reflexivity.
Defined.

Lemma reactions_rejected fuel err l : forall w,
  exists w',
    reactions fuel (Rejected err) l w = Some w'
    /\ comps w' = comps w /\ renders w' = renders w
    /\ console w' = console w ++ replicate (length l) (ConsoleError err)
    /\ unhandled w' = unhandled w ++ replicate (length l) err.
Proof.
  induction l as [|[p [c e]] l IH]; intros w; simpl.
  - exists w. rewrite !app_nil_r. auto.
  - destruct (IH (log_unhandled err (log_console (ConsoleError err) w)))
      as (w' & Hr & Hc & Hrend & Hk & Hu).
    exists w'. split; [exact Hr|]. rewrite Hc, Hrend, Hk, Hu. simpl.
    rewrite <- !app_assoc. auto.
Qed.

(** C8: an update handler returns an asynchronous result: the dispatch
    commits nothing and registers a reaction on the result.  When the
    result rejects with [err], every reaction logs [err] with
    [console.error] and re-throws it, which surfaces as an unhandled
    rejection; the components (committed state, history) and the
    rendered output are as they were before the dispatch. *)
Theorem rejected_update_keeps_state fuel c t e n args p err w :
  quiet_debug w ->
  e (state (get_comp c w)) args = VPromise p ->
  exists w1 w2 k,
    apply_fn (run (S fuel)) (FAction c t e n) args w = Ok tt w1
    /\ comps w1 = comps w
    /\ pending w1 = pending w ++ [(p, (c, ORef n))]
    /\ settle fuel p (Rejected err) w1 = Some w2
    /\ comps w2 = comps w
    /\ state (get_comp c w2) = state (get_comp c w)
    /\ renders w2 = renders w
    /\ console w2 = console w1 ++ replicate (S k) (ConsoleError err)
    /\ unhandled w2 = unhandled w ++ replicate (S k) err.
Proof.
  intros Hq Hp. cbn [apply_fn]. unfold action. rewrite Hp.
  destruct (run_debug_quiet fuel
    [VObj [("component", VComp c); ("event", VStr t); ("e", VArr args);
           ("state", state (get_comp c w)); ("newState", VPromise p);
           ("options", VOptions n)]] w Hq) as (w0 & tl & Hr & Ha & Hk & Ho & Hq0).
  rewrite Hr. cbn [bind]. unfold setState_. cbn [is_promise ret].
  apply app_part_inv in Ha as (Hc & Hrend & Hhost).
  assert (Hpend : pending w0 = pending w /\ unhandled w0 = unhandled w).
  { unfold host_part in Hhost. injection Hhost as -> -> _ _. auto. }
  destruct Hpend as [Hpend Hunh].
  set (w1 := add_pending p c (ORef n) w0).
  set (mine := filter (fun x => x.1 = p) (pending w1)).
  destruct (reactions_rejected fuel err mine
              (with_pending (filter (fun x => x.1 ≠ p) (pending w1)) w1))
    as (w2 & Hs & Hc2 & Hr2 & Hk2 & Hu2).
  assert (Hlen : exists k, length mine = S k).
  { unfold mine, w1. simpl. rewrite filter_app, length_app. simpl.
    rewrite filter_cons, filter_nil. simpl.
    destruct (decide (p = p)); [|congruence]. simpl.
    exists (length (filter (fun x => x.1 = p) (pending w0))). lia. }
  destruct Hlen as [k Hlen]. rewrite Hlen in Hk2, Hu2.
  exists w1, w2, k. split; [reflexivity|].
  split; [exact Hc|]. split; [simpl; rewrite Hpend; reflexivity|].
  split; [exact Hs|].
  assert (Hcw : comps w2 = comps w) by (rewrite Hc2; exact Hc).
  split; [exact Hcw|]. split; [rewrite (get_comp_eq c w2 w Hcw); reflexivity|].
  split; [rewrite Hr2; exact Hrend|].
  split; [exact Hk2|]. rewrite Hu2. simpl. rewrite Hunh. reflexivity.
Qed.

Definition slow_update : UpdateFn := fun _ _ => VPromise 1.

Lemma rejected_update_keeps_state_witness :
  exists w1 w2 k,
    apply_fn (run 1) (FAction 0 "save" slow_update 7) [] init_world = Ok tt w1
    /\ comps w1 = comps init_world
    /\ pending w1 = pending init_world ++ [(1, (0, ORef 7))]
    /\ settle 0 1 (Rejected (VStr "offline")) w1 = Some w2
    /\ comps w2 = comps init_world
    /\ state (get_comp 0 w2) = state (get_comp 0 init_world)
    /\ renders w2 = renders init_world
    /\ console w2 = console w1 ++ replicate (S k) (ConsoleError (VStr "offline"))
    /\ unhandled w2 = unhandled init_world ++ replicate (S k) (VStr "offline").
Proof.
  apply (rejected_update_keeps_state 0 0 "save" slow_update 7 [] 1 (VStr "offline")
           init_world).
  - unfold quiet_debug. vm_compute. repeat constructor.
  - reflexivity.
Defined.

(** An event name that begins with one of the reserved markers. *)
Definition begins_with_marker (t : string) : Prop :=
  exists rest, t = String "#" rest \/ t = String "/" rest.

Lemma string_prefix_empty s : String.prefix "" s = true.
Proof. destruct s; reflexivity. Qed.

Lemma is_global_event_marker t : is_global_event t = true <-> begins_with_marker t.
Proof.
  unfold is_global_event, begins_with_marker. split.
  - destruct t as [|a rest]; [discriminate|]. cbn [String.prefix String.eqb negb andb].
    intros H. apply orb_true_iff in H. exists rest.
    destruct H as [H|H]; [left|right];
      destruct (Ascii.ascii_dec _ a) as [<-|]; try discriminate; reflexivity.
  - intros [rest [-> | ->]]; cbn [String.prefix String.eqb negb andb];
      rewrite string_prefix_empty; reflexivity.
Qed.

Lemma on_default_comps t e n w : comps (on Default t e n w) = comps w.
Proof. unfold on. destruct n; reflexivity. Qed.

Lemma on_private_default_events c t e n w :
  default_events (on (Private c) t e n w) = default_events w.
Proof. unfold on. destruct n; reflexivity. Qed.

(** C5: registration and outward dispatch of a component go to one bus,
    chosen by name and flag alike for both operations: the shared
    default bus whenever the name begins with a reserved marker (["#"]
    or ["/"]), whatever the component's [global_event] flag; otherwise
    the shared bus exactly when the flag is set, and the component's own
    private bus when it is not.  A registration on the shared bus leaves
    every component (and so every private bus) untouched, and a
    registration on the private bus leaves the shared bus untouched. *)
Theorem routing_shared_or_private fuel c t e n args w :
  comp_on c t e n w = on (route c t w) t e n w
  /\ comp_run fuel c t args w = run fuel (route c t w) t args w
  /\ (begins_with_marker t -> route c t w = Default)
  /\ (~ begins_with_marker t ->
      route c t w = if global_event (get_comp c w) then Default else Private c)
  /\ (route c t w = Default -> comps (comp_on c t e n w) = comps w)
  /\ (route c t w = Private c ->
      default_events (comp_on c t e n w) = default_events w).
Proof.
  unfold comp_on, comp_run, route.
  split; [destruct (_ || _); reflexivity|].
  split; [destruct (_ || _); reflexivity|].
  split; [|split; [|split]].
  - intros H. apply is_global_event_marker in H. rewrite H, orb_true_r. reflexivity.
  - intros H. destruct (is_global_event t) eqn:Hg.
    + exfalso. apply H, is_global_event_marker, Hg.
    + rewrite orb_false_r. reflexivity.
  - destruct (_ || _); [intros _; apply on_default_comps|discriminate].
  - destruct (_ || _); [discriminate|intros _; apply on_private_default_events].
Qed.

Lemma routing_shared_or_private_witness :
  route 0 "#home" init_world = Default
  /\ route 0 "save" init_world = Private 0.
Proof.
  destruct (routing_shared_or_private 0 0 "#home" FNoop None [] init_world)
    as (_ & _ & H1 & _).
  destruct (routing_shared_or_private 0 0 "save" FNoop None [] init_world)
    as (_ & _ & _ & H2 & _).
  split.
  - apply H1. exists "home". left. reflexivity.
  - rewrite H2; [reflexivity|].
    intros [rest [H|H]]; discriminate.
Defined.

(** *** History navigation *)

(** A state that a commit stores: present and settled. *)
Definition committed (v : Val) : Prop := is_promise v = None /\ nullish v = false.

Lemma render_out_set_comp c t x' w :
  view x' = view (get_comp c w) -> element x' = element (get_comp c w) ->
  render_out c t (set_comp c x' w) = render_out c t w.
Proof.
  intros Hv He. unfold render_out. rewrite get_comp_set_comp, Hv, He. reflexivity.
Qed.

Lemma history_at_committed x i :
  Forall committed (_history x) ->
  (0 <= i < Z.of_nat (length (_history x)))%Z ->
  committed (history_at x i).
Proof.
  intros Hall [H0 H1]. unfold history_at.
  destruct (i <? 0)%Z eqn:E; [apply Z.ltb_lt in E; lia|].
  destruct (_history x !! Z.to_nat i) as [v|] eqn:Hl; simpl.
  - rewrite Forall_forall in Hall. apply Hall. eapply list_elem_of_lookup_2, Hl.
  - apply lookup_ge_None in Hl. lia.
Qed.

Lemma history_prev_spec fuel c w :
  quiet_debug w ->
  Forall committed (_history (get_comp c w)) ->
  (_history_idx (get_comp c w) < Z.of_nat (length (_history (get_comp c w))))%Z ->
  let x := get_comp c w in
  let i := _history_idx x in
  exists w' tl,
    history_prev (run (S fuel)) c w = Ok tt w'
    /\ comps w' = <[c := if (1 <=? i)%Z then with_state (history_at x (i - 1))
                                             (with_history (_history x) (i - 1) x)
                         else with_history (_history x) 0 x]> (comps w)
    /\ renders w'
       = renders w ++ (if (1 <=? i)%Z then render_out c (history_at x (i - 1)) w else [])
    /\ host_part w' = host_part w
    /\ console w' = console w ++ tl
    /\ quiet_debug w'.
Proof.
  intros Hq Hall Hlt x i. unfold history_prev. fold x. fold i.
  set (w1 := set_comp c (with_history (_history x) (i - 1) x) w).
  destruct (0 <=? i - 1)%Z eqn:E.
  - apply Z.leb_le in E.
    assert (E1 : (1 <=? i)%Z = true) by (apply Z.leb_le; lia).
    rewrite E1.
    destruct (history_at_committed x (i - 1) Hall) as [Hp Hn]; [unfold i, x in *; lia|].
    destruct (setState_quiet fuel c (history_at x (i - 1))
                (OLit (Some true) (Some false)) w1 Hq Hp Hn)
      as (w' & tl & Hr & Hc & Hrend & Hhost & Hk & _ & Hq').
    exists w', tl. split; [exact Hr|].
    split.
    { rewrite Hc. unfold w1. rewrite get_comp_set_comp. simpl.
      rewrite insert_insert_eq. reflexivity. }
    split.
    { rewrite Hrend. simpl. unfold w1. rewrite get_comp_set_comp.
      rewrite render_out_set_comp;
        [|rewrite get_comp_set_comp; reflexivity|rewrite get_comp_set_comp; reflexivity].
      rewrite render_out_set_comp by reflexivity. reflexivity. }
    repeat split; assumption.
  - apply Z.leb_gt in E.
    assert (E1 : (1 <=? i)%Z = false) by (apply Z.leb_gt; lia).
    rewrite E1. eexists. exists []. split; [reflexivity|].
    simpl. rewrite insert_insert_eq, !app_nil_r. repeat split. exact Hq.
Qed.

Lemma history_next_spec fuel c w :
  quiet_debug w ->
  Forall committed (_history (get_comp c w)) ->
  (-1 <= _history_idx (get_comp c w))%Z ->
  let x := get_comp c w in
  let i := _history_idx x in
  let len := Z.of_nat (length (_history x)) in
  exists w' tl,
    history_next (run (S fuel)) c w = Ok tt w'
    /\ comps w' = <[c := if (i + 1 <? len)%Z then with_state (history_at x (i + 1))
                                               (with_history (_history x) (i + 1) x)
                         else with_history (_history x) (len - 1) x]> (comps w)
    /\ renders w'
       = renders w ++ (if (i + 1 <? len)%Z then render_out c (history_at x (i + 1)) w else [])
    /\ host_part w' = host_part w
    /\ console w' = console w ++ tl
    /\ quiet_debug w'.
Proof.
  intros Hq Hall Hge x i len. unfold history_next. fold x. fold i. fold len.
  set (w1 := set_comp c (with_history (_history x) (i + 1) x) w).
  destruct (i + 1 <? len)%Z eqn:E.
  - apply Z.ltb_lt in E.
    destruct (history_at_committed x (i + 1) Hall) as [Hp Hn];
      [split; [|exact E]; unfold i, x; lia|].
    destruct (setState_quiet fuel c (history_at x (i + 1))
                (OLit (Some true) (Some false)) w1 Hq Hp Hn)
      as (w' & tl & Hr & Hc & Hrend & Hhost & Hk & _ & Hq').
    exists w', tl. split; [exact Hr|].
    split.
    { rewrite Hc. unfold w1. rewrite get_comp_set_comp. simpl.
      rewrite insert_insert_eq. reflexivity. }
    split.
    { rewrite Hrend. simpl. unfold w1. rewrite get_comp_set_comp.
      rewrite render_out_set_comp;
        [|rewrite get_comp_set_comp; reflexivity|rewrite get_comp_set_comp; reflexivity].
      rewrite render_out_set_comp by reflexivity. reflexivity. }
    repeat split; assumption.
  - eexists. exists []. split; [reflexivity|].
    simpl. rewrite insert_insert_eq, !app_nil_r. repeat split. exact Hq.
Qed.

Lemma get_comp_of_insert c y w' w :
  comps w' = <[c := y]> (comps w) -> get_comp c w' = y.
Proof. unfold get_comp. intros ->. rewrite lookup_insert_eq. reflexivity. Qed.

(** The counter of the documentation, with history. *)
Definition plus_one : UpdateFn :=
  fun s _ => match s with VNum z => VNum (z + 1) | _ => s end.

Definition counter : Component :=
  new_component (VNum 0) (Some (fun s => s)) [("+1", UFn plus_one)] None.

Definition history_on : MountOptions :=
  {| o_render := Some true; o_history := Some (HistBool true);
     o_global_event := None |}.

Fixpoint comp_run_times (k : nat) (fuel : nat) (c : nat) (t : string) (w : World)
    : Res unit :=
  match k with
  | 0 => ret w
  | S k' => do _ <- comp_run fuel c t [] w in fun w' => comp_run_times k' fuel c t w'
  end.

(** Mount the counter (commits 0), dispatch ["+1"] twice (commits 1 and
    2), then dispatch ["history-prev"] [k] times. *)
Definition undo_scenario (k : nat) : Res unit :=
  let '(c, w0) := create counter init_world in
  do _ <- mount 2 c (TNode 7) (Some history_on) w0 in fun w1 =>
  do _ <- comp_run 3 c "+1" [] w1 in fun w2 =>
  do _ <- comp_run 3 c "+1" [] w2 in fun w3 =>
  comp_run_times k 3 c "history-prev" w3.

(** Committed state, history, cursor and render log of component 0. *)
Definition observe (r : Res unit) : option (Val * list Val * Z * list (nat * Val)) :=
  match r with
  | Ok _ w =>
      let x := get_comp 0 w in
      Some (state x, _history x, _history_idx x, renders w)
  | _ => None
  end.

(** C6: the history-navigation closures move the cursor one step and
    re-render the state stored at the new position, through a commit
    that does not record; the history sequence is never changed, and at
    either end the cursor stays on the bound and nothing is rendered.
    In particular: after 0, 1, 2 are committed in order, two dispatches
    of ["history-prev"] leave the committed state at 0, and a third one
    leaves state, cursor, history and render log as they are. *)
Theorem history_navigation_clamps :
  (forall fuel c args w,
     quiet_debug w ->
     Forall committed (_history (get_comp c w)) ->
     (-1 <= _history_idx (get_comp c w)
         < Z.of_nat (length (_history (get_comp c w))))%Z ->
     let x := get_comp c w in
     let i := _history_idx x in
     let len := Z.of_nat (length (_history x)) in
     (exists w',
        apply_fn (run (S fuel)) (FHistoryPrev c) args w = Ok tt w'
        /\ _history (get_comp c w') = _history x
        /\ _history_idx (get_comp c w') = Z.max 0 (i - 1)
        /\ state (get_comp c w')
           = (if (1 <=? i)%Z then history_at x (i - 1) else state x)
        /\ renders w'
           = renders w ++ (if (1 <=? i)%Z
                           then render_out c (history_at x (i - 1)) w else []))
     /\ (exists w',
        apply_fn (run (S fuel)) (FHistoryNext c) args w = Ok tt w'
        /\ _history (get_comp c w') = _history x
        /\ _history_idx (get_comp c w') = Z.min (len - 1) (i + 1)
        /\ state (get_comp c w')
           = (if (i + 1 <? len)%Z then history_at x (i + 1) else state x)
        /\ renders w'
           = renders w ++ (if (i + 1 <? len)%Z
                           then render_out c (history_at x (i + 1)) w else [])))
  /\ observe (undo_scenario 0)
     = Some (VNum 2, [VNum 0; VNum 1; VNum 2], 2%Z,
             [(7, VNum 0); (7, VNum 1); (7, VNum 2)])
  /\ observe (undo_scenario 2)
     = Some (VNum 0, [VNum 0; VNum 1; VNum 2], 0%Z,
             [(7, VNum 0); (7, VNum 1); (7, VNum 2); (7, VNum 1); (7, VNum 0)])
  /\ observe (undo_scenario 3) = observe (undo_scenario 2).
Proof.
  split; [|split; [|split]];
    [|vm_compute; reflexivity|vm_compute; reflexivity|vm_compute; reflexivity].
  intros fuel c args w Hq Hall [Hlo Hhi] x i len. split.
  - destruct (history_prev_spec fuel c w Hq Hall Hhi)
      as (w' & tl & Hr & Hc & Hrend & _).
    exists w'. split; [exact Hr|].
    rewrite (get_comp_of_insert _ _ _ _ Hc). fold x i in Hrend |- *.
    destruct (1 <=? i)%Z eqn:E; simpl.
    + apply Z.leb_le in E. repeat split; [lia|exact Hrend].
    + apply Z.leb_gt in E. repeat split; [lia|exact Hrend].
  - destruct (history_next_spec fuel c w Hq Hall Hlo)
      as (w' & tl & Hr & Hc & Hrend & _).
    exists w'. split; [exact Hr|].
    rewrite (get_comp_of_insert _ _ _ _ Hc). fold x i len in Hrend |- *.
    destruct (i + 1 <? len)%Z eqn:E; simpl.
    + apply Z.ltb_lt in E. repeat split; [lia|exact Hrend].
    + apply Z.ltb_ge in E. repeat split; [unfold i, x, len in *; lia|exact Hrend].
Qed.

Definition world_of (r : Res unit) : World :=
  match r with
  | Ok _ w => w
  | _ => init_world
  end.

Lemma history_navigation_clamps_witness :
  let w := world_of (undo_scenario 0) in
  exists w',
    apply_fn (run 1) (FHistoryPrev 0) [] w = Ok tt w'
    /\ _history (get_comp 0 w') = _history (get_comp 0 w)
    /\ _history_idx (get_comp 0 w') = 1%Z.
Proof.
  intros w.
  destruct (proj1 history_navigation_clamps 0 0 [] w) as [(w' & Hr & Hh & Hi & _) _].
  - unfold quiet_debug. vm_compute. repeat constructor.
  - vm_compute. repeat constructor.
  - vm_compute. split; [discriminate|reflexivity].
  - exists w'. split; [exact Hr|]. split; [exact Hh|]. rewrite Hi. reflexivity.
Defined.

(** *** Mounting *)

(** Everything of a component except its private bus. *)
Definition shell (x : Component) : Component := with_app (fun _ => ∅) x.

(** What the registrations of [mount] preserve. *)
Definition registered_from (w0 w : World) : Prop :=
  console w = console w0
  /\ (forall c, shell (get_comp c w) = shell (get_comp c w0))
  /\ default_events w !! "debug" = default_events w0 !! "debug".

Lemma registered_from_refl w : registered_from w w.
Proof. repeat split. Qed.

Lemma registered_from_trans w0 w1 w2 :
  registered_from w0 w1 -> registered_from w1 w2 -> registered_from w0 w2.
Proof.
  intros (A1 & B1 & C1) (A2 & B2 & C2). repeat split.
  - rewrite A2. exact A1.
  - intros c. rewrite B2. apply B1.
  - rewrite C2. exact C1.
Qed.

Lemma on_registered b t f n w : t <> "debug" -> registered_from w (on b t f n w).
Proof.
  intros Hne. unfold on.
  assert (H : forall w1, registered_from w w1 ->
            forall r, registered_from w
              (set_event b t (default [] (events_of b w1 !! t)
                                ++ [{| fn := f; options := r |}]) w1)).
  { intros w1 (A & B & C) r. unfold registered_from. destruct b as [|c]; simpl.
    - repeat split; [exact A|exact B|].
      rewrite lookup_insert_ne by exact Hne. exact C.
    - repeat split; [exact A| |exact C].
      intros c'. rewrite <- B. unfold get_comp at 1, set_comp. simpl.
      destruct (decide (c = c')) as [->|Hc].
      + rewrite lookup_insert_eq. reflexivity.
      + rewrite lookup_insert_ne by exact Hc. reflexivity. }
  destruct n as [r|].
  - apply H, registered_from_refl.
  - unfold alloc_options. apply H. repeat split.
Qed.

Lemma comp_on_registered c t f n w :
  t <> "debug" -> registered_from w (comp_on c t f n w).
Proof. intros H. unfold comp_on. destruct (_ || _); apply on_registered, H. Qed.

Lemma add_action_registered c t e n w :
  t <> "debug" -> registered_from w (add_action c t e n w).
Proof.
  intros H. unfold add_action. destruct n as [r|].
  - apply comp_on_registered, H.
  - unfold alloc_options.
    eapply registered_from_trans; [|apply comp_on_registered, H].
    repeat split.
Qed.

Lemma add_actions_registered c w :
  "debug" ∉ map fst (action_table (update (get_comp c w))) ->
  registered_from w (add_actions c w).
Proof.
  unfold add_actions. generalize (action_table (update (get_comp c w))) as l.
  intros l. generalize (registered_from_refl w). generalize w at 2 4 as w1.
  induction l as [|[t r] l IH]; intros w1 H1 Hn; simpl; [exact H1|].
  apply IH.
  - eapply registered_from_trans; [exact H1|].
    assert (Ht : t <> "debug").
    { intros ->. apply Hn. simpl. left. }
    destruct r; [apply add_action_registered, Ht|apply add_action_registered, Ht
                |apply registered_from_refl].
  - intros Hin. apply Hn. simpl. right. exact Hin.
Qed.

Lemma element_commit t r x : element (commit t r x) = element x.
Proof. unfold commit. destruct (r && enable_history x); reflexivity. Qed.

(** Under opaque ["debug"] subscribers every commit returns. *)
Lemma setState_returns fuel c t e w :
  quiet_debug w ->
  exists w' tl,
    setState (S fuel) c t e w = Ok tt w'
    /\ console w' = console w ++ tl
    /\ element (get_comp c w') = element (get_comp c w).
Proof.
  intros Hq.
  destruct (is_promise t) as [p|] eqn:Hp.
  - exists (add_pending p c e w), []. unfold setState, setState_. rewrite Hp.
    rewrite app_nil_r. repeat split.
  - destruct (nullish t) eqn:Hn.
    + exists w, []. unfold setState, setState_. rewrite Hp, Hn, app_nil_r.
      repeat split.
    + destruct (setState_quiet fuel c t e w Hq Hp Hn)
        as (w' & tl & Hr & Hc & _ & _ & Hk & _).
      exists w', tl. split; [exact Hr|]. split; [exact Hk|].
      rewrite (get_comp_of_insert _ _ _ _ Hc). apply element_commit.
Qed.

(** The event names [mount(t, e)] registers for component [x]. *)
Definition mount_names (x : Component) (e : option MountOptions) : list string :=
  let e' := assign_options (default no_mount_options (comp_options x))
              (default no_mount_options e) in
  (if history_truthy (o_history e')
   then [prev_name (o_history e'); next_name (o_history e')] else [])
  ++ map fst (action_table (update x)).

Definition normal_target (t : Target) : Target :=
  match t with
  | TUndefined => TNull
  | _ => t
  end.

(** C1, as the code has it: mounting a component that is already bound
    to a (truthy) mount target writes the assertion diagnostic
    ["Component already mounted."] to the console and then proceeds like
    any mount: the call returns normally and the component is bound to
    the new target. *)
Theorem second_mount_is_diagnosed fuel c t e w :
  target_truthy (element (get_comp c w)) = true ->
  quiet_debug w ->
  "debug" ∉ mount_names (get_comp c w) e ->
  exists w' tl,
    mount (S fuel) c t e w = Ok tt w'
    /\ console w' = console w ++ AssertFailed "Component already mounted." :: tl
    /\ element (get_comp c w') = normal_target t.
Proof.
  intros Hb Hq Hn. unfold mount. fold (normal_target t).
  set (x := get_comp c w) in *.
  rewrite Hb. cbn [negb console_assert].
  set (w1 := log_console (AssertFailed "Component already mounted.") w).
  set (e' := assign_options (default no_mount_options (comp_options x))
               (default no_mount_options e)).
  set (w2 := set_comp c (bound (normal_target t) e' x) w1).
  assert (Hx2 : get_comp c w2 = bound (normal_target t) e' x)
    by apply get_comp_set_comp.
  rewrite Hx2. cbn [enable_history bound].
  unfold mount_names in Hn. fold e' in Hn.
  set (w3 := if history_truthy (o_history e')
             then comp_on c (next_name (o_history e')) (FHistoryNext c) None
                    (comp_on c (prev_name (o_history e')) (FHistoryPrev c) None w2)
             else w2).
  assert (H3 : registered_from w2 w3).
  { unfold w3. destruct (history_truthy (o_history e')).
    - eapply registered_from_trans; apply comp_on_registered;
        intros Heq; apply Hn; rewrite <- Heq; apply elem_of_app; left;
        [left|right; left].
    - apply registered_from_refl. }
  assert (H4 : registered_from w3 (add_actions c w3)).
  { apply add_actions_registered.
    destruct H3 as (_ & Hs & _). specialize (Hs c).
    apply (f_equal update) in Hs. simpl in Hs. rewrite Hs, Hx2. simpl.
    intros Hin. apply Hn. apply elem_of_app. right. exact Hin. }
  set (w4 := add_actions c w3) in *.
  assert (H24 : registered_from w2 w4) by (eapply registered_from_trans; eassumption).
  destruct H24 as (Hk4 & Hs4 & Hd4).
  set (w5 := match state (get_comp c w4) with
             | VUndefined =>
                 set_comp c (with_state (js_or (model (get_comp c w4)) (VObj []))
                               (get_comp c w4)) w4
             | _ => w4
             end).
  assert (H5 : console w5 = console w1
               /\ element (get_comp c w5) = normal_target t
               /\ quiet_debug w5).
  { assert (He4 : element (get_comp c w4) = normal_target t).
    { specialize (Hs4 c). apply (f_equal element) in Hs4. simpl in Hs4.
      rewrite Hs4, Hx2. reflexivity. }
    assert (Hq4 : quiet_debug w4).
    { unfold quiet_debug. rewrite Hd4. exact Hq. }
    unfold w5. destruct (state (get_comp c w4));
      try (split; [exact Hk4|split; [exact He4|exact Hq4]]).
    split; [exact Hk4|]. split; [|exact Hq4].
    rewrite get_comp_set_comp. exact He4. }
  destruct H5 as (Hk5 & He5 & Hq5).
  assert (Hfin : forall o, exists w' tl,
            setState (S fuel) c (state (get_comp c w5)) o w5 = Ok tt w'
            /\ console w' = console w ++ AssertFailed "Component already mounted." :: tl
            /\ element (get_comp c w') = normal_target t).
  { intros o. destruct (setState_returns fuel c (state (get_comp c w5)) o w5 Hq5)
      as (w' & tl & Hr & Hk & He).
    exists w', tl. split; [exact Hr|]. split; [|rewrite He; exact He5].
    rewrite Hk, Hk5. unfold w1. simpl. rewrite <- app_assoc. reflexivity. }
  destruct (default false (o_render e')); apply Hfin.
Qed.

(** The counter, mounted once on host node 7. *)
Definition mounted_counter : World :=
  world_of (let '(c, w0) := create counter init_world in
            mount 2 c (TNode 7) (Some history_on) w0).

Lemma second_mount_is_diagnosed_witness :
  exists w' tl,
    mount 1 0 (TNode 8) None mounted_counter = Ok tt w'
    /\ console w' = console mounted_counter
                    ++ AssertFailed "Component already mounted." :: tl
    /\ element (get_comp 0 w') = TNode 8.
Proof.
  apply (second_mount_is_diagnosed 0 0 (TNode 8) None mounted_counter).
  - vm_compute. reflexivity.
  - unfold quiet_debug. vm_compute. repeat constructor.
  - vm_compute. intros H. repeat (apply elem_of_cons in H as [H|H]; [discriminate|]).
    inversion H.
Defined.

(** C1 as stated fails: the second [mount] of a bound component is not
    a fatal error.  It returns normally, the component is bound to the
    second target, its handlers are registered a second time and the
    state is committed (and recorded) again. *)
Lemma second_mount_is_not_fatal :
  element (get_comp 0 mounted_counter) = TNode 7
  /\ exists w',
       mount 2 0 (TNode 8) None mounted_counter = Ok tt w'
       /\ element (get_comp 0 w') = TNode 8
       /\ console w' = [AssertFailed "Component already mounted."]
       /\ length (default [] (_app (get_comp 0 w') !! "+1")) = 2
       /\ _history (get_comp 0 w') = [VNum 0; VNum 0].
Proof.
  split; [vm_compute; reflexivity|].
  eexists. split; [vm_compute; reflexivity|].
  vm_compute. repeat split.
Qed.

(** ** Debounced subscriptions *)

(** Dispatches of one event at given times: before each dispatch the
    clock advances to its time and the timers that expire fire. *)
Fixpoint play (fuel : nat) (b : BusId) (t : string) (sched : list (nat * list Val))
    (w : World) : option World :=
  match sched with
  | [] => Some w
  | (time, args) :: rest =>
      match advance_to fuel time w with
      | Some w1 =>
          match run fuel b t args w1 with
          | Ok _ w2 => play fuel b t rest w2
          | _ => None
          end
      | None => None
      end
  end.

(** The calls of handler [h] recorded so far. *)
Definition calls (h : nat) (w : World) : list (nat * list Val) :=
  filter (fun c => c.1 = h) (trace w).

Section Debounce.

(** The debounced subscription: handler [h] registered under the
    options object [r], whose [delay] is [d]. *)
Variables (h r d : nat).

Definition is_user (f : Fn) : bool :=
  match f with
  | FUser h' => Nat.eqb h' h
  | _ => false
  end.

(** A timer that belongs to the debounced subscription. *)
Definition ours (x : Timer) : bool := Nat.eqb (t_opts x) r || is_user (t_fn x).

(** Any other subscription of the event: an opaque handler with an
    options object of its own. *)
Definition foreign_sub (s : Sub) : Prop :=
  opaque (fn s) = true /\ options s <> r /\ is_user (fn s) = false.

(** The timers of the host while the subscription is debounced; [cur]
    is the pending timer of the subscription, if there is one. *)
Record debouncing (cur : option Timer) (w : World) : Prop := mkDebouncing {
  deb_pos : 0 < next_timer w;
  deb_tids : Forall (fun x => tid x < next_timer w) (timers w);
  deb_heap : forall r' i, _t (get_opts r' w) = Some i -> i < next_timer w;
  deb_opaque : Forall (fun x => opaque (t_fn x) = true) (timers w);
  deb_delay : delay (get_opts r w) = Some d;
  deb_mine : filter (fun x => ours x = true) (timers w) = option_list cur;
  deb_cur : forall tm, cur = Some tm ->
    t_fn tm = FUser h /\ t_opts tm = r /\ 0 < tid tm
    /\ _t (get_opts r w) = Some (tid tm)
    /\ (forall r', r' <> r -> _t (get_opts r' w) <> Some (tid tm))
    /\ Forall (fun x => ours x = true \/ tid x <> tid tm) (timers w)
}.

Lemma is_user_true f : is_user f = true <-> f = FUser h.
Proof.
  destruct f; simpl; split; try discriminate.
  - intros H. apply Nat.eqb_eq in H. congruence.
  - intros H. injection H as ->. apply Nat.eqb_refl.
Qed.

Lemma Forall_filter_keep {A} (P Q : A -> Prop) `{forall x, Decision (Q x)}
    (l : list A) :
  Forall P l -> Forall P (filter Q l).
Proof.
  rewrite !Forall_forall. intros Hl x Hx.
  apply list_elem_of_filter in Hx as [_ Hx]. apply Hl, Hx.
Qed.

Lemma filter_swap {A} (P Q : A -> Prop)
    `{forall x, Decision (P x)} `{forall x, Decision (Q x)} (l : list A) :
  filter P (filter Q l) = filter Q (filter P l).
Proof.
  rewrite !list_filter_filter. apply list_filter_iff. intros x. tauto.
Qed.

Lemma cur_in_timers cur w tm :
  debouncing cur w -> cur = Some tm -> tm ∈ timers w.
Proof.
  intros H ->. pose proof (deb_mine _ _ H) as Hm. simpl in Hm.
  assert (Hin : tm ∈ filter (fun x => ours x = true) (timers w))
    by (rewrite Hm; left).
  apply list_elem_of_filter in Hin as [_ Hin]. exact Hin.
Qed.

(** Cancelling a timer that is not the pending one. *)
Lemma deb_clear id cur w :
  debouncing cur w -> (forall tm, cur = Some tm -> id <> tid tm) ->
  debouncing cur (clearTimeout id w).
Proof.
  intros H Hid. destruct H as [Hp Ht Hh Ho Hd Hm Hc].
  constructor; simpl; try assumption.
  - apply Forall_filter_keep, Ht.
  - apply Forall_filter_keep, Ho.
  - rewrite filter_swap, Hm. destruct cur as [tm|]; simpl; [|reflexivity].
    rewrite filter_cons, filter_nil.
    destruct (decide (tid tm <> id)) as [_|Hn]; [reflexivity|].
    exfalso. apply Hn. intros Heq. apply (Hid tm eq_refl). symmetry. exact Heq.
  - intros tm Heq. destruct (Hc tm Heq) as (A & B & C & D & E & F).
    repeat split; try assumption. apply Forall_filter_keep, F.
Qed.

(** Cancelling the pending timer. *)
Lemma deb_clear_mine tm w :
  debouncing (Some tm) w -> debouncing None (clearTimeout (tid tm) w).
Proof.
  intros H. destruct H as [Hp Ht Hh Ho Hd Hm Hc].
  constructor; simpl; try assumption.
  - apply Forall_filter_keep, Ht.
  - apply Forall_filter_keep, Ho.
  - rewrite filter_swap, Hm. simpl. rewrite filter_cons, filter_nil.
    destruct (decide (tid tm <> tid tm)); [congruence|reflexivity].
  - intros tm' Heq. discriminate.
Qed.

(** Steps that leave the timers, the timer counter and the heap as they
    are. *)
Ltac deb_same H :=
  let Hp := fresh in let Ht := fresh in let Hh := fresh in let Ho := fresh in
  let Hd := fresh in let Hm := fresh in let Hc := fresh in
  destruct H as [Hp Ht Hh Ho Hd Hm Hc]; constructor; simpl; assumption.

Lemma deb_called f args cur w : debouncing cur w -> debouncing cur (called f args w).
Proof. intros H. destruct f; try exact H. deb_same H. Qed.

Lemma deb_with_now n cur w : debouncing cur w -> debouncing cur (with_now n w).
Proof. intros H. deb_same H. Qed.

Lemma deb_set_event b t l cur w :
  debouncing cur w -> debouncing cur (set_event b t l w).
Proof. intros H. destruct b; deb_same H. Qed.

Lemma timer_truthy_inv o : timer_truthy o = true -> exists i, _t o = Some (S i).
Proof.
  unfold timer_truthy. destruct (_t o) as [[|i]|]; try discriminate. eauto.
Qed.

(** A debounced dispatch to another subscription. *)
Lemma deb_delay_foreign f args r' cur w :
  debouncing cur w -> r' <> r -> opaque f = true -> is_user f = false ->
  debouncing cur (delay_ f args r' w).
Proof.
  intros H Hr Hop Hu. unfold delay_.
  set (w1 := if timer_truthy (get_opts r' w)
             then clearTimeout (default 0 (_t (get_opts r' w))) w else w).
  assert (H1 : debouncing cur w1).
  { unfold w1. destruct (timer_truthy (get_opts r' w)) eqn:Ht; [|exact H].
    apply deb_clear; [exact H|]. intros tm Heq Hid.
    destruct (deb_cur _ _ H tm Heq) as (_ & _ & _ & _ & Hne & _).
    apply timer_truthy_inv in Ht as [i Hi]. apply (Hne r' Hr).
    rewrite Hi in *. simpl in Hid. congruence. }
  clearbody w1. clear H. unfold setTimeout.
  destruct H1 as [Hp Ht Hh Ho Hd Hm Hc].
  constructor; simpl.
  - lia.
  - apply Forall_app. split.
    + eapply Forall_impl; [exact Ht|]. simpl. intros; lia.
    + repeat constructor.
  - intros r'' i. rewrite get_opts_set_opts. destruct (decide (r' = r'')).
    + simpl. intros Hi. injection Hi as <-. lia.
    + intros Hi. apply Hh in Hi. lia.
  - apply Forall_app. split; [exact Ho|]. repeat constructor. exact Hop.
  - rewrite get_opts_set_opts. destruct (decide (r' = r)); [congruence|exact Hd].
  - assert (Hf : (r' =? r) || is_user f = false).
    { rewrite Hu, orb_false_r. apply Nat.eqb_neq, Hr. }
    rewrite filter_app, Hm, filter_cons_False, filter_nil.
    + apply app_nil_r.
    + unfold ours. simpl. rewrite Hf. discriminate.
  - intros tm Heq. destruct (Hc tm Heq) as (A & B & C & D & E & F).
    assert (Hlt : tid tm < next_timer w1).
    { assert (Hin : tm ∈ timers w1).
      { assert (Hin : tm ∈ filter (fun x => ours x = true) (timers w1))
          by (rewrite Hm, Heq; left).
        apply list_elem_of_filter in Hin as [_ Hin]. exact Hin. }
      rewrite Forall_forall in Ht. apply Ht, Hin. }
    repeat split; try assumption.
    + rewrite get_opts_set_opts. destruct (decide (r' = r)); [congruence|exact D].
    + intros r'' Hr''. rewrite get_opts_set_opts. destruct (decide (r' = r'')).
      * simpl. intros Hi. injection Hi as Hi. lia.
      * apply E, Hr''.
    + apply Forall_app. split; [exact F|]. constructor; [|constructor].
      right. simpl. lia.
Qed.

(** A dispatch to the debounced subscription itself: the pending timer
    is replaced by a new one that carries the new arguments. *)
Lemma deb_delay_ours args cur w :
  debouncing cur w ->
  debouncing (Some {| tid := next_timer w; due := now w + d; t_opts := r;
                      t_fn := FUser h; t_args := args |})
    (delay_ (FUser h) args r w).
Proof.
  intros H. unfold delay_.
  set (w1 := if timer_truthy (get_opts r w)
             then clearTimeout (default 0 (_t (get_opts r w))) w else w).
  assert (H1 : debouncing None w1
               /\ next_timer w1 = next_timer w /\ now w1 = now w).
  { unfold w1. destruct cur as [tm|].
    - destruct (deb_cur _ _ H tm eq_refl) as (_ & _ & Hpos & Ht & _).
      unfold timer_truthy. rewrite Ht. simpl.
      destruct (tid tm) as [|i] eqn:Hi; [lia|].
      rewrite <- Hi. split; [apply deb_clear_mine, H|]. split; reflexivity.
    - destruct (timer_truthy (get_opts r w)).
      + split; [apply deb_clear; [exact H|discriminate]|]. split; reflexivity.
      + split; [exact H|]. split; reflexivity. }
  destruct H1 as (H1 & Hn & Hnow).
  assert (Hdl : default 0 (delay (get_opts r w1)) = d)
    by (rewrite (deb_delay _ _ H1); reflexivity).
  rewrite Hdl. clearbody w1. clear H Hdl. unfold setTimeout.
  rewrite <- Hn, <- Hnow.
  destruct H1 as [Hp Ht Hh Ho Hd Hm Hc].
  constructor; simpl.
  - lia.
  - apply Forall_app. split.
    + eapply Forall_impl; [exact Ht|]. simpl. intros; lia.
    + repeat constructor.
  - intros r'' i. rewrite get_opts_set_opts. destruct (decide (r = r'')).
    + simpl. intros Hi. injection Hi as <-. lia.
    + intros Hi. apply Hh in Hi. lia.
  - apply Forall_app. split; [exact Ho|]. repeat constructor.
  - rewrite get_opts_set_opts. destruct (decide (r = r)); [exact Hd|congruence].
  - rewrite filter_app, Hm, filter_cons_True, filter_nil.
    + reflexivity.
    + unfold ours. simpl. rewrite Nat.eqb_refl. reflexivity.
  - intros tm Heq. injection Heq as <-. simpl.
    repeat split; try assumption.
    + rewrite get_opts_set_opts. destruct (decide (r = r)); [reflexivity|congruence].
    + intros r'' Hr''. rewrite get_opts_set_opts.
      destruct (decide (r = r'')); [congruence|].
      intros Hi. apply Hh in Hi. lia.
    + apply Forall_app. split.
      * eapply Forall_impl; [exact Ht|]. simpl. intros x Hx. right. lia.
      * constructor; [|constructor].
        left. unfold ours. simpl. rewrite Nat.eqb_refl. reflexivity.
Qed.

Lemma calls_called_foreign f args w :
  is_user f = false -> calls h (called f args w) = calls h w.
Proof.
  intros Hu. destruct f; try reflexivity. simpl in Hu. apply Nat.eqb_neq in Hu.
  unfold calls. simpl. rewrite filter_app, filter_cons_False, filter_nil.
  - apply app_nil_r.
  - simpl. exact Hu.
Qed.

Lemma calls_delay f args r' w : calls h (delay_ f args r' w) = calls h w.
Proof. unfold calls. rewrite trace_delay. reflexivity. Qed.

Lemma now_delay f args r' w : now (delay_ f args r' w) = now w.
Proof. unfold delay_. destruct (timer_truthy _); reflexivity. Qed.

Lemma timers_delay_length f args r' w :
  length (timers (delay_ f args r' w)) <= S (length (timers w)).
Proof.
  unfold delay_. destruct (timer_truthy _); simpl; rewrite length_app; simpl.
  - pose proof (length_filter (fun x => tid x <> default 0 (_t (get_opts r' w)))
                  (timers w)). lia.
  - lia.
Qed.

Lemma now_called f args w : now (called f args w) = now w.
Proof. destruct f; reflexivity. Qed.

Lemma timers_called f args w : timers (called f args w) = timers w.
Proof. destruct f; reflexivity. Qed.

Lemma deb_invoke_foreign args cur w s :
  debouncing cur w -> foreign_sub s ->
  debouncing cur (invoke_opaque args w s)
  /\ calls h (invoke_opaque args w s) = calls h w
  /\ now (invoke_opaque args w s) = now w
  /\ length (timers (invoke_opaque args w s)) <= S (length (timers w)).
Proof.
  intros H (Hop & Hr & Hu). unfold invoke_opaque.
  destruct (delay_truthy _).
  - split; [apply deb_delay_foreign; assumption|].
    split; [apply calls_delay|]. split; [apply now_delay|apply timers_delay_length].
  - split; [apply deb_called, H|]. split; [apply calls_called_foreign, Hu|].
    split; [apply now_called|]. rewrite timers_called. lia.
Qed.

Lemma deb_foldl_foreign args cur l : forall w,
  debouncing cur w -> Forall foreign_sub l ->
  debouncing cur (foldl (invoke_opaque args) w l)
  /\ calls h (foldl (invoke_opaque args) w l) = calls h w
  /\ now (foldl (invoke_opaque args) w l) = now w
  /\ length (timers (foldl (invoke_opaque args) w l))
     <= length (timers w) + length l.
Proof.
  induction l as [|s l IH]; intros w H Hl; simpl.
  - split; [exact H|]. split; [reflexivity|]. split; [reflexivity|lia].
  - apply Forall_cons in Hl as [Hs Hl].
    destruct (deb_invoke_foreign args cur w s H Hs) as (H1 & Hc1 & Hn1 & Hl1).
    destruct (IH _ H1 Hl) as (H2 & Hc2 & Hn2 & Hl2).
    split; [exact H2|]. split; [congruence|]. split; [congruence|lia].
Qed.

Lemma delay_truthy_pos o n : delay o = Some n -> 0 < n -> delay_truthy o = true.
Proof. unfold delay_truthy. intros ->. destruct n; [lia|reflexivity]. Qed.

Lemma deb_invoke_ours args cur w :
  debouncing cur w -> 0 < d ->
  let w' := invoke_opaque args w {| fn := FUser h; options := r |} in
  exists tm,
    debouncing (Some tm) w' /\ due tm = now w + d /\ t_args tm = args
    /\ calls h w' = calls h w /\ now w' = now w
    /\ length (timers w') <= S (length (timers w)).
Proof.
  intros H Hd w'. unfold w', invoke_opaque. simpl.
  rewrite (delay_truthy_pos _ d (deb_delay _ _ H) Hd).
  eexists. split; [apply (deb_delay_ours args cur w H)|].
  split; [reflexivity|]. split; [reflexivity|].
  split; [exact (calls_delay (FUser h) args r w)|].
  split; [exact (now_delay (FUser h) args r w)
         |exact (timers_delay_length (FUser h) args r w)].
Qed.

(** One dispatch of the event while the subscription is debounced. *)
Lemma deb_run fuel b t args cur w pre post :
  events_of b w !! t = Some (pre ++ {| fn := FUser h; options := r |} :: post) ->
  Forall foreign_sub (pre ++ post) ->
  once (get_opts r w) = false -> 0 < d ->
  debouncing cur w ->
  exists w' tm pre' post',
    run (S fuel) b t args w = Ok tt w'
    /\ debouncing (Some tm) w' /\ due tm = now w + d /\ t_args tm = args
    /\ calls h w' = calls h w /\ now w' = now w
    /\ events_of b w' !! t = Some (pre' ++ {| fn := FUser h; options := r |} :: post')
    /\ Forall foreign_sub (pre' ++ post')
    /\ length (pre' ++ post') <= length (pre ++ post)
    /\ once (get_opts r w') = false
    /\ length (timers w') <= length (timers w) + S (length (pre ++ post)).
Proof.
  intros He Hf Ho Hd H.
  apply Forall_app in Hf as [Hpre Hpost].
  assert (Hop : Forall (fun s => opaque (fn s) = true)
                  (pre ++ {| fn := FUser h; options := r |} :: post)).
  { apply Forall_app. split; [|constructor; [reflexivity|]].
    - eapply Forall_impl; [exact Hpre|]. intros s Hs. apply Hs.
    - eapply Forall_impl; [exact Hpost|]. intros s Hs. apply Hs. }
  rewrite (run_opaque fuel b t args w _ He Hop).
  rewrite foldl_app. simpl.
  destruct (deb_foldl_foreign args cur pre w H Hpre) as (H1 & Hc1 & Hn1 & Hl1).
  set (w1 := foldl (invoke_opaque args) w pre) in *.
  destruct (deb_invoke_ours args cur w1 H1 Hd) as (tm & H2 & Hdue & Hargs & Hc2 & Hn2 & Hl2).
  set (w2 := invoke_opaque args w1 {| fn := FUser h; options := r |}) in *.
  destruct (deb_foldl_foreign args (Some tm) post w2 H2 Hpost) as (H3 & Hc3 & Hn3 & Hl3).
  set (w3 := foldl (invoke_opaque args) w2 post) in *.
  exists (set_event b t (kept w (pre ++ {| fn := FUser h; options := r |} :: post)) w3),
    tm, (kept w pre), (kept w post).
  split; [reflexivity|].
  split; [apply deb_set_event, H3|].
  split; [congruence|]. split; [exact Hargs|].
  split; [unfold calls in *; rewrite trace_set_event; congruence|].
  split; [destruct b; simpl; congruence|].
  split.
  { rewrite events_of_set_event. f_equal. unfold kept.
    rewrite filter_app, filter_cons_True by exact Ho. reflexivity. }
  split.
  { apply Forall_app. split; apply Forall_filter_keep; assumption. }
  split.
  { rewrite !length_app. unfold kept.
    pose proof (length_filter (fun s => once (get_opts (options s) w) = false) pre).
    pose proof (length_filter (fun s => once (get_opts (options s) w) = false) post).
    lia. }
  split.
  { rewrite get_opts_set_event. unfold w3, w2, w1.
    rewrite get_opts_foldl_invoke_once, once_invoke_opaque,
      get_opts_foldl_invoke_once. exact Ho. }
  assert (Ht : timers (set_event b t (kept w (pre ++ {| fn := FUser h; options := r |} :: post)) w3)
               = timers w3) by (destruct b; reflexivity).
  rewrite Ht, length_app. lia.
Qed.

Lemma earliest_None (l : list Timer) : earliest l = None -> l = [].
Proof.
  destruct l as [|x l]; [reflexivity|]. simpl.
  destruct (earliest l) as [y|]; [destruct (due y <? due x)|]; discriminate.
Qed.

Lemma earliest_spec (l : list Timer) x :
  earliest l = Some x -> x ∈ l /\ Forall (fun y => due x <= due y) l.
Proof.
  revert x. induction l as [|a l IH]; intros x; simpl; [discriminate|].
  destruct (earliest l) as [y|] eqn:E.
  - destruct (IH y eq_refl) as [Hin Hall].
    destruct (due y <? due a) eqn:Hlt; intros Hx; injection Hx as <-.
    + apply Nat.ltb_lt in Hlt. split; [right; exact Hin|].
      constructor; [lia|exact Hall].
    + apply Nat.ltb_ge in Hlt. split; [left|].
      constructor; [lia|]. eapply Forall_impl; [exact Hall|]. simpl. intros; lia.
  - apply earliest_None in E. subst l. intros Hx. injection Hx as <-.
    split; [left|]. repeat constructor.
Qed.

(** The world after timer [tm] has fired in [w]. *)
Definition after_fire (tm : Timer) (w : World) : World :=
  let w1 := with_now (Nat.max (now w) (due tm)) (clearTimeout (tid tm) w) in
  called (t_fn tm) (t_args tm)
    match _t (get_opts (t_opts tm) w1) with
    | Some id => clearTimeout id w1
    | None => w1
    end.

Lemma fire_opaque fuel tm w :
  opaque (t_fn tm) = true ->
  fire fuel tm (with_now (Nat.max (now w) (due tm)) (clearTimeout (tid tm) w))
  = Some (after_fire tm w).
Proof.
  intros Hop. unfold fire, after_fire. rewrite apply_fn_opaque by exact Hop.
  reflexivity.
Qed.

Lemma after_fire_length tm w :
  tm ∈ timers w -> length (timers (after_fire tm w)) < length (timers w).
Proof.
  intros Hin. unfold after_fire. rewrite timers_called.
  assert (H1 : length (filter (fun x => tid x <> tid tm) (timers w)) < length (timers w)).
  { apply (length_filter_lt _ _ tm); [exact Hin|]. intros Hne. apply Hne. reflexivity. }
  destruct (_t _) as [id|]; simpl; [|exact H1].
  pose proof (length_filter (fun x => tid x <> id)
                (filter (fun x => tid x <> tid tm) (timers w))). lia.
Qed.

Lemma now_after_fire tm w : now (after_fire tm w) = Nat.max (now w) (due tm).
Proof.
  unfold after_fire. rewrite now_called. destruct (_t _); reflexivity.
Qed.

Lemma events_after_fire tm w b : events_of b (after_fire tm w) = events_of b w.
Proof.
  unfold after_fire. destruct (t_fn tm), (_t _), b; reflexivity.
Qed.

Lemma get_opts_after_fire tm w r' : get_opts r' (after_fire tm w) = get_opts r' w.
Proof.
  unfold after_fire. destruct (t_fn tm), (_t _); reflexivity.
Qed.

Lemma ours_false x : ours x = false -> t_opts x <> r /\ is_user (t_fn x) = false.
Proof.
  unfold ours. intros H. apply orb_false_iff in H as [H1 H2].
  split; [apply Nat.eqb_neq, H1|exact H2].
Qed.

(** Another timer fires. *)
Lemma deb_fire_foreign cur w x :
  debouncing cur w -> x ∈ timers w -> ours x = false ->
  debouncing cur (after_fire x w) /\ calls h (after_fire x w) = calls h w.
Proof.
  intros H Hin Hx. apply ours_false in Hx as [Hr Hu]. unfold after_fire.
  set (w1 := with_now (Nat.max (now w) (due x)) (clearTimeout (tid x) w)).
  assert (H1 : debouncing cur w1).
  { apply deb_with_now, deb_clear; [exact H|]. intros tm Heq.
    destruct (deb_cur _ _ H tm Heq) as (Hf & Ho & _ & _ & _ & Hall).
    rewrite Forall_forall in Hall. destruct (Hall x Hin) as [Ho'|Hne]; [|exact Hne].
    exfalso. unfold ours in Ho'. apply orb_true_iff in Ho' as [Ho'|Ho'].
    - apply Nat.eqb_eq in Ho'. contradiction.
    - congruence. }
  rewrite calls_called_foreign by exact Hu.
  split; [apply deb_called|].
  - destruct (_t (get_opts (t_opts x) w1)) as [id|] eqn:Hid; [|exact H1].
    apply deb_clear; [exact H1|]. intros tm Heq Heq'.
    destruct (deb_cur _ _ H1 tm Heq) as (_ & _ & _ & _ & Hne & _).
    apply (Hne (t_opts x) Hr). rewrite Hid. congruence.
  - destruct (_t (get_opts (t_opts x) w1)); reflexivity.
Qed.

(** The pending timer of the subscription fires. *)
Lemma deb_fire_ours tm w :
  debouncing (Some tm) w ->
  debouncing None (after_fire tm w)
  /\ calls h (after_fire tm w) = calls h w ++ [(h, t_args tm)].
Proof.
  intros H. destruct (deb_cur _ _ H tm eq_refl) as (Hf & Ho & _ & Ht & _).
  unfold after_fire.
  set (w1 := with_now (Nat.max (now w) (due tm)) (clearTimeout (tid tm) w)).
  assert (H1 : debouncing None w1) by (apply deb_with_now, deb_clear_mine, H).
  rewrite Hf, Ho.
  assert (Ht1 : _t (get_opts r w1) = Some (tid tm)) by exact Ht.
  rewrite Ht1. split.
  - apply (deb_called (FUser h)). apply deb_clear; [exact H1|discriminate].
  - unfold calls. simpl. rewrite filter_app, filter_cons_True, filter_nil by reflexivity.
    reflexivity.
Qed.

Lemma advance_to_eq fuel T w :
  advance_to fuel T w
  = match earliest (timers w) with
    | Some tm =>
        if due tm <=? T then
          match fuel with
          | 0 => None
          | S fuel' =>
              match fire fuel' tm (with_now (Nat.max (now w) (due tm))
                                     (clearTimeout (tid tm) w)) with
              | Some w2 => advance_to fuel' T w2
              | None => None
              end
          end
        else Some (with_now (Nat.max (now w) T) w)
    | None => Some (with_now (Nat.max (now w) T) w)
    end.
Proof. destruct fuel; reflexivity. Qed.

(** Time passes without reaching the expiry of the pending timer. *)
Lemma advance_before_expiry T fuel : forall cur w,
  debouncing cur w ->
  (forall tm, cur = Some tm -> T < due tm) ->
  length (timers w) <= fuel ->
  exists w',
    advance_to fuel T w = Some w'
    /\ debouncing cur w' /\ calls h w' = calls h w
    /\ now w' = Nat.max (now w) T
    /\ length (timers w') <= length (timers w)
    /\ (forall b, events_of b w' = events_of b w)
    /\ (forall r', get_opts r' w' = get_opts r' w).
Proof.
  assert (Hstop : forall cur w, debouncing cur w ->
            exists w',
              Some (with_now (Nat.max (now w) T) w) = Some w'
              /\ debouncing cur w' /\ calls h w' = calls h w
              /\ now w' = Nat.max (now w) T
              /\ length (timers w') <= length (timers w)
              /\ (forall b, events_of b w' = events_of b w)
              /\ (forall r', get_opts r' w' = get_opts r' w)).
  { intros cur w H. exists (with_now (Nat.max (now w) T) w).
    split; [reflexivity|]. split; [apply deb_with_now, H|].
    split; [reflexivity|]. split; [reflexivity|]. split; [simpl; lia|].
    split; [intros []; reflexivity|reflexivity]. }
  induction fuel as [|fuel IH]; intros cur w H Hcur Hlen; rewrite advance_to_eq.
  - destruct (earliest (timers w)) as [x|] eqn:E; [|apply Hstop, H].
    destruct (due x <=? T); [|apply Hstop, H].
    exfalso. destruct (earliest_spec _ _ E) as [Hin _].
    destruct (timers w); [inversion Hin|simpl in Hlen; lia].
  - destruct (earliest (timers w)) as [x|] eqn:E; [|apply Hstop, H].
    destruct (due x <=? T) eqn:Hdue; [|apply Hstop, H].
    apply Nat.leb_le in Hdue.
    destruct (earliest_spec _ _ E) as [Hin _].
    assert (Hx : ours x = false).
    { destruct (ours x) eqn:Ho; [|reflexivity]. exfalso.
      assert (Hm : x ∈ filter (fun y => ours y = true) (timers w))
        by (apply list_elem_of_filter; split; assumption).
      rewrite (deb_mine _ _ H) in Hm. destruct cur as [tm|]; simpl in Hm.
      - apply list_elem_of_singleton in Hm. subst x.
        specialize (Hcur tm eq_refl). lia.
      - inversion Hm. }
    assert (Hop : opaque (t_fn x) = true).
    { pose proof (deb_opaque _ _ H) as Ho. rewrite Forall_forall in Ho.
      apply Ho, Hin. }
    rewrite (fire_opaque fuel x w Hop).
    destruct (deb_fire_foreign cur w x H Hin Hx) as [H2 Hc2].
    pose proof (after_fire_length x w Hin) as Hl2.
    destruct (IH cur (after_fire x w) H2 Hcur)
      as (w' & Hr & H' & Hc' & Hn' & Hl' & He' & Hg'); [lia|].
    exists w'. split; [exact Hr|]. split; [exact H'|].
    split; [congruence|]. split; [rewrite Hn', now_after_fire; lia|].
    split; [lia|]. split.
    + intros b0. rewrite He'. apply events_after_fire.
    + intros r'. rewrite Hg'. apply get_opts_after_fire.
Qed.

(** Time passes beyond the expiry of the pending timer: it fires, once. *)
Lemma advance_past_expiry T fuel : forall tm w,
  debouncing (Some tm) w ->
  due tm <= T ->
  length (timers w) <= fuel ->
  exists w',
    advance_to fuel T w = Some w'
    /\ debouncing None w'
    /\ calls h w' = calls h w ++ [(h, t_args tm)].
Proof.
  induction fuel as [|fuel IH]; intros tm w H Hdue Hlen;
    pose proof (cur_in_timers _ _ tm H eq_refl) as Htm.
  - destruct (timers w); [inversion Htm|simpl in Hlen; lia].
  - rewrite advance_to_eq.
    destruct (earliest (timers w)) as [x|] eqn:E.
    2:{ apply earliest_None in E. rewrite E in Htm. inversion Htm. }
    destruct (earliest_spec _ _ E) as [Hin Hmin].
    rewrite Forall_forall in Hmin. specialize (Hmin tm Htm).
    assert (Hle : (due x <=? T) = true) by (apply Nat.leb_le; lia).
    rewrite Hle.
    assert (Hop : opaque (t_fn x) = true).
    { pose proof (deb_opaque _ _ H) as Ho. rewrite Forall_forall in Ho.
      apply Ho, Hin. }
    rewrite (fire_opaque fuel x w Hop).
    pose proof (after_fire_length x w Hin) as Hl2.
    destruct (ours x) eqn:Ho.
    + assert (Hm : x ∈ filter (fun y => ours y = true) (timers w))
        by (apply list_elem_of_filter; split; assumption).
      rewrite (deb_mine _ _ H) in Hm. simpl in Hm.
      apply list_elem_of_singleton in Hm. subst x.
      destruct (deb_fire_ours tm w H) as [H2 Hc2].
      destruct (advance_before_expiry T fuel None (after_fire tm w) H2)
        as (w' & Hr & H' & Hc' & _); [discriminate|lia|].
      exists w'. split; [exact Hr|]. split; [exact H'|]. congruence.
    + destruct (deb_fire_foreign (Some tm) w x H Hin Ho) as [H2 Hc2].
      destruct (IH tm (after_fire x w) H2 Hdue) as (w' & Hr & H' & Hc'); [lia|].
      exists w'. split; [exact Hr|]. split; [exact H'|]. congruence.
Qed.

(** Dispatch times that follow each other from [lo] on and stay below
    [hi]. *)
Fixpoint in_window (lo hi : nat) (s : list (nat * list Val)) : Prop :=
  match s with
  | [] => True
  | (a, _) :: s' => lo <= a < hi /\ in_window a hi s'
  end.

Lemma default_last_cons {A} (x dflt : A) l :
  default dflt (last (x :: l)) = default x (last l).
Proof. rewrite last_cons. destruct (last l); reflexivity. Qed.

(** Further dispatches inside the window: each replaces the pending
    timer, and the handler is not called. *)
Lemma play_in_window fuel b t hi rest : forall w tm pre post,
  debouncing (Some tm) w -> due tm = now w + d -> hi <= now w + d ->
  events_of b w !! t = Some (pre ++ {| fn := FUser h; options := r |} :: post) ->
  Forall foreign_sub (pre ++ post) ->
  once (get_opts r w) = false -> 0 < d ->
  in_window (now w) hi rest ->
  length (timers w) + length rest * S (length (pre ++ post)) < fuel ->
  exists w' tm',
    play fuel b t rest w = Some w'
    /\ debouncing (Some tm') w'
    /\ calls h w' = calls h w
    /\ (due tm', t_args tm')
       = (let p := default (now w, t_args tm) (last rest) in (p.1 + d, p.2))
    /\ length (timers w') < fuel.
Proof.
  induction rest as [|[a args] rest IH];
    intros w tm pre post H Hdue Hhi He Hf Ho Hd Hw Hb.
  - exists w, tm. simpl in *. split; [reflexivity|]. split; [exact H|].
    split; [reflexivity|]. split; [rewrite Hdue; reflexivity|lia].
  - destruct Hw as [Ha Hw]. cbn [play]. cbn [length] in Hb.
    destruct (advance_before_expiry a fuel (Some tm) w H)
      as (w1 & Hr1 & H1 & Hc1 & Hn1 & Hl1 & He1 & Hg1).
    { intros tm0 Heq. injection Heq as <-. lia. }
    { lia. }
    rewrite Hr1.
    assert (Hnow1 : now w1 = a) by lia.
    destruct fuel as [|fuel']; [lia|].
    rewrite <- He1 in He. rewrite <- Hg1 in Ho.
    destruct (deb_run fuel' b t args (Some tm) w1 pre post He Hf Ho Hd H1)
      as (w2 & tm2 & pre2 & post2 & Hr2 & H2 & Hdue2 & Hargs2 & Hc2 & Hn2
          & He2 & Hf2 & Hlen2 & Ho2 & Hl2).
    rewrite Hr2.
    destruct (IH w2 tm2 pre2 post2 H2) as (w' & tm' & Hr & H' & Hc' & Hlast & Hl');
      try assumption.
    { lia. }
    { lia. }
    { rewrite Hn2, Hnow1. exact Hw. }
    { assert (length rest * S (length (pre2 ++ post2))
              <= length rest * S (length (pre ++ post)))
        by (apply Nat.mul_le_mono_l; lia). lia. }
    exists w', tm'. split; [exact Hr|]. split; [exact H'|].
    split; [congruence|]. split; [|exact Hl'].
    rewrite Hlast, default_last_cons, Hn2, Hnow1, Hargs2. reflexivity.
Qed.

End Debounce.

(** C3, as the code has it: a subscription with a positive [delay = d],
    without the once flag and with an options object of its own, whose
    event is dispatched k >= 1 times, the first at [t1] and all of them
    before [t1 + d].  During the dispatches, and as long as less than
    [d] has passed since the last one, its handler is not called; once
    [d] has passed since the last dispatch it has been called exactly
    once, with the arguments of the last dispatch.  (The other
    subscriptions of the event and the pending timers of the host are
    application handlers with options objects of their own.) *)
Theorem debounced_handler_runs_once fuel b t h r d w pre post t1 a1 rest :
  events_of b w !! t = Some (pre ++ {| fn := FUser h; options := r |} :: post) ->
  Forall (foreign_sub h r) (pre ++ post) ->
  once (get_opts r w) = false -> 0 < d ->
  debouncing h r d None w ->
  now w <= t1 -> in_window t1 (t1 + d) rest ->
  length (timers w) + S (length rest) * S (length (pre ++ post)) < fuel ->
  let last_dispatch := default (t1, a1) (last rest) in
  exists w1,
    play fuel b t ((t1, a1) :: rest) w = Some w1
    /\ calls h w1 = calls h w
    /\ (forall T, T < last_dispatch.1 + d ->
        exists w2, advance_to fuel T w1 = Some w2 /\ calls h w2 = calls h w)
    /\ (forall T, last_dispatch.1 + d <= T ->
        exists w2, advance_to fuel T w1 = Some w2
                   /\ calls h w2 = calls h w ++ [(h, last_dispatch.2)]).
Proof.
  intros He Hf Ho Hd H Hnow Hw Hb last_dispatch.
  cbn [play]. cbn [length] in Hb.
  destruct (advance_before_expiry h r d t1 fuel None w H)
    as (w0 & Hr0 & H0 & Hc0 & Hn0 & Hl0 & He0 & Hg0); [discriminate|lia|].
  rewrite Hr0.
  assert (Hnow0 : now w0 = t1) by lia.
  destruct fuel as [|fuel']; [lia|].
  rewrite <- He0 in He. rewrite <- Hg0 in Ho.
  destruct (deb_run h r d fuel' b t a1 None w0 pre post He Hf Ho Hd H0)
    as (w2 & tm2 & pre2 & post2 & Hr2 & H2 & Hdue2 & Hargs2 & Hc2 & Hn2
        & He2 & Hf2 & Hlen2 & Ho2 & Hl2).
  rewrite Hr2.
  destruct (play_in_window h r d (S fuel') b t (t1 + d) rest w2 tm2 pre2 post2 H2)
    as (w1 & tm1 & Hr1 & H1 & Hc1 & Hlast & Hl1); try assumption.
  { lia. }
  { lia. }
  { rewrite Hn2, Hnow0. exact Hw. }
  { assert (length rest * S (length (pre2 ++ post2))
            <= length rest * S (length (pre ++ post)))
      by (apply Nat.mul_le_mono_l; lia). lia. }
  rewrite Hn2, Hnow0, Hargs2 in Hlast. fold last_dispatch in Hlast.
  injection Hlast as Hdue1 Hargs1.
  exists w1. split; [exact Hr1|]. split; [congruence|]. split.
  - intros T HT.
    destruct (advance_before_expiry h r d T (S fuel') (Some tm1) w1 H1)
      as (w3 & Hr3 & _ & Hc3 & _).
    + intros tm Heq. injection Heq as <-. lia.
    + lia.
    + exists w3. split; [exact Hr3|]. congruence.
  - intros T HT.
    destruct (advance_past_expiry h r d T (S fuel') tm1 w1 H1)
      as (w3 & Hr3 & _ & Hc3); [lia|lia|].
    exists w3. split; [exact Hr3|]. rewrite Hc3, Hargs1. congruence.
Qed.

Definition debounce_options (o : bool) : Options :=
  {| once := o; delay := Some 100; _t := None;
     render := None; history := None; callback := None |}.

(** One handler subscribed to ["key"] with [{delay: 100}], and with
    [{delay: 100, once: true}]. *)
Definition debounced_world (o : bool) : World :=
  let '(r, w) := alloc_options (debounce_options o) init_world in
  on Default "key" (FUser 1) (Some r) w.

Lemma debounced_world_debouncing : debouncing 1 3 100 None (debounced_world false).
Proof.
  constructor.
  - vm_compute. lia.
  - constructor.
  - intros r' i. unfold get_opts.
    assert (Hall : map_Forall (fun _ o => _t o = None) (heap (debounced_world false)))
      by (apply map_Forall_to_list; vm_compute; repeat constructor).
    destruct (heap (debounced_world false) !! r') as [o|] eqn:Hl; simpl.
    + rewrite (Hall r' o Hl). discriminate.
    + discriminate.
  - constructor.
  - vm_compute. reflexivity.
  - reflexivity.
  - discriminate.
Qed.

Lemma debounced_handler_runs_once_witness :
  exists w1,
    play 5 Default "key" [(0, [VNum 1]); (50, [VNum 2]); (99, [VNum 3])]
      (debounced_world false) = Some w1
    /\ calls 1 w1 = calls 1 (debounced_world false)
    /\ (forall T, T < 99 + 100 ->
        exists w2, advance_to 5 T w1 = Some w2
                   /\ calls 1 w2 = calls 1 (debounced_world false))
    /\ (forall T, 99 + 100 <= T ->
        exists w2, advance_to 5 T w1 = Some w2
                   /\ calls 1 w2 = calls 1 (debounced_world false) ++ [(1, [VNum 3])]).
Proof.
  apply (debounced_handler_runs_once 5 Default "key" 1 3 100 (debounced_world false)
           [] [] 0 [VNum 1] [(50, [VNum 2]); (99, [VNum 3])]).
  - vm_compute. reflexivity.
  - constructor.
  - vm_compute. reflexivity.
  - lia.
  - exact debounced_world_debouncing.
  - vm_compute. lia.
  - simpl. lia.
  - vm_compute. lia.
Defined.

(** C3 as stated fails for a subscription that also carries the once
    flag: the first dispatch removes it from the list, so of two
    dispatches inside the window the handler receives the arguments of
    the first, not of the last. *)
Lemma once_debounced_gets_first_arguments :
  delay (get_opts 3 (debounced_world true)) = Some 100
  /\ exists w1 w2,
       play 5 Default "key" [(0, [VNum 1]); (50, [VNum 2])] (debounced_world true)
       = Some w1
       /\ advance_to 5 300 w1 = Some w2
       /\ calls 1 w2 = [(1, [VNum 1])].
Proof.
  split; [vm_compute; reflexivity|].
  eexists. eexists. split; [vm_compute; reflexivity|].
  split; vm_compute; reflexivity.
Qed.

(** Two subscriptions that share one options object also share its
    timer handle: a single dispatch leaves only the second handler's
    timer pending, and the first handler is never called. *)
Lemma shared_options_share_the_timer :
  let w := on Default "key" (FUser 2) (Some 3) (debounced_world false) in
  exists w1 w2,
    run 1 Default "key" [VNum 1] w = Ok tt w1
    /\ advance_to 5 300 w1 = Some w2
    /\ trace w2 = [(2, [VNum 1])].
Proof.
  eexists. eexists. split; [vm_compute; reflexivity|].
  split; vm_compute; reflexivity.
Qed.

(** * Further properties of the event bus *)

Lemma default_events_invoke_opaque args w s :
  default_events (invoke_opaque args w s) = default_events w.
Proof.
  unfold invoke_opaque. destruct (delay_truthy _); [apply default_events_delay|].
  destruct (fn s); reflexivity.
Qed.

Lemma events_of_foldl_invoke b args subs : forall w,
  events_of b (foldl (invoke_opaque args) w subs) = events_of b w.
Proof.
  induction subs as [|s subs IH]; intros w; simpl; [reflexivity|].
  rewrite IH. destruct b as [|c]; simpl.
  - apply default_events_invoke_opaque.
  - unfold get_comp.
    pose proof (app_part_invoke_opaque args w s) as H.
    apply app_part_inv in H as (-> & _). reflexivity.
Qed.

Lemma filter_all {A} (P : A -> Prop) `{forall x, Decision (P x)} (l : list A) :
  Forall P l -> filter P l = l.
Proof.
  induction 1 as [|x l Hx _ IH]; [reflexivity|].
  rewrite filter_cons_True by exact Hx. rewrite IH. reflexivity.
Qed.

Lemma timers_set_event b t l w : timers (set_event b t l w) = timers w.
Proof. destruct b; reflexivity. Qed.

(** X1.  One dispatch invokes every subscription of the event and then
    drops the ones whose options carry the once flag; a second dispatch
    reaches only the remaining ones, in their old order. *)
Theorem once_flag_unsubscribes_after_first_dispatch fuel b t args1 args2 w subs :
  events_of b w !! t = Some subs ->
  Forall (fun r => opaque (fn r) = true) subs ->
  let rest := filter (fun r => once (get_opts (options r) w) = false) subs in
  exists w1 w2,
    run (S fuel) b t args1 w = Ok tt w1
    /\ events_of b w1 !! t = Some rest
    /\ trace w1 = trace w ++ direct_calls args1 w subs
    /\ run (S fuel) b t args2 w1 = Ok tt w2
    /\ events_of b w2 !! t = Some rest
    /\ trace w2 = trace w1 ++ direct_calls args2 w rest.
Proof.
  intros He Hop rest. fold (kept w subs) in rest.
  set (w0 := foldl (invoke_opaque args1) w subs).
  set (w1 := set_event b t rest w0).
  assert (He1 : events_of b w1 !! t = Some rest) by apply events_of_set_event.
  assert (Hop1 : Forall (fun r => opaque (fn r) = true) rest).
  { apply Forall_forall. intros s Hs. apply list_elem_of_filter in Hs as [_ Hs].
    rewrite Forall_forall in Hop. apply Hop, Hs. }
  assert (Hk : kept w1 rest = rest).
  { unfold kept. apply filter_all, Forall_forall. intros s Hs.
    unfold w1. rewrite get_opts_set_event. unfold w0.
    rewrite get_opts_foldl_invoke_once.
    apply list_elem_of_filter in Hs as [Hs _]. exact Hs. }
  exists w1, (set_event b t rest (foldl (invoke_opaque args2) w1 rest)).
  split; [apply (run_opaque fuel b t args1 w subs He Hop)|].
  split; [exact He1|].
  split; [unfold w1; rewrite trace_set_event; apply trace_foldl_invoke|].
  split; [rewrite (run_opaque fuel b t args2 w1 rest He1 Hop1), Hk; reflexivity|].
  split; [apply events_of_set_event|].
  rewrite trace_set_event, trace_foldl_invoke. f_equal.
  unfold direct_calls. f_equal. apply map_ext. intros r.
  unfold w1. rewrite get_opts_set_event. unfold w0, delay_truthy.
  rewrite get_opts_foldl_invoke_delay. reflexivity.
Qed.

(** A once-subscription of handler 1 and a plain one of handler 2. *)
Definition once_and_plain : World :=
  let '(r, w) := alloc_options once_options init_world in
  on Default "ping" (FUser 2) None (on Default "ping" (FUser 1) (Some r) w).

Lemma once_flag_unsubscribes_after_first_dispatch_witness :
  exists w1 w2,
    run 1 Default "ping" [VNum 1] once_and_plain = Ok tt w1
    /\ events_of Default w1 !! "ping" = Some [{| fn := FUser 2; options := 4 |}]
    /\ trace w1 = trace once_and_plain ++ [(1, [VNum 1]); (2, [VNum 1])]
    /\ run 1 Default "ping" [VNum 2] w1 = Ok tt w2
    /\ events_of Default w2 !! "ping" = Some [{| fn := FUser 2; options := 4 |}]
    /\ trace w2 = trace w1 ++ [(2, [VNum 2])].
Proof.
  destruct (once_flag_unsubscribes_after_first_dispatch 0 Default "ping"
              [VNum 1] [VNum 2] once_and_plain
              [{| fn := FUser 1; options := 3 |}; {| fn := FUser 2; options := 4 |}])
    as (w1 & w2 & H1 & H2 & H3 & H4 & H5 & H6).
  - vm_compute. reflexivity.
  - repeat constructor.
  - exists w1, w2. split; [exact H1|].
    split; [rewrite H2; vm_compute; reflexivity|].
    split; [rewrite H3; f_equal|].
    split; [exact H4|].
    split; [rewrite H5; vm_compute; reflexivity|].
    rewrite H6. f_equal.
Defined.



Section Throwing.

Variable rr : BusId -> string -> list Val -> World -> Res unit.

Lemma filter_subs_throw args id err r post : forall pre w,
  Forall (fun s => opaque (fn s) = true) pre ->
  delay_truthy (get_opts r w) = false ->
  filter_subs rr args (pre ++ {| fn := FThrowing id err; options := r |} :: post) w
  = Thrown err (log_call id args (foldl (invoke_opaque args) w pre)).
Proof.
  induction pre as [|s pre IH]; intros w Hop Hd; simpl.
  - rewrite Hd. reflexivity.
  - apply Forall_cons in Hop as [Hs Hop].
    assert (Hstep :
      (if delay_truthy (get_opts (options s) w)
       then ret (delay_ (fn s) args (options s) w)
       else apply_fn rr (fn s) args w) = Ok tt (invoke_opaque args w s)).
    { unfold invoke_opaque.
      destruct (delay_truthy (get_opts (options s) w)); [reflexivity|].
      apply apply_fn_opaque, Hs. }
    rewrite Hstep. cbn [bind]. rewrite IH; [reflexivity|exact Hop|].
    rewrite delay_truthy_invoke_opaque. exact Hd.
Qed.

End Throwing.

(** X3.  A handler that throws ends the dispatch: the exception leaves
    [run], the subscriptions behind the thrower are not invoked, and the
    subscription list of the event is not rewritten, so a once
    subscription that ran before the thrower is still registered. *)
Theorem throwing_handler_aborts_dispatch fuel b t args w pre post id err r :
  events_of b w !! t
  = Some (pre ++ {| fn := FThrowing id err; options := r |} :: post) ->
  Forall (fun s => opaque (fn s) = true) pre ->
  delay_truthy (get_opts r w) = false ->
  exists w',
    run (S fuel) b t args w = Thrown err w'
    /\ trace w' = trace w ++ direct_calls args w pre ++ [(id, args)]
    /\ events_of b w' = events_of b w
    /\ console w' = console w.
Proof.
  intros He Hop Hd. simpl. unfold run_body. rewrite He.
  rewrite bool_decide_eq_true_2 by eauto. cbn [console_assert].
  rewrite (filter_subs_throw (run fuel) args id err r post pre w Hop Hd).
  cbn [bind]. eexists. split; [reflexivity|].
  split; [simpl; rewrite trace_foldl_invoke, <- app_assoc; reflexivity|].
  split.
  - change (events_of b (log_call id args (foldl (invoke_opaque args) w pre)))
      with (events_of b (foldl (invoke_opaque args) w pre)).
    apply events_of_foldl_invoke.
  - simpl. destruct (foldl_invoke_frame args pre w) as (_ & Hc & _). exact Hc.
Qed.

(** A once-subscription of handler 1, a thrower, and handler 3. *)
Definition with_thrower : World :=
  let '(r, w) := alloc_options once_options init_world in
  on Default "ping" (FUser 3) None
    (on Default "ping" (FThrowing 2 (VStr "boom")) None
       (on Default "ping" (FUser 1) (Some r) w)).

Lemma throwing_handler_aborts_dispatch_witness :
  exists w',
    run 1 Default "ping" [] with_thrower = Thrown (VStr "boom") w'
    /\ trace w' = trace with_thrower ++ [(1, [])] ++ [(2, [])]
    /\ events_of Default w' = events_of Default with_thrower
    /\ console w' = console with_thrower.
Proof.
  apply (throwing_handler_aborts_dispatch 0 Default "ping" [] with_thrower
           [{| fn := FUser 1; options := 3 |}] [{| fn := FUser 3; options := 5 |}]
           2 (VStr "boom") 4).
  - vm_compute. reflexivity.
  - repeat constructor.
  - vm_compute. reflexivity.
Defined.

(** * Further properties of the component *)

Lemma get_comp_insert_ne c c' y w' w :
  c' <> c -> comps w' = <[c := y]> (comps w) -> get_comp c' w' = get_comp c' w.
Proof.
  intros Hne H. unfold get_comp. rewrite H, lookup_insert_ne by congruence.
  reflexivity.
Qed.



(** The update wrapper of [add_action], in closed form: the handler is
    applied to the committed state and the arguments, ["debug"] is
    dispatched, and the result is committed under the options of the
    action. *)
Lemma action_quiet fuel c t e n args w :
  quiet_debug w ->
  let s := e (state (get_comp c w)) args in
  is_promise s = None ->
  exists w' tl,
    apply_fn (run (S fuel)) (FAction c t e n) args w = Ok tt w'
    /\ comps w' = (if nullish s then comps w
                   else <[c := commit s (history_flag (ORef n) w) (get_comp c w)]> (comps w))
    /\ renders w'
       = renders w ++ (if nullish s then []
                       else if render_flag (ORef n) w
                            then render_out c s (set_comp c (with_state s (get_comp c w)) w)
                            else [])
    /\ host_part w' = host_part w
    /\ console w' = console w ++ tl
    /\ (forall r, commit_opts r w' = commit_opts r w)
    /\ quiet_debug w'.
Proof.
  intros Hq s Hp. cbn [apply_fn]. unfold action. fold s.
  destruct (run_debug_quiet fuel
    [VObj [("component", VComp c); ("event", VStr t); ("e", VArr args);
           ("state", state (get_comp c w)); ("newState", s);
           ("options", VOptions n)]] w Hq) as (w0 & tl & Hr & Ha & Hk & Ho & Hq0).
  rewrite Hr. cbn [bind].
  apply app_part_inv in Ha as (Hc & Hrend & Hhost).
  destruct (nullish s) eqn:Hn.
  - unfold setState_. rewrite Hp, Hn. exists w0, tl.
    split; [reflexivity|]. rewrite app_nil_r. repeat split; assumption.
  - destruct (setState_quiet fuel c s (ORef n) w0 Hq0 Hp Hn)
      as (w' & tl' & Hr' & Hc' & Hrend' & Hhost' & Hk' & Ho' & Hq').
    exists w', (tl ++ tl'). split; [exact Hr'|].
    assert (Hrf : render_flag (ORef n) w0 = render_flag (ORef n) w)
      by (apply render_flag_eq, Ho).
    assert (Hhf : history_flag (ORef n) w0 = history_flag (ORef n) w)
      by (apply history_flag_eq, Ho).
    split; [rewrite Hc', Hhf, (get_comp_eq c w0 w Hc), Hc; reflexivity|].
    split.
    { rewrite Hrend', Hrend, Hrf, (get_comp_eq c w0 w Hc). f_equal.
      destruct (render_flag (ORef n) w); [|reflexivity].
      unfold render_out. rewrite !get_comp_set_comp. simpl.
      unfold set_comp, with_comps, resolve_element; simpl.
      unfold host_part in Hhost. injection Hhost as _ _ Hd Hi.
      rewrite Hd, Hi. reflexivity. }
    split; [rewrite Hhost'; exact Hhost|].
    split; [rewrite Hk', Hk, app_assoc; reflexivity|].
    split; [intros r; rewrite Ho'; apply Ho|exact Hq'].
Qed.

(** The [once] and [delay] entries of every options object. *)
Definition sub_opts (r : nat) (w : World) := (once (get_opts r w), delay (get_opts r w)).

Lemma sub_opts_same_heap r w1 w : heap w1 = heap w -> sub_opts r w1 = sub_opts r w.
Proof. unfold sub_opts, get_opts. intros ->. reflexivity. Qed.

Lemma run_debug_sub_opts fuel args w w1 :
  quiet_debug w -> run (S fuel) Default "debug" args w = Ok tt w1 ->
  forall r, sub_opts r w1 = sub_opts r w.
Proof.
  unfold quiet_debug. intros Hq Hr r.
  destruct (default_events w !! "debug") as [subs|] eqn:He.
  - simpl in Hq. rewrite (run_opaque fuel Default "debug" args w subs He Hq) in Hr.
    injection Hr as <-.
    transitivity (sub_opts r (foldl (invoke_opaque args) w subs)); [reflexivity|].
    unfold sub_opts.
    rewrite get_opts_foldl_invoke_once, get_opts_foldl_invoke_delay. reflexivity.
  - rewrite (run_no_event fuel Default "debug" args w He) in Hr.
    injection Hr as <-. reflexivity.
Qed.

Lemma renderState_sub_opts fuel c t w w' :
  quiet_debug w -> renderState (S fuel) c t w = Ok tt w' ->
  forall r, sub_opts r w' = sub_opts r w.
Proof.
  intros Hq Hr r. unfold renderState, renderState_ in Hr.
  destruct (view (get_comp c w)) as [v|]; [|injection Hr as <-; reflexivity].
  destruct (run (S fuel) Default "debug" _ w) as [[] w1| |] eqn:Hd;
    cbn [bind] in Hr; try discriminate.
  rewrite <- (run_debug_sub_opts _ _ _ _ Hq Hd r).
  destruct (resolve_element _ w1); [|injection Hr as <-; reflexivity].
  destruct (render_installed _); [|injection Hr as <-; reflexivity].
  destruct (rendered _); injection Hr as <-; reflexivity.
Qed.

Lemma setState_sub_opts fuel c t e w w' :
  quiet_debug w -> setState (S fuel) c t e w = Ok tt w' ->
  forall r, sub_opts r w' = sub_opts r w.
Proof.
  intros Hq Hr r. unfold setState, setState_ in Hr.
  destruct (is_promise t); [injection Hr as <-; reflexivity|].
  destruct (nullish t); [injection Hr as <-; reflexivity|].
  set (w1 := set_comp c (with_state t (get_comp c w)) w) in *.
  assert (Hmid : forall w2,
            (if render_flag e w1 then renderState_ (run (S fuel)) c t w1 else ret w1)
            = Ok tt w2 -> sub_opts r w2 = sub_opts r w).
  { intros w2 H2. destruct (render_flag e w1).
    - apply (renderState_sub_opts fuel c t w1 w2 Hq H2 r).
    - injection H2 as <-. reflexivity. }
  destruct (if render_flag e w1 then _ else _) as [[] w2| |]; cbn [bind] in Hr;
    try discriminate.
  rewrite <- (Hmid w2 eq_refl).
  destruct (history_flag e w2 && enable_history (get_comp c w2));
    destruct (callback_of e _); injection Hr as <-; reflexivity.
Qed.

Lemma action_sub_opts fuel c t e n args w w' :
  quiet_debug w ->
  apply_fn (run (S fuel)) (FAction c t e n) args w = Ok tt w' ->
  forall r, sub_opts r w' = sub_opts r w.
Proof.
  intros Hq Hr r. cbn [apply_fn] in Hr. unfold action in Hr.
  destruct (run_debug_quiet fuel
    [VObj [("component", VComp c); ("event", VStr t); ("e", VArr args);
           ("state", state (get_comp c w));
           ("newState", e (state (get_comp c w)) args);
           ("options", VOptions n)]] w Hq) as (w0 & tl & Hd & _ & _ & _ & Hq0).
  rewrite Hd in Hr. cbn [bind] in Hr.
  rewrite (setState_sub_opts fuel c _ (ORef n) w0 w' Hq0 Hr r).
  apply (run_debug_sub_opts _ _ _ _ Hq Hd r).
Qed.

(** The dispatch of a component goes to the bus that [route] names. *)
Lemma comp_run_route fuel c t args w :
  comp_run fuel c t args w = run fuel (route c t w) t args w.
Proof. unfold comp_run, route. destruct (_ || _); reflexivity. Qed.

(** X5.  Dispatching the event of an update handler through the
    component: the handler is applied to the committed state and the
    arguments of the dispatch.  A result that is absent leaves the
    component and the rendered output as they are; any other settled
    result becomes the committed state, is rendered (unless the options
    of the action say [render: false]) and recorded in the history when
    that is enabled.  The handler stays subscribed. *)
Theorem update_event_commits_result fuel c t e n args w :
  quiet_debug w ->
  events_of (route c t w) w !! t = Some [{| fn := FAction c t e n; options := n |}] ->
  once (get_opts n w) = false -> delay_truthy (get_opts n w) = false ->
  let x := get_comp c w in
  let s := e (state x) args in
  is_promise s = None ->
  exists w',
    comp_run (S (S fuel)) c t args w = Ok tt w'
    /\ events_of (route c t w) w' !! t
       = Some [{| fn := FAction c t e n; options := n |}]
    /\ (nullish s = true ->
        state (get_comp c w') = state x /\ _history (get_comp c w') = _history x
        /\ renders w' = renders w)
    /\ (nullish s = false ->
        state (get_comp c w') = s
        /\ _history (get_comp c w')
           = (if history_flag (ORef n) w && enable_history x
              then _history x ++ [s] else _history x)
        /\ renders w'
           = renders w ++ (if render_flag (ORef n) w then render_out c s w else [])).
Proof.
  intros Hq He Ho Hd x s Hp.
  rewrite (comp_run_route (S (S fuel)) c t args w).
  set (b := route c t w) in *.
  change (run (S (S fuel)) b t args w) with (run_body (run (S fuel)) b t args w).
  unfold run_body. rewrite He.
  rewrite bool_decide_eq_true_2 by eauto. cbn [console_assert filter_subs options fn].
  rewrite Hd.
  destruct (action_quiet fuel c t e n args w Hq Hp)
    as (w1 & tl & Hr & Hc & Hrend & _ & _ & _ & _).
  fold x s in Hc, Hrend.
  pose proof (action_sub_opts fuel c t e n args w w1 Hq Hr n) as Hs.
  rewrite Hr. cbn [bind].
  unfold sub_opts in Hs. injection Hs as Hs _. rewrite Hs, Ho. cbn [negb bind ret].
  eexists. split; [reflexivity|].
  split; [apply events_of_set_event|].
  assert (Hst : forall y, get_comp c w1 = y ->
            state (get_comp c (set_event b t [{| fn := FAction c t e n; options := n |}] w1))
            = state y
            /\ _history (get_comp c (set_event b t [{| fn := FAction c t e n; options := n |}] w1))
               = _history y).
  { intros y <-. destruct b as [|c0]; cbn [set_event]; [split; reflexivity|].
    destruct (decide (c0 = c)) as [->|Hne];
      [rewrite get_comp_set_comp; split; reflexivity|].
    unfold get_comp, set_comp; simpl. rewrite lookup_insert_ne by exact Hne.
    split; reflexivity. }
  assert (Hre : renders (set_event b t [{| fn := FAction c t e n; options := n |}] w1)
                = renders w1) by (destruct b; reflexivity).
  split.
  - intros Hn. rewrite Hn in Hc, Hrend. rewrite app_nil_r in Hrend.
    destruct (Hst x) as [H1 H2]; [apply (get_comp_eq c w1 w Hc)|].
    rewrite H1, H2, Hre. auto.
  - intros Hn. rewrite Hn in Hc, Hrend.
    destruct (Hst _ (get_comp_of_insert _ _ _ _ Hc)) as [H1 H2].
    rewrite H1, H2, Hre, Hrend. unfold commit.
    split; [destruct (_ && _); reflexivity|].
    split; [destruct (_ && _); reflexivity|].
    f_equal. destruct (render_flag (ORef n) w); [|reflexivity].
    apply render_out_set_comp; reflexivity.
Qed.

Lemma update_event_commits_result_witness :
  exists w',
    comp_run 2 0 "+1" [] mounted_counter = Ok tt w'
    /\ events_of (route 0 "+1" mounted_counter) w' !! "+1"
       = Some [{| fn := FAction 0 "+1" plus_one 5; options := 5 |}]
    /\ (nullish (VNum 1) = true ->
        state (get_comp 0 w') = VNum 0 /\ _history (get_comp 0 w') = [VNum 0]
        /\ renders w' = renders mounted_counter)
    /\ (nullish (VNum 1) = false ->
        state (get_comp 0 w') = VNum 1
        /\ _history (get_comp 0 w') = [VNum 0; VNum 1]
        /\ renders w' = renders mounted_counter ++ [(7, VNum 1)]).
Proof.
  apply (update_event_commits_result 0 0 "+1" plus_one 5 [] mounted_counter).
  - unfold quiet_debug. vm_compute. repeat constructor.
  - vm_compute. reflexivity.
  - vm_compute. reflexivity.
  - vm_compute. reflexivity.
  - reflexivity.
Defined.

Lemma filter_none {A} (P : A -> Prop) `{forall x, Decision (P x)} (l : list A) :
  Forall (fun x => ~ P x) l -> filter P l = [].
Proof.
  induction 1 as [|x l Hx _ IH]; [reflexivity|].
  rewrite filter_cons_False by exact Hx. exact IH.
Qed.

(** X6.  An update handler returns an asynchronous result: the dispatch
    commits and renders nothing.  When the result resolves with a
    present value, the reaction commits that value under the options of
    the action: it becomes the committed state, is rendered and recorded
    as for a synchronous result, and no reaction is left pending. *)
Theorem resolved_update_commits_later fuel c t e n args p v w :
  quiet_debug w ->
  e (state (get_comp c w)) args = VPromise p ->
  Forall (fun x => x.1 <> p) (pending w) ->
  committed v ->
  let x := get_comp c w in
  exists w1 w2,
    apply_fn (run (S fuel)) (FAction c t e n) args w = Ok tt w1
    /\ comps w1 = comps w /\ renders w1 = renders w
    /\ settle (S fuel) p (Resolved v) w1 = Some w2
    /\ state (get_comp c w2) = v
    /\ _history (get_comp c w2)
       = (if history_flag (ORef n) w && enable_history x
          then _history x ++ [v] else _history x)
    /\ renders w2 = renders w ++ (if render_flag (ORef n) w then render_out c v w else [])
    /\ pending w2 = pending w
    /\ unhandled w2 = unhandled w.
Proof.
  intros Hq He Hpend [Hp Hn] x.
  cbn [apply_fn]. unfold action. rewrite He.
  destruct (run_debug_quiet fuel
    [VObj [("component", VComp c); ("event", VStr t); ("e", VArr args);
           ("state", state (get_comp c w)); ("newState", VPromise p);
           ("options", VOptions n)]] w Hq) as (w0 & tl & Hr & Ha & Hk & Ho & Hq0).
  rewrite Hr. cbn [bind]. unfold setState_ at 1. cbn [is_promise ret].
  apply app_part_inv in Ha as (Hc & Hrend & Hhost).
  assert (Hh : pending w0 = pending w /\ unhandled w0 = unhandled w
               /\ document w0 = document w /\ render_installed w0 = render_installed w).
  { unfold host_part in Hhost. injection Hhost as -> -> -> ->. auto. }
  destruct Hh as (Hpe & Hun & Hdoc & Hri).
  set (w1 := add_pending p c (ORef n) w0).
  exists w1. 
  assert (Hmine : filter (fun y : nat * (nat * OptSrc) => y.1 = p) (pending w1)
                  = [(p, (c, ORef n))]).
  { unfold w1. simpl. rewrite Hpe, filter_app.
    rewrite (filter_none _ _ Hpend).
    rewrite filter_cons_True by reflexivity. reflexivity. }
  assert (Hothers : filter (fun y : nat * (nat * OptSrc) => y.1 <> p) (pending w1)
                    = pending w).
  { unfold w1. simpl. rewrite Hpe, filter_app.
    rewrite filter_cons_False by (simpl; intros H; apply H; reflexivity).
    rewrite filter_nil, app_nil_r.
    clear -Hpend. induction Hpend as [|y l Hy _ IH]; [reflexivity|].
    rewrite filter_cons_True by exact Hy. rewrite IH. reflexivity. }
  unfold settle. rewrite Hmine, Hothers. cbn [reactions reaction].
  set (w1' := with_pending (pending w) w1).
  destruct (setState_quiet fuel c v (ORef n) w1' Hq0 Hp Hn)
    as (w2 & tl2 & Hr2 & Hc2 & Hrend2 & Hhost2 & _).
  fold (setState (S fuel)). rewrite Hr2.
  exists w2. split; [reflexivity|]. split; [exact Hc|]. split; [exact Hrend|].
  split; [reflexivity|].
  assert (Hx : get_comp c w1' = x) by (apply (get_comp_eq c w0 w Hc)).
  assert (Hhf : history_flag (ORef n) w1' = history_flag (ORef n) w)
    by (apply (history_flag_eq (ORef n) w0 w), Ho).
  assert (Hrf : render_flag (ORef n) w1' = render_flag (ORef n) w)
    by (apply (render_flag_eq (ORef n) w0 w), Ho).
  rewrite (get_comp_of_insert _ _ _ _ Hc2), Hx, Hhf. unfold commit.
  split; [destruct (_ && _); reflexivity|].
  split; [destruct (_ && _); reflexivity|].
  split.
  { rewrite Hrend2, Hrf. change (renders w1') with (renders w0). rewrite Hrend.
    f_equal. destruct (render_flag (ORef n) w); [|reflexivity].
    rewrite Hx. unfold render_out. rewrite get_comp_set_comp. simpl.
    unfold resolve_element, set_comp; simpl. rewrite Hdoc, Hri. reflexivity. }
  unfold host_part in Hhost2. injection Hhost2 as -> -> _ _.
  split; [reflexivity|exact Hun].
Qed.

Definition fetched : UpdateFn := fun _ _ => VPromise 1.

Lemma resolved_update_commits_later_witness :
  exists w1 w2,
    apply_fn (run 1) (FAction 0 "load" fetched 5) [] mounted_counter = Ok tt w1
    /\ comps w1 = comps mounted_counter /\ renders w1 = renders mounted_counter
    /\ settle 1 1 (Resolved (VNum 9)) w1 = Some w2
    /\ state (get_comp 0 w2) = VNum 9
    /\ _history (get_comp 0 w2) = [VNum 0; VNum 9]
    /\ renders w2 = renders mounted_counter ++ [(7, VNum 9)]
    /\ pending w2 = pending mounted_counter
    /\ unhandled w2 = unhandled mounted_counter.
Proof.
  apply (resolved_update_commits_later 0 0 "load" fetched 5 [] 1 (VNum 9) mounted_counter).
  - unfold quiet_debug. vm_compute. repeat constructor.
  - reflexivity.
  - vm_compute. constructor.
  - split; reflexivity.
Defined.

(** ** The action table of [add_actions] *)

(** [n[k]] on an object used as an ordered map. *)
Fixpoint assoc_get {A} (k : string) (l : list (string * A)) : option A :=
  match l with
  | [] => None
  | (k', v) :: l' => if String.eqb k k' then Some v else assoc_get k l'
  end.

(** Entry [(t, r)] of the update map mentions event [name]: [r] is a
    handler (or a handler with options) and [name] is one of the
    trimmed, comma-separated parts of [t]. *)
Definition handles (name : string) (entry : string * UpdateEntry) : bool :=
  is_handler entry.2 && bool_decide (name ∈ map trim (split_on ","%char entry.1)).

(** The last entry of the update map that mentions [name]. *)
Definition handler_for (name : string) (u : list (string * UpdateEntry))
    : option UpdateEntry :=
  fold_left (fun acc entry => if handles name entry then Some entry.2 else acc) u None.

Lemma assoc_get_set {A} name k (v : A) l :
  assoc_get name (assoc_set k v l)
  = if String.eqb name k then Some v else assoc_get name l.
Proof.
  induction l as [|[k' v'] l IH]; simpl.
  - reflexivity.
  - destruct (String.eqb k k') eqn:E; simpl.
    + apply String.eqb_eq in E. subst k'. destruct (String.eqb name k); reflexivity.
    + rewrite IH. destruct (String.eqb name k') eqn:E'; [|reflexivity].
      apply String.eqb_eq in E'. subst k'.
      destruct (String.eqb name k) eqn:E''; [|reflexivity].
      apply String.eqb_eq in E''. subst k. rewrite String.eqb_refl in E. discriminate.
Qed.

Lemma assoc_set_names {A} k (v : A) l x :
  x ∈ map fst (assoc_set k v l) <-> x = k \/ x ∈ map fst l.
Proof.
  induction l as [|[k' v'] l IH]; simpl.
  - rewrite list_elem_of_singleton. split; [intros ->; left; reflexivity|].
    intros [->|H]; [reflexivity|inversion H].
  - destruct (String.eqb k k') eqn:E; simpl.
    + apply String.eqb_eq in E. subst k'. rewrite !elem_of_cons. tauto.
    + rewrite !elem_of_cons, IH. tauto.
Qed.

Lemma assoc_set_NoDup {A} k (v : A) l :
  NoDup (map fst l) -> NoDup (map fst (assoc_set k v l)).
Proof.
  induction l as [|[k' v'] l IH]; simpl; intros H.
  - repeat constructor. intros Hin. inversion Hin.
  - apply NoDup_cons in H as [Hn H].
    destruct (String.eqb k k') eqn:E; simpl.
    + apply String.eqb_eq in E. subst k'. apply NoDup_cons. split; assumption.
    + apply NoDup_cons. split; [|apply IH, H].
      rewrite assoc_set_names. intros [->|Hin]; [|contradiction].
      rewrite String.eqb_refl in E. discriminate.
Qed.

(** One update key: every trimmed part is set to the handler. *)
Lemma assign_parts_spec (r : UpdateEntry) (segs : list string) :
  forall (n : list (string * UpdateEntry)) name,
  let n' := fold_left (fun n t' => assoc_set (trim t') r n) segs n in
  (NoDup (map fst n) -> NoDup (map fst n'))
  /\ assoc_get name n'
     = if bool_decide (name ∈ map trim segs) then Some r else assoc_get name n.
Proof.
  induction segs as [|s segs IH]; intros n name; cbn [fold_left map].
  - split; [auto|]. rewrite bool_decide_eq_false_2; [reflexivity|]. intros H; inversion H.
  - destruct (IH (assoc_set (trim s) r n) name) as [Hnd Hget].
    split; [intros H; apply Hnd, assoc_set_NoDup, H|].
    rewrite Hget, assoc_get_set.
    destruct (bool_decide (name ∈ map trim segs)) eqn:E.
    + apply bool_decide_eq_true in E.
      rewrite bool_decide_eq_true_2; [reflexivity|]. right. exact E.
    + apply bool_decide_eq_false in E.
      destruct (String.eqb name (trim s)) eqn:E'.
      * apply String.eqb_eq in E'. rewrite bool_decide_eq_true_2; [reflexivity|].
        rewrite E'. left.
      * rewrite bool_decide_eq_false_2; [reflexivity|].
        intros H. apply elem_of_cons in H as [H|H]; [|contradiction].
        subst name. rewrite String.eqb_refl in E'. discriminate.
Qed.

Lemma action_table_fold u : forall (acc : list (string * UpdateEntry)) name,
  let n := fold_left
             (fun n '(t, r) =>
                if is_handler r
                then fold_left (fun n t' => assoc_set (trim t') r n) (split_on ","%char t) n
                else n) u acc in
  (NoDup (map fst acc) -> NoDup (map fst n))
  /\ assoc_get name n
     = fold_left (fun a entry => if handles name entry then Some entry.2 else a) u
         (assoc_get name acc).
Proof.
  induction u as [|[t r] u IH]; intros acc name; cbn [fold_left].
  - split; [auto|reflexivity].
  - unfold handles at 2. cbn [fst snd].
    destruct (is_handler r); cbn [andb].
    + destruct (assign_parts_spec r (split_on ","%char t) acc name) as [Hnd Hget].
      destruct (IH (fold_left (fun n t' => assoc_set (trim t') r n)
                      (split_on ","%char t) acc) name) as [Hnd' Hget'].
      split; [intros H; apply Hnd', Hnd, H|].
      cbn zeta in Hget'. rewrite Hget', Hget. reflexivity.
    + apply IH.
Qed.


(** ** The first mount *)

(** Registrations leave the render log and the host alone. *)
Definition same_output (w0 w : World) : Prop :=
  renders w = renders w0 /\ host_part w = host_part w0.

Lemma same_output_refl w : same_output w w.
Proof. split; reflexivity. Qed.

Lemma same_output_trans w0 w1 w2 :
  same_output w0 w1 -> same_output w1 w2 -> same_output w0 w2.
Proof. intros [A B] [C D]. split; congruence. Qed.

Lemma on_same_output b t f n w : same_output w (on b t f n w).
Proof. unfold on. destruct n, b; split; reflexivity. Qed.

Lemma comp_on_same_output c t f n w : same_output w (comp_on c t f n w).
Proof. unfold comp_on. destruct (_ || _); apply on_same_output. Qed.

Lemma add_action_same_output c t e n w : same_output w (add_action c t e n w).
Proof.
  unfold add_action. destruct n as [r|].
  - apply comp_on_same_output.
  - unfold alloc_options.
    eapply same_output_trans; [|apply comp_on_same_output]. split; reflexivity.
Qed.

Lemma add_actions_same_output c w : same_output w (add_actions c w).
Proof.
  unfold add_actions. generalize (action_table (update (get_comp c w))) as l.
  intros l. generalize (same_output_refl w). generalize w at 2 4 as w1.
  induction l as [|[t r] l IH]; intros w1 H1; simpl; [exact H1|].
  apply IH. eapply same_output_trans; [exact H1|].
  destruct r; [apply add_action_same_output|apply add_action_same_output
              |apply same_output_refl].
Qed.

(** The state a component starts from: its own, or its model (or an
    empty object) when it was constructed without one. *)
Definition initial_state (x : Component) : Val :=
  match state x with
  | VUndefined => js_or (model x) (VObj [])
  | s => s
  end.

(** The registrations of [mount]: the history navigation handlers and
    the update handlers. *)
Definition register_handlers (c : nat) (e : MountOptions) (w : World) : World :=
  add_actions c
    (if history_truthy (o_history e)
     then comp_on c (next_name (o_history e)) (FHistoryNext c) None
            (comp_on c (prev_name (o_history e)) (FHistoryPrev c) None w)
     else w).

Lemma run_debug_other_events fuel args w w1 :
  quiet_debug w -> run (S fuel) Default "debug" args w = Ok tt w1 ->
  forall name, name <> "debug" -> default_events w1 !! name = default_events w !! name.
Proof.
  unfold quiet_debug. intros Hq Hr name Hne.
  destruct (default_events w !! "debug") as [subs|] eqn:He.
  - simpl in Hq. rewrite (run_opaque fuel Default "debug" args w subs He Hq) in Hr.
    injection Hr as <-. simpl. rewrite lookup_insert_ne by congruence.
    pose proof (events_of_foldl_invoke Default args subs w) as Hf. simpl in Hf.
    rewrite Hf. reflexivity.
  - rewrite (run_no_event fuel Default "debug" args w He) in Hr.
    injection Hr as <-. reflexivity.
Qed.

Lemma renderState_other_events fuel c t w w' :
  quiet_debug w -> renderState (S fuel) c t w = Ok tt w' ->
  forall name, name <> "debug" -> default_events w' !! name = default_events w !! name.
Proof.
  intros Hq Hr name Hne. unfold renderState, renderState_ in Hr.
  destruct (view (get_comp c w)) as [v|]; [|injection Hr as <-; reflexivity].
  destruct (run (S fuel) Default "debug" _ w) as [[] w1| |] eqn:Hd;
    cbn [bind] in Hr; try discriminate.
  rewrite <- (run_debug_other_events _ _ _ _ Hq Hd name Hne).
  destruct (resolve_element _ w1); [|injection Hr as <-; reflexivity].
  destruct (render_installed _); [|injection Hr as <-; reflexivity].
  destruct (rendered _); injection Hr as <-; reflexivity.
Qed.

Lemma setState_other_events fuel c t e w w' :
  quiet_debug w -> setState (S fuel) c t e w = Ok tt w' ->
  forall name, name <> "debug" -> default_events w' !! name = default_events w !! name.
Proof.
  intros Hq Hr name Hne. unfold setState, setState_ in Hr.
  destruct (is_promise t); [injection Hr as <-; reflexivity|].
  destruct (nullish t); [injection Hr as <-; reflexivity|].
  set (w1 := set_comp c (with_state t (get_comp c w)) w) in *.
  assert (Hmid : forall w2,
            (if render_flag e w1 then renderState_ (run (S fuel)) c t w1 else ret w1)
            = Ok tt w2 -> default_events w2 !! name = default_events w !! name).
  { intros w2 H2. destruct (render_flag e w1).
    - apply (renderState_other_events fuel c t w1 w2 Hq H2 name Hne).
    - injection H2 as <-. reflexivity. }
  destruct (if render_flag e w1 then _ else _) as [[] w2| |]; cbn [bind] in Hr;
    try discriminate.
  rewrite <- (Hmid w2 eq_refl).
  destruct (history_flag e w2 && enable_history (get_comp c w2));
    destruct (callback_of e _); injection Hr as <-; reflexivity.
Qed.

Lemma mount_unbound fuel c t e w :
  let x := get_comp c w in
  let e' := assign_options (default no_mount_options (comp_options x))
              (default no_mount_options e) in
  let w4 := register_handlers c e' (set_comp c (bound (normal_target t) e' x) w) in
  target_truthy (element x) = false ->
  quiet_debug w ->
  "debug" ∉ mount_names x e ->
  committed (initial_state x) ->
  exists w',
    mount (S fuel) c t e w = Ok tt w'
    /\ state (get_comp c w') = initial_state x
    /\ element (get_comp c w') = normal_target t
    /\ global_event (get_comp c w') = default false (o_global_event e')
    /\ enable_history (get_comp c w') = history_truthy (o_history e')
    /\ _history (get_comp c w')
       = (if history_truthy (o_history e')
          then _history x ++ [initial_state x] else _history x)
    /\ renders w'
       = renders w
         ++ (if default false (o_render e')
             then match view x, resolve_element (normal_target t) w with
                  | Some v, Some n =>
                      if render_installed w then [(n, v (initial_state x))] else []
                  | _, _ => []
                  end
             else [])
    /\ _app (get_comp c w') = _app (get_comp c w4)
    /\ (forall name, name <> "debug" ->
        default_events w' !! name = default_events w4 !! name).
Proof.
  intros x e' w4' Hb Hq Hn [Hp Hnl]. unfold mount. fold (normal_target t).
  fold x. rewrite Hb. cbn [negb console_assert]. fold e'.
  unfold register_handlers in w4'.
  set (w2 := set_comp c (bound (normal_target t) e' x) w) in *.
  assert (Hx2 : get_comp c w2 = bound (normal_target t) e' x)
    by apply get_comp_set_comp.
  rewrite Hx2. cbn [enable_history bound].
  unfold mount_names in Hn. fold x e' in Hn.
  set (w3 := if history_truthy (o_history e')
             then comp_on c (next_name (o_history e')) (FHistoryNext c) None
                    (comp_on c (prev_name (o_history e')) (FHistoryPrev c) None w2)
             else w2).
  assert (H3 : registered_from w2 w3 /\ same_output w2 w3).
  { unfold w3. destruct (history_truthy (o_history e')).
    - split.
      + eapply registered_from_trans; apply comp_on_registered;
          intros Heq; apply Hn; rewrite <- Heq; apply elem_of_app; left;
          [left|right; left].
      + eapply same_output_trans; apply comp_on_same_output.
    - split; [apply registered_from_refl|apply same_output_refl]. }
  destruct H3 as [H3 S3].
  assert (H4 : registered_from w3 (add_actions c w3)).
  { apply add_actions_registered.
    destruct H3 as (_ & Hs & _). specialize (Hs c).
    apply (f_equal update) in Hs. simpl in Hs. rewrite Hs, Hx2. simpl.
    intros Hin. apply Hn. apply elem_of_app. right. exact Hin. }
  pose proof (add_actions_same_output c w3) as S4.
  set (w4 := add_actions c w3) in *.
  assert (H24 : registered_from w2 w4) by (eapply registered_from_trans; eassumption).
  assert (S24 : same_output w2 w4) by (eapply same_output_trans; eassumption).
  destruct H24 as (Hk4 & Hs4 & Hd4). destruct S24 as (Hr4 & Hh4).
  specialize (Hs4 c). rewrite Hx2 in Hs4.
  assert (Hq4 : quiet_debug w4) by (unfold quiet_debug; rewrite Hd4; exact Hq).
  set (x4 := get_comp c w4) in *.
  assert (F : state x4 = state x /\ view x4 = view x /\ model x4 = model x
              /\ _history x4 = _history x /\ element x4 = normal_target t
              /\ global_event x4 = default false (o_global_event e')
              /\ enable_history x4 = history_truthy (o_history e')).
  { repeat split.
    - apply (f_equal state) in Hs4. exact Hs4.
    - apply (f_equal view) in Hs4. exact Hs4.
    - apply (f_equal model) in Hs4. exact Hs4.
    - apply (f_equal _history) in Hs4. exact Hs4.
    - apply (f_equal element) in Hs4. exact Hs4.
    - apply (f_equal global_event) in Hs4. exact Hs4.
    - apply (f_equal enable_history) in Hs4. exact Hs4. }
  destruct F as (F1 & F2 & F3 & F4 & F5 & F6 & F7).
  set (w5 := match state x4 with
             | VUndefined => set_comp c (with_state (js_or (model x4) (VObj [])) x4) w4
             | _ => w4
             end).
  assert (H5 : exists x5, get_comp c w5 = x5 /\ state x5 = initial_state x
               /\ view x5 = view x /\ _history x5 = _history x
               /\ element x5 = normal_target t
               /\ global_event x5 = default false (o_global_event e')
               /\ enable_history x5 = history_truthy (o_history e')
               /\ quiet_debug w5 /\ renders w5 = renders w
               /\ host_part w5 = host_part w
               /\ _app x5 = _app x4 /\ default_events w5 = default_events w4).
  { unfold w5, initial_state. rewrite <- F1, <- F3.
    destruct (state x4) eqn:Es;
      try (exists x4; rewrite ?Es; repeat split; assumption).
    eexists. split; [apply get_comp_set_comp|]. simpl. repeat split; assumption. }
  destruct H5 as (x5 & Hx5 & G1 & G2 & G3 & G4 & G5 & G6 & Hq5 & Hr5 & Hh5 & Ga & Gd).
  rewrite Hx5, G1.
  assert (Hfin : forall r : bool, exists w',
            setState (S fuel) c (initial_state x) (OLit (Some r) (Some true)) w5 = Ok tt w'
            /\ state (get_comp c w') = initial_state x
            /\ element (get_comp c w') = normal_target t
            /\ global_event (get_comp c w') = default false (o_global_event e')
            /\ enable_history (get_comp c w') = history_truthy (o_history e')
            /\ _history (get_comp c w')
               = (if history_truthy (o_history e')
                  then _history x ++ [initial_state x] else _history x)
            /\ renders w'
               = renders w
                 ++ (if r
                     then match view x, resolve_element (normal_target t) w with
                          | Some v, Some n =>
                              if render_installed w then [(n, v (initial_state x))] else []
                          | _, _ => []
                          end
                     else [])
            /\ _app (get_comp c w') = _app x4
            /\ (forall name, name <> "debug" ->
                default_events w' !! name = default_events w4 !! name)).
  { intros r.
    destruct (setState_quiet fuel c (initial_state x) (OLit (Some r) (Some true)) w5
                Hq5 Hp Hnl) as (w' & tl & Hr & Hc & Hrend & _).
    exists w'. split; [exact Hr|].
    rewrite (get_comp_of_insert _ _ _ _ Hc), Hx5. unfold commit. simpl.
    rewrite G6.
    split; [destruct (history_truthy _); reflexivity|].
    split; [destruct (history_truthy _); exact G4|].
    split; [destruct (history_truthy _); exact G5|].
    split; [destruct (history_truthy _); exact G6|].
    split; [destruct (history_truthy _); simpl; rewrite G3; reflexivity|].
    split.
    { rewrite Hrend, Hr5. f_equal. destruct r; simpl; [|reflexivity].
      unfold render_out. rewrite get_comp_set_comp. simpl. rewrite Hx5, G2, G4.
      unfold host_part in Hh5. injection Hh5 as _ _ Hd Hi.
      unfold resolve_element, set_comp; simpl. rewrite Hd, Hi. reflexivity. }
    split; [destruct (history_truthy _); exact Ga|].
    intros name Hne. rewrite <- Gd.
    apply (setState_other_events fuel c _ _ w5 w' Hq5 Hr name Hne). }
  destruct (default false (o_render e')); apply Hfin.
Qed.

(** X8.  Mounting a component that is not bound yet binds it to the
    target and commits its initial state: that state is rendered exactly
    when the merged options ask for it ([render] truthy), and it becomes
    the next history entry exactly when history is enabled. *)
Theorem first_mount_commits_initial_state fuel c t e w :
  let x := get_comp c w in
  let e' := assign_options (default no_mount_options (comp_options x))
              (default no_mount_options e) in
  target_truthy (element x) = false ->
  quiet_debug w ->
  "debug" ∉ mount_names x e ->
  committed (initial_state x) ->
  exists w',
    mount (S fuel) c t e w = Ok tt w'
    /\ state (get_comp c w') = initial_state x
    /\ element (get_comp c w') = normal_target t
    /\ global_event (get_comp c w') = default false (o_global_event e')
    /\ enable_history (get_comp c w') = history_truthy (o_history e')
    /\ _history (get_comp c w')
       = (if history_truthy (o_history e')
          then _history x ++ [initial_state x] else _history x)
    /\ renders w'
       = renders w
         ++ (if default false (o_render e')
             then match view x, resolve_element (normal_target t) w with
                  | Some v, Some n =>
                      if render_installed w then [(n, v (initial_state x))] else []
                  | _, _ => []
                  end
             else []).
Proof.
  intros x e' Hb Hq Hn Hc.
  destruct (mount_unbound fuel c t e w Hb Hq Hn Hc)
    as (w' & H1 & H2 & H3 & H4 & H5 & H6 & H7 & _).
  exists w'. repeat (split; [assumption|]). assumption.
Qed.

Lemma first_mount_commits_initial_state_witness :
  exists w',
    mount 1 0 (TNode 7) (Some history_on) (create counter init_world).2 = Ok tt w'
    /\ state (get_comp 0 w') = VNum 0
    /\ element (get_comp 0 w') = TNode 7
    /\ global_event (get_comp 0 w') = false
    /\ enable_history (get_comp 0 w') = true
    /\ _history (get_comp 0 w') = [VNum 0]
    /\ renders w' = renders (create counter init_world).2 ++ [(7, VNum 0)].
Proof.
  apply (first_mount_commits_initial_state 0 0 (TNode 7) (Some history_on)
           (create counter init_world).2).
  - reflexivity.
  - unfold quiet_debug. vm_compute. repeat constructor.
  - vm_compute. intros H. repeat (apply elem_of_cons in H as [H|H]; [discriminate|]).
    inversion H.
  - split; reflexivity.
Defined.

(** ** Module 1: [app.start] *)

Definition with_rendered (cb : option nat) (x : Component) : Component :=
  {| state := state x; view := view x; update := update x;
     comp_options := comp_options x; model := model x; _app := _app x;
     _history := _history x; _history_idx := _history_idx x;
     element := element x; global_event := global_event x;
     enable_history := enable_history x; rendered := cb |}.

(** [Object.assign(o || {}, {render: true, global_event: true})] *)
Definition start_options (o : option MountOptions) : MountOptions :=
  assign_options (default no_mount_options o)
    {| o_render := Some true; o_history := None; o_global_event := Some true |}.

(** [app.start(t, e, n, r, o)]: [e] is the model, [n] the view, [r] the
    update map, [o] the options and [cb] their [rendered] callback. *)
Definition start (fuel : nat) (t : Target) (e : Val) (n : option (Val -> Val))
    (r : list (string * UpdateEntry)) (o : option MountOptions) (cb : option nat)
    (w : World) : Res nat :=
  let a := start_options o in
  let '(c, w1) := create (new_component e n r None) w in
  let w2 := match o, cb with
            | Some _, Some f => set_comp c (with_rendered (Some f) (get_comp c w1)) w1
            | _, _ => w1
            end in
  do _ <- mount fuel c t (Some a) w2 in fun w3 => Ok c w3.

(** Subscription [s] is registered for [name] on the default bus. *)
Definition subscribed (name : string) (s : Sub) (w : World) : Prop :=
  exists l, default_events w !! name = Some l /\ s ∈ l.

Lemma on_default_keeps name s t f n w :
  subscribed name s w -> subscribed name s (on Default t f n w).
Proof.
  intros (l & Hl & Hs). unfold on, subscribed.
  destruct n as [r|]; simpl.
  - destruct (decide (t = name)) as [->|Hne].
    + rewrite lookup_insert_eq, Hl. simpl. eexists. split; [reflexivity|].
      apply elem_of_app. left. exact Hs.
    + rewrite lookup_insert_ne by exact Hne. eauto.
  - destruct (decide (t = name)) as [->|Hne].
    + rewrite lookup_insert_eq, Hl. simpl. eexists. split; [reflexivity|].
      apply elem_of_app. left. exact Hs.
    + rewrite lookup_insert_ne by exact Hne. eauto.
Qed.

Lemma on_default_adds t f r w :
  subscribed t {| fn := f; options := r |} (on Default t f (Some r) w).
Proof.
  unfold on, subscribed. simpl. rewrite lookup_insert_eq. eexists.
  split; [reflexivity|]. apply elem_of_app. right. left.
Qed.

Lemma comp_on_global c t f n w :
  global_event (get_comp c w) = true -> comp_on c t f n w = on Default t f n w.
Proof. intros H. unfold comp_on. rewrite H. reflexivity. Qed.

Lemma add_action_global c t u n w :
  global_event (get_comp c w) = true ->
  comps (add_action c t u n w) = comps w
  /\ (forall name s, subscribed name s w -> subscribed name s (add_action c t u n w))
  /\ exists k, subscribed t {| fn := FAction c t u k; options := k |}
                 (add_action c t u n w).
Proof.
  intros Hg. unfold add_action. destruct n as [r|].
  - rewrite (comp_on_global _ _ _ _ _ Hg).
    split; [apply on_default_comps|].
    split; [intros name s; apply on_default_keeps|].
    exists r. apply on_default_adds.
  - unfold alloc_options. set (r := fresh (dom (heap w))).
    rewrite (comp_on_global c t _ (Some r) (set_opts r empty_options w) Hg).
    split; [rewrite on_default_comps; reflexivity|].
    split; [intros name s Hs; apply on_default_keeps; exact Hs|].
    exists r. apply on_default_adds.
Qed.

Lemma add_actions_fold_global c (l : list (string * UpdateEntry)) : forall w,
  global_event (get_comp c w) = true ->
  let w' := fold_left
              (fun w '(t, r) =>
                 match r with
                 | UFn e => add_action c t e None w
                 | UPair e n => add_action c t e n w
                 | UOther => w
                 end) l w in
  comps w' = comps w
  /\ (forall name s, subscribed name s w -> subscribed name s w')
  /\ (forall name entry u,
        (name, entry) ∈ l -> (entry = UFn u \/ exists n, entry = UPair u n) ->
        exists k, subscribed name {| fn := FAction c name u k; options := k |} w').
Proof.
  induction l as [|[t r] l IH]; intros w Hg; cbn [fold_left].
  - split; [reflexivity|]. split; [auto|]. intros name entry u Hin. inversion Hin.
  - set (w1 := match r with
               | UFn e => add_action c t e None w
               | UPair e n => add_action c t e n w
               | UOther => w
               end).
    assert (H1 : comps w1 = comps w
                 /\ (forall name s, subscribed name s w -> subscribed name s w1)
                 /\ (forall u, (r = UFn u \/ exists n, r = UPair u n) ->
                       exists k, subscribed t {| fn := FAction c t u k; options := k |} w1)).
    { unfold w1. destruct r as [e|e n|].
      - destruct (add_action_global c t e None w Hg) as (A & B & C).
        split; [exact A|]. split; [exact B|].
        intros u [Hu|[n Hu]]; [injection Hu as <-; exact C|discriminate].
      - destruct (add_action_global c t e n w Hg) as (A & B & C).
        split; [exact A|]. split; [exact B|].
        intros u [Hu|[n' Hu]]; [discriminate|injection Hu as <- _; exact C].
      - split; [reflexivity|]. split; [auto|].
        intros u [Hu|[n Hu]]; discriminate. }
    destruct H1 as (A1 & B1 & C1).
    destruct (IH w1) as (A & B & C).
    { rewrite (get_comp_eq c w1 w A1). exact Hg. }
    split; [rewrite A; exact A1|]. split; [intros name s Hs; apply B, B1, Hs|].
    intros name entry u Hin Hu. apply elem_of_cons in Hin as [Heq|Hin].
    + injection Heq as -> ->. destruct (C1 u Hu) as [k Hk]. exists k. apply B, Hk.
    + eapply C; eassumption.
Qed.

Lemma register_handlers_global c e w :
  global_event (get_comp c w) = true ->
  let w4 := register_handlers c e w in
  comps w4 = comps w
  /\ forall name entry u,
       (name, entry) ∈ action_table (update (get_comp c w)) ->
       (entry = UFn u \/ exists n, entry = UPair u n) ->
       exists k, subscribed name {| fn := FAction c name u k; options := k |} w4.
Proof.
  intros Hg. unfold register_handlers.
  set (w3 := if history_truthy (o_history e)
             then comp_on c (next_name (o_history e)) (FHistoryNext c) None
                    (comp_on c (prev_name (o_history e)) (FHistoryPrev c) None w)
             else w).
  assert (H3 : comps w3 = comps w).
  { unfold w3. destruct (history_truthy _); [|reflexivity].
    rewrite (comp_on_global c (prev_name _) _ _ w Hg).
    rewrite comp_on_global.
    - rewrite !on_default_comps. reflexivity.
    - rewrite (get_comp_eq c _ w (on_default_comps _ _ _ w)). exact Hg. }
  assert (Hg3 : global_event (get_comp c w3) = true)
    by (rewrite (get_comp_eq c w3 w H3); exact Hg).
  unfold add_actions. rewrite (get_comp_eq c w3 w H3).
  destruct (add_actions_fold_global c (action_table (update (get_comp c w))) w3 Hg3)
    as (A & _ & C).
  split; [rewrite A; exact H3|exact C].
Qed.

Lemma assign_onto_nothing a : assign_options no_mount_options a = a.
Proof. destruct a as [[?|] [?|] [?|]]; reflexivity. Qed.



(** * Module 4: the router *)

(** [t.indexOf(c)]; [None] is [-1]. *)
Fixpoint index_of (c : ascii) (s : string) : option nat :=
  match s with
  | EmptyString => None
  | String a s' => if Ascii.eqb a c then Some 0 else option_map S (index_of c s')
  end.

(** [Router.prototype.route(t)]: the event named by the first segment of
    the URL is dispatched with the other segments as arguments, then the
    catch-all event ["//"] with all segments. *)
Definition router_route (fuel : nat) (t : string) (w : World) : Res unit :=
  let t := if String.eqb t "" then "#" else t in
  match index_of "/" t with
  | Some (S _) =>
      let e := split_on "/" t in
      let n := hd "" e in
      let i := map VStr (tl e) in
      do _ <- run fuel Default n i w in fun w1 =>
      run fuel Default "//" (VStr n :: i) w1
  | _ =>
      do _ <- run fuel Default t [] w in fun w1 => run fuel Default "//" [VStr t] w1
  end.

Lemma split_on_cons sep s : exists x xs, split_on sep s = x :: xs.
Proof.
  induction s as [|a s IH]; simpl; [eauto|].
  destruct (Ascii.eqb a sep); [eauto|].
  destruct IH as (x & xs & ->). eauto.
Qed.

(** Joining the parts with the separator gives the string back. *)
Lemma split_on_join sep s :
  String.concat (String sep "") (split_on sep s) = s.
Proof.
  induction s as [|a s IH]; [reflexivity|]. simpl.
  destruct (split_on_cons sep s) as (x & xs & Hs). rewrite Hs in IH |- *.
  destruct (Ascii.eqb a sep) eqn:E.
  - apply Ascii.eqb_eq in E. subst a.
    change (String.concat (String sep "") ("" :: x :: xs))
      with (String sep (String.concat (String sep "") (x :: xs))).
    rewrite IH. reflexivity.
  - destruct xs as [|y ys].
    + simpl in IH |- *. rewrite IH. reflexivity.
    + change (String.concat (String sep "") (String a x :: y :: ys))
        with (String a (String.concat (String sep "") (x :: y :: ys))).
      rewrite IH. reflexivity.
Qed.

(** No part contains the separator. *)
Lemma split_on_parts sep s :
  Forall (fun p => index_of sep p = None) (split_on sep s).
Proof.
  induction s as [|a s IH]; simpl.
  - repeat constructor.
  - destruct (Ascii.eqb a sep) eqn:E.
    + constructor; [reflexivity|exact IH].
    + destruct (split_on sep s) as [|x xs]; [repeat constructor; simpl; rewrite E; reflexivity|].
      apply Forall_cons in IH as [Hx Hxs]. constructor; [|exact Hxs].
      simpl. rewrite E, Hx. reflexivity.
Qed.

(** The first part is the prefix in front of the first separator. *)
Lemma split_on_head sep s k :
  index_of sep s = Some k -> hd "" (split_on sep s) = String.substring 0 k s.
Proof.
  revert k. induction s as [|a s IH]; intros k; simpl; [discriminate|].
  destruct (Ascii.eqb a sep) eqn:E.
  - intros [= <-]. reflexivity.
  - destruct (index_of sep s) as [j|]; [|discriminate]. intros [= <-].
    specialize (IH j eq_refl).
    destruct (split_on sep s) as [|x xs]; simpl in IH |- *.
    + rewrite <- IH. reflexivity.
    + rewrite IH. reflexivity.
Qed.

(** X10.  Routing a URL.  When the first ["/"] of the URL is behind its
    first character, the URL is split at every ["/"]: the event named by
    the first part is dispatched on the default bus with the other parts
    as arguments, and then ["//"] with all parts; the parts contain no
    ["/"] and, joined by ["/"], give the URL back.  A URL without ["/"],
    or one that begins with ["/"], is dispatched whole, without
    arguments, and the empty URL is routed as ["#"]. *)
Theorem route_dispatches_first_segment fuel t w :
  (forall k, index_of "/" t = Some (S k) ->
     exists name args,
       router_route fuel t w
       = (do _ <- run fuel Default name (map VStr args) w in fun w1 =>
          run fuel Default "//" (VStr name :: map VStr args) w1)
       /\ name = String.substring 0 (S k) t
       /\ String.concat "/" (name :: args) = t
       /\ Forall (fun p => index_of "/" p = None) (name :: args))
  /\ (t <> "" -> (index_of "/" t = None \/ index_of "/" t = Some 0) ->
      router_route fuel t w
      = (do _ <- run fuel Default t [] w in fun w1 => run fuel Default "//" [VStr t] w1))
  /\ router_route fuel "" w = router_route fuel "#" w.
Proof.
  split; [|split].
  - intros k Hk. unfold router_route.
    assert (Hne : String.eqb t "" = false) by (destruct t; [discriminate|reflexivity]).
    rewrite Hne, Hk. cbn zeta.
    destruct (split_on_cons "/" t) as (x & xs & Hs).
    exists x, xs. rewrite Hs. cbn [hd tl].
    split; [reflexivity|].
    split; [rewrite <- (split_on_head "/" t (S k) Hk), Hs; reflexivity|].
    split; [rewrite <- Hs; apply split_on_join|].
    rewrite <- Hs. apply split_on_parts.
  - intros Hne H. unfold router_route.
    assert (He : String.eqb t "" = false).
    { destruct t; [contradiction|reflexivity]. }
    rewrite He. destruct H as [-> | ->]; reflexivity.
  - reflexivity.
Qed.

Lemma route_dispatches_first_segment_witness :
  exists name args,
    router_route 1 "#users/7/edit" init_world
    = (do _ <- run 1 Default name (map VStr args) init_world in fun w1 =>
       run 1 Default "//" (VStr name :: map VStr args) w1)
    /\ name = "#users"
    /\ String.concat "/" (name :: args) = "#users/7/edit"
    /\ Forall (fun p => index_of "/" p = None) (name :: args).
Proof.
  apply (proj1 (route_dispatches_first_segment 1 "#users/7/edit" init_world) 5).
  reflexivity.
Defined.

(** ** Undo followed by redo *)

Lemma render_out_eq c t w1 w :
  view (get_comp c w1) = view (get_comp c w) ->
  element (get_comp c w1) = element (get_comp c w) ->
  host_part w1 = host_part w ->
  render_out c t w1 = render_out c t w.
Proof.
  intros Hv He Hh. unfold render_out.
  rewrite Hv, He, (resolve_element_eq _ w1 w Hh), (render_installed_eq w1 w Hh).
  reflexivity.
Qed.

Lemma with_state_same x : with_state (state x) x = x.
Proof. destruct x; reflexivity. Qed.

(** X21.  Undo followed by redo.  With the cursor on an entry that has
    a predecessor, the history-prev closure commits and renders the
    previous entry, and the history-next closure after it commits and
    renders the entry the cursor was on: cursor and history are as
    before, no other component is touched, and a component whose state
    was the entry under the cursor is exactly as it was. *)
Theorem undo_then_redo_restores fuel c args1 args2 w :
  quiet_debug w ->
  Forall committed (_history (get_comp c w)) ->
  (1 <= _history_idx (get_comp c w)
     < Z.of_nat (length (_history (get_comp c w))))%Z ->
  let x := get_comp c w in
  let i := _history_idx x in
  exists w1 w2,
    apply_fn (run (S fuel)) (FHistoryPrev c) args1 w = Ok tt w1
    /\ apply_fn (run (S fuel)) (FHistoryNext c) args2 w1 = Ok tt w2
    /\ state (get_comp c w1) = history_at x (i - 1)
    /\ _history_idx (get_comp c w1) = (i - 1)%Z
    /\ get_comp c w2 = with_state (history_at x i) x
    /\ (state x = history_at x i -> get_comp c w2 = x)
    /\ (forall c', c' <> c -> get_comp c' w2 = get_comp c' w)
    /\ renders w2
       = renders w ++ render_out c (history_at x (i - 1)) w
                   ++ render_out c (history_at x i) w.
Proof.
  intros Hq Hall [Hlo Hhi] x i.
  destruct (history_prev_spec fuel c w Hq Hall Hhi)
    as (w1 & tl1 & Hr1 & Hc1 & Hrend1 & Hhost1 & _ & Hq1).
  fold x i in Hc1, Hrend1.
  assert (E1 : (1 <=? i)%Z = true) by (apply Z.leb_le; exact Hlo).
  rewrite E1 in Hc1, Hrend1.
  pose proof (get_comp_of_insert _ _ _ _ Hc1) as Hx1.
  assert (Hall1 : Forall committed (_history (get_comp c w1))).
  { rewrite Hx1. exact Hall. }
  assert (Hge1 : (-1 <= _history_idx (get_comp c w1))%Z).
  { rewrite Hx1. simpl. lia. }
  destruct (history_next_spec fuel c w1 Hq1 Hall1 Hge1)
    as (w2 & tl2 & Hr2 & Hc2 & Hrend2 & _).
  rewrite Hx1 in Hc2, Hrend2.
  cbn [_history _history_idx with_state with_history] in Hc2, Hrend2.
  replace (i - 1 + 1)%Z with i in Hc2, Hrend2 by lia.
  assert (E2 : (i <? Z.of_nat (length (_history x)))%Z = true)
    by (apply Z.ltb_lt; exact Hhi).
  rewrite E2 in Hc2, Hrend2.
  change (history_at (with_state (history_at x (i - 1))
                        (with_history (_history x) (i - 1) x)) i)
    with (history_at x i) in Hc2, Hrend2.
  assert (Hx2 : get_comp c w2 = with_state (history_at x i) x).
  { rewrite (get_comp_of_insert _ _ _ _ Hc2). unfold with_state, with_history.
    simpl. unfold i. destruct x; reflexivity. }
  exists w1, w2. split; [exact Hr1|]. split; [exact Hr2|].
  split; [rewrite Hx1; reflexivity|]. split; [rewrite Hx1; reflexivity|].
  split; [exact Hx2|].
  split; [intros Hs; rewrite Hx2, <- Hs; apply with_state_same|].
  split.
  - intros c' Hne. unfold get_comp. rewrite Hc2, Hc1.
    rewrite !lookup_insert_ne by congruence. reflexivity.
  - rewrite Hrend2, Hrend1, <- app_assoc. f_equal. f_equal.
    apply render_out_eq; [rewrite Hx1; reflexivity|rewrite Hx1; reflexivity|exact Hhost1].
Qed.

Lemma undo_then_redo_restores_witness :
  let w := world_of (undo_scenario 0) in
  exists w1 w2,
    apply_fn (run 1) (FHistoryPrev 0) [] w = Ok tt w1
    /\ apply_fn (run 1) (FHistoryNext 0) [] w1 = Ok tt w2
    /\ state (get_comp 0 w1) = VNum 1
    /\ _history_idx (get_comp 0 w1) = 1%Z
    /\ get_comp 0 w2 = get_comp 0 w
    /\ renders w2 = renders w ++ [(7, VNum 1)] ++ [(7, VNum 2)].
Proof.
  intros w.
  destruct (undo_then_redo_restores 0 0 [] [] w)
    as (w1 & w2 & H1 & H2 & H3 & H4 & _ & H6 & _ & H8).
  - unfold quiet_debug. vm_compute. repeat constructor.
  - vm_compute. repeat constructor.
  - vm_compute. split; [discriminate|reflexivity].
  - exists w1, w2. split; [exact H1|]. split; [exact H2|].
    split; [rewrite H3; reflexivity|]. split; [rewrite H4; reflexivity|].
    split; [apply H6; reflexivity|]. rewrite H8. reflexivity.
Defined.

(** ** The [start] closure of a component *)

Definition render_only : MountOptions :=
  {| o_render := Some true; o_history := None; o_global_event := None |}.

(** [__assign({}, e, {render: true})], [e] defaulting to
    [{render: true}]. *)
Definition comp_start_options (e : option MountOptions) : MountOptions :=
  assign_options (assign_options no_mount_options (default render_only e)) render_only.

(** The closure [this.start] that the constructor installs:
    [function (t, e) { ... return a.mount(t, __assign({}, e, {render: true})) }],
    with [t] defaulting to [null]. *)
Definition comp_start (fuel : nat) (c : nat) (t : Target) (e : option MountOptions)
    (w : World) : Res unit :=
  mount fuel c (normal_target t) (Some (comp_start_options e)) w.

Lemma comp_start_options_spec a e :
  let m := assign_options a (comp_start_options e) in
  let m' := assign_options a (default no_mount_options e) in
  o_render m = Some true
  /\ o_history m = o_history m'
  /\ o_global_event m = o_global_event m'.
Proof.
  destruct a as [ar ah ag]. destruct e as [[er eh eg]|]; simpl.
  - destruct eh, eg; repeat split; reflexivity.
  - repeat split; reflexivity.
Qed.

(** X22.  The [start] closure of a component mounts it with [render]
    forced on and nothing else forced: on a component that is not bound
    yet, the initial state is committed and rendered even when the
    options of the component and of the call say [render: false], while
    [global_event] and [history] come from the merged options as for
    [mount]. *)
Theorem component_start_renders_initial_state fuel c t e w :
  let x := get_comp c w in
  let e' := assign_options (default no_mount_options (comp_options x))
              (default no_mount_options e) in
  target_truthy (element x) = false ->
  quiet_debug w ->
  "debug" ∉ mount_names x e ->
  committed (initial_state x) ->
  exists w',
    comp_start (S fuel) c t e w = Ok tt w'
    /\ state (get_comp c w') = initial_state x
    /\ element (get_comp c w') = normal_target t
    /\ global_event (get_comp c w') = default false (o_global_event e')
    /\ enable_history (get_comp c w') = history_truthy (o_history e')
    /\ renders w'
       = renders w
         ++ match view x, resolve_element (normal_target t) w with
            | Some v, Some n =>
                if render_installed w then [(n, v (initial_state x))] else []
            | _, _ => []
            end.
Proof.
  intros x e' Hb Hq Hn Hc. unfold comp_start.
  destruct (comp_start_options_spec (default no_mount_options (comp_options x)) e)
    as (S1 & S2 & S3).
  cbn zeta in S1, S2, S3. fold e' in S2, S3.
  destruct (mount_unbound fuel c (normal_target t) (Some (comp_start_options e)) w)
    as (w' & Hm & M1 & M2 & M3 & M4 & _ & M6 & _); fold x.
  - exact Hb.
  - exact Hq.
  - unfold mount_names in Hn |- *. fold x in Hn |- *.
    change (default no_mount_options (Some (comp_start_options e)))
      with (comp_start_options e).
    rewrite S2. exact Hn.
  - exact Hc.
  - fold x in M1, M2, M3, M4, M6.
    change (default no_mount_options (Some (comp_start_options e)))
      with (comp_start_options e) in M3, M4, M6.
    rewrite S3 in M3. rewrite S2 in M4. rewrite S1 in M6.
    assert (Hnn : normal_target (normal_target t) = normal_target t)
      by (destruct t; reflexivity).
    rewrite Hnn in M2, M6.
    exists w'. split; [exact Hm|]. split; [exact M1|]. split; [exact M2|].
    split; [exact M3|]. split; [exact M4|exact M6].
Qed.

Definition quiet_options : MountOptions :=
  {| o_render := Some false; o_history := None; o_global_event := None |}.

Lemma component_start_renders_initial_state_witness :
  let w := (create (new_component (VNum 0) (Some (fun s => s)) [] (Some quiet_options))
              init_world).2 in
  exists w',
    comp_start 1 0 (TNode 7) (Some quiet_options) w = Ok tt w'
    /\ state (get_comp 0 w') = VNum 0
    /\ element (get_comp 0 w') = TNode 7
    /\ global_event (get_comp 0 w') = false
    /\ enable_history (get_comp 0 w') = false
    /\ renders w' = renders w ++ [(7, VNum 0)].
Proof.
  intros w.
  apply (component_start_renders_initial_state 0 0 (TNode 7) (Some quiet_options) w).
  - reflexivity.
  - unfold quiet_debug. vm_compute. repeat constructor.
  - vm_compute. intros H. inversion H.
  - split; reflexivity.
Defined.

(** ** What a commit calls, and in which order *)

(** The payload of the debug event of [renderState]. *)
Definition render_payload (c : nat) (t : Val) (v : Val -> Val) : list Val :=
  [VObj [("component", VComp c); ("state", t);
         ("vdom", js_or (v t) (VStr "[vdom is null - no render]"))]].

(** X26.  The calls of one commit of a present value, in order: when
    the commit renders and the component has a view, first the
    subscribers of the debug event, with the component, the new state
    and the new view output; then, if the mount target resolves and a
    renderer is installed, the [rendered] callback of the component,
    with the new state; and last, rendering or not, the [callback] of
    the commit options, with the new state. *)
Theorem commit_notifies_in_order fuel c t e w subs :
  default_events w !! "debug" = Some subs ->
  Forall (fun r => opaque (fn r) = true) subs ->
  Forall (plain w) subs ->
  committed t ->
  let x := get_comp c w in
  exists w',
    setState (S fuel) c t e w = Ok tt w'
    /\ trace w'
       = trace w
         ++ (if render_flag e w then
               match view x with
               | Some v =>
                   concat (map (call_of (render_payload c t v)) subs)
                   ++ match resolve_element (element x) w, rendered x with
                      | Some _, Some cb => if render_installed w then [(cb, [t])] else []
                      | _, _ => []
                      end
               | None => []
               end
             else [])
         ++ match callback_of e w with
            | Some cb => [(cb, [t])]
            | None => []
            end.
Proof.
  intros Hd Hop Hpl [Hp Hn] x. unfold setState, setState_. rewrite Hp, Hn.
  set (w1 := set_comp c (with_state t (get_comp c w)) w). fold x in w1.
  assert (Hrf : render_flag e w1 = render_flag e w) by (destruct e; reflexivity).
  assert (Hx1 : get_comp c w1 = with_state t x) by apply get_comp_set_comp.
  rewrite Hrf.
  assert (Hmid : exists w2,
    (if render_flag e w then renderState_ (run (S fuel)) c t w1 else ret w1) = Ok tt w2
    /\ comps w2 = comps w1 /\ heap w2 = heap w
    /\ trace w2
       = trace w
         ++ (if render_flag e w then
               match view x with
               | Some v =>
                   concat (map (call_of (render_payload c t v)) subs)
                   ++ match resolve_element (element x) w, rendered x with
                      | Some _, Some cb => if render_installed w then [(cb, [t])] else []
                      | _, _ => []
                      end
               | None => []
               end
             else [])).
  { destruct (render_flag e w).
    2:{ exists w1. rewrite app_nil_r. repeat split. }
    unfold renderState_. rewrite Hx1. cbn [view with_state].
    destruct (view x) as [v|].
    2:{ exists w1. rewrite app_nil_r. repeat split. }
    fold (render_payload c t v).
    rewrite (run_plain fuel Default "debug" (render_payload c t v) w1 subs Hd Hop Hpl).
    cbn [bind].
    set (calls := concat (map (call_of (render_payload c t v)) subs)).
    change (get_comp c (log_calls calls w1)) with (get_comp c w1). rewrite Hx1.
    cbn [element with_state].
    change (resolve_element (element x) (log_calls calls w1))
      with (resolve_element (element x) w).
    destruct (resolve_element (element x) w) as [n|].
    2:{ eexists. split; [reflexivity|]. rewrite app_nil_r. repeat split. }
    change (render_installed (set_node_component n c (log_calls calls w1)))
      with (render_installed w).
    destruct (render_installed w).
    2:{ eexists. split; [reflexivity|].
        destruct (rendered x); rewrite app_nil_r; repeat split. }
    change (get_comp c (log_render n (v t) (set_node_component n c (log_calls calls w1))))
      with (get_comp c w1). rewrite Hx1. cbn [rendered state with_state].
    destruct (rendered x) as [cb|].
    - eexists. split; [reflexivity|]. split; [reflexivity|]. split; [reflexivity|].
      simpl. rewrite <- app_assoc. reflexivity.
    - eexists. split; [reflexivity|]. split; [reflexivity|]. split; [reflexivity|].
      simpl. rewrite app_nil_r. reflexivity. }
  destruct Hmid as (w2 & Hr & Hc2 & Hh2 & Ht2).
  rewrite Hr. cbn [bind].
  match goal with
  | |- exists w', match callback_of e ?w3 with _ => _ end = _ /\ _ =>
      assert (H3 : trace w3 = trace w2 /\ callback_of e w3 = callback_of e w
                   /\ state (get_comp c w3) = t);
      [|set (w3' := w3) in *]
  end.
  { assert (Hg2 : get_comp c w2 = with_state t x).
    { rewrite (get_comp_eq c w2 w1 Hc2). exact Hx1. }
    assert (Hcb : callback_of e w2 = callback_of e w).
    { destruct e as [|n]; [reflexivity|]. simpl. unfold get_opts. rewrite Hh2.
      reflexivity. }
    destruct (history_flag e w2 && enable_history (get_comp c w2)).
    - split; [reflexivity|]. split; [exact Hcb|].
      rewrite get_comp_set_comp, Hg2. reflexivity.
    - split; [reflexivity|]. split; [exact Hcb|]. rewrite Hg2. reflexivity. }
  destruct H3 as (Ht3 & Hcb3 & Hs3). rewrite Hcb3.
  destruct (callback_of e w) as [cb|].
  - eexists. split; [reflexivity|]. simpl. rewrite Ht3, Ht2, Hs3, <- app_assoc.
    reflexivity.
  - eexists. split; [reflexivity|]. rewrite Ht3, Ht2, app_nil_r. reflexivity.
Qed.

(** The counter with a [rendered] callback (handler 8), and an options
    object with a [callback] (handler 9); handler 3 listens to debug. *)
Definition observed_counter : World :=
  let w := on Default "debug" (FUser 3) None mounted_counter in
  set_comp 0 (with_rendered (Some 8) (get_comp 0 w)) w.

Lemma commit_notifies_in_order_witness :
  exists w',
    setState 1 0 (VNum 5) (OLit None None) observed_counter = Ok tt w'
    /\ trace w'
       = trace observed_counter
         ++ ([(3, render_payload 0 (VNum 5) (fun s => s))] ++ [(8, [VNum 5])]) ++ [].
Proof.
  destruct (commit_notifies_in_order 0 0 (VNum 5) (OLit None None) observed_counter
              (default [] (default_events observed_counter !! "debug")))
    as (w' & H1 & H2).
  - vm_compute. reflexivity.
  - vm_compute. repeat constructor.
  - vm_compute. repeat constructor.
  - split; reflexivity.
  - exists w'. split; [exact H1|]. rewrite H2. vm_compute. reflexivity.
Defined.

(** ** One event, several components *)

(** An update handler [e] of component [c], registered under the
    options object [n]. *)
Definition Handler : Type := nat * UpdateFn * nat.

Definition h_comp (a : Handler) : nat := a.1.1.
Definition h_fn (a : Handler) : UpdateFn := a.1.2.
Definition h_opts (a : Handler) : nat := a.2.

(** The subscription that [add_action] makes for it. *)
Definition action_sub (t : string) (a : Handler) : Sub :=
  {| fn := FAction (h_comp a) t (h_fn a) (h_opts a); options := h_opts a |}.

(** What the handler returns for the dispatch of [args] in [w]. *)
Definition h_result (args : list Val) (w : World) (a : Handler) : Val :=
  h_fn a (state (get_comp (h_comp a) w)) args.

(** The handler returns a present, settled value and is neither a once
    nor a debounced subscription. *)
Definition settles (args : list Val) (w : World) (a : Handler) : Prop :=
  committed (h_result args w a)
  /\ once (get_opts (h_opts a) w) = false
  /\ delay_truthy (get_opts (h_opts a) w) = false.

Definition h_render (args : list Val) (w : World) (a : Handler) : list (nat * Val) :=
  if render_flag (ORef (h_opts a)) w
  then render_out (h_comp a) (h_result args w a) w else [].

Lemma state_commit s b x : state (commit s b x) = s.
Proof. unfold commit. destruct (b && enable_history x); reflexivity. Qed.

Lemma view_commit s b x : view (commit s b x) = view x.
Proof. unfold commit. destruct (b && enable_history x); reflexivity. Qed.

Lemma filter_subs_actions fuel t args : forall l w,
  quiet_debug w ->
  NoDup (map h_comp l) ->
  Forall (settles args w) l ->
  exists w',
    filter_subs (run (S fuel)) args (map (action_sub t) l) w
    = Ok (map (action_sub t) l) w'
    /\ (forall a, a ∈ l -> state (get_comp (h_comp a) w') = h_result args w a)
    /\ (forall c', c' ∉ map h_comp l -> get_comp c' w' = get_comp c' w)
    /\ renders w' = renders w ++ concat (map (h_render args w) l)
    /\ host_part w' = host_part w
    /\ (forall c', view (get_comp c' w') = view (get_comp c' w)
                   /\ element (get_comp c' w') = element (get_comp c' w)).
Proof.
  induction l as [|a l IH]; intros w Hq Hnd Hall.
  - exists w. simpl. rewrite app_nil_r. repeat split.
    intros a Ha. inversion Ha.
  - cbn [map] in Hnd. apply NoDup_cons in Hnd as [Hca Hnd].
    apply Forall_cons in Hall as [(Hc & Ho & Hd) Hall].
    destruct a as [[c e] n]. unfold h_result, h_comp, h_fn, h_opts in *.
    cbn [fst snd] in *. destruct Hc as [Hp Hn].
    cbn [map filter_subs action_sub options fn h_comp h_fn h_opts fst snd].
    unfold h_comp, h_fn, h_opts. cbn [fst snd]. rewrite Hd.
    destruct (action_quiet fuel c t e n args w Hq Hp)
      as (w1 & tl & Hr & Hcomps & Hrend & Hhost & _ & Hopts & Hq1).
    rewrite Hn in Hcomps, Hrend.
    pose proof (action_sub_opts fuel c t e n args w w1 Hq Hr) as Hso.
    rewrite Hr. cbn [bind].
    assert (Ho1 : once (get_opts n w1) = false).
    { specialize (Hso n). unfold sub_opts in Hso. injection Hso as -> _. exact Ho. }
    rewrite Ho1. cbn [negb].
    assert (Hother : forall c', c' <> c -> get_comp c' w1 = get_comp c' w).
    { intros c' Hne. unfold get_comp. rewrite Hcomps.
      rewrite lookup_insert_ne by congruence. reflexivity. }
    assert (Hc1 : get_comp c w1
                  = commit (e (state (get_comp c w)) args)
                      (history_flag (ORef n) w) (get_comp c w))
      by (apply (get_comp_of_insert _ _ _ _ Hcomps)).
    assert (Hve : forall c', view (get_comp c' w1) = view (get_comp c' w)
                             /\ element (get_comp c' w1) = element (get_comp c' w)).
    { intros c'. destruct (decide (c' = c)) as [->|Hne].
      - rewrite Hc1. split; [apply view_commit|apply element_commit].
      - rewrite (Hother c' Hne). split; reflexivity. }
    assert (Hall1 : Forall (settles args w1) l).
    { apply Forall_forall. intros [[c' e'] n'] Hin.
      rewrite Forall_forall in Hall. specialize (Hall _ Hin).
      unfold settles, h_result, h_comp, h_fn, h_opts in *. cbn [fst snd] in *.
      assert (Hne : c' <> c).
      { intros ->. apply Hca. apply list_elem_of_fmap. exists (c, e', n'). auto. }
      rewrite (Hother c' Hne).
      specialize (Hso n'). unfold sub_opts in Hso. injection Hso as Hso1 Hso2.
      unfold delay_truthy. rewrite Hso1, Hso2. exact Hall. }
    destruct (IH w1 Hq1 Hnd Hall1) as (w' & Hf & Hst & Hfr & Hrd & Hh & Hve').
    exists w'. unfold h_comp, h_fn, h_opts in Hf. rewrite Hf. cbn [bind].
    split; [reflexivity|].
    split.
    { intros a Ha. apply elem_of_cons in Ha as [->|Ha].
      - cbn [fst snd]. rewrite (Hfr c Hca), Hc1. apply state_commit.
      - rewrite (Hst a Ha). unfold h_result. f_equal.
        rewrite Hother; [reflexivity|].
        intros Heq. apply Hca. rewrite <- Heq. apply list_elem_of_fmap. eauto. }
    split.
    { intros c' Hc'. cbn [map] in Hc'. apply not_elem_of_cons in Hc' as [Hne Hc'].
      rewrite (Hfr c' Hc'). apply Hother. exact Hne. }
    split.
    { rewrite Hrd, Hrend. cbn [map concat]. rewrite <- app_assoc. f_equal. f_equal.
      - unfold h_render, h_result, h_comp, h_fn, h_opts. cbn [fst snd].
        destruct (render_flag (ORef n) w); [|reflexivity].
        apply render_out_set_comp; reflexivity.
      - f_equal. apply map_ext_in. intros [[c' e'] n'] Hin.
        unfold h_render, h_result, h_comp, h_fn, h_opts. cbn [fst snd].
        assert (Hne : c' <> c).
        { intros ->. apply Hca. apply list_elem_of_fmap. exists (c, e', n').
          split; [reflexivity|]. apply list_elem_of_In. exact Hin. }
        rewrite (render_flag_eq (ORef n') w1 w Hopts), (Hother c' Hne).
        destruct (render_flag (ORef n') w); [|reflexivity].
        apply render_out_eq; [apply Hve|apply Hve|exact Hhost]. }
    split; [rewrite Hh; exact Hhost|].
    intros c'. destruct (Hve' c') as [-> ->]. apply Hve.
Qed.

(** X27.  One event with update handlers of several components on the
    shared bus, each handler returning a present, settled value: a
    single dispatch commits for every component the result of its own
    handler, applied to its own state and the arguments of the dispatch,
    and renders the components in subscription order; no other
    component changes, and all handlers stay subscribed. *)
Theorem shared_event_updates_every_subscriber fuel t args w (l : list Handler) :
  quiet_debug w ->
  default_events w !! t = Some (map (action_sub t) l) ->
  NoDup (map h_comp l) ->
  Forall (settles args w) l ->
  exists w',
    run (S (S fuel)) Default t args w = Ok tt w'
    /\ default_events w' !! t = Some (map (action_sub t) l)
    /\ (forall a, a ∈ l -> state (get_comp (h_comp a) w') = h_result args w a)
    /\ (forall c', c' ∉ map h_comp l -> get_comp c' w' = get_comp c' w)
    /\ renders w' = renders w ++ concat (map (h_render args w) l).
Proof.
  intros Hq He Hnd Hall.
  change (run (S (S fuel)) Default t args w)
    with (run_body (run (S fuel)) Default t args w).
  unfold run_body. cbn [events_of]. rewrite He.
  rewrite bool_decide_eq_true_2 by eauto. cbn [console_assert].
  destruct (filter_subs_actions fuel t args l w Hq Hnd Hall)
    as (w' & Hf & Hst & Hfr & Hrd & _).
  rewrite Hf. cbn [bind ret].
  eexists. split; [reflexivity|].
  split; [apply (events_of_set_event Default)|].
  split; [exact Hst|]. split; [exact Hfr|exact Hrd].
Qed.

(** Two counters started on the shared bus, at 0 and at 10. *)
Definition two_counters : World :=
  match start 2 (TNode 7) (VNum 0) (Some (fun s => s)) [("+1", UFn plus_one)] None None
          init_world with
  | Ok _ w1 =>
      match start 2 (TNode 8) (VNum 10) (Some (fun s => s)) [("+1", UFn plus_one)]
              None None w1 with
      | Ok _ w2 => w2
      | _ => init_world
      end
  | _ => init_world
  end.

Lemma shared_event_updates_every_subscriber_witness :
  exists w',
    run 2 Default "+1" [] two_counters = Ok tt w'
    /\ state (get_comp 0 w') = VNum 1
    /\ state (get_comp 1 w') = VNum 11
    /\ renders w' = renders two_counters ++ [(7, VNum 1); (8, VNum 11)].
Proof.
  destruct (shared_event_updates_every_subscriber 0 "+1" [] two_counters
              [(0, plus_one, 3); (1, plus_one, 4)])
    as (w' & H1 & _ & H3 & _ & H5).
  - unfold quiet_debug. vm_compute. repeat constructor.
  - vm_compute. reflexivity.
  - vm_compute. repeat constructor; intros H;
      repeat (apply elem_of_cons in H as [H|H]; [discriminate|]); inversion H.
  - repeat constructor.
  - exists w'. split; [exact H1|].
    split; [apply (H3 (0, plus_one, 3)); left|].
    split; [apply (H3 (1, plus_one, 4)); right; left|].
    rewrite H5. vm_compute. reflexivity.
Defined.

(** * Module 3: the reconciler [vdom-my]

    The host display tree is a heap of nodes with identities: a node
    records its children in order and its parent, so that moving a node
    ([replaceChild], [appendChild]) takes it out of wherever it was.
    Nodes are never collected: a detached node stays in the heap, as it
    stays reachable from the key registry in the browser.

    Not modelled: the nodes that [insertAdjacentHTML] parses out of raw
    markup (a node that carries markup makes an operation that inspects
    its content [DUnmodelled]), and property names that the DOM
    interprets structurally ([innerHTML], [textContent], ...): a
    property assignment [element[name] = value] is an entry in the
    node's property table. *)

Module VDom.

(** Property values; objects and functions are compared by identity. *)
Inductive PVal : Type :=
  | PStr (s : string)
  | PNum (z : Z)
  | PBool (b : bool)
  | PStyle (id : nat) (entries : list (string * string))
  | PRef (id : nat).

#[global] Instance PVal_eq_dec : EqDecision PVal.
Proof. solve_decision. Defined.

(** [!!v] *)
Definition ptruthy (v : PVal) : bool :=
  match v with
  | PStr s => negb (String.eqb s "")
  | PNum z => negb (z =? 0)%Z
  | PBool b => b
  | PStyle _ _ | PRef _ => true
  end.

(** A props object: an ordered table with distinct names. *)
Abbreviation Props := (list (string * PVal)).

Fixpoint prop (name : string) (ps : Props) : option PVal :=
  match ps with
  | [] => None
  | (k, v) :: ps' => if String.eqb name k then Some v else prop name ps'
  end.

(** A description node: a text value or [{tag, props, children}]; an
    empty tag stands for an object without a tag. *)
#[warnings="-register-all"]
Inductive VNode : Type :=
  | VText (s : string)
  | VElem (tag : string) (props : option Props) (children : list VNode).

Record Node : Type := mkNode {
  nodeType : nat;
  nodeName : string;
  data : string;
  childNodes : list nat;
  parentNode : option nat;
  _props : option Props;
  attrs : gmap string PVal;
  style : list (string * string);
  dataset : gmap string PVal;
  markup : option string
}.

(** The document: the node heap and the key registry [keyCache]. *)
Record Dom : Type := mkDom {
  nodes : gmap nat Node;
  keyCache : gmap string nat
}.

Inductive DRes (A : Type) : Type :=
  | DOk (a : A) (h : Dom)
  | DThrow (err : string)
  | DUnmodelled.

Arguments DOk {A} a h.
Arguments DThrow {A} err.
Arguments DUnmodelled {A}.

Definition dbind {A B} (m : DRes A) (k : A -> Dom -> DRes B) : DRes B :=
  match m with
  | DOk a h => k a h
  | DThrow e => DThrow e
  | DUnmodelled => DUnmodelled
  end.

Notation "'dlet' p <- m 'in' k" := (dbind m (fun p => k))
  (at level 10, p pattern, m at level 100, k at level 200).

Definition set_node (x : nat) (n : Node) (h : Dom) : Dom :=
  {| nodes := <[x := n]> (nodes h); keyCache := keyCache h |}.

Definition set_key (k : string) (x : nat) (h : Dom) : Dom :=
  {| nodes := nodes h; keyCache := <[k := x]> (keyCache h) |}.

Definition with_children (l : list nat) (n : Node) : Node :=
  {| nodeType := nodeType n; nodeName := nodeName n; data := data n;
     childNodes := l; parentNode := parentNode n; _props := _props n;
     attrs := attrs n; style := style n; dataset := dataset n;
     markup := markup n |}.

Definition with_parent (p : option nat) (n : Node) : Node :=
  {| nodeType := nodeType n; nodeName := nodeName n; data := data n;
     childNodes := childNodes n; parentNode := p; _props := _props n;
     attrs := attrs n; style := style n; dataset := dataset n;
     markup := markup n |}.

Definition with_data (s : string) (n : Node) : Node :=
  {| nodeType := nodeType n; nodeName := nodeName n; data := s;
     childNodes := childNodes n; parentNode := parentNode n; _props := _props n;
     attrs := attrs n; style := style n; dataset := dataset n;
     markup := markup n |}.

Definition blank_node (ty : nat) (name : string) : Node :=
  {| nodeType := ty; nodeName := name; data := ""; childNodes := [];
     parentNode := None; _props := None; attrs := ∅; style := [];
     dataset := ∅; markup := None |}.

(** ** Host operations *)

(** Take [x] out of the child list of its parent. *)
Definition detach (x : nat) (h : Dom) : Dom :=
  match nodes h !! x with
  | Some n =>
      match parentNode n with
      | Some p =>
          let h1 :=
            match nodes h !! p with
            | Some pn =>
                set_node p (with_children (filter (fun y => y <> x) (childNodes pn)) pn) h
            | None => h
            end in
          match nodes h1 !! x with
          | Some n1 => set_node x (with_parent None n1) h1
          | None => h1
          end
      | None => h
      end
  | None => h
  end.

(** [a] is [t] or one of its ancestors. *)
Fixpoint inclusive_ancestor (fuel : nat) (h : Dom) (a t : nat) : bool :=
  if decide (a = t) then true
  else
    match fuel with
    | 0 => false
    | S fuel' =>
        match nodes h !! t with
        | Some n =>
            match parentNode n with
            | Some p => inclusive_ancestor fuel' h a p
            | None => false
            end
        | None => false
        end
    end.

Definition contains (h : Dom) (a t : nat) : bool :=
  inclusive_ancestor (size (nodes h)) h a t.

Fixpoint subst_first (old new : nat) (l : list nat) : list nat :=
  match l with
  | [] => []
  | y :: l' => if decide (y = old) then new :: l' else y :: subst_first old new l'
  end.

(** [t.replaceChild(new, old)] *)
Definition replaceChild (t new old : nat) (h : Dom) : DRes unit :=
  match nodes h !! t, nodes h !! new with
  | Some tn, Some _ =>
      if contains h new t then DThrow "HierarchyRequestError"
      else if decide (old ∈ childNodes tn) then
        if decide (new = old) then DOk tt h
        else
          let h1 := detach new h in
          match nodes h1 !! t with
          | Some tn1 =>
              let h2 := set_node t (with_children (subst_first old new (childNodes tn1)) tn1) h1 in
              let h3 := match nodes h2 !! old with
                        | Some n => set_node old (with_parent None n) h2
                        | None => h2
                        end in
              match nodes h3 !! new with
              | Some n => DOk tt (set_node new (with_parent (Some t) n) h3)
              | None => DOk tt h3
              end
          | None => DThrow "TypeError"
          end
      else DThrow "NotFoundError"
  | _, _ => DThrow "TypeError"
  end.

(** Append one node that is not a fragment. *)
Definition append_one (t c : nat) (h : Dom) : Dom :=
  let h1 := detach c h in
  let h2 := match nodes h1 !! t with
            | Some tn => set_node t (with_children (childNodes tn ++ [c]) tn) h1
            | None => h1
            end in
  match nodes h2 !! c with
  | Some n => set_node c (with_parent (Some t) n) h2
  | None => h2
  end.

(** [t.appendChild(c)]; a document fragment hands over its children. *)
Definition appendChild (t c : nat) (h : Dom) : DRes unit :=
  match nodes h !! t, nodes h !! c with
  | Some tn, Some cn =>
      if contains h c t then DThrow "HierarchyRequestError"
      else if nodeType cn =? 11
      then DOk tt (foldl (fun h k => append_one t k h) h (childNodes cn))
      else DOk tt (append_one t c h)
  | _, _ => DThrow "TypeError"
  end.

(** [t.removeChild(c)] *)
Definition removeChild (t c : nat) (h : Dom) : DRes unit :=
  match nodes h !! t with
  | Some tn =>
      if decide (c ∈ childNodes tn) then DOk tt (detach c h)
      else DThrow "NotFoundError"
  | None => DThrow "TypeError"
  end.

(** [x.textContent]; [None] when the content is not modelled. *)
Fixpoint text_of (fuel : nat) (h : Dom) (x : nat) : option string :=
  match fuel with
  | 0 => None
  | S fuel' =>
      match nodes h !! x with
      | Some n =>
          match markup n with
          | Some _ => None
          | None =>
              if nodeType n =? 3 then Some (data n)
              else
                foldr (fun y acc =>
                         match text_of fuel' h y, acc with
                         | Some s, Some s' => Some (s +:+ s')
                         | _, _ => None
                         end) (Some "") (childNodes n)
          end
      | None => None
      end
  end.

Definition textContent (h : Dom) (x : nat) : option string :=
  text_of (S (size (nodes h))) h x.

Definition alloc (n : Node) (h : Dom) : nat * Dom :=
  let x := fresh (dom (nodes h)) in (x, set_node x n h).

Definition to_upper_ascii (a : ascii) : ascii :=
  let n := nat_of_ascii a in
  if (97 <=? n) && (n <=? 122) then ascii_of_nat (n - 32) else a.

Fixpoint toUpperCase (s : string) : string :=
  match s with
  | EmptyString => EmptyString
  | String a s' => String (to_upper_ascii a) (toUpperCase s')
  end.

(** [document.createTextNode(s)], [document.createElement(tag)],
    [document.createElementNS(svg, tag)] and
    [document.createDocumentFragment()] *)
Definition createTextNode (s : string) (h : Dom) : nat * Dom :=
  alloc (with_data s (blank_node 3 "#text")) h.

Definition createElement (tag : string) (h : Dom) : nat * Dom :=
  alloc (blank_node 1 (toUpperCase tag)) h.

Definition createElementNS (tag : string) (h : Dom) : nat * Dom :=
  alloc (blank_node 1 tag) h.

Definition createDocumentFragment (h : Dom) : nat * Dom :=
  alloc (blank_node 11 "#document-fragment") h.

(** ** Properties of a host node *)

(** The property name a value turns into ([keyCache[value]]). *)
Definition key_name (v : PVal) : string :=
  match v with
  | PStr s => s
  | PNum z => pretty z
  | PBool true => "true"
  | PBool false => "false"
  | PStyle _ _ | PRef _ => "[object Object]"
  end.

(** [mergeProps(a, b)]: every name of the snapshot blanked, then the
    new properties. *)
Definition mergeProps (a : Props) (b : option Props) : Props :=
  foldl (fun n '(k, v) => assoc_set k v n)
    (foldl (fun n '(k, _) => assoc_set k (PStr "") n) [] a)
    (default [] b).

Definition with_snapshot (ps : Props) (n : Node) : Node :=
  {| nodeType := nodeType n; nodeName := nodeName n; data := data n;
     childNodes := childNodes n; parentNode := parentNode n; _props := Some ps;
     attrs := attrs n; style := style n; dataset := dataset n;
     markup := markup n |}.

Definition with_attr (r : string) (v : PVal) (n : Node) : Node :=
  {| nodeType := nodeType n; nodeName := nodeName n; data := data n;
     childNodes := childNodes n; parentNode := parentNode n; _props := _props n;
     attrs := <[r := v]> (attrs n); style := style n; dataset := dataset n;
     markup := markup n |}.

Definition with_style (st : list (string * string)) (n : Node) : Node :=
  {| nodeType := nodeType n; nodeName := nodeName n; data := data n;
     childNodes := childNodes n; parentNode := parentNode n; _props := _props n;
     attrs := attrs n; style := st; dataset := dataset n;
     markup := markup n |}.

Definition with_data_attr (u : string) (v : PVal) (n : Node) : Node :=
  {| nodeType := nodeType n; nodeName := nodeName n; data := data n;
     childNodes := childNodes n; parentNode := parentNode n; _props := _props n;
     attrs := attrs n; style := style n; dataset := <[u := v]> (dataset n);
     markup := markup n |}.

Definition with_markup (m : string) (n : Node) : Node :=
  {| nodeType := nodeType n; nodeName := nodeName n; data := data n;
     childNodes := childNodes n; parentNode := parentNode n; _props := _props n;
     attrs := attrs n; style := style n; dataset := dataset n;
     markup := Some m |}.

Definition modify (x : nat) (f : Node -> Node) (h : Dom) : Dom :=
  match nodes h !! x with
  | Some n => set_node x (f n) h
  | None => h
  end.

(** One round of the [for (var r in e)] loop of [updateProps]; [n] is
    the previous snapshot. *)
Definition apply_prop (t : nat) (n : Props) (h : Dom) (entry : string * PVal) : Dom :=
  let '(r, i) := entry in
  if decide (prop r n = Some i) then h
  else if String.eqb r "style" then
    modify t (with_style
                match i with
                | PStyle _ entries => foldl (fun st '(a, v) => assoc_set a v st) [] entries
                | _ => []
                end) h
  else if String.prefix "data-" r then
    modify t (with_data_attr (String.substring 5 (String.length r - 5) r) i) h
  else
    let h1 := modify t (with_attr r i) h in
    if String.eqb r "key" && ptruthy i then set_key (key_name i) t h1 else h1.

(** [updateProps(t, e)] *)
Definition updateProps (t : nat) (e : option Props) (h : Dom) : DRes unit :=
  match nodes h !! t with
  | Some tn =>
      let n := default [] (_props tn) in
      let e := mergeProps n e in
      DOk tt (foldl (apply_prop t n) (set_node t (with_snapshot e tn) h) e)
  | None => DThrow "TypeError"
  end.

(** [createText(t)]: raw markup after the ["_html:"] prefix goes into a
    [div]. *)
Definition createText (s : string) (h : Dom) : nat * Dom :=
  if String.prefix "_html:" s then
    let '(e, h1) := createElement "div" h in
    (e, modify e (with_markup (String.substring 6 (String.length s - 6) s)) h1)
  else createTextNode s h.

Section Reconciler.

(** [JSON.stringify], for a description without a tag. *)
Variable stringify : VNode -> string.

(** [create(t)] *)
Fixpoint create (o : VNode) (h : Dom) : DRes nat :=
  match o with
  | VText s => let '(x, h1) := createText s h in DOk x h1
  | VElem tag props children =>
      if String.eqb tag "" then
        let '(x, h1) := createText (stringify o) h in DOk x h1
      else
        let '(e, h1) := if String.eqb tag "svg" then createElementNS tag h
                        else createElement tag h in
        dlet _ <- updateProps e props h1 in fun h2 =>
        dlet _ <- (fix each (cs : list VNode) (h : Dom) : DRes unit :=
                     match cs with
                     | [] => DOk tt h
                     | c :: cs' =>
                         dlet x <- create c h in fun h' =>
                         dlet _ <- appendChild e x h' in fun h'' => each cs' h''
                     end) children h2
        in fun h3 => DOk e h3
  end.

(** [o.props && o.props.key], when truthy. *)
Definition key_of (props : option Props) : option PVal :=
  match props with
  | Some ps =>
      match prop "key" ps with
      | Some a => if ptruthy a then Some a else None
      | None => None
      end
  | None => None
  end.

Definition child_at (t r : nat) (h : Dom) : option nat :=
  match nodes h !! t with
  | Some tn => childNodes tn !! r
  | None => None
  end.

Definition key_attr (x : nat) (h : Dom) : option PVal :=
  match nodes h !! x with
  | Some n => attrs n !! "key"
  | None => None
  end.

Section Slots.

(** [update], as called from the loop of [updateChildren]. *)
Variable update : VNode -> nat -> Dom -> DRes unit.

(** [update(t.childNodes[r], o)] *)
Definition update_at (o : VNode) (t r : nat) (h : Dom) : DRes unit :=
  match child_at t r h with
  | Some x => update o x h
  | None => DThrow "TypeError"
  end.

(** One round of the first loop of [updateChildren(t, e)], for slot [r]
    and child description [o = e[r]]. *)
Definition slot (t r : nat) (o : VNode) (h : Dom) : DRes unit :=
  match child_at t r h with
  | None => DThrow "TypeError"
  | Some i =>
      match o with
      | VText s =>
          match textContent h i with
          | None => DUnmodelled
          | Some txt =>
              if String.eqb txt s then DOk tt h
              else
                match nodes h !! i with
                | Some n =>
                    if nodeType n =? 3 then DOk tt (set_node i (with_data s n) h)
                    else let '(x, h1) := createText s h in replaceChild t x i h1
                | None => DThrow "TypeError"
                end
          end
      | VElem _ props _ =>
          match key_of props with
          | Some a =>
              if decide (key_attr i h = Some a) then update_at o t r h
              else
                match keyCache h !! key_name a with
                | Some u =>
                    dlet _ <- replaceChild t u i h in fun h1 =>
                    dlet _ <- appendChild t i h1 in fun h2 =>
                    update_at o t r h2
                | None =>
                    dlet x <- create o h in fun h1 =>
                    dlet _ <- appendChild t x h1 in fun h2 =>
                    update_at o t r h2
                end
          | None => update_at o t r h
          end
      end
  end.

(** [for (r = 0; r < n; r++) ...] over the child descriptions. *)
Fixpoint patch_slots (t : nat) (es : list VNode) (r n : nat) (h : Dom) : DRes unit :=
  match es with
  | [] => DOk tt h
  | o :: es' =>
      if r <? n then
        dlet _ <- slot t r o h in fun h1 => patch_slots t es' (S r) n h1
      else DOk tt h
  end.

(** [for (d = t.childNodes.length; d > n;) t.removeChild(t.lastChild), d--] *)
Fixpoint remove_trailing (t : nat) (count : nat) (h : Dom) : DRes unit :=
  match count with
  | 0 => DOk tt h
  | S count' =>
      match nodes h !! t with
      | Some tn =>
          match last (childNodes tn) with
          | Some x => dlet _ <- removeChild t x h in fun h1 => remove_trailing t count' h1
          | None => DThrow "TypeError"
          end
      | None => DThrow "TypeError"
      end
  end.

(** [for (r = n; r < e.length; r++) p.appendChild(create(e[r]))] *)
Fixpoint create_into (p : nat) (es : list VNode) (h : Dom) : DRes unit :=
  match es with
  | [] => DOk tt h
  | o :: es' =>
      dlet x <- create o h in fun h1 =>
      dlet _ <- appendChild p x h1 in fun h2 => create_into p es' h2
  end.

(** [updateChildren(t, e)] *)
Definition updateChildren_ (t : nat) (e : list VNode) (h : Dom) : DRes unit :=
  match nodes h !! t with
  | Some tn =>
      match markup tn with
      | Some _ => DUnmodelled
      | None =>
          let n := Nat.min (length (childNodes tn)) (length e) in
          dlet _ <- patch_slots t e 0 n h in fun h1 =>
          let d := match nodes h1 !! t with
                   | Some tn1 => length (childNodes tn1)
                   | None => 0
                   end in
          dlet _ <- remove_trailing t (d - n) h1 in fun h2 =>
          if n <? length e then
            let '(p, h3) := createDocumentFragment h2 in
            dlet _ <- create_into p (drop n e) h3 in fun h4 => appendChild t p h4
          else DOk tt h2
      end
  | None => DThrow "TypeError"
  end.

End Slots.

(** [update(t, e)] *)
Fixpoint update (o : VNode) (t : nat) (h : Dom) {struct o} : DRes unit :=
  match nodes h !! t with
  | Some tn =>
      let replace :=
        match parentNode tn with
        | Some p => dlet x <- create o h in fun h1 => replaceChild p x t h1
        | None => DThrow "TypeError"
        end in
      match o with
      | VElem tag props children =>
          if String.eqb (nodeName tn) (toUpperCase tag) then
            dlet _ <- updateChildren_ update t children h in fun h1 =>
            updateProps t props h1
          else replace
      | VText _ =>
          if String.eqb (nodeName tn) "" then DThrow "TypeError" else replace
      end
  | None => DThrow "TypeError"
  end.

Definition updateChildren : nat -> list VNode -> Dom -> DRes unit :=
  updateChildren_ update.

(** What a view hands to [updateElement]. *)
Inductive Rendered : Type :=
  | RNone
  | RList (e : list VNode)
  | ROne (n : VNode).

(** [updateElement(t, e)], exported as [render] *)
Definition updateElement (t : nat) (e : Rendered) (h : Dom) : DRes unit :=
  match e with
  | RNone => DOk tt h
  | RList l => updateChildren t l h
  | ROne n =>
      match nodes h !! t with
      | Some tn =>
          match head (childNodes tn) with
          | Some first => update n first h
          | None => dlet x <- create n h in fun h1 => appendChild t x h1
          end
      | None => DThrow "TypeError"
      end
  end.

End Reconciler.

(** ** Properties of the host operations *)

Definition parent_of (h : Dom) (x : nat) : option nat :=
  match nodes h !! x with
  | Some n => parentNode n
  | None => None
  end.

(** [x] is neither [t] nor an ancestor of [t]. *)
Definition not_ancestor (h : Dom) (x t : nat) : Prop :=
  forall fuel, inclusive_ancestor fuel h x t = false.

Lemma not_ancestor_ne h x t : not_ancestor h x t -> x <> t.
Proof.
  intros H Heq. specialize (H 0). simpl in H.
  destruct (decide (x = t)); [discriminate|contradiction].
Qed.

Lemma not_ancestor_contains h x t : not_ancestor h x t -> contains h x t = false.
Proof. intros H. apply H. Qed.

Lemma inclusive_ancestor_step fuel h x t :
  inclusive_ancestor (S fuel) h x t
  = if decide (x = t) then true
    else match parent_of h t with
         | Some p => inclusive_ancestor fuel h x p
         | None => false
         end.
Proof.
  unfold parent_of. simpl. destruct (decide (x = t)); [reflexivity|].
  destruct (nodes h !! t) as [nd|]; reflexivity.
Qed.

Lemma not_ancestor_parent h x t p :
  not_ancestor h x t -> parent_of h t = Some p -> not_ancestor h x p.
Proof.
  intros H Hp fuel. specialize (H (S fuel)).
  rewrite inclusive_ancestor_step, Hp in H.
  destruct (decide (x = t)); [discriminate|exact H].
Qed.

(** The walk from [t] upwards only reads the parents on its way. *)
Lemma not_ancestor_frame h h' (avoid : list nat) x :
  (forall z, z ∉ avoid -> parent_of h' z = parent_of h z) ->
  forall t, Forall (fun a => not_ancestor h a t) avoid ->
  not_ancestor h x t -> not_ancestor h' x t.
Proof.
  intros Hsame t Hav Hx fuel. revert t Hav Hx.
  induction fuel as [|fuel IH]; intros t Hav Hx.
  - simpl. pose proof (not_ancestor_ne _ _ _ Hx).
    destruct (decide (x = t)); [contradiction|reflexivity].
  - rewrite inclusive_ancestor_step.
    pose proof (not_ancestor_ne _ _ _ Hx).
    destruct (decide (x = t)); [contradiction|].
    assert (Ht : t ∉ avoid).
    { intros Hin. rewrite Forall_forall in Hav.
      apply (not_ancestor_ne _ _ _ (Hav t Hin)). reflexivity. }
    rewrite (Hsame t Ht).
    destruct (parent_of h t) as [p|] eqn:Hp; [|reflexivity].
    apply IH.
    + eapply Forall_impl; [exact Hav|]. intros a Ha. cbv beta in *.
      exact (not_ancestor_parent h a t p Ha Hp).
    + eapply not_ancestor_parent; eassumption.
Qed.

Lemma with_parent_restore t n :
  parentNode n = Some t -> with_parent (Some t) (with_parent None n) = n.
Proof. destruct n; simpl; intros ->; reflexivity. Qed.

Lemma filter_ne_notin (y : nat) (l : list nat) :
  y ∉ l -> filter (fun z => z <> y) l = l.
Proof.
  induction l as [|a l IH]; intros Hn; [reflexivity|].
  rewrite filter_cons_True.
  - f_equal. apply IH. intros Hin. apply Hn. right. exact Hin.
  - intros ->. apply Hn. left.
Qed.

Lemma subst_first_app (i y : nat) (l1 l2 : list nat) :
  i ∉ l1 -> subst_first i y (l1 ++ i :: l2) = l1 ++ y :: l2.
Proof.
  induction l1 as [|a l1 IH]; intros Hn; simpl.
  - destruct (decide (i = i)); [reflexivity|congruence].
  - destruct (decide (a = i)) as [->|Hne].
    + exfalso. apply Hn. left.
    + f_equal. apply IH. intros Hin. apply Hn. right. exact Hin.
Qed.

Ltac lookups :=
  repeat first
    [ rewrite lookup_insert_eq
    | rewrite lookup_insert_ne by congruence ].

(** Moving a later sibling [y] into the slot of [i] and [i] to the end:
    [t.replaceChild(y, i); t.appendChild(i)] only reorders the children
    of [t]. *)
Lemma relocate h t tn y ny i ni l1 l2 :
  nodes h !! t = Some tn -> childNodes tn = l1 ++ i :: l2 ->
  NoDup (childNodes tn) -> y ∈ l2 ->
  nodes h !! y = Some ny -> parentNode ny = Some t ->
  nodes h !! i = Some ni -> parentNode ni = Some t -> nodeType ni <> 11 ->
  not_ancestor h y t -> not_ancestor h i t ->
  dbind (replaceChild t y i h) (fun _ h1 => appendChild t i h1)
  = DOk tt (set_node t (with_children
                          (l1 ++ y :: filter (fun z => z <> y) l2 ++ [i]) tn) h).
Proof.
  intros Ht Hl Hnd Hy Hny Hpy Hni Hpi Hty Hay Hai.
  pose proof (not_ancestor_ne _ _ _ Hay) as Hyt.
  pose proof (not_ancestor_ne _ _ _ Hai) as Hit.
  rewrite Hl in Hnd. apply NoDup_app in Hnd as (Hnd1 & Hdisj & Hnd2).
  apply NoDup_cons in Hnd2 as [Hi2 Hnd2].
  assert (Hyi : y <> i) by (intros ->; contradiction).
  assert (Hy1 : y ∉ l1).
  { intros Hin. apply (Hdisj y Hin). right. exact Hy. }
  assert (Hi1 : i ∉ l1).
  { intros Hin. apply (Hdisj i Hin). left. }
  unfold replaceChild. rewrite Ht, Hny.
  rewrite (not_ancestor_contains _ _ _ Hay).
  destruct (decide (i ∈ childNodes tn)) as [_|Hn].
  2:{ exfalso. apply Hn. rewrite Hl. apply elem_of_app. right. left. }
  destruct (decide (y = i)); [contradiction|].
  unfold detach. rewrite Hny, Hpy, Ht. cbn [nodes set_node]. lookups.
  rewrite Hny. cbn [nodes set_node]. lookups.
  cbn [childNodes with_children]. lookups. rewrite Hni.
  cbn [nodes set_node]. lookups. cbn [dbind].
  rewrite Hl, filter_app, filter_cons_True by congruence.
  rewrite (filter_ne_notin y l1 Hy1), (subst_first_app i y l1 _ Hi1).
  rewrite (with_parent_restore t ny Hpy).
  set (L := l1 ++ y :: filter (fun z => z <> y) l2).
  match goal with |- appendChild t i ?H = _ => set (h4 := H) end.
  assert (Hp4 : forall z, z ∉ [y; i] -> parent_of h4 z = parent_of h z).
  { intros z Hz. unfold parent_of, h4, set_node. cbn [nodes].
    assert (z <> y) by (intros ->; apply Hz; left).
    assert (z <> i) by (intros ->; apply Hz; right; left).
    lookups. destruct (decide (z = t)) as [->|Hzt].
    - lookups. rewrite Ht. reflexivity.
    - lookups. reflexivity. }
  assert (Hai4 : not_ancestor h4 i t).
  { apply (not_ancestor_frame h h4 [y; i] i Hp4); [|exact Hai].
    repeat constructor; assumption. }
  unfold appendChild.
  assert (Ht4 : nodes h4 !! t = Some (with_children L (with_children
                   (l1 ++ i :: filter (fun z => z <> y) l2) tn))).
  { unfold h4, set_node. cbn [nodes]. lookups. reflexivity. }
  assert (Hi4 : nodes h4 !! i = Some (with_parent None ni)).
  { unfold h4, set_node. cbn [nodes]. lookups. reflexivity. }
  rewrite Ht4, Hi4, (not_ancestor_contains _ _ _ Hai4).
  cbn [nodeType with_parent].
  destruct (nodeType ni =? 11) eqn:E; [apply Nat.eqb_eq in E; contradiction|].
  unfold append_one, detach. rewrite Hi4. cbn [parentNode with_parent].
  rewrite Ht4. cbn [nodes set_node]. lookups.
  rewrite Hi4. f_equal. unfold set_node. cbn [nodes keyCache].
  f_equal.
  - unfold h4, set_node. cbn [nodes]. apply map_eq. intros z.
    rewrite (with_parent_restore t ni Hpi).
    destruct (decide (z = i)) as [->|Hzi]; [lookups; symmetry; exact Hni|].
    destruct (decide (z = t)) as [->|Hzt].
    { lookups. f_equal. cbn [childNodes with_children]. unfold L.
      rewrite <- app_assoc. reflexivity. }
    destruct (decide (z = y)) as [->|Hzy]; [lookups; symmetry; exact Hny|].
    lookups. reflexivity.
Qed.

(** ** Property tables *)

Lemma prop_assoc_set name k v (l : Props) :
  prop name (assoc_set k v l) = if String.eqb name k then Some v else prop name l.
Proof.
  induction l as [|[k' v'] l IH]; simpl.
  - destruct (String.eqb name k); reflexivity.
  - destruct (String.eqb k k') eqn:E; simpl.
    + apply String.eqb_eq in E. subst k'.
      destruct (String.eqb name k); reflexivity.
    + rewrite IH. destruct (String.eqb name k) eqn:E1; [|reflexivity].
      apply String.eqb_eq in E1. subst name. rewrite E. reflexivity.
Qed.

Lemma names_assoc_set k v (l : Props) x :
  x ∈ map fst (assoc_set k v l) <-> x = k \/ x ∈ map fst l.
Proof.
  induction l as [|[k' v'] l IH]; simpl.
  - rewrite list_elem_of_singleton. split; [intros ->; left; reflexivity|].
    intros [->|H]; [reflexivity|inversion H].
  - destruct (String.eqb k k') eqn:E; simpl.
    + apply String.eqb_eq in E. subst k'. rewrite !elem_of_cons. tauto.
    + rewrite !elem_of_cons, IH. tauto.
Qed.

Lemma NoDup_assoc_set k v (l : Props) :
  NoDup (map fst l) -> NoDup (map fst (assoc_set k v l)).
Proof.
  induction l as [|[k' v'] l IH]; simpl; intros H.
  - repeat constructor. intros Hin. inversion Hin.
  - apply NoDup_cons in H as [Hn H].
    destruct (String.eqb k k') eqn:E; simpl.
    + apply String.eqb_eq in E. subst k'. apply NoDup_cons. split; assumption.
    + apply NoDup_cons. split; [|apply IH, H].
      rewrite names_assoc_set. intros [->|Hin]; [|contradiction].
      rewrite String.eqb_refl in E. discriminate.
Qed.

Lemma prop_in (l : Props) r i :
  NoDup (map fst l) -> (r, i) ∈ l -> prop r l = Some i.
Proof.
  induction l as [|[k v] l IH]; intros Hnd Hin; [inversion Hin|].
  simpl in *. apply NoDup_cons in Hnd as [Hn Hnd].
  apply elem_of_cons in Hin as [Heq|Hin].
  - injection Heq as -> ->. rewrite String.eqb_refl. reflexivity.
  - destruct (String.eqb r k) eqn:E; [|apply IH; assumption].
    apply String.eqb_eq in E. subst k. exfalso. apply Hn.
    apply list_elem_of_fmap. exists (r, i). split; [reflexivity|exact Hin].
Qed.

Lemma prop_None_names (l : Props) r : r ∉ map fst l -> prop r l = None.
Proof.
  induction l as [|[k v] l IH]; intros Hn; [reflexivity|]. simpl in *.
  destruct (String.eqb r k) eqn:E.
  - apply String.eqb_eq in E. subst k. exfalso. apply Hn. left.
  - apply IH. intros Hin. apply Hn. right. exact Hin.
Qed.

Lemma prop_fold_assoc (ps : Props) : forall (l : Props) name,
  NoDup (map fst ps) ->
  prop name (foldl (fun n '(k, v) => assoc_set k v n) l ps)
  = match prop name ps with
    | Some v => Some v
    | None => prop name l
    end.
Proof.
  induction ps as [|[k v] ps IH]; intros l name Hnd; [reflexivity|].
  simpl in *. apply NoDup_cons in Hnd as [Hn Hnd].
  rewrite (IH _ _ Hnd), prop_assoc_set.
  destruct (String.eqb name k) eqn:E; [|reflexivity].
  apply String.eqb_eq in E. subst k.
  rewrite (prop_None_names ps name Hn). reflexivity.
Qed.

Lemma NoDup_blank_fold (a : Props) : forall (l : Props),
  NoDup (map fst l) ->
  NoDup (map fst (foldl (fun n '(k, _) => assoc_set k (PStr "") n) l a)).
Proof.
  induction a as [|[k v] a IH]; intros l H; [exact H|].
  simpl. apply IH, NoDup_assoc_set, H.
Qed.

Lemma NoDup_assign_fold (ps : Props) : forall (l : Props),
  NoDup (map fst l) ->
  NoDup (map fst (foldl (fun n '(k, v) => assoc_set k v n) l ps)).
Proof.
  induction ps as [|[k v] ps IH]; intros l H; [exact H|].
  simpl. apply IH, NoDup_assoc_set, H.
Qed.

Lemma mergeProps_NoDup a b : NoDup (map fst (mergeProps a b)).
Proof.
  unfold mergeProps. apply NoDup_assign_fold, NoDup_blank_fold. constructor.
Qed.

Lemma mergeProps_prop a ps name v :
  NoDup (map fst ps) -> prop name ps = Some v ->
  prop name (mergeProps a (Some ps)) = Some v.
Proof.
  intros Hnd Hp. unfold mergeProps. simpl.
  rewrite (prop_fold_assoc ps _ name Hnd), Hp. reflexivity.
Qed.

(** ** Patching a keyed node that keeps its key *)

(** [n'] is [n] with other property values: same place in the tree,
    same content, same key, same snapshot. *)
Definition same_place (n n' : Node) : Prop :=
  nodeType n' = nodeType n /\ nodeName n' = nodeName n /\ data n' = data n
  /\ childNodes n' = childNodes n /\ parentNode n' = parentNode n
  /\ markup n' = markup n /\ attrs n' !! "key" = attrs n !! "key"
  /\ _props n' = _props n.

Lemma same_place_refl n : same_place n n.
Proof. repeat split. Qed.

Lemma same_place_trans n1 n2 n3 :
  same_place n1 n2 -> same_place n2 n3 -> same_place n1 n3.
Proof.
  unfold same_place. intros (A1 & A2 & A3 & A4 & A5 & A6 & A7 & A8)
    (B1 & B2 & B3 & B4 & B5 & B6 & B7 & B8).
  repeat split; congruence.
Qed.

Lemma set_node_twice y n n' h : set_node y n' (set_node y n h) = set_node y n' h.
Proof. unfold set_node; simpl. rewrite insert_insert_eq. reflexivity. Qed.

Lemma modify_set_node y f n h : modify y f (set_node y n h) = set_node y (f n) h.
Proof.
  unfold modify. simpl. rewrite lookup_insert_eq. apply set_node_twice.
Qed.

Lemma apply_prop_keep y sp entry n h :
  (entry.1 = "key" -> prop "key" sp = Some entry.2) ->
  exists n', apply_prop y sp (set_node y n h) entry = set_node y n' h
             /\ same_place n n'.
Proof.
  destruct entry as [r i]. simpl. intros Hkey. unfold apply_prop.
  destruct (decide (prop r sp = Some i)) as [_|Hne].
  { exists n. split; [reflexivity|apply same_place_refl]. }
  destruct (String.eqb r "style").
  { eexists. split; [apply modify_set_node|]. repeat split. }
  destruct (String.prefix "data-" r).
  { eexists. split; [apply modify_set_node|]. repeat split. }
  destruct (String.eqb r "key") eqn:E.
  { apply String.eqb_eq in E. subst r. exfalso. apply Hne, Hkey. reflexivity. }
  simpl. eexists. split; [apply modify_set_node|].
  repeat split. simpl. rewrite lookup_insert_ne; [reflexivity|].
  intros ->. rewrite String.eqb_refl in E. discriminate.
Qed.

Lemma apply_props_keep y sp l : forall n h,
  Forall (fun entry => entry.1 = "key" -> prop "key" sp = Some entry.2) l ->
  exists n', foldl (apply_prop y sp) (set_node y n h) l = set_node y n' h
             /\ same_place n n'.
Proof.
  induction l as [|entry l IH]; intros n h Hall; simpl.
  - exists n. split; [reflexivity|apply same_place_refl].
  - apply Forall_cons in Hall as [He Hall].
    destruct (apply_prop_keep y sp entry n h He) as (n1 & -> & H1).
    destruct (IH n1 h Hall) as (n2 & -> & H2).
    exists n2. split; [reflexivity|]. eapply same_place_trans; eassumption.
Qed.

(** [updateProps] on a node whose snapshot already carries the key of
    the new properties: the node stays where it is, keeps its key, and
    the key registry is not written. *)
Lemma updateProps_same_key h y ny sp k ps :
  nodes h !! y = Some ny -> _props ny = Some sp ->
  prop "key" sp = Some k -> prop "key" ps = Some k -> NoDup (map fst ps) ->
  exists n',
    updateProps y (Some ps) h = DOk tt (set_node y n' h)
    /\ nodeType n' = nodeType ny /\ nodeName n' = nodeName ny
    /\ childNodes n' = childNodes ny /\ parentNode n' = parentNode ny
    /\ markup n' = markup ny /\ attrs n' !! "key" = attrs ny !! "key"
    /\ (exists sp', _props n' = Some sp' /\ prop "key" sp' = Some k).
Proof.
  intros Hy Hsp Hk Hk' Hnd. unfold updateProps. rewrite Hy, Hsp. simpl.
  set (m := mergeProps sp (Some ps)).
  assert (Hm : prop "key" m = Some k) by (apply mergeProps_prop; assumption).
  destruct (apply_props_keep y sp m (with_snapshot m ny) h) as (n' & Hf & Hs).
  { apply Forall_forall. intros [r i] Hin Hr. simpl in *. subst r.
    rewrite Hk. rewrite <- Hm. apply prop_in; [|exact Hin].
    apply mergeProps_NoDup. }
  exists n'. rewrite Hf. split; [reflexivity|].
  destruct Hs as (A1 & A2 & A3 & A4 & A5 & A6 & A7 & A8). simpl in *.
  repeat split; try assumption. exists m. split; assumption.
Qed.

(** ** Reordering a keyed child list *)

(** A keyed element of the new list: its description, its key, and the
    host node that carries the key. *)
Record Entry : Type := mkEntry {
  e_node : nat;
  e_key : PVal;
  e_desc : VNode
}.

(** The host node of entry [e] is a child of [t], carries the key of
    [e] and is registered under it. *)
Definition keyed_child (h : Dom) (t : nat) (e : Entry) : Prop :=
  exists n,
    nodes h !! e_node e = Some n
    /\ parentNode n = Some t /\ nodeType n <> 11
    /\ attrs n !! "key" = Some (e_key e)
    /\ keyCache h !! key_name (e_key e) = Some (e_node e)
    /\ not_ancestor h (e_node e) t.

Definition keyed_desc (e : Entry) : Prop :=
  exists tag ps cs, e_desc e = VElem tag (Some ps) cs /\ key_of (Some ps) = Some (e_key e).

Definition children_of (h : Dom) (t : nat) : list nat :=
  match nodes h !! t with
  | Some tn => childNodes tn
  | None => []
  end.

Lemma NoDup_map_inj {A B} (f : A -> B) (l : list A) x y :
  NoDup (map f l) -> x ∈ l -> y ∈ l -> f x = f y -> x = y.
Proof.
  induction l as [|a l IH]; intros Hnd Hx Hy Hf; [inversion Hx|].
  simpl in Hnd. apply NoDup_cons in Hnd as [Hn Hnd].
  apply elem_of_cons in Hx as [->|Hx]; apply elem_of_cons in Hy as [->|Hy].
  - reflexivity.
  - exfalso. apply Hn. rewrite Hf. apply list_elem_of_fmap. eauto.
  - exfalso. apply Hn. rewrite <- Hf. apply list_elem_of_fmap. eauto.
  - apply IH; assumption.
Qed.

Lemma NoDup_filter_ne_perm (y : nat) (l : list nat) :
  NoDup l -> y ∈ l -> l ≡ₚ y :: filter (fun z => z <> y) l.
Proof.
  induction l as [|a l IH]; intros Hnd Hy; [inversion Hy|].
  apply NoDup_cons in Hnd as [Hn Hnd].
  apply elem_of_cons in Hy as [->|Hy].
  - rewrite filter_cons_False by (intros H; apply H; reflexivity).
    rewrite filter_ne_notin by exact Hn. reflexivity.
  - assert (a <> y) by (intros ->; contradiction).
    rewrite filter_cons_True by assumption.
    rewrite (IH Hnd Hy) at 1. apply perm_swap.
Qed.

Section KeyedList.

Variable stringify : VNode -> string.
Variable t : nat.
Variable es : list Entry.

(** The invariant of the host while the list is patched, and what the
    patch of one keyed node has to guarantee. *)
Variable I : Dom -> Prop.

Hypothesis es_keys : NoDup (map (fun e => key_name (e_key e)) es).
Hypothesis es_desc : Forall keyed_desc es.
Hypothesis I_parent :
  forall h, I h -> exists tn, nodes h !! t = Some tn /\ markup tn = None.
Hypothesis I_children : forall h, I h -> Forall (keyed_child h t) es.
Hypothesis I_reorder :
  forall h tn L, I h -> nodes h !! t = Some tn -> I (set_node t (with_children L tn) h).
Hypothesis I_patch :
  forall h e, I h -> e ∈ es ->
    exists h', update stringify (e_desc e) (e_node e) h = DOk tt h'
               /\ I h' /\ children_of h' t = children_of h t.

Lemma entry_of_node x : x ∈ map e_node es -> exists e, e ∈ es /\ e_node e = x.
Proof. intros H. apply list_elem_of_fmap in H as (e & -> & He). eauto. Qed.

Lemma patch_slots_keyed : forall todo done rest h,
  es = done ++ todo ->
  I h ->
  children_of h t = map e_node done ++ rest ->
  rest ≡ₚ map e_node todo ->
  NoDup (children_of h t) ->
  exists h',
    patch_slots stringify (update stringify) t (map e_desc todo)
      (length done) (length es) h = DOk tt h'
    /\ I h' /\ children_of h' t = map e_node es.
Proof.
  induction todo as [|e todo IH]; intros done rest h Hes HI Hch Hperm Hnd.
  - exists h. split; [reflexivity|]. split; [exact HI|].
    apply Permutation_nil_r in Hperm. subst rest.
    rewrite Hch, Hes, !app_nil_r. reflexivity.
  - cbn [map patch_slots].
    assert (Hlt : (length done <? length es) = true).
    { apply Nat.ltb_lt. rewrite Hes, length_app. simpl. lia. }
    rewrite Hlt.
    assert (He : e ∈ es) by (rewrite Hes; apply elem_of_app; right; left).
    destruct (I_parent h HI) as (tn & Ht & Hmk).
    assert (Hids : childNodes tn = map e_node done ++ rest).
    { unfold children_of in Hch. rewrite Ht in Hch. exact Hch. }
    assert (Hndt : NoDup (childNodes tn)).
    { unfold children_of in Hnd. rewrite Ht in Hnd. exact Hnd. }
    destruct rest as [|i rest'].
    { apply Permutation_nil_l in Hperm. discriminate. }
    assert (Hci : child_at t (length done) h = Some i).
    { unfold child_at. rewrite Ht, Hids.
      rewrite <- (length_map e_node done). apply list_lookup_middle. reflexivity. }
    pose proof (I_children h HI) as Hkc. rewrite Forall_forall in Hkc.
    destruct (Hkc e He) as (ny & Hny & Hpy & _ & Hky & Hreg & Hay).
    pose proof es_desc as Hd. rewrite Forall_forall in Hd.
    destruct (Hd e He) as (tag & ps & cs & Hdesc & Hkey).
    (* the entry whose node sits in slot r *)
    assert (Hin_es : forall x, x ∈ childNodes tn -> x ∈ map e_node es).
    { intros x Hx. rewrite Hes, map_app. rewrite Hids in Hx.
      apply elem_of_app in Hx as [Hx|Hx]; apply elem_of_app; [left; exact Hx|right].
      rewrite <- Hperm. exact Hx. }
    destruct (entry_of_node i) as (ei & Hei & Hei_node).
    { apply Hin_es. rewrite Hids. apply elem_of_app. right. left. }
    destruct (Hkc ei Hei) as (ni & Hni & Hpi & Hti & Hki & Hregi & Hai).
    rewrite Hei_node in Hni, Hai.
    unfold slot. rewrite Hci, Hdesc, Hkey. rewrite <- Hdesc.
    assert (Hka : key_attr i h = Some (e_key ei)).
    { unfold key_attr. rewrite Hni. exact Hki. }
    assert (Hy_rest : e_node e ∈ i :: rest').
    { rewrite Hperm. left. }
    destruct (decide (key_attr i h = Some (e_key e))) as [Heq|Hne].
    + (* the node in the slot already carries the key *)
      assert (ei = e).
      { apply (NoDup_map_inj (fun e => key_name (e_key e)) es); try assumption.
        simpl. rewrite Hka in Heq. congruence. }
      subst ei.
      unfold update_at. rewrite Hci, <- Hei_node.
      destruct (I_patch h e HI He) as (h1 & Hu & HI1 & Hch1).
      rewrite Hu. cbn [dbind].
      destruct (IH (done ++ [e]) rest' h1) as (h' & Hr & HI' & Hch').
      * rewrite Hes, <- app_assoc. reflexivity.
      * exact HI1.
      * rewrite Hch1, Hch, map_app, <- app_assoc. cbn [map app].
        rewrite Hei_node. reflexivity.
      * cbn [map] in Hperm. rewrite Hei_node in Hperm.
        eapply Permutation_cons_inv. exact Hperm.
      * rewrite Hch1. exact Hnd.
      * rewrite length_app in Hr. simpl in Hr. rewrite Nat.add_1_r in Hr.
        exists h'. auto.
    + (* the key is registered to another child: relocate it *)
      rewrite Hreg.
      assert (Hyi : e_node e <> i).
      { intros Heq. apply Hne. rewrite <- Heq. unfold key_attr.
        rewrite Hny. exact Hky. }
      assert (Hy' : e_node e ∈ rest').
      { apply elem_of_cons in Hy_rest as [?|?]; [contradiction|assumption]. }
      pose proof (relocate h t tn (e_node e) ny i ni (map e_node done) rest'
                    Ht Hids Hndt Hy' Hny Hpy Hni Hpi Hti Hay Hai) as Hrel.
      set (L := map e_node done ++ e_node e
                :: filter (fun z => z <> e_node e) rest' ++ [i]) in *.
      set (h2 := set_node t (with_children L tn) h) in *.
      destruct (replaceChild t (e_node e) i h) as [[] h1| |] eqn:Hrc;
        cbn [dbind] in Hrel |- *; try discriminate.
      rewrite Hrel. cbn [dbind].
      assert (HI2 : I h2) by (apply I_reorder; assumption).
      assert (Hch2 : children_of h2 t = L).
      { unfold children_of, h2. simpl. rewrite lookup_insert_eq. reflexivity. }
      assert (Hc2 : child_at t (length done) h2 = Some (e_node e)).
      { unfold child_at, h2. simpl. rewrite lookup_insert_eq. simpl. unfold L.
        rewrite <- (length_map e_node done). apply list_lookup_middle. reflexivity. }
      unfold update_at. rewrite Hc2.
      destruct (I_patch h2 e HI2 He) as (h3 & Hu & HI3 & Hch3).
      rewrite Hu. cbn [dbind].
      rewrite Hids in Hndt. apply NoDup_app in Hndt as (_ & _ & Hnd2).
      apply NoDup_cons in Hnd2 as [Hi' Hnd2].
      pose proof (NoDup_filter_ne_perm (e_node e) rest' Hnd2 Hy') as Hp1.
      destruct (IH (done ++ [e]) (filter (fun z => z <> e_node e) rest' ++ [i]) h3)
        as (h' & Hr & HI' & Hch').
      * rewrite Hes, <- app_assoc. reflexivity.
      * exact HI3.
      * rewrite Hch3, Hch2. unfold L. rewrite map_app, <- app_assoc. reflexivity.
      * simpl in Hperm. rewrite Hp1 in Hperm.
        rewrite perm_swap in Hperm. apply Permutation_cons_inv in Hperm.
        rewrite <- Hperm. apply Permutation_app_comm.
      * rewrite Hch3, Hch2. unfold L.
        apply NoDup_app. assert (Hnd0 := Hnd). unfold children_of in Hnd0.
        rewrite Ht, Hids in Hnd0. apply NoDup_app in Hnd0 as (Hd1 & Hdisj & _).
        split; [exact Hd1|]. split.
        { intros x Hx Hx2. apply (Hdisj x Hx).
          apply elem_of_cons in Hx2 as [->|Hx2]; [right; exact Hy'|].
          apply elem_of_app in Hx2 as [Hx2|Hx2].
          - apply list_elem_of_filter in Hx2 as [_ Hx2]. right. exact Hx2.
          - apply list_elem_of_singleton in Hx2. subst x. left. }
        apply NoDup_cons. split.
        { intros Hx. apply elem_of_app in Hx as [Hx|Hx].
          - apply list_elem_of_filter in Hx as [Hx _]. apply Hx. reflexivity.
          - apply list_elem_of_singleton in Hx. contradiction. }
        apply NoDup_app. split; [apply NoDup_filter, Hnd2|]. split.
        { intros x Hx Hx2. apply list_elem_of_singleton in Hx2. subst x.
          apply list_elem_of_filter in Hx as [_ Hx]. contradiction. }
        apply NoDup_singleton.
      * rewrite length_app in Hr. simpl in Hr. rewrite Nat.add_1_r in Hr.
        exists h'. auto.
Qed.

(** [updateChildren] on a permutation of keyed children: no slot is
    left over and none is missing, so only the first loop runs. *)
Lemma updateChildren_keyed h :
  I h -> children_of h t ≡ₚ map e_node es -> NoDup (children_of h t) ->
  exists h',
    updateChildren stringify t (map e_desc es) h = DOk tt h'
    /\ I h' /\ children_of h' t = map e_node es.
Proof.
  intros HI Hperm Hnd. unfold updateChildren, updateChildren_.
  destruct (I_parent h HI) as (tn & Ht & Hmk). rewrite Ht, Hmk.
  assert (Hlen : length (childNodes tn) = length es).
  { unfold children_of in Hperm. rewrite Ht in Hperm.
    rewrite (Permutation_length Hperm), length_map. reflexivity. }
  rewrite length_map, Hlen, Nat.min_id.
  destruct (patch_slots_keyed es [] (childNodes tn) h) as (h' & Hr & HI' & Hch').
  - reflexivity.
  - exact HI.
  - unfold children_of. rewrite Ht. reflexivity.
  - unfold children_of in Hperm. rewrite Ht in Hperm. exact Hperm.
  - exact Hnd.
  - simpl in Hr. rewrite Hr. cbn [dbind].
    destruct (I_parent h' HI') as (tn' & Ht' & _). rewrite Ht'.
    unfold children_of in Hch'. rewrite Ht' in Hch'.
    rewrite Hch', length_map, Nat.sub_diag. cbn [remove_trailing dbind].
    rewrite Nat.ltb_irrefl. exists h'. split; [reflexivity|]. split; [exact HI'|].
    unfold children_of. rewrite Ht'. exact Hch'.
Qed.

End KeyedList.

(** *** Subtrees that are rendered as described *)

(** The host subtree at [x] is what description [o] renders to: the same
    tags, texts, keys and properties all the way down, on nodes outside
    of [F]. *)
Fixpoint renders (F : list nat) (h : Dom) (o : VNode) (x : nat) {struct o} : Prop :=
  (x ∉ F) /\
  match o with
  | VText s =>
      exists n, nodes h !! x = Some n /\ nodeType n = 3 /\ markup n = None /\ data n = s
  | VElem tag ps cs =>
      exists n sp,
        nodes h !! x = Some n /\ nodeName n = toUpperCase tag /\ markup n = None
        /\ _props n = Some sp /\ NoDup (map fst sp) /\ mergeProps sp ps = sp
        /\ (forall a, key_of ps = Some a -> attrs n !! "key" = Some a)
        /\ (fix all (cs : list VNode) (xs : list nat) {struct cs} : Prop :=
              match cs, xs with
              | [], [] => True
              | c :: cs', x' :: xs' => renders F h c x' /\ all cs' xs'
              | _, _ => False
              end) cs (childNodes n)
  end.

Lemma renders_children F h : forall cs xs,
  (fix all (cs : list VNode) (xs : list nat) {struct cs} : Prop :=
     match cs, xs with
     | [], [] => True
     | c :: cs', x' :: xs' => renders F h c x' /\ all cs' xs'
     | _, _ => False
     end) cs xs <-> Forall2 (renders F h) cs xs.
Proof.
  induction cs as [|c cs IH]; intros [|x xs]; split; intros H;
    try contradiction; try (inversion H; fail).
  - constructor.
  - exact Logic.I.
  - destruct H as [Hc H]. constructor; [exact Hc|]. apply IH, H.
  - inversion H; subst. split; [assumption|]. apply IH. assumption.
Qed.

Lemma VNode_children_ind (P : VNode -> Prop) :
  (forall s, P (VText s)) ->
  (forall tag ps cs, Forall P cs -> P (VElem tag ps cs)) ->
  forall o, P o.
Proof.
  intros Ht He. fix IH 1. intros [s|tag ps cs]; [apply Ht|].
  apply He. induction cs as [|c cs IHcs]; constructor; [apply IH|exact IHcs].
Qed.

(** [renders] only reads nodes outside of [F]. *)
Lemma renders_frame F h h' :
  (forall z, z ∉ F -> nodes h' !! z = nodes h !! z) ->
  forall o x, renders F h o x -> renders F h' o x.
Proof.
  intros Hfr o. induction o as [s|tag ps cs IH] using VNode_children_ind; intros x.
  - intros (Hx & n & Hn & H). split; [exact Hx|]. exists n.
    rewrite (Hfr x Hx). split; assumption.
  - intros (Hx & n & sp & Hn & A1 & A2 & A3 & A4 & A5 & A6 & Hall).
    split; [exact Hx|]. exists n, sp. rewrite (Hfr x Hx).
    repeat (split; [assumption|]).
    apply renders_children. apply renders_children in Hall.
    revert IH Hall. generalize (childNodes n). clear.
    induction cs as [|c cs IHcs]; intros xs IH Hall; inversion Hall; subst;
      constructor.
    + apply Forall_cons in IH as [Hc _]. apply Hc. assumption.
    + apply Forall_cons in IH as [_ IH]. apply IHcs; assumption.
Qed.

Lemma apply_props_same x sp (l : Props) h :
  (forall entry, entry ∈ l -> prop entry.1 sp = Some entry.2) ->
  foldl (apply_prop x sp) h l = h.
Proof.
  induction l as [|[r i] l IH]; intros Hall; [reflexivity|].
  simpl. destruct (decide (prop r sp = Some i)) as [_|Hne].
  - apply IH. intros e He. apply Hall. right. exact He.
  - exfalso. apply Hne. apply (Hall (r, i)). left.
Qed.

(** [updateProps] with the properties the node was rendered with. *)
Lemma updateProps_noop h x n sp ps :
  nodes h !! x = Some n -> _props n = Some sp -> NoDup (map fst sp) ->
  mergeProps sp ps = sp -> updateProps x ps h = DOk tt h.
Proof.
  intros Hx Hsp Hnd Hm. unfold updateProps. rewrite Hx, Hsp. simpl. rewrite Hm.
  assert (Hsame : set_node x (with_snapshot sp n) h = h).
  { unfold set_node. destruct h as [ns kc]. simpl in *. f_equal.
    apply insert_id. rewrite Hx. f_equal. destruct n. simpl in *. subst.
    reflexivity. }
  rewrite Hsame. f_equal. apply apply_props_same.
  intros [r i] Hin. apply prop_in; assumption.
Qed.

Section Unchanged.

Variable stringify : VNode -> string.
Variable F : list nat.
Variable h : Dom.

(** A slot whose node is rendered as described is left alone, given that
    [update] leaves elements alone that are rendered as described. *)
Lemma slot_noop t r o x :
  (forall tag ps cs, o = VElem tag ps cs -> update stringify o x h = DOk tt h) ->
  renders F h o x -> child_at t r h = Some x ->
  slot stringify (update stringify) t r o h = DOk tt h.
Proof.
  intros Hu Hr Hc. unfold slot. rewrite Hc.
  destruct o as [s|tag ps cs].
  - destruct Hr as (_ & n & Hn & Hty & Hmk & Hd).
    unfold textContent. cbn [text_of]. rewrite Hn, Hmk, Hty. simpl.
    rewrite Hd, String.eqb_refl. reflexivity.
  - destruct Hr as (_ & n & sp & Hn & _ & _ & _ & _ & _ & Hk & _).
    unfold update_at. rewrite Hc.
    destruct (key_of ps) as [a|]; [|eapply Hu; reflexivity].
    destruct (decide (key_attr x h = Some a)) as [_|Hne]; [eapply Hu; reflexivity|].
    exfalso. apply Hne. unfold key_attr. rewrite Hn. apply Hk. reflexivity.
Qed.

Lemma patch_slots_noop t tn : forall cs pre xs,
  nodes h !! t = Some tn -> childNodes tn = pre ++ xs ->
  Forall (fun o => forall x tag ps cs', o = VElem tag ps cs' -> renders F h o x ->
                                        update stringify o x h = DOk tt h) cs ->
  Forall2 (renders F h) cs xs ->
  patch_slots stringify (update stringify) t cs (length pre)
    (length (childNodes tn)) h = DOk tt h.
Proof.
  induction cs as [|c cs IH]; intros pre xs Ht Hch Hu Hall; [reflexivity|].
  inversion Hall as [|c' x cs' xs' Hc Hrest]; subst.
  apply Forall_cons in Hu as [Hu1 Hu].
  cbn [patch_slots].
  assert (Hlt : (length pre <? length (childNodes tn)) = true).
  { apply Nat.ltb_lt. rewrite Hch, length_app. simpl. lia. }
  rewrite Hlt.
  rewrite (slot_noop t (length pre) c x).
  - cbn [dbind]. specialize (IH (pre ++ [x]) xs' Ht).
    rewrite length_app in IH. simpl in IH. rewrite Nat.add_1_r in IH.
    apply IH; [rewrite <- app_assoc; exact Hch|exact Hu|exact Hrest].
  - intros tag ps cs0 Ho. eapply Hu1; eassumption.
  - exact Hc.
  - unfold child_at. rewrite Ht, Hch. apply list_lookup_middle. reflexivity.
Qed.

(** [updateChildren] on children that are rendered as described. *)
Lemma updateChildren_noop t tn cs :
  nodes h !! t = Some tn -> markup tn = None ->
  Forall (fun o => forall x tag ps cs', o = VElem tag ps cs' -> renders F h o x ->
                                        update stringify o x h = DOk tt h) cs ->
  Forall2 (renders F h) cs (childNodes tn) ->
  updateChildren_ stringify (update stringify) t cs h = DOk tt h.
Proof.
  intros Ht Hmk Hu Hall. unfold updateChildren_. rewrite Ht, Hmk.
  pose proof (Forall2_length _ _ _ Hall) as Hlen.
  rewrite <- Hlen, Nat.min_id. rewrite Hlen.
  pose proof (patch_slots_noop t tn cs [] (childNodes tn) Ht eq_refl Hu Hall) as Hp.
  simpl in Hp. rewrite Hp.
  cbn [dbind]. rewrite Ht, Nat.sub_diag. cbn [remove_trailing dbind].
  rewrite Nat.ltb_irrefl. reflexivity.
Qed.

(** [update] of an element that is rendered as described changes
    nothing. *)
Lemma update_noop : forall o x tag ps cs,
  o = VElem tag ps cs -> renders F h o x -> update stringify o x h = DOk tt h.
Proof.
  induction o as [s|tag ps cs IH] using VNode_children_ind;
    intros x tag' ps' cs' Ho Hr; [discriminate|]. clear Ho.
  destruct Hr as (Hx & n & sp & Hn & Hname & Hmk & Hsp & Hnd & Hm & Hk & Hall).
  apply renders_children in Hall.
  cbn [update]. rewrite Hn, Hname, String.eqb_refl.
  rewrite (updateChildren_noop x n cs Hn Hmk IH Hall). cbn [dbind].
  eapply updateProps_noop; eassumption.
Qed.

End Unchanged.

(** *** Keyed elements whose children are unchanged *)

(** Entry [e] describes a keyed element, and its host node is an element
    rendered with the same key and the same tag, whose children are
    rendered as the entry describes them. *)
Definition stable_entry (F : list nat) (h : Dom) (t : nat) (e : Entry) : Prop :=
  keyed_child h t e
  /\ exists n tag ps cs sp,
       nodes h !! e_node e = Some n
       /\ e_desc e = VElem tag (Some ps) cs
       /\ NoDup (map fst ps) /\ prop "key" ps = Some (e_key e)
       /\ ptruthy (e_key e) = true
       /\ nodeName n = toUpperCase tag /\ markup n = None
       /\ _props n = Some sp /\ prop "key" sp = Some (e_key e)
       /\ Forall2 (renders F h) cs (childNodes n).

(** The parent and the keyed nodes of the list. *)
Definition list_nodes (t : nat) (es : list Entry) : list nat := t :: map e_node es.

Definition stable_host (h0 : Dom) (t : nat) (es : list Entry) (h : Dom) : Prop :=
  (exists tn, nodes h !! t = Some tn /\ markup tn = None)
  /\ dom (nodes h) = dom (nodes h0)
  /\ keyCache h = keyCache h0
  /\ (forall z, z ∉ list_nodes t es -> nodes h !! z = nodes h0 !! z)
  /\ Forall (stable_entry (list_nodes t es) h t) es.

Lemma parent_of_set_node x n h nx z :
  nodes h !! x = Some nx -> parentNode n = parentNode nx ->
  parent_of (set_node x n h) z = parent_of h z.
Proof.
  intros Hx Hp. unfold parent_of, set_node; simpl.
  destruct (decide (x = z)) as [->|Hne].
  - rewrite lookup_insert_eq, Hx. exact Hp.
  - rewrite lookup_insert_ne by exact Hne. reflexivity.
Qed.

Lemma not_ancestor_set_node x n h nx a t :
  nodes h !! x = Some nx -> parentNode n = parentNode nx ->
  not_ancestor h a t -> not_ancestor (set_node x n h) a t.
Proof.
  intros Hx Hp Ha.
  apply (not_ancestor_frame h (set_node x n h) [] a); [|constructor|exact Ha].
  intros z _. eapply parent_of_set_node; eassumption.
Qed.

Lemma dom_set_node x n h nx :
  nodes h !! x = Some nx -> dom (nodes (set_node x n h)) = dom (nodes h).
Proof.
  intros Hx. unfold set_node; simpl. rewrite dom_insert_L.
  apply subseteq_union_1_L, singleton_subseteq_l, elem_of_dom. eauto.
Qed.

(** Replacing one of the nodes in [F] by one in the same place with the
    same key keeps every entry. *)
Lemma stable_entry_set_node F h t x nx n e :
  x ∈ F ->
  nodes h !! x = Some nx ->
  nodeType n = nodeType nx -> nodeName n = nodeName nx ->
  parentNode n = parentNode nx -> markup n = markup nx ->
  attrs n !! "key" = attrs nx !! "key" ->
  (x <> t -> childNodes n = childNodes nx) ->
  (x <> t -> exists sp sp', _props nx = Some sp /\ _props n = Some sp'
                           /\ prop "key" sp' = prop "key" sp) ->
  stable_entry F h t e -> stable_entry F (set_node x n h) t e.
Proof.
  intros HxF Hx Hty Hnm Hpa Hmk Hat Hch Hsn
    ((n0 & Hn0 & Hp0 & Ht0 & Hk0 & Hreg & Hanc)
     & n1 & tag & ps & cs & sp & Hn1 & Hdesc & Hnd & Hkey & Htr & Hname & Hm1
     & Hsp & Hksp & Hcs).
  rewrite Hn0 in Hn1. injection Hn1 as <-.
  pose proof (not_ancestor_ne _ _ _ Hanc) as Hne.
  assert (Hcs' : Forall2 (renders F (set_node x n h)) cs (childNodes n0)).
  { eapply Forall2_impl; [exact Hcs|]. intros c y. apply renders_frame.
    intros z Hz. unfold set_node; simpl. apply lookup_insert_ne.
    intros ->. contradiction. }
  destruct (decide (x = e_node e)) as [->|Hxe].
  - rewrite Hx in Hn0. injection Hn0 as <-.
    destruct (Hsn Hne) as (sp0 & sp' & Hsp0 & Hsp' & Hkk).
    rewrite Hsp in Hsp0. injection Hsp0 as <-.
    split.
    + exists n. unfold set_node; simpl. rewrite lookup_insert_eq.
      split; [reflexivity|]. split; [congruence|]. split; [congruence|].
      split; [congruence|]. split; [exact Hreg|].
      eapply not_ancestor_set_node; eassumption.
    + exists n, tag, ps, cs, sp'. unfold set_node; simpl. rewrite lookup_insert_eq.
      split; [reflexivity|]. split; [exact Hdesc|]. split; [exact Hnd|].
      split; [exact Hkey|]. split; [exact Htr|]. split; [congruence|].
      split; [congruence|]. split; [exact Hsp'|]. split; [congruence|].
      rewrite (Hch Hne). exact Hcs'.
  - split.
    + exists n0. unfold set_node; simpl. rewrite lookup_insert_ne by exact Hxe.
      split; [exact Hn0|]. split; [exact Hp0|]. split; [exact Ht0|].
      split; [exact Hk0|]. split; [exact Hreg|].
      eapply not_ancestor_set_node; eassumption.
    + exists n0, tag, ps, cs, sp. unfold set_node; simpl.
      rewrite lookup_insert_ne by exact Hxe.
      repeat (split; [assumption|]). exact Hcs'.
Qed.

(** [update] of a keyed element against its own description, its
    children unchanged. *)
Lemma update_stable stringify h0 h t es e :
  stable_host h0 t es h -> e ∈ es ->
  exists h',
    update stringify (e_desc e) (e_node e) h = DOk tt h'
    /\ stable_host h0 t es h' /\ children_of h' t = children_of h t.
Proof.
  intros ((tn & Ht & Hmk) & Hdom & Hkc & Hfr & Hall) He.
  pose proof Hall as Hall'. rewrite Forall_forall in Hall'.
  destruct (Hall' e He)
    as ((n0 & Hn0 & Hp0 & Ht0 & Hk0 & Hreg & Hanc)
        & n & tag & ps & cs & sp & Hn & Hdesc & Hnd & Hkey & Htr & Hname & Hm
        & Hsp & Hksp & Hcs).
  pose proof (not_ancestor_ne _ _ _ Hanc) as Hne.
  assert (HeF : e_node e ∈ list_nodes t es).
  { right. apply list_elem_of_fmap. eauto. }
  rewrite Hdesc. cbn [update]. rewrite Hn, Hname, String.eqb_refl.
  rewrite (updateChildren_noop stringify (list_nodes t es) h (e_node e) n cs Hn Hm);
    [|apply Forall_forall; intros o _ x tag' ps' cs'; apply update_noop|exact Hcs].
  cbn [dbind].
  destruct (updateProps_same_key h (e_node e) n sp (e_key e) ps Hn Hsp Hksp Hkey Hnd)
    as (n' & Hu & A1 & A2 & A3 & A4 & A5 & A6 & sp' & A7 & A8).
  rewrite Hu. exists (set_node (e_node e) n' h). split; [reflexivity|].
  split.
  - split.
    { exists tn. unfold set_node; simpl. rewrite lookup_insert_ne by exact Hne.
      split; assumption. }
    split; [rewrite (dom_set_node _ _ _ _ Hn); exact Hdom|].
    split; [exact Hkc|].
    split.
    { intros z Hz. unfold set_node; simpl. rewrite lookup_insert_ne; [apply Hfr, Hz|].
      intros <-. contradiction. }
    apply Forall_forall. intros e' He'.
    apply (stable_entry_set_node _ h t (e_node e) n n' e' HeF Hn); try assumption.
    + intros _. exact A3.
    + intros _. exists sp, sp'. split; [exact Hsp|]. split; [exact A7|]. congruence.
    + apply Hall', He'.
  - unfold children_of, set_node; simpl.
    rewrite lookup_insert_ne by exact Hne. reflexivity.
Qed.

Lemma stable_host_reorder h0 h t es tn L :
  stable_host h0 t es h -> nodes h !! t = Some tn ->
  stable_host h0 t es (set_node t (with_children L tn) h).
Proof.
  intros ((tn0 & Ht0 & Hmk) & Hdom & Hkc & Hfr & Hall) Ht.
  rewrite Ht in Ht0. injection Ht0 as <-.
  assert (HtF : t ∈ list_nodes t es) by left.
  split.
  { exists (with_children L tn). unfold set_node; simpl. rewrite lookup_insert_eq.
    split; [reflexivity|exact Hmk]. }
  split; [rewrite (dom_set_node _ _ _ _ Ht); exact Hdom|].
  split; [exact Hkc|].
  split.
  { intros z Hz. unfold set_node; simpl. rewrite lookup_insert_ne; [apply Hfr, Hz|].
    intros <-. contradiction. }
  apply Forall_forall. intros e He. rewrite Forall_forall in Hall.
  apply (stable_entry_set_node _ h t t tn (with_children L tn) e HtF Ht);
    try reflexivity; try (intros Hc; exfalso; apply Hc; reflexivity).
  apply Hall, He.
Qed.

Lemma stable_entry_keyed_desc F h t e : stable_entry F h t e -> keyed_desc e.
Proof.
  intros (_ & n & tag & ps & cs & sp & _ & Hdesc & _ & Hkey & Htr & _).
  exists tag, ps, cs. split; [exact Hdesc|]. unfold key_of. rewrite Hkey, Htr.
  reflexivity.
Qed.

(** Reordering keyed elements whose children are unchanged:
    [updateChildren] succeeds, creates no node, leaves the key registry
    and every node below the keyed ones as they are, and the child in
    every slot is the host node that carried the key of that slot's
    description before. *)
Lemma keyed_children_reorder stringify h t (es : list Entry) :
  (exists tn, nodes h !! t = Some tn /\ markup tn = None) ->
  children_of h t ≡ₚ map e_node es ->
  NoDup (map (fun e => key_name (e_key e)) es) ->
  Forall (stable_entry (list_nodes t es) h t) es ->
  exists h',
    updateChildren stringify t (map e_desc es) h = DOk tt h'
    /\ children_of h' t = map e_node es
    /\ dom (nodes h') = dom (nodes h)
    /\ keyCache h' = keyCache h
    /\ (forall z, z ∉ list_nodes t es -> nodes h' !! z = nodes h !! z)
    /\ Forall (stable_entry (list_nodes t es) h' t) es.
Proof.
  intros Ht Hperm Hkeys Hall.
  assert (Hnd : NoDup (children_of h t)).
  { rewrite Hperm. revert Hkeys Hall. generalize (list_nodes t es) as F.
    clear. intros F.
    induction es as [|e es IH]; intros Hkeys Hall; [constructor|].
    simpl in *. apply NoDup_cons in Hkeys as [Hn Hkeys].
    apply Forall_cons in Hall as [He Hall].
    apply NoDup_cons. split; [|apply IH; assumption].
    intros Hin. apply list_elem_of_fmap in Hin as (e' & Heq & He').
    apply Hn. apply list_elem_of_fmap. exists e'. split; [|exact He'].
    rewrite Forall_forall in Hall.
    destruct He as ((n & Hn1 & _ & _ & Hk1 & _) & _).
    destruct (Hall e' He') as ((n' & Hn2 & _ & _ & Hk2 & _) & _).
    rewrite Heq, Hn2 in Hn1. injection Hn1 as <-. congruence. }
  destruct (updateChildren_keyed stringify t es (stable_host h t es)) with (h := h)
    as (h' & Hr & (_ & Hdom & Hkc & Hfr & Hall') & Hch).
  - exact Hkeys.
  - eapply Forall_impl; [exact Hall|]. intros e. apply stable_entry_keyed_desc.
  - intros h1 (Hp & _). exact Hp.
  - intros h1 (_ & _ & _ & _ & Hl). eapply Forall_impl; [exact Hl|].
    intros e (Hk & _). exact Hk.
  - intros h1 tn L. apply stable_host_reorder.
  - intros h1 e. apply update_stable.
  - split; [exact Ht|]. split; [reflexivity|]. split; [reflexivity|].
    split; [reflexivity|exact Hall].
  - exact Hperm.
  - exact Hnd.
  - exists h'. auto 10.
Qed.

(** One slot of the first loop, when the key of the description is
    registered to a later sibling [y] of the node [i] in the slot:
    [y] itself is moved into the slot, [i] goes to the end of the child
    list, and [y] is then patched in its new place. *)
Lemma slot_relocates stringify h t tn o tag ps cs k i y ny ni l1 l2 :
  nodes h !! t = Some tn -> childNodes tn = l1 ++ i :: l2 ->
  NoDup (childNodes tn) -> y ∈ l2 ->
  o = VElem tag (Some ps) cs -> key_of (Some ps) = Some k ->
  key_attr i h <> Some k -> keyCache h !! key_name k = Some y ->
  nodes h !! y = Some ny -> parentNode ny = Some t ->
  nodes h !! i = Some ni -> parentNode ni = Some t -> nodeType ni <> 11 ->
  not_ancestor h y t -> not_ancestor h i t ->
  let h' := set_node t (with_children
                          (l1 ++ y :: filter (fun z => z <> y) l2 ++ [i]) tn) h in
  slot stringify (update stringify) t (length l1) o h = update stringify o y h'
  /\ child_at t (length l1) h' = Some y
  /\ dom (nodes h') = dom (nodes h)
  /\ (forall z, z <> t -> nodes h' !! z = nodes h !! z).
Proof.
  intros Ht Hl Hnd Hy Ho Hk Hne Hreg Hny Hpy Hni Hpi Hti Hay Hai h'.
  pose proof (relocate h t tn y ny i ni l1 l2 Ht Hl Hnd Hy Hny Hpy Hni Hpi Hti Hay Hai)
    as Hrel. fold h' in Hrel.
  assert (Hc : child_at t (length l1) h = Some i).
  { unfold child_at. rewrite Ht, Hl. apply list_lookup_middle. reflexivity. }
  assert (Hc' : child_at t (length l1) h' = Some y).
  { unfold child_at, h'. simpl. rewrite lookup_insert_eq. simpl.
    apply list_lookup_middle. reflexivity. }
  split; [|split; [exact Hc'|split]].
  - unfold slot. rewrite Hc, Ho, Hk.
    destruct (decide (key_attr i h = Some k)); [contradiction|].
    rewrite Hreg.
    destruct (replaceChild t y i h) as [[] h1| |]; cbn [dbind] in Hrel |- *;
      try discriminate.
    rewrite Hrel. cbn [dbind]. unfold update_at. rewrite Hc'. reflexivity.
  - apply (dom_set_node _ _ _ _ Ht).
  - intros z Hz. unfold h', set_node. simpl. rewrite lookup_insert_ne by congruence.
    reflexivity.
Qed.


(** *** The example of the specification *)

Definition no_json (o : VNode) : string := "{}".

(** [<input key=k>] *)
Definition item (k : string) : VNode := VElem "input" (Some [("key", PStr k)]) [].

Definition root : Dom :=
  {| nodes := {[ 0 := blank_node 1 "UL" ]}; keyCache := ∅ |}.

Definition rendered (es : list VNode) (h : Dom) : Dom :=
  match updateChildren no_json 0 es h with
  | DOk _ h' => h'
  | _ => h
  end.

(** [<li key=k><span>s</span></li>] *)
Definition row (k s : string) : VNode :=
  VElem "li" (Some [("key", PStr k)]) [VElem "span" None [VText s]].

(** The host after a first render of the keyed rows a, b, c, and of the
    single keyed input a. *)
Definition three_rows : Dom := rendered [row "a" "A"; row "b" "B"; row "c" "C"] root.
Definition one_input : Dom := rendered [item "a"] root.

(** The new order b, c, a: the element keyed a moves from position 0 to
    position 2. *)
Definition moved : list Entry :=
  [ {| e_node := 5; e_key := PStr "b"; e_desc := row "b" "B" |};
    {| e_node := 8; e_key := PStr "c"; e_desc := row "c" "C" |};
    {| e_node := 2; e_key := PStr "a"; e_desc := row "a" "A" |} ].

Ltac distinct_names :=
  repeat (apply NoDup_cons; split;
          [ let H := fresh in
            intros H; repeat (apply elem_of_cons in H as [H|H]; [discriminate|]);
            inversion H
          | ]);
  apply NoDup_nil; exact I.

Ltac outside :=
  let H := fresh in
  intros H; repeat (apply elem_of_cons in H as [H|H]; [discriminate|]); inversion H.

(** The [span] at [x] with the text node [y] below it. *)
Lemma three_rows_span x y s :
  (x, y, s) ∈ [(3, 4, "A"); (6, 7, "B"); (9, 10, "C")] ->
  renders (list_nodes 0 moved) three_rows (VElem "span" None [VText s]) x.
Proof.
  intros H. repeat (apply elem_of_cons in H as [H|H]; [injection H as -> -> ->|]);
    [| | |inversion H].
  all: split; [outside|]; eexists; exists [];
    split; [vm_compute; reflexivity|]; split; [reflexivity|];
    split; [reflexivity|]; split; [reflexivity|]; split; [constructor|];
    split; [reflexivity|]; split; [intros a Ha; discriminate|];
    split; [|exact Logic.I]; split; [outside|]; eexists;
    split; [vm_compute; reflexivity|]; repeat split.
Qed.

Lemma three_rows_stable e :
  e ∈ moved -> stable_entry (list_nodes 0 moved) three_rows 0 e.
Proof.
  intros He.
  assert (Hanc : forall x, x <> 0 -> not_ancestor three_rows x 0).
  { intros x Hx [|fuel]; simpl; (destruct (decide (x = 0)); [contradiction|]);
      reflexivity. }
  repeat (apply elem_of_cons in He as [->|He]); [| | |inversion He].
  all: split;
    [ eexists; split; [vm_compute; reflexivity|];
      split; [reflexivity|]; split; [simpl; lia|];
      split; [vm_compute; reflexivity|]; split; [vm_compute; reflexivity|];
      apply Hanc; simpl; lia
    | eexists; eexists; eexists; eexists; eexists; split; [vm_compute; reflexivity|];
      split; [reflexivity|]; split; [simpl; distinct_names|];
      repeat (split; [reflexivity|]);
      constructor; [|constructor];
      eapply three_rows_span; repeat first [left; reflexivity | right] ].
Qed.



(** ** What [updateProps] writes *)

(** A property name that [updateProps] assigns to the node itself:
    neither [style] nor a [data-] name. *)
Definition own_name (r : string) : Prop :=
  String.eqb r "style" = false /\ String.prefix "data-" r = false.

(** The value of the own property [r] after the loop of [updateProps]
    over the entries [l], [sp] being the previous snapshot and [old]
    the value before. *)
Definition written (sp l : Props) (r : string) (old : option PVal) : option PVal :=
  match prop r l with
  | Some i => if decide (prop r sp = Some i) then old else Some i
  | None => old
  end.

(** The key registry after the loop. *)
Definition registered (sp l : Props) (y : nat) (kc : gmap string nat) : gmap string nat :=
  match prop "key" l with
  | Some i =>
      if decide (prop "key" sp = Some i) then kc
      else if ptruthy i then <[key_name i := y]> kc else kc
  | None => kc
  end.

Lemma apply_prop_effect y sp entry n h :
  nodes h !! y = Some n ->
  exists n',
    nodes (apply_prop y sp h entry) = <[y := n']> (nodes h)
    /\ nodeType n' = nodeType n /\ nodeName n' = nodeName n /\ data n' = data n
    /\ childNodes n' = childNodes n /\ parentNode n' = parentNode n
    /\ markup n' = markup n /\ _props n' = _props n
    /\ (forall r, own_name r -> attrs n' !! r = written sp [entry] r (attrs n !! r))
    /\ keyCache (apply_prop y sp h entry) = registered sp [entry] y (keyCache h).
Proof.
  intros Hy. destruct entry as [r i]. unfold apply_prop, written, registered.
  cbn [prop].
  assert (Hid : nodes h = <[y := n]> (nodes h)) by (symmetry; apply insert_id, Hy).
  destruct (decide (prop r sp = Some i)) as [Heq|Hne].
  { exists n. split; [exact Hid|]. repeat (split; [reflexivity|]). split.
    - intros r' _. destruct (String.eqb r' r) eqn:E; [|reflexivity].
      apply String.eqb_eq in E. subst r'.
      destruct (decide (prop r sp = Some i)); [reflexivity|contradiction].
    - destruct (String.eqb "key" r) eqn:E; [|reflexivity].
      apply String.eqb_eq in E. subst r.
      destruct (decide (prop "key" sp = Some i)); [reflexivity|contradiction]. }
  destruct (String.eqb r "style") eqn:Es.
  { apply String.eqb_eq in Es. subst r. unfold modify. rewrite Hy.
    eexists. split; [reflexivity|]. repeat (split; [reflexivity|]). split.
    - intros r' [Hr' _]. destruct (String.eqb r' "style"); [discriminate|reflexivity].
    - reflexivity. }
  destruct (String.prefix "data-" r) eqn:Ed.
  { unfold modify. rewrite Hy.
    eexists. split; [reflexivity|]. repeat (split; [reflexivity|]). split.
    - intros r' [_ Hr']. destruct (String.eqb r' r) eqn:E; [|reflexivity].
      apply String.eqb_eq in E. subst r'. rewrite Ed in Hr'. discriminate.
    - destruct (String.eqb "key" r) eqn:E; [|reflexivity].
      apply String.eqb_eq in E. subst r. discriminate. }
  unfold modify. rewrite Hy.
  exists (with_attr r i n).
  split; [destruct (String.eqb r "key" && ptruthy i); reflexivity|].
  repeat (split; [reflexivity|]). split.
  - intros r' _. cbn [attrs with_attr]. destruct (String.eqb r' r) eqn:E.
    + apply String.eqb_eq in E. subst r'. rewrite lookup_insert_eq.
      destruct (decide (prop r sp = Some i)); [contradiction|reflexivity].
    + rewrite lookup_insert_ne; [reflexivity|].
      intros ->. rewrite String.eqb_refl in E. discriminate.
  - destruct (String.eqb r "key") eqn:E.
    + apply String.eqb_eq in E. subst r. rewrite String.eqb_refl. cbn [andb].
      destruct (decide (prop "key" sp = Some i)); [contradiction|].
      destruct (ptruthy i); reflexivity.
    + cbn [andb]. destruct (String.eqb "key" r) eqn:E'; [|reflexivity].
      apply String.eqb_eq in E'. subst r. discriminate.
Qed.

Lemma written_cons sp r i l r' old :
  r ∉ map fst l ->
  written sp ((r, i) :: l) r' old = written sp l r' (written sp [(r, i)] r' old).
Proof.
  intros Hn. unfold written. cbn [prop].
  destruct (String.eqb r' r) eqn:E.
  - apply String.eqb_eq in E. subst r'. rewrite (prop_None_names l r Hn). reflexivity.
  - reflexivity.
Qed.

Lemma registered_cons sp r i l y kc :
  r ∉ map fst l ->
  registered sp ((r, i) :: l) y kc = registered sp l y (registered sp [(r, i)] y kc).
Proof.
  intros Hn. unfold registered. cbn [prop].
  destruct (String.eqb "key" r) eqn:E.
  - apply String.eqb_eq in E. subst r. rewrite (prop_None_names l "key" Hn). reflexivity.
  - reflexivity.
Qed.

Lemma apply_props_effect y sp l : forall n h,
  NoDup (map fst l) ->
  nodes h !! y = Some n ->
  exists n',
    nodes (foldl (apply_prop y sp) h l) = <[y := n']> (nodes h)
    /\ nodeType n' = nodeType n /\ nodeName n' = nodeName n /\ data n' = data n
    /\ childNodes n' = childNodes n /\ parentNode n' = parentNode n
    /\ markup n' = markup n /\ _props n' = _props n
    /\ (forall r, own_name r -> attrs n' !! r = written sp l r (attrs n !! r))
    /\ keyCache (foldl (apply_prop y sp) h l) = registered sp l y (keyCache h).
Proof.
  induction l as [|[r i] l IH]; intros n h Hnd Hy.
  - exists n. simpl. split; [symmetry; apply insert_id, Hy|].
    repeat (split; [reflexivity|]). split; reflexivity.
  - simpl in Hnd. apply NoDup_cons in Hnd as [Hn Hnd]. cbn [foldl].
    destruct (apply_prop_effect y sp (r, i) n h Hy)
      as (n1 & E1 & A1 & A2 & A3 & A4 & A5 & A6 & A7 & A8 & A9).
    destruct (IH n1 (apply_prop y sp h (r, i)) Hnd)
      as (n2 & E2 & B1 & B2 & B3 & B4 & B5 & B6 & B7 & B8 & B9).
    { rewrite E1. apply lookup_insert_eq. }
    exists n2. split; [rewrite E2, E1; apply insert_insert_eq|].
    repeat (split; [congruence|]). split.
    + intros r' Hr'. rewrite (B8 r' Hr'), (A8 r' Hr'). symmetry.
      apply written_cons, Hn.
    + rewrite B9, A9. symmetry. apply registered_cons, Hn.
Qed.

(** [updateProps(t, e)] in closed form: the node keeps its place and its
    content, the snapshot becomes the merged properties, every own
    property whose merged value differs from the snapshot is assigned,
    and a changed, truthy key is entered in the registry. *)
Lemma updateProps_effect h t n ps :
  nodes h !! t = Some n ->
  let sp := default [] (_props n) in
  let m := mergeProps sp ps in
  exists h' n',
    updateProps t ps h = DOk tt h'
    /\ nodes h' = <[t := n']> (nodes h)
    /\ nodeType n' = nodeType n /\ nodeName n' = nodeName n /\ data n' = data n
    /\ childNodes n' = childNodes n /\ parentNode n' = parentNode n
    /\ markup n' = markup n /\ _props n' = Some m
    /\ (forall r, own_name r -> attrs n' !! r = written sp m r (attrs n !! r))
    /\ keyCache h' = registered sp m t (keyCache h).
Proof.
  intros Ht sp m. unfold updateProps. rewrite Ht. fold sp. fold m.
  destruct (apply_props_effect t sp m (with_snapshot m n) (set_node t (with_snapshot m n) h))
    as (n' & E & A1 & A2 & A3 & A4 & A5 & A6 & A7 & A8 & A9).
  { apply mergeProps_NoDup. }
  { simpl. apply lookup_insert_eq. }
  eexists. exists n'. split; [reflexivity|].
  split; [rewrite E; simpl; apply insert_insert_eq|].
  split; [exact A1|]. split; [exact A2|]. split; [exact A3|]. split; [exact A4|].
  split; [exact A5|]. split; [exact A6|]. split; [exact A7|].
  split; [exact A8|exact A9].
Qed.

Lemma prop_blank_fold (a : Props) : forall (l : Props) name,
  prop name (foldl (fun n '(k, _) => assoc_set k (PStr "") n) l a)
  = if bool_decide (name ∈ map fst a) then Some (PStr "") else prop name l.
Proof.
  induction a as [|[k v] a IH]; intros l name; cbn [foldl map].
  - rewrite bool_decide_eq_false_2; [reflexivity|]. intros H. inversion H.
  - rewrite IH, prop_assoc_set. cbn [fst].
    destruct (bool_decide (name ∈ map fst a)) eqn:E.
    + apply bool_decide_eq_true in E. rewrite bool_decide_eq_true_2; [reflexivity|].
      right. exact E.
    + apply bool_decide_eq_false in E. destruct (String.eqb name k) eqn:E'.
      * apply String.eqb_eq in E'. subst k.
        rewrite bool_decide_eq_true_2; [reflexivity|left].
      * rewrite bool_decide_eq_false_2; [reflexivity|].
        intros H. apply elem_of_cons in H as [->|H]; [|contradiction].
        rewrite String.eqb_refl in E'. discriminate.
Qed.

Lemma prop_Some_names (l : Props) r v : prop r l = Some v -> r ∈ map fst l.
Proof.
  induction l as [|[k v'] l IH]; simpl; [discriminate|].
  destruct (String.eqb r k) eqn:E.
  - apply String.eqb_eq in E. subst k. intros _. left.
  - intros H. right. apply IH, H.
Qed.

(** X11.  A property that the previous render set and the new
    description no longer mentions is not removed from the host node: it
    is assigned the empty string, and the snapshot records the empty
    string for it. *)
Theorem dropped_property_is_blanked h t n sp ps r v :
  nodes h !! t = Some n -> _props n = Some sp ->
  NoDup (map fst ps) ->
  own_name r ->
  prop r sp = Some v -> v <> PStr "" -> prop r ps = None ->
  exists h' n',
    updateProps t (Some ps) h = DOk tt h'
    /\ nodes h' !! t = Some n'
    /\ attrs n' !! r = Some (PStr "")
    /\ (exists sp', _props n' = Some sp' /\ prop r sp' = Some (PStr "")).
Proof.
  intros Ht Hsp Hnd Hr Hv Hne Hps.
  destruct (updateProps_effect h t n (Some ps) Ht)
    as (h' & n' & Hu & E & _ & _ & _ & _ & _ & _ & Hs & Ha & _).
  rewrite Hsp in Hs, Ha. simpl in Hs, Ha.
  assert (Hm : prop r (mergeProps sp (Some ps)) = Some (PStr "")).
  { unfold mergeProps. simpl. rewrite (prop_fold_assoc ps _ r Hnd), Hps.
    rewrite prop_blank_fold, bool_decide_eq_true_2; [reflexivity|].
    eapply prop_Some_names, Hv. }
  exists h', n'. split; [exact Hu|]. split; [rewrite E; apply lookup_insert_eq|].
  split.
  - rewrite (Ha r Hr). unfold written. rewrite Hm, Hv.
    destruct (decide (Some v = Some (PStr ""))) as [Heq|_]; [|reflexivity].
    injection Heq as ->. contradiction.
  - eexists. split; [exact Hs|exact Hm].
Qed.

Definition titled : Dom :=
  {| nodes := {[ 1 := {| nodeType := 1; nodeName := "DIV"; data := "";
                         childNodes := []; parentNode := None;
                         _props := Some [("title", PStr "old")];
                         attrs := {[ "title" := PStr "old" ]}; style := [];
                         dataset := ∅; markup := None |} ]};
     keyCache := ∅ |}.

Lemma dropped_property_is_blanked_witness :
  exists h' n',
    updateProps 1 (Some [("id", PStr "x")]) titled = DOk tt h'
    /\ nodes h' !! 1 = Some n'
    /\ attrs n' !! "title" = Some (PStr "")
    /\ (exists sp', _props n' = Some sp' /\ prop "title" sp' = Some (PStr "")).
Proof.
  eapply (dropped_property_is_blanked titled 1 _ [("title", PStr "old")]
            [("id", PStr "x")] "title" (PStr "old")).
  - vm_compute. reflexivity.
  - reflexivity.
  - repeat constructor; intros H; inversion H.
  - split; reflexivity.
  - reflexivity.
  - discriminate.
  - reflexivity.
Defined.

(** X12.  A truthy key among the new properties that differs from the
    key of the previous render is assigned to the node and entered in
    the key registry under its name, pointing at the node; the rest of
    the registry is unchanged. *)
Theorem new_key_is_registered h t n ps k :
  nodes h !! t = Some n ->
  NoDup (map fst ps) ->
  prop "key" ps = Some k -> ptruthy k = true ->
  prop "key" (default [] (_props n)) <> Some k ->
  exists h' n',
    updateProps t (Some ps) h = DOk tt h'
    /\ nodes h' !! t = Some n'
    /\ attrs n' !! "key" = Some k
    /\ keyCache h' = <[key_name k := t]> (keyCache h).
Proof.
  intros Ht Hnd Hk Htr Hold.
  destruct (updateProps_effect h t n (Some ps) Ht)
    as (h' & n' & Hu & E & _ & _ & _ & _ & _ & _ & _ & Ha & Hc).
  assert (Hm : prop "key" (mergeProps (default [] (_props n)) (Some ps)) = Some k)
    by (apply mergeProps_prop; assumption).
  exists h', n'. split; [exact Hu|]. split; [rewrite E; apply lookup_insert_eq|].
  split.
  - rewrite (Ha "key"); [|split; reflexivity]. unfold written. rewrite Hm.
    destruct (decide _); [contradiction|reflexivity].
  - rewrite Hc. unfold registered. rewrite Hm.
    destruct (decide _); [contradiction|]. rewrite Htr. reflexivity.
Qed.

Lemma new_key_is_registered_witness :
  exists h' n',
    updateProps 1 (Some [("key", PStr "a")]) titled = DOk tt h'
    /\ nodes h' !! 1 = Some n'
    /\ attrs n' !! "key" = Some (PStr "a")
    /\ keyCache h' = <["a" := 1]> (keyCache titled).
Proof.
  eapply (new_key_is_registered titled 1 _ [("key", PStr "a")] (PStr "a")).
  - vm_compute. reflexivity.
  - repeat constructor; intros H; inversion H.
  - reflexivity.
  - reflexivity.
  - discriminate.
Defined.

(** ** The key registry only grows *)

(** Every key registered in [h] is registered in [h']. *)
Definition registry_le (h h' : Dom) : Prop :=
  forall k, is_Some (keyCache h !! k) -> is_Some (keyCache h' !! k).

Lemma registry_le_refl h : registry_le h h.
Proof. intros k H. exact H. Qed.

Lemma registry_le_trans h1 h2 h3 :
  registry_le h1 h2 -> registry_le h2 h3 -> registry_le h1 h3.
Proof. intros A B k H. apply B, A, H. Qed.

Lemma registry_le_eq h h' : keyCache h' = keyCache h -> registry_le h h'.
Proof. intros E k H. rewrite E. exact H. Qed.

Lemma keyCache_detach x h : keyCache (detach x h) = keyCache h.
Proof.
  unfold detach. destruct (nodes h !! x) as [n|]; [|reflexivity].
  destruct (parentNode n) as [p|]; [|reflexivity].
  destruct (nodes h !! p) as [pn|].
  - destruct (nodes (set_node p _ h) !! x); reflexivity.
  - destruct (nodes h !! x); reflexivity.
Qed.

Lemma keyCache_replaceChild t new old h h' :
  replaceChild t new old h = DOk tt h' -> keyCache h' = keyCache h.
Proof.
  unfold replaceChild. destruct (nodes h !! t) as [tn|]; [|discriminate].
  destruct (nodes h !! new); [|discriminate].
  destruct (contains h new t); [discriminate|].
  destruct (decide (old ∈ childNodes tn)); [|discriminate].
  destruct (decide (new = old)); [intros [= <-]; reflexivity|].
  destruct (nodes (detach new h) !! t) as [tn1|]; [|discriminate].
  set (h2 := set_node t _ (detach new h)).
  assert (H2 : keyCache h2 = keyCache h) by apply keyCache_detach.
  destruct (nodes h2 !! old) as [no|].
  - destruct (nodes (set_node old _ h2) !! new); intros [= <-]; exact H2.
  - destruct (nodes h2 !! new); intros [= <-]; exact H2.
Qed.

Lemma keyCache_append_one t c h : keyCache (append_one t c h) = keyCache h.
Proof.
  unfold append_one.
  destruct (nodes (detach c h) !! t) as [tn|].
  - destruct (nodes (set_node t _ (detach c h)) !! c); apply keyCache_detach.
  - destruct (nodes (detach c h) !! c); apply keyCache_detach.
Qed.

Lemma keyCache_appendChild t c h h' :
  appendChild t c h = DOk tt h' -> keyCache h' = keyCache h.
Proof.
  unfold appendChild. destruct (nodes h !! t); [|discriminate].
  destruct (nodes h !! c) as [cn|]; [|discriminate].
  destruct (contains h c t); [discriminate|].
  destruct (nodeType cn =? 11).
  - intros [= <-]. generalize (childNodes cn) as l. intros l. revert h.
    induction l as [|k l IH]; intros h; simpl; [reflexivity|].
    rewrite IH. apply keyCache_append_one.
  - intros [= <-]. apply keyCache_append_one.
Qed.

Lemma keyCache_removeChild t c h h' :
  removeChild t c h = DOk tt h' -> keyCache h' = keyCache h.
Proof.
  unfold removeChild. destruct (nodes h !! t) as [tn|]; [|discriminate].
  destruct (decide (c ∈ childNodes tn)); [|discriminate].
  intros [= <-]. apply keyCache_detach.
Qed.

Lemma keyCache_createText s h y h1 :
  createText s h = (y, h1) -> keyCache h1 = keyCache h.
Proof.
  unfold createText. destruct (String.prefix "_html:" s).
  - unfold createElement, alloc, modify. simpl. rewrite lookup_insert_eq.
    intros [= _ <-]. reflexivity.
  - intros [= _ <-]. reflexivity.
Qed.

Lemma registry_le_updateProps t ps h h' :
  updateProps t ps h = DOk tt h' -> registry_le h h'.
Proof.
  unfold updateProps. destruct (nodes h !! t) as [n|] eqn:Ht; [|discriminate].
  intros Hu.
  destruct (updateProps_effect h t n ps Ht) as (h1 & n' & Hu1 & _ & _ & _ & _ & _ & _ & _ & _ & _ & Hk).
  unfold updateProps in Hu1. rewrite Ht in Hu1. rewrite Hu1 in Hu. injection Hu as <-.
  intros k Hin. rewrite Hk. unfold registered.
  destruct (prop "key" _) as [i|]; [|exact Hin].
  destruct (decide _); [exact Hin|]. destruct (ptruthy i); [|exact Hin].
  destruct (decide (key_name i = k)) as [->|Hne].
  - rewrite lookup_insert_eq. eauto.
  - rewrite lookup_insert_ne by exact Hne. exact Hin.
Qed.

Section Registry.

Variable stringify : VNode -> string.

Lemma registry_le_create : forall o h x h',
  create stringify o h = DOk x h' -> registry_le h h'.
Proof.
  induction o as [s|tag ps cs IH] using VNode_children_ind; intros h x h'.
  - simpl. destruct (createText s h) as [y h1] eqn:E. intros [= _ <-].
    apply registry_le_eq. eapply keyCache_createText, E.
  - cbn [create]. destruct (String.eqb tag "").
    { destruct (createText _ h) as [y h1] eqn:E. intros [= _ <-].
      apply registry_le_eq. eapply keyCache_createText, E. }
    set (p := if String.eqb tag "svg" then createElementNS tag h else createElement tag h).
    assert (Hp : keyCache p.2 = keyCache h)
      by (unfold p; destruct (String.eqb tag "svg"); reflexivity).
    destruct p as [e h1]. simpl in Hp.
    destruct (updateProps e ps h1) as [[] h2| |] eqn:Hu; cbn [dbind]; try discriminate.
    assert (H2 : registry_le h h2).
    { eapply registry_le_trans; [apply registry_le_eq, Hp|].
      eapply registry_le_updateProps, Hu. }
    clear Hu Hp. revert h2 H2.
    induction cs as [|c cs IHcs]; intros h2 H2.
    + cbn [dbind]. intros [= _ <-]. exact H2.
    + apply Forall_cons in IH as [Hc IH].
      destruct (create stringify c h2) as [y h3| |] eqn:Hcr; cbn [dbind];
        try discriminate.
      destruct (appendChild e y h3) as [[] h4| |] eqn:Ha; cbn [dbind];
        try discriminate.
      apply (IHcs IH). eapply registry_le_trans; [exact H2|].
      eapply registry_le_trans; [eapply Hc, Hcr|].
      apply registry_le_eq. eapply keyCache_appendChild, Ha.
Qed.

Lemma registry_le_remove_trailing t : forall count h h',
  remove_trailing t count h = DOk tt h' -> keyCache h' = keyCache h.
Proof.
  induction count as [|count IH]; intros h h'; simpl; [intros [= <-]; reflexivity|].
  destruct (nodes h !! t) as [tn|]; [|discriminate].
  destruct (last (childNodes tn)) as [x|]; [|discriminate].
  destruct (removeChild t x h) as [[] h1| |] eqn:Hr; cbn [dbind]; try discriminate.
  intros H. rewrite (IH _ _ H). eapply keyCache_removeChild, Hr.
Qed.

Lemma registry_le_create_into p : forall es h h',
  create_into stringify p es h = DOk tt h' -> registry_le h h'.
Proof.
  induction es as [|o es IH]; intros h h'; simpl; [intros [= <-]; apply registry_le_refl|].
  destruct (create stringify o h) as [x h1| |] eqn:Hc; cbn [dbind]; try discriminate.
  destruct (appendChild p x h1) as [[] h2| |] eqn:Ha; cbn [dbind]; try discriminate.
  intros H. eapply registry_le_trans; [eapply registry_le_create, Hc|].
  eapply registry_le_trans; [apply registry_le_eq; eapply keyCache_appendChild, Ha|].
  apply IH, H.
Qed.

(** [updateChildren] over descriptions whose [update] keeps the
    registry. *)
Lemma registry_le_updateChildren t es :
  Forall (fun o => forall x h h', update stringify o x h = DOk tt h' -> registry_le h h') es ->
  forall h h',
    updateChildren_ stringify (update stringify) t es h = DOk tt h' -> registry_le h h'.
Proof.
  intros Hall h h'. unfold updateChildren_.
  destruct (nodes h !! t) as [tn|]; [|discriminate].
  destruct (markup tn); [discriminate|].
  set (n := Nat.min (length (childNodes tn)) (length es)).
  assert (Hslots : forall es' r h0 h1,
            Forall (fun o => forall x h h', update stringify o x h = DOk tt h' ->
                                           registry_le h h') es' ->
            patch_slots stringify (update stringify) t es' r n h0 = DOk tt h1 ->
            registry_le h0 h1).
  { clear. induction es' as [|o es' IH]; intros r h0 h1 Hall; cbn [patch_slots].
    - intros [= <-]. apply registry_le_refl.
    - apply Forall_cons in Hall as [Ho Hall].
      destruct (r <? n); [|intros [= <-]; apply registry_le_refl].
      destruct (slot stringify (update stringify) t r o h0) as [[] h2| |] eqn:Hs;
        cbn [dbind]; try discriminate.
      intros H. eapply registry_le_trans; [|eapply IH; eassumption].
      clear H IH. unfold slot in Hs.
      destruct (child_at t r h0) as [i|] eqn:Hc; [|discriminate].
      assert (Hat : forall h3 h4, update_at (update stringify) o t r h3 = DOk tt h4 ->
                                  registry_le h3 h4).
      { intros h3 h4. unfold update_at. destruct (child_at t r h3); [|discriminate].
        apply Ho. }
      destruct o as [s|tag props cs].
      + destruct (textContent h0 i) as [txt|]; [|discriminate].
        destruct (String.eqb txt s); [injection Hs as <-; apply registry_le_refl|].
        destruct (nodes h0 !! i) as [ni|]; [|discriminate].
        destruct (nodeType ni =? 3);
          [injection Hs as <-; apply registry_le_eq; reflexivity|].
        destruct (createText s h0) as [x h3] eqn:E.
        apply registry_le_eq. rewrite (keyCache_replaceChild _ _ _ _ _ Hs).
        eapply keyCache_createText, E.
      + destruct (key_of props) as [a|]; [|eapply Hat, Hs].
        destruct (decide (key_attr i h0 = Some a)); [eapply Hat, Hs|].
        destruct (keyCache h0 !! key_name a) as [u|].
        * destruct (replaceChild t u i h0) as [[] h3| |] eqn:Hr; cbn [dbind] in Hs;
            try discriminate.
          destruct (appendChild t i h3) as [[] h4| |] eqn:Ha; cbn [dbind] in Hs;
            try discriminate.
          eapply registry_le_trans; [apply registry_le_eq; eapply keyCache_replaceChild, Hr|].
          eapply registry_le_trans; [apply registry_le_eq; eapply keyCache_appendChild, Ha|].
          eapply Hat, Hs.
        * destruct (create stringify (VElem tag props cs) h0) as [x h3| |] eqn:Hcr;
            cbn [dbind] in Hs; try discriminate.
          destruct (appendChild t x h3) as [[] h4| |] eqn:Ha; cbn [dbind] in Hs;
            try discriminate.
          eapply registry_le_trans; [eapply registry_le_create, Hcr|].
          eapply registry_le_trans; [apply registry_le_eq; eapply keyCache_appendChild, Ha|].
          eapply Hat, Hs. }
  destruct (patch_slots stringify (update stringify) t es 0 n h) as [[] h1| |] eqn:Hp;
    cbn [dbind]; try discriminate.
  destruct (remove_trailing t _ h1) as [[] h2| |] eqn:Hr; cbn [dbind]; try discriminate.
  assert (H12 : registry_le h h2).
  { eapply registry_le_trans; [eapply Hslots; eassumption|].
    apply registry_le_eq. eapply registry_le_remove_trailing, Hr. }
  destruct (n <? length es); [|intros [= <-]; exact H12].
  destruct (createDocumentFragment h2) as [p h3] eqn:Ef.
  destruct (create_into stringify p (drop n es) h3) as [[] h4| |] eqn:Hci;
    cbn [dbind]; try discriminate.
  intros Ha. eapply registry_le_trans; [exact H12|].
  eapply registry_le_trans; [apply (registry_le_eq h2 h3)|].
  { unfold createDocumentFragment, alloc in Ef. injection Ef as _ <-. reflexivity. }
  eapply registry_le_trans; [eapply registry_le_create_into, Hci|].
  apply registry_le_eq. eapply keyCache_appendChild, Ha.
Qed.

Lemma registry_le_update : forall o x h h',
  update stringify o x h = DOk tt h' -> registry_le h h'.
Proof.
  induction o as [s|tag ps cs IH] using VNode_children_ind; intros x h h';
    cbn [update]; destruct (nodes h !! x) as [n|]; try discriminate.
  - destruct (String.eqb (nodeName n) ""); [discriminate|].
    destruct (parentNode n) as [p|]; [|discriminate].
    destruct (create stringify (VText s) h) as [y h1| |] eqn:Hc; cbn [dbind];
      try discriminate.
    intros Hr. eapply registry_le_trans; [eapply registry_le_create, Hc|].
    apply registry_le_eq. eapply keyCache_replaceChild, Hr.
  - destruct (String.eqb (nodeName n) (toUpperCase tag)).
    + destruct (updateChildren_ stringify (update stringify) x cs h) as [[] h1| |] eqn:Hu;
        cbn [dbind]; try discriminate.
      intros Hp. eapply registry_le_trans; [eapply registry_le_updateChildren; eassumption|].
      eapply registry_le_updateProps, Hp.
    + destruct (parentNode n) as [p|]; [|discriminate].
      destruct (create stringify (VElem tag ps cs) h) as [y h1| |] eqn:Hc; cbn [dbind];
        try discriminate.
      intros Hr. eapply registry_le_trans; [eapply registry_le_create, Hc|].
      apply registry_le_eq. eapply keyCache_replaceChild, Hr.
Qed.

End Registry.

(** X13.  The reconciler never unregisters a key: whenever [render]
    returns, every key that was in the registry before is still in it,
    also the keys of nodes that the render removed from the document. *)
Theorem render_never_unregisters_a_key stringify t e h h' :
  updateElement stringify t e h = DOk tt h' ->
  forall k, is_Some (keyCache h !! k) -> is_Some (keyCache h' !! k).
Proof.
  unfold updateElement. destruct e as [|l|n].
  - intros [= <-] k Hk. exact Hk.
  - apply registry_le_updateChildren. apply Forall_forall. intros o _.
    apply registry_le_update.
  - destruct (nodes h !! t) as [tn|]; [|discriminate].
    destruct (head (childNodes tn)) as [first|].
    + apply registry_le_update.
    + destruct (create stringify n h) as [x h1| |] eqn:Hc; cbn [dbind]; try discriminate.
      intros Ha. eapply registry_le_trans; [eapply registry_le_create, Hc|].
      apply registry_le_eq. eapply keyCache_appendChild, Ha.
Qed.

(** ** A list that got shorter *)

Section Shrink.

Variable stringify : VNode -> string.
Variable F : list nat.

(** The first loop over slots whose nodes are rendered as described,
    with further children behind them. *)
Lemma patch_slots_rendered h t tn b : forall cs pre xs rest,
  nodes h !! t = Some tn -> childNodes tn = pre ++ xs ++ rest ->
  length pre + length cs <= b ->
  Forall2 (renders F h) cs xs ->
  patch_slots stringify (update stringify) t cs (length pre) b h = DOk tt h.
Proof.
  induction cs as [|c cs IH]; intros pre xs rest Ht Hch Hb Hall; [reflexivity|].
  inversion Hall as [|c' x cs' xs' Hc Hrest]; subst.
  cbn [patch_slots].
  assert (Hlt : (length pre <? b) = true) by (apply Nat.ltb_lt; simpl in Hb; lia).
  rewrite Hlt.
  rewrite (slot_noop stringify F h t (length pre) c x).
  - cbn [dbind]. specialize (IH (pre ++ [x]) xs' rest Ht).
    rewrite length_app in IH. simpl in IH. rewrite Nat.add_1_r in IH.
    apply IH; [rewrite <- app_assoc; exact Hch|simpl in Hb; lia|exact Hrest].
  - intros tag ps cs0 Ho. eapply update_noop; eassumption.
  - exact Hc.
  - unfold child_at. rewrite Ht, Hch. apply list_lookup_middle. reflexivity.
Qed.

Lemma last_snoc_app {A} (l1 l2 : list A) x : last (l1 ++ l2 ++ [x]) = Some x.
Proof. rewrite app_assoc. apply last_snoc. Qed.

(** The second loop: the children behind the first [length xs] are
    removed, last one first. *)
Lemma remove_trailing_spec t xs : forall extra h tn,
  nodes h !! t = Some tn -> childNodes tn = xs ++ extra ->
  NoDup (xs ++ extra) -> t ∉ extra ->
  Forall (fun x => exists n, nodes h !! x = Some n /\ parentNode n = Some t) extra ->
  exists h',
    remove_trailing t (length extra) h = DOk tt h'
    /\ nodes h' !! t = Some (with_children xs tn)
    /\ (forall x, x ∈ extra ->
          exists n, nodes h !! x = Some n /\ nodes h' !! x = Some (with_parent None n))
    /\ (forall z, z <> t -> z ∉ extra -> nodes h' !! z = nodes h !! z)
    /\ keyCache h' = keyCache h.
Proof.
  induction extra as [|x extra IH] using rev_ind; intros h tn Ht Hch Hnd Hte Hpar.
  - exists h. simpl. split; [reflexivity|]. split.
    { rewrite Ht. f_equal. rewrite app_nil_r in Hch. destruct tn; simpl in *.
      subst. reflexivity. }
    split; [intros x Hx; inversion Hx|]. split; reflexivity.
  - rewrite length_app. simpl. rewrite Nat.add_1_r. cbn [remove_trailing].
    rewrite Ht, Hch, last_snoc_app.
    apply Forall_app in Hpar as [Hpar Hx]. apply Forall_cons in Hx as [(n & Hn & Hp) _].
    assert (Hxt : x <> t).
    { intros ->. apply Hte. apply elem_of_app. right. left. }
    assert (Hxin : x ∉ xs ++ extra).
    { rewrite app_assoc in Hnd. apply NoDup_app in Hnd as (_ & Hd & _).
      intros Hin. apply (Hd x Hin). left. }
    unfold removeChild. rewrite Ht, Hch.
    destruct (decide (x ∈ xs ++ extra ++ [x])) as [_|Hno].
    2:{ exfalso. apply Hno. rewrite app_assoc. apply elem_of_app. right. left. }
    cbn [dbind]. unfold detach. rewrite Hn, Hp, Ht, Hch.
    assert (Hf : filter (fun y => y <> x) (xs ++ extra ++ [x]) = xs ++ extra).
    { rewrite app_assoc, filter_app, (filter_ne_notin x _ Hxin).
      rewrite filter_cons_False by (intros H; apply H; reflexivity).
      rewrite filter_nil, app_nil_r. reflexivity. }
    rewrite Hf.
    set (tn1 := with_children (xs ++ extra) tn).
    assert (Hx1 : nodes (set_node t tn1 h) !! x = Some n).
    { simpl. rewrite lookup_insert_ne by congruence. exact Hn. }
    rewrite Hx1.
    set (h2 := set_node x (with_parent None n) (set_node t tn1 h)).
    destruct (IH h2 tn1) as (h' & Hr & Ht' & Hex & Hfr & Hk).
    + unfold h2. simpl. rewrite lookup_insert_ne by exact Hxt. apply lookup_insert_eq.
    + reflexivity.
    + rewrite app_assoc in Hnd. apply NoDup_app in Hnd as (Hnd & _). exact Hnd.
    + intros Hin. apply Hte. apply elem_of_app. left. exact Hin.
    + apply Forall_forall. intros y Hy. rewrite Forall_forall in Hpar.
      destruct (Hpar y Hy) as (ny & Hny & Hpy). exists ny. split; [|exact Hpy].
      unfold h2. simpl.
      rewrite lookup_insert_ne.
      * rewrite lookup_insert_ne; [exact Hny|].
        intros <-. apply Hte. apply elem_of_app. left. exact Hy.
      * intros <-. apply Hxin. apply elem_of_app. right. exact Hy.
    + exists h'. split; [exact Hr|]. split; [exact Ht'|]. split; [|split].
      * intros y Hy. apply elem_of_app in Hy as [Hy|Hy].
        -- destruct (Hex y Hy) as (ny & Hny & Hny'). exists ny. split; [|exact Hny'].
           unfold h2 in Hny. simpl in Hny.
           rewrite lookup_insert_ne in Hny.
           ++ rewrite lookup_insert_ne in Hny; [exact Hny|].
              intros <-. apply Hte. apply elem_of_app. left. exact Hy.
           ++ intros <-. apply Hxin. apply elem_of_app. right. exact Hy.
        -- apply list_elem_of_singleton in Hy. subst y. exists n. split; [exact Hn|].
           rewrite Hfr; [unfold h2; simpl; apply lookup_insert_eq|exact Hxt|].
           intros Hin. apply Hxin. apply elem_of_app. right. exact Hin.
      * intros z Hz Hzn. rewrite Hfr; [|exact Hz|].
        -- unfold h2. simpl. rewrite lookup_insert_ne.
           ++ apply lookup_insert_ne. congruence.
           ++ intros <-. apply Hzn. apply elem_of_app. right. left.
        -- intros Hin. apply Hzn. apply elem_of_app. left. exact Hin.
      * rewrite Hk. reflexivity.
Qed.

(** X14.  The new list is shorter than the child list and describes the
    leading children as they are rendered: [updateChildren] leaves those
    children alone, takes the surplus children out of the parent (their
    parent link is cleared, nothing else about them changes), touches no
    other node and does not write the key registry. *)
Theorem surplus_children_are_removed h t tn es xs extra :
  nodes h !! t = Some tn -> markup tn = None ->
  childNodes tn = xs ++ extra -> NoDup (xs ++ extra) -> t ∉ extra ->
  Forall2 (renders F h) es xs ->
  Forall (fun x => exists n, nodes h !! x = Some n /\ parentNode n = Some t) extra ->
  exists h',
    updateChildren stringify t es h = DOk tt h'
    /\ children_of h' t = xs
    /\ (forall x, x ∈ extra ->
          exists n, nodes h !! x = Some n /\ nodes h' !! x = Some (with_parent None n))
    /\ (forall z, z <> t -> z ∉ extra -> nodes h' !! z = nodes h !! z)
    /\ keyCache h' = keyCache h.
Proof.
  intros Ht Hmk Hch Hnd Hte Hall Hpar.
  unfold updateChildren, updateChildren_. rewrite Ht, Hmk.
  pose proof (Forall2_length _ _ _ Hall) as Hlen.
  assert (Hmin : Nat.min (length (childNodes tn)) (length es) = length es).
  { rewrite Hch, length_app. lia. }
  rewrite Hmin.
  pose proof (patch_slots_rendered h t tn (length es) es [] xs extra Ht Hch) as Hp.
  simpl in Hp. rewrite Hp; [|lia|exact Hall].
  cbn [dbind]. rewrite Ht.
  replace (length (childNodes tn) - length es) with (length extra)
    by (rewrite Hch, length_app; lia).
  destruct (remove_trailing_spec t xs extra h tn Ht Hch Hnd Hte Hpar)
    as (h' & Hr & Ht' & Hex & Hfr & Hk).
  rewrite Hr. cbn [dbind]. rewrite Nat.ltb_irrefl.
  exists h'. split; [reflexivity|].
  split; [unfold children_of; rewrite Ht'; reflexivity|].
  split; [exact Hex|]. split; [exact Hfr|exact Hk].
Qed.

End Shrink.

(** Proves [renders F h o x] on closed terms. *)
Ltac show_renders :=
  split;
  [ first [apply not_elem_of_nil | outside]
  | first
      [ eexists; split; [vm_compute; reflexivity|]; repeat split
      | eexists; eexists; split; [vm_compute; reflexivity|];
        split; [reflexivity|]; split; [reflexivity|]; split; [reflexivity|];
        split; [first [apply NoDup_nil; exact Logic.I | distinct_names]|];
        split; [reflexivity|];
        split; [let a := fresh in let Ha := fresh in
                intros a Ha; first [discriminate Ha | injection Ha as <-; reflexivity]|];
        repeat (split; [show_renders|]); exact Logic.I ] ].

Lemma surplus_children_are_removed_witness :
  exists h',
    updateChildren no_json 0 [row "a" "A"] three_rows = DOk tt h'
    /\ children_of h' 0 = [2]
    /\ (forall x, x ∈ [5; 8] ->
          exists n, nodes three_rows !! x = Some n
                    /\ nodes h' !! x = Some (with_parent None n))
    /\ (forall z, z <> 0 -> z ∉ [5; 8] -> nodes h' !! z = nodes three_rows !! z)
    /\ keyCache h' = keyCache three_rows.
Proof.
  eapply (surplus_children_are_removed no_json [] three_rows 0 _ [row "a" "A"] [2] [5; 8]).
  - vm_compute. reflexivity.
  - reflexivity.
  - reflexivity.
  - simpl. repeat (apply NoDup_cons; split; [outside|]). apply NoDup_nil. exact Logic.I.
  - outside.
  - constructor; [|constructor]. show_renders.
  - repeat (apply Forall_cons; split;
            [eexists; split; [vm_compute; reflexivity|reflexivity]|]).
    apply Forall_nil. exact Logic.I.
Defined.

Lemma render_never_unregisters_a_key_witness :
  exists h',
    updateElement no_json 0 (RList []) one_input = DOk tt h'
    /\ children_of h' 0 = []
    /\ is_Some (keyCache h' !! "a").
Proof.
  eexists. split; [vm_compute; reflexivity|]. split; [vm_compute; reflexivity|].
  eapply (render_never_unregisters_a_key no_json 0 (RList []) one_input).
  - vm_compute. reflexivity.
  - vm_compute. eauto.
Defined.

(** ** Materializing a description *)

(** Descriptions that [create] turns into elements and text nodes of
    their own: no raw markup, a tag on every object, no [svg] element,
    and property tables with distinct names. *)
Fixpoint plain_desc (o : VNode) : Prop :=
  match o with
  | VText s => String.prefix "_html:" s = false
  | VElem tag ps cs =>
      tag <> "" /\ tag <> "svg" /\ NoDup (map fst (default [] ps))
      /\ (fix all (cs : list VNode) : Prop :=
            match cs with
            | [] => True
            | c :: cs' => plain_desc c /\ all cs'
            end) cs
  end.

Lemma plain_desc_children cs :
  (fix all (cs : list VNode) : Prop :=
     match cs with
     | [] => True
     | c :: cs' => plain_desc c /\ all cs'
     end) cs <-> Forall plain_desc cs.
Proof.
  induction cs as [|c cs IH]; split; intros H.
  - constructor.
  - exact Logic.I.
  - destruct H as [Hc H]. constructor; [exact Hc|apply IH, H].
  - apply Forall_cons in H as [Hc H]. split; [exact Hc|apply IH, H].
Qed.

(** [n'] is [n] up to its parent link. *)
Definition same_content (n n' : Node) : Prop :=
  nodeType n' = nodeType n /\ nodeName n' = nodeName n /\ data n' = data n
  /\ childNodes n' = childNodes n /\ markup n' = markup n
  /\ _props n' = _props n /\ attrs n' = attrs n.

Lemma same_content_refl n : same_content n n.
Proof. repeat split. Qed.

(** [renders] reads the nodes outside of [F], and not their parent
    links. *)
Lemma renders_content F h h' :
  (forall z n, z ∉ F -> nodes h !! z = Some n ->
     exists n', nodes h' !! z = Some n' /\ same_content n n') ->
  forall o x, renders F h o x -> renders F h' o x.
Proof.
  intros Hfr o. induction o as [s|tag ps cs IH] using VNode_children_ind; intros x.
  - intros (Hx & n & Hn & A1 & A2 & A3). split; [exact Hx|].
    destruct (Hfr x n Hx Hn) as (n' & Hn' & B1 & _ & B3 & _ & B5 & _).
    exists n'. split; [exact Hn'|]. repeat split; congruence.
  - intros (Hx & n & sp & Hn & A1 & A2 & A3 & A4 & A5 & A6 & Hall).
    destruct (Hfr x n Hx Hn) as (n' & Hn' & B1 & B2 & B3 & B4 & B5 & B6 & B7).
    split; [exact Hx|]. exists n', sp.
    split; [exact Hn'|]. split; [congruence|]. split; [congruence|].
    split; [congruence|]. split; [exact A4|]. split; [exact A5|].
    split; [intros a Ha; rewrite B7; apply A6, Ha|].
    rewrite B4.
    apply renders_children. apply renders_children in Hall.
    revert IH Hall. generalize (childNodes n). clear.
    induction cs as [|c cs IHcs]; intros xs IH Hall; inversion Hall; subst;
      constructor.
    + apply Forall_cons in IH as [Hc _]. apply Hc. assumption.
    + apply Forall_cons in IH as [_ IH]. apply IHcs; assumption.
Qed.

Lemma renders_weaken F F' h :
  (forall z, z ∈ F -> z ∈ F') ->
  forall o x, renders F' h o x -> renders F h o x.
Proof.
  intros Hsub o. induction o as [s|tag ps cs IH] using VNode_children_ind; intros x.
  - intros (Hx & H). split; [intros Hin; apply Hx, Hsub, Hin|exact H].
  - intros (Hx & n & sp & Hn & A1 & A2 & A3 & A4 & A5 & A6 & Hall).
    split; [intros Hin; apply Hx, Hsub, Hin|]. exists n, sp.
    repeat (split; [assumption|]).
    apply renders_children. apply renders_children in Hall.
    revert IH Hall. generalize (childNodes n). clear.
    induction cs as [|c cs IHcs]; intros xs IH Hall; inversion Hall; subst;
      constructor.
    + apply Forall_cons in IH as [Hc _]. apply Hc. assumption.
    + apply Forall_cons in IH as [_ IH]. apply IHcs; assumption.
Qed.

(** *** Merging a property table with itself *)

Lemma assoc_set_middle k (v x : PVal) (l1 l2 : Props) :
  k ∉ map fst l1 ->
  assoc_set k v (l1 ++ (k, x) :: l2) = l1 ++ (k, v) :: l2.
Proof.
  induction l1 as [|[k' v'] l1 IH]; intros Hn; simpl.
  - rewrite String.eqb_refl. reflexivity.
  - destruct (String.eqb k k') eqn:E.
    + apply String.eqb_eq in E. subst k'. exfalso. apply Hn. left.
    + rewrite IH; [reflexivity|]. intros Hin. apply Hn. right. exact Hin.
Qed.

Lemma assoc_set_fresh k (v : PVal) (l : Props) :
  k ∉ map fst l -> assoc_set k v l = l ++ [(k, v)].
Proof.
  induction l as [|[k' v'] l IH]; intros Hn; simpl; [reflexivity|].
  destruct (String.eqb k k') eqn:E.
  - apply String.eqb_eq in E. subst k'. exfalso. apply Hn. left.
  - rewrite IH; [reflexivity|]. intros Hin. apply Hn. right. exact Hin.
Qed.

Lemma assign_fresh (l : Props) : forall acc : Props,
  NoDup (map fst (acc ++ l)) ->
  foldl (fun n '(k, v) => assoc_set k v n) acc l = acc ++ l.
Proof.
  induction l as [|[k v] l IH]; intros acc Hnd; simpl; [rewrite app_nil_r; reflexivity|].
  assert (Hk : k ∉ map fst acc).
  { rewrite map_app in Hnd. apply NoDup_app in Hnd as (_ & Hd & _).
    intros Hin. apply (Hd k Hin). left. }
  rewrite (assoc_set_fresh k v acc Hk), IH; rewrite <- app_assoc; [reflexivity|exact Hnd].
Qed.

Lemma blank_fresh (l : Props) : forall acc : Props,
  NoDup (map fst (acc ++ l)) ->
  foldl (fun n '(k, _) => assoc_set k (PStr "") n) acc l
  = acc ++ map (fun kv => (kv.1, PStr "")) l.
Proof.
  induction l as [|[k v] l IH]; intros acc Hnd; simpl; [rewrite app_nil_r; reflexivity|].
  assert (Hk : k ∉ map fst acc).
  { rewrite map_app in Hnd. apply NoDup_app in Hnd as (_ & Hd & _).
    intros Hin. apply (Hd k Hin). left. }
  rewrite (assoc_set_fresh k _ acc Hk), IH; rewrite <- app_assoc; [reflexivity|].
  rewrite map_app in Hnd |- *. exact Hnd.
Qed.

Lemma assign_over_blanks (todo : Props) : forall done : Props,
  NoDup (map fst (done ++ todo)) ->
  foldl (fun n '(k, v) => assoc_set k v n)
    (done ++ map (fun kv => (kv.1, PStr "")) todo) todo
  = done ++ todo.
Proof.
  induction todo as [|[k v] todo IH]; intros done Hnd; simpl; [reflexivity|].
  assert (Hk : k ∉ map fst done).
  { rewrite map_app in Hnd. apply NoDup_app in Hnd as (_ & Hd & _).
    intros Hin. apply (Hd k Hin). left. }
  rewrite (assoc_set_middle k v _ done _ Hk).
  change (done ++ (k, v) :: map (fun kv => (kv.1, PStr "")) todo)
    with (done ++ [(k, v)] ++ map (fun kv => (kv.1, PStr "")) todo).
  rewrite app_assoc, IH; rewrite <- app_assoc; [reflexivity|exact Hnd].
Qed.

(** The snapshot of a first render is stable under the properties it
    was rendered from. *)
Lemma mergeProps_first ps :
  NoDup (map fst (default [] ps)) ->
  mergeProps [] ps = default [] ps
  /\ mergeProps (mergeProps [] ps) ps = mergeProps [] ps.
Proof.
  intros Hnd. destruct ps as [l|]; [|split; reflexivity]. simpl in Hnd.
  assert (H1 : mergeProps [] (Some l) = l).
  { unfold mergeProps. simpl. apply (assign_fresh l []). exact Hnd. }
  split; [exact H1|]. rewrite H1. unfold mergeProps. simpl.
  rewrite (blank_fresh l []) by exact Hnd. simpl.
  apply (assign_over_blanks l []). exact Hnd.
Qed.

(** *** What [create] builds *)

(** [create o h] returned [x] and [h']: [x] is a new node, detached and
    not a fragment, the nodes of [h] are all in [h'] as they were, and
    the subtree at [x] is rendered as [o] describes, on new nodes
    only. *)
Definition created (o : VNode) (h : Dom) (x : nat) (h' : Dom) : Prop :=
  nodes h !! x = None
  /\ (forall z n, nodes h !! z = Some n -> nodes h' !! z = Some n)
  /\ (exists n, nodes h' !! x = Some n /\ parentNode n = None /\ nodeType n <> 11)
  /\ forall F, (forall z, z ∈ F -> is_Some (nodes h !! z)) -> renders F h' o x.

Lemma fresh_node h : nodes h !! fresh (dom (nodes h)) = None.
Proof. apply not_elem_of_dom, is_fresh. Qed.

Lemma detach_detached y ny h :
  nodes h !! y = Some ny -> parentNode ny = None -> detach y h = h.
Proof. intros Hy Hp. unfold detach. rewrite Hy, Hp. reflexivity. Qed.

Lemma contains_root h a p pn :
  a <> p -> nodes h !! p = Some pn -> parentNode pn = None -> contains h a p = false.
Proof.
  intros Hne Hp Hr. unfold contains.
  destruct (size (nodes h)) as [|fuel]; simpl;
    (destruct (decide (a = p)); [contradiction|]); [reflexivity|].
  rewrite Hp, Hr. reflexivity.
Qed.

(** Appending a new, detached node to a node without parent. *)
Lemma appendChild_new h p pn y ny :
  nodes h !! p = Some pn -> parentNode pn = None ->
  nodes h !! y = Some ny -> parentNode ny = None -> nodeType ny <> 11 -> y <> p ->
  appendChild p y h
  = DOk tt (set_node y (with_parent (Some p) ny)
              (set_node p (with_children (childNodes pn ++ [y]) pn) h)).
Proof.
  intros Hp Hr Hy Hd Hty Hne. unfold appendChild. rewrite Hp, Hy.
  rewrite (contains_root h y p pn Hne Hp Hr).
  destruct (nodeType ny =? 11) eqn:E; [apply Nat.eqb_eq in E; contradiction|].
  unfold append_one. rewrite (detach_detached y ny h Hy Hd), Hp.
  simpl. rewrite lookup_insert_ne by congruence. rewrite Hy. reflexivity.
Qed.

Section Create.

Variable stringify : VNode -> string.

(** [create] succeeds on [o] and builds what [o] describes. *)
Definition creates (o : VNode) : Prop :=
  forall h, exists x h', create stringify o h = DOk x h' /\ created o h x h'.

(** The loop [p.appendChild(create(e[r]))] over descriptions that
    [create] builds, for a node [p] without parent. *)
Lemma create_into_spec p : forall es h pn,
  Forall creates es ->
  nodes h !! p = Some pn -> parentNode pn = None ->
  exists h' xs,
    create_into stringify p es h = DOk tt h'
    /\ nodes h' !! p = Some (with_children (childNodes pn ++ xs) pn)
    /\ (forall z n, z <> p -> nodes h !! z = Some n -> nodes h' !! z = Some n)
    /\ Forall (fun x => nodes h !! x = None
                        /\ exists n, nodes h' !! x = Some n
                                     /\ parentNode n = Some p /\ nodeType n <> 11) xs
    /\ NoDup xs
    /\ (forall F, p ∈ F -> (forall z, z ∈ F -> is_Some (nodes h !! z)) ->
          Forall2 (renders F h') es xs).
Proof.
  induction es as [|o es IH]; intros h pn Hall Hp Hr.
  - exists h, []. simpl. split; [reflexivity|]. split.
    { rewrite Hp, app_nil_r. f_equal. destruct pn; reflexivity. }
    split; [auto|]. split; [constructor|]. split; [constructor|].
    intros F _ _. constructor.
  - apply Forall_cons in Hall as [Ho Hall].
    destruct (Ho h) as (y & h1 & Hc & Hfresh & Hext & (ny & Hy & Hyp & Hyt) & Hren).
    cbn [create_into]. rewrite Hc. cbn [dbind].
    assert (Hyp' : y <> p) by (intros ->; rewrite Hp in Hfresh; discriminate).
    pose proof (Hext p pn Hp) as Hp1.
    rewrite (appendChild_new h1 p pn y ny Hp1 Hr Hy Hyp Hyt Hyp'). cbn [dbind].
    set (pn3 := with_children (childNodes pn ++ [y]) pn).
    set (h3 := set_node y (with_parent (Some p) ny) (set_node p pn3 h1)).
    assert (Hp3 : nodes h3 !! p = Some pn3).
    { unfold h3. simpl. rewrite lookup_insert_ne by exact Hyp'. apply lookup_insert_eq. }
    assert (Hy3 : nodes h3 !! y = Some (with_parent (Some p) ny)).
    { unfold h3. simpl. apply lookup_insert_eq. }
    assert (H13 : forall z n, z <> p -> z <> y -> nodes h1 !! z = Some n ->
                              nodes h3 !! z = Some n).
    { intros z n Hz1 Hz2 Hz. unfold h3. simpl.
      rewrite !lookup_insert_ne by congruence. exact Hz. }
    destruct (IH h3 pn3 Hall Hp3 Hr) as (h' & xs & Hci & Hp' & Hfr & Hxs & Hnd & Hrs).
    exists h', (y :: xs). split; [exact Hci|]. split.
    { rewrite Hp'. f_equal. unfold pn3. simpl. rewrite <- app_assoc. reflexivity. }
    assert (Hold : forall z n, nodes h !! z = Some n -> z <> y).
    { intros z n Hz ->. rewrite Hfresh in Hz. discriminate. }
    split.
    { intros z n Hz Hn. apply Hfr; [exact Hz|]. apply H13; [exact Hz| |apply Hext, Hn].
      eapply Hold, Hn. }
    split.
    { constructor.
      - split; [exact Hfresh|]. eexists. split; [apply Hfr; [exact Hyp'|exact Hy3]|].
        split; [reflexivity|exact Hyt].
      - eapply Forall_impl; [exact Hxs|]. intros x [Hx3 Hx']. split; [|exact Hx'].
        destruct (nodes h !! x) as [n|] eqn:Hx; [|reflexivity]. exfalso.
        destruct (decide (x = p)) as [->|Hxp]; [rewrite Hp3 in Hx3; discriminate|].
        rewrite (H13 x n Hxp (Hold x n Hx) (Hext x n Hx)) in Hx3. discriminate. }
    split.
    { apply NoDup_cons. split; [|exact Hnd]. intros Hin.
      rewrite Forall_forall in Hxs. destruct (Hxs y Hin) as [Hno _].
      rewrite Hy3 in Hno. discriminate. }
    intros F HpF HF. constructor.
    + apply (renders_content F h3 h').
      { intros z n Hz Hn. exists n. split; [|apply same_content_refl].
        apply Hfr; [|exact Hn]. intros ->. contradiction. }
      apply (renders_content F h1 h3).
      { intros z n Hz Hn.
        assert (Hzp : z <> p) by (intros ->; contradiction).
        destruct (decide (z = y)) as [->|Hzy].
        - rewrite Hy in Hn. injection Hn as <-. eexists. split; [exact Hy3|].
          repeat split.
        - exists n. split; [apply H13; assumption|apply same_content_refl]. }
      apply Hren, HF.
    + apply Hrs; [exact HpF|]. intros z Hz. destruct (HF z Hz) as [n Hn].
      destruct (decide (z = p)) as [->|Hzp]; [rewrite Hp3; eauto|].
      rewrite (H13 z n Hzp (Hold z n Hn) (Hext z n Hn)). eauto.
Qed.

Lemma each_create_into e : forall cs h,
  (fix each (cs : list VNode) (h : Dom) : DRes unit :=
     match cs with
     | [] => DOk tt h
     | c :: cs' =>
         dlet x <- create stringify c h in fun h' =>
         dlet _ <- appendChild e x h' in fun h'' => each cs' h''
     end) cs h = create_into stringify e cs h.
Proof.
  induction cs as [|c cs IH]; intros h; [reflexivity|]. cbn [create_into].
  destruct (create stringify c h) as [x h1| |]; cbn [dbind]; try reflexivity.
  destruct (appendChild e x h1) as [[] h2| |]; cbn [dbind]; try reflexivity.
  apply IH.
Qed.

Lemma create_plain : forall o, plain_desc o -> creates o.
Proof.
  induction o as [s|tag ps cs IH] using VNode_children_ind; intros Hpl h.
  - simpl in Hpl. cbn [create]. unfold createText. rewrite Hpl.
    unfold createTextNode, alloc.
    set (x := fresh (dom (nodes h))).
    assert (Hx : nodes h !! x = None) by apply fresh_node.
    eexists. eexists. split; [reflexivity|].
    split; [exact Hx|]. split.
    { intros z n Hz. simpl. rewrite lookup_insert_ne; [exact Hz|].
      intros <-. rewrite Hx in Hz. discriminate. }
    split.
    { eexists. split; [simpl; apply lookup_insert_eq|]. split; [reflexivity|].
      simpl. lia. }
    intros F HF. split.
    { intros Hin. destruct (HF x Hin) as [n Hn]. rewrite Hx in Hn. discriminate. }
    eexists. split; [simpl; apply lookup_insert_eq|]. repeat split.
  - destruct Hpl as (Htag & Hsvg & Hnd & Hcs). apply plain_desc_children in Hcs.
    cbn [create].
    assert (E1 : String.eqb tag "" = false).
    { destruct (String.eqb tag "") eqn:E; [|reflexivity].
      apply String.eqb_eq in E. contradiction. }
    assert (E2 : String.eqb tag "svg" = false).
    { destruct (String.eqb tag "svg") eqn:E; [|reflexivity].
      apply String.eqb_eq in E. contradiction. }
    rewrite E1, E2. unfold createElement, alloc.
    set (e := fresh (dom (nodes h))).
    assert (He : nodes h !! e = None) by apply fresh_node.
    set (h1 := set_node e (blank_node 1 (toUpperCase tag)) h).
    destruct (updateProps_effect h1 e (blank_node 1 (toUpperCase tag)) ps)
      as (h2 & n2 & Hu & E & A1 & A2 & A3 & A4 & A5 & A6 & A7 & A8 & A9).
    { unfold h1. simpl. apply lookup_insert_eq. }
    simpl in A1, A2, A3, A4, A5, A6, A7, A8.
    rewrite Hu. cbn [dbind]. rewrite each_create_into.
    assert (He2 : nodes h2 !! e = Some n2) by (rewrite E; apply lookup_insert_eq).
    assert (Hold2 : forall z n, nodes h !! z = Some n -> nodes h2 !! z = Some n).
    { intros z n Hz. rewrite E. unfold h1. simpl.
      rewrite !lookup_insert_ne; [exact Hz| |]; intros <-; rewrite He in Hz;
        discriminate. }
    destruct (create_into_spec e cs h2 n2)
      as (h' & xs & Hci & He' & Hfr & Hxs & _ & Hrs).
    { apply Forall_forall. intros c Hc. rewrite Forall_forall in IH, Hcs.
      apply IH; [exact Hc|apply Hcs, Hc]. }
    { exact He2. }
    { exact A5. }
    rewrite Hci. cbn [dbind]. exists e, h'. split; [reflexivity|].
    rewrite A4 in He'. simpl in He'.
    split; [exact He|]. split.
    { intros z n Hz. apply Hfr; [|apply Hold2, Hz].
      intros ->. rewrite He in Hz. discriminate. }
    split.
    { eexists. split; [exact He'|]. simpl. rewrite A5, A1. split; [reflexivity|lia]. }
    intros F HF. split.
    { intros Hin. destruct (HF e Hin) as [n Hn]. rewrite He in Hn. discriminate. }
    destruct (mergeProps_first ps Hnd) as [Hm1 Hm2].
    exists (with_children xs n2), (mergeProps [] ps).
    split; [exact He'|]. split; [exact A2|]. split; [exact A6|].
    split; [exact A7|]. split; [apply mergeProps_NoDup|]. split; [exact Hm2|].
    split.
    { intros a Ha. cbn [attrs with_children].
      rewrite (A8 "key"); [|split; reflexivity].
      unfold written. rewrite Hm1. unfold key_of in Ha.
      destruct ps as [l|]; [|discriminate].
      change (default [] (Some l)) with l.
      destruct (prop "key" l) as [k|]; [|discriminate].
      destruct (ptruthy k); [|discriminate]. injection Ha as <-.
      destruct (decide (prop "key" [] = Some k)) as [Heq|_];
        [discriminate Heq|reflexivity]. }
    apply renders_children. simpl.
    eapply Forall2_impl; [apply (Hrs (e :: F))|].
    + left.
    + intros z Hz. apply elem_of_cons in Hz as [->|Hz]; [rewrite He2; eauto|].
      destruct (HF z Hz) as [n Hn]. rewrite (Hold2 z n Hn). eauto.
    + intros c x. apply renders_weaken. intros z Hz. right. exact Hz.
Qed.

End Create.


(** ** A list that got longer *)

(** Parent links point at nodes of the heap. *)
Definition parents_exist (h : Dom) : Prop :=
  forall z n q, nodes h !! z = Some n -> parentNode n = Some q -> is_Some (nodes h !! q).

(** A node that is not in a heap with sound parent links is no ancestor
    of a node that is, also after the heap was extended. *)
Lemma absent_is_no_ancestor h h' a :
  parents_exist h ->
  (forall z n, nodes h !! z = Some n -> nodes h' !! z = Some n) ->
  nodes h !! a = None ->
  forall fuel t, is_Some (nodes h !! t) -> inclusive_ancestor fuel h' a t = false.
Proof.
  intros Hpe Hext Ha. induction fuel as [|fuel IH]; intros t [n Hn]; simpl;
    (destruct (decide (a = t)) as [->|Hne]; [rewrite Ha in Hn; discriminate|]);
    [reflexivity|].
  rewrite (Hext t n Hn). destruct (parentNode n) as [q|] eqn:Hq; [|reflexivity].
  apply IH. eapply Hpe; eassumption.
Qed.

(** [t.appendChild(fragment)]: the children of the fragment [p] are
    moved to the end of the child list of [t], in order. *)
Lemma append_fragment_children t p : forall xs h tn pn,
  nodes h !! t = Some tn -> nodes h !! p = Some pn -> t <> p ->
  NoDup xs -> t ∉ xs -> p ∉ xs ->
  Forall (fun k => exists nk, nodes h !! k = Some nk /\ parentNode nk = Some p) xs ->
  let h' := foldl (fun h k => append_one t k h) h xs in
  nodes h' !! t = Some (with_children (childNodes tn ++ xs) tn)
  /\ (forall k, k ∈ xs ->
        exists nk, nodes h !! k = Some nk
                   /\ nodes h' !! k = Some (with_parent (Some t) nk))
  /\ (forall z, z <> t -> z <> p -> z ∉ xs -> nodes h' !! z = nodes h !! z)
  /\ keyCache h' = keyCache h.
Proof.
  induction xs as [|k xs IH]; intros h tn pn Ht Hp Htp Hnd Htx Hpx Hall; cbn [foldl].
  - split; [rewrite Ht, app_nil_r; f_equal; destruct tn; reflexivity|].
    split; [intros k Hk; inversion Hk|]. split; reflexivity.
  - apply NoDup_cons in Hnd as [Hk Hnd].
    apply Forall_cons in Hall as [(nk & Hnk & Hpk) Hall].
    assert (Hkt : k <> t) by (intros ->; apply Htx; left).
    assert (Hkp : k <> p) by (intros ->; apply Hpx; left).
    set (h4 := append_one t k h).
    assert (E4 : nodes h4
                 = <[k := with_parent (Some t) nk]>
                     (<[t := with_children (childNodes tn ++ [k]) tn]>
                        (<[k := with_parent None nk]>
                           (<[p := with_children
                                     (filter (fun y => y <> k) (childNodes pn)) pn]>
                              (nodes h))))).
    { unfold h4, append_one, detach. rewrite Hnk, Hpk, Hp. simpl.
      rewrite (lookup_insert_ne _ p k) by congruence. rewrite Hnk. simpl.
      rewrite (lookup_insert_ne _ k t) by congruence.
      rewrite (lookup_insert_ne _ p t) by congruence. rewrite Ht. simpl.
      rewrite (lookup_insert_ne _ t k) by congruence.
      rewrite lookup_insert_eq. reflexivity. }
    assert (Hk4 : keyCache h4 = keyCache h) by apply keyCache_append_one.
    assert (Hother : forall z, z <> k -> z <> t -> z <> p ->
                               nodes h4 !! z = nodes h !! z).
    { intros z Z1 Z2 Z3. rewrite E4. rewrite !lookup_insert_ne by congruence.
      reflexivity. }
    destruct (IH h4 (with_children (childNodes tn ++ [k]) tn)
                (with_children (filter (fun y => y <> k) (childNodes pn)) pn))
      as (Ht' & Hks & Hfr & Hkc).
    + rewrite E4. rewrite lookup_insert_ne by congruence. apply lookup_insert_eq.
    + rewrite E4. rewrite !lookup_insert_ne by congruence. apply lookup_insert_eq.
    + exact Htp.
    + exact Hnd.
    + intros Hin. apply Htx. right. exact Hin.
    + intros Hin. apply Hpx. right. exact Hin.
    + apply Forall_forall. intros x Hx. rewrite Forall_forall in Hall.
      destruct (Hall x Hx) as (nx & Hnx & Hpx'). exists nx. split; [|exact Hpx'].
      rewrite Hother; [exact Hnx| | |].
      * intros ->. contradiction.
      * intros ->. apply Htx. right. exact Hx.
      * intros ->. apply Hpx. right. exact Hx.
    + split.
      { rewrite Ht'. f_equal. simpl. rewrite <- app_assoc. reflexivity. }
      split.
      { intros x Hx. apply elem_of_cons in Hx as [->|Hx].
        - exists nk. split; [exact Hnk|].
          rewrite Hfr; [rewrite E4; apply lookup_insert_eq|exact Hkt|exact Hkp|exact Hk].
        - destruct (Hks x Hx) as (nx & Hnx & Hnx'). exists nx. split; [|exact Hnx'].
          rewrite <- Hnx. symmetry. apply Hother.
          + intros ->. contradiction.
          + intros ->. apply Htx. right. exact Hx.
          + intros ->. apply Hpx. right. exact Hx. }
      split.
      { intros z Z1 Z2 Z3. rewrite Hfr; [|exact Z1|exact Z2|].
        - apply Hother; [|exact Z1|exact Z2]. intros ->. apply Z3. left.
        - intros Hin. apply Z3. right. exact Hin. }
      rewrite Hkc. exact Hk4.
Qed.

Section Grow.

Variable stringify : VNode -> string.
Variable F : list nat.

(** The first loop stops behind the last existing child. *)
Lemma patch_slots_prefix h t tn more : forall cs pre xs,
  nodes h !! t = Some tn -> childNodes tn = pre ++ xs ->
  Forall2 (renders F h) cs xs ->
  patch_slots stringify (update stringify) t (cs ++ more) (length pre)
    (length pre + length cs) h = DOk tt h.
Proof.
  induction cs as [|c cs IH]; intros pre xs Ht Hch Hall.
  - simpl. destruct more as [|o more]; [reflexivity|]. cbn [patch_slots].
    rewrite Nat.add_0_r, Nat.ltb_irrefl. reflexivity.
  - inversion Hall as [|c' x cs' xs' Hc Hrest]; subst.
    cbn [app patch_slots].
    assert (Hlt : (length pre <? length pre + length (c :: cs)) = true)
      by (apply Nat.ltb_lt; simpl; lia).
    rewrite Hlt.
    rewrite (slot_noop stringify F h t (length pre) c x).
    + cbn [dbind]. specialize (IH (pre ++ [x]) xs' Ht).
      rewrite length_app in IH. simpl in IH. rewrite Nat.add_1_r in IH.
      replace (length pre + length (c :: cs)) with (S (length pre) + length cs)
        by (simpl; lia).
      apply IH; [rewrite <- app_assoc; exact Hch|exact Hrest].
    + intros tag ps cs0 Ho. eapply update_noop; eassumption.
    + exact Hc.
    + unfold child_at. rewrite Ht, Hch. apply list_lookup_middle. reflexivity.
Qed.


End Grow.

(** Proves [plain_desc o] on closed terms. *)
Ltac show_plain :=
  first
    [ reflexivity
    | split; [discriminate|]; split; [discriminate|];
      split; [first [apply NoDup_nil; exact Logic.I | simpl; distinct_names]|];
      repeat (split; [show_plain|]); exact Logic.I ].


(** The host after a first render of the keyed row a. *)
Definition one_row : Dom := rendered [row "a" "A"] root.

Lemma one_row_parents : parents_exist one_row.
Proof.
  assert (H : map_Forall
                (fun _ n => match parentNode n with
                            | Some q => is_Some (nodes one_row !! q)
                            | None => True
                            end) (nodes one_row)).
  { apply map_Forall_to_list. vm_compute. repeat constructor; eauto. }
  intros z n q Hz Hq. specialize (H z n Hz). simpl in H. rewrite Hq in H. exact H.
Qed.


(** ** A node of another kind *)

(** [("" + (e.tag || "")).toUpperCase()] *)
Definition tag_name (o : VNode) : string :=
  match o with
  | VText _ => ""
  | VElem tag _ _ => toUpperCase tag
  end.

(** X17.  [update] of a node whose name is not the tag of the
    description: the node is not patched.  A new subtree is created from
    the description and takes the place of the node in the child list of
    its parent; the old node is detached and otherwise left as it was,
    together with everything below it. *)
Theorem mismatched_node_is_replaced stringify o x h nx p pn :
  nodes h !! x = Some nx -> parentNode nx = Some p ->
  nodes h !! p = Some pn -> x ∈ childNodes pn -> x <> p ->
  parents_exist h -> plain_desc o ->
  nodeName nx <> "" -> nodeName nx <> tag_name o ->
  exists y h',
    update stringify o x h = DOk tt h'
    /\ nodes h !! y = None
    /\ children_of h' p = subst_first x y (childNodes pn)
    /\ (exists n, nodes h' !! y = Some n /\ parentNode n = Some p)
    /\ renders [] h' o y
    /\ nodes h' !! x = Some (with_parent None nx)
    /\ (forall z n, z <> p -> z <> x -> nodes h !! z = Some n -> nodes h' !! z = Some n).
Proof.
  intros Hx Hxp Hp Hin Hne Hpe Hpl Hnm Htag.
  destruct (create_plain stringify o Hpl h)
    as (y & h1 & Hc & Hy & Hext & (ny & Hny & Hnyp & _) & Hr).
  assert (Hyx : y <> x) by (intros ->; rewrite Hx in Hy; discriminate).
  assert (Hyp : y <> p) by (intros ->; rewrite Hp in Hy; discriminate).
  assert (Hrep : replaceChild p y x h1
                 = DOk tt (set_node y (with_parent (Some p) ny)
                             (set_node x (with_parent None nx)
                                (set_node p (with_children
                                               (subst_first x y (childNodes pn)) pn) h1)))).
  { unfold replaceChild. rewrite (Hext p pn Hp), Hny.
    assert (Hcont : contains h1 y p = false).
    { unfold contains. eapply absent_is_no_ancestor; eauto. }
    rewrite Hcont.
    destruct (decide (x ∈ childNodes pn)); [|contradiction].
    destruct (decide (y = x)); [contradiction|].
    rewrite (detach_detached y ny h1 Hny Hnyp), (Hext p pn Hp). simpl.
    rewrite (lookup_insert_ne _ p x) by congruence. rewrite (Hext x nx Hx). simpl.
    rewrite (lookup_insert_ne _ x y) by congruence.
    rewrite (lookup_insert_ne _ p y) by congruence. rewrite Hny. reflexivity. }
  assert (Hup : update stringify o x h
                = dlet y <- create stringify o h in fun h1 => replaceChild p y x h1).
  { destruct o as [s|tag ps cs]; cbn [update]; rewrite Hx, Hxp.
    - destruct (String.eqb (nodeName nx) "") eqn:E; [|reflexivity].
      apply String.eqb_eq in E. contradiction.
    - destruct (String.eqb (nodeName nx) (toUpperCase tag)) eqn:E; [|reflexivity].
      apply String.eqb_eq in E. contradiction. }
  rewrite Hup, Hc. cbn [dbind]. rewrite Hrep.
  eexists y, _. split; [reflexivity|]. split; [exact Hy|].
  split.
  { unfold children_of. simpl.
    rewrite !lookup_insert_ne by congruence. rewrite lookup_insert_eq. reflexivity. }
  split.
  { eexists. split; [simpl; apply lookup_insert_eq|reflexivity]. }
  split.
  { assert (Hr0 : renders [p; x] h1 o y).
    { apply Hr. intros z Hz. apply elem_of_cons in Hz as [->|Hz]; [eauto|].
      apply list_elem_of_singleton in Hz. subst z. eauto. }
    apply (renders_weaken [] [p; x]); [intros z Hz; inversion Hz|].
    revert Hr0. apply renders_content. intros z n Hz Hn.
    assert (Hzp : z <> p) by (intros ->; apply Hz; left).
    assert (Hzx : z <> x) by (intros ->; apply Hz; right; left).
    destruct (decide (z = y)) as [->|Hzy].
    - rewrite Hny in Hn. injection Hn as <-. eexists.
      split; [simpl; apply lookup_insert_eq|]. repeat split.
    - exists n. split; [|apply same_content_refl]. simpl.
      rewrite !lookup_insert_ne by congruence. exact Hn. }
  split.
  { simpl. rewrite lookup_insert_ne by congruence. apply lookup_insert_eq. }
  intros z n Hzp Hzx Hn. simpl.
  assert (Hzy : z <> y) by (intros ->; rewrite Hy in Hn; discriminate).
  rewrite !lookup_insert_ne by congruence. apply Hext, Hn.
Qed.

Lemma mismatched_node_is_replaced_witness :
  exists y h',
    update no_json (VElem "p" None [VText "A"]) 2 one_row = DOk tt h'
    /\ nodes one_row !! y = None
    /\ children_of h' 0 = subst_first 2 y [2]
    /\ (exists n, nodes h' !! y = Some n /\ parentNode n = Some 0)
    /\ renders [] h' (VElem "p" None [VText "A"]) y
    /\ nodes h' !! 2
       = Some (with_parent None (default (blank_node 1 "") (nodes one_row !! 2)))
    /\ (forall z n, z <> 0 -> z <> 2 -> nodes one_row !! z = Some n ->
                    nodes h' !! z = Some n).
Proof.
  destruct (mismatched_node_is_replaced no_json (VElem "p" None [VText "A"]) 2 one_row
              (default (blank_node 1 "") (nodes one_row !! 2)) 0
              (default (blank_node 1 "") (nodes one_row !! 0)))
    as (y & h' & H1 & H2 & H3 & H4 & H5 & H6 & H7).
  - vm_compute. reflexivity.
  - vm_compute. reflexivity.
  - vm_compute. reflexivity.
  - replace (childNodes (default (blank_node 1 "") (nodes one_row !! 0))) with [2]
      by (vm_compute; reflexivity).
    left.
  - discriminate.
  - apply one_row_parents.
  - show_plain.
  - vm_compute. discriminate.
  - vm_compute. discriminate.
  - exists y, h'. split; [exact H1|]. split; [exact H2|].
    split; [rewrite H3; f_equal|]. split; [exact H4|]. split; [exact H5|].
    split; [exact H6|exact H7].
Defined.

(** ** Text children *)

Definition text_node (h : Dom) (x : nat) : Prop :=
  exists n, nodes h !! x = Some n /\ nodeType n = 3 /\ markup n = None.

Lemma with_data_same n : with_data (data n) n = n.
Proof. destruct n; reflexivity. Qed.

Section Texts.

Variable stringify : VNode -> string.

(** A text slot over a text node: the node gets the new text, unless it
    has it already. *)
Lemma slot_text h t tn r x n s :
  nodes h !! t = Some tn -> childNodes tn !! r = Some x ->
  nodes h !! x = Some n -> nodeType n = 3 -> markup n = None ->
  exists h',
    slot stringify (update stringify) t r (VText s) h = DOk tt h'
    /\ nodes h' = <[x := with_data s n]> (nodes h)
    /\ keyCache h' = keyCache h.
Proof.
  intros Ht Hr Hx Hty Hmk. unfold slot, child_at. rewrite Ht, Hr.
  unfold textContent. cbn [text_of]. rewrite Hx, Hmk, Hty. cbn [Nat.eqb].
  destruct (String.eqb (data n) s) eqn:E.
  - apply String.eqb_eq in E. subst s. exists h. split; [reflexivity|].
    split; [|reflexivity]. rewrite with_data_same. symmetry. apply insert_id, Hx.
  - eexists. split; [reflexivity|]. split; reflexivity.
Qed.

Lemma patch_text_slots t tn : forall ss pre xs h,
  nodes h !! t = Some tn -> childNodes tn = pre ++ xs ->
  length ss = length xs -> NoDup xs -> t ∉ xs ->
  Forall (text_node h) xs ->
  exists h',
    patch_slots stringify (update stringify) t (map VText ss) (length pre)
      (length pre + length xs) h = DOk tt h'
    /\ nodes h' !! t = Some tn
    /\ (forall j x s n, xs !! j = Some x -> ss !! j = Some s ->
          nodes h !! x = Some n -> nodes h' !! x = Some (with_data s n))
    /\ (forall z, z ∉ xs -> nodes h' !! z = nodes h !! z)
    /\ dom (nodes h') = dom (nodes h)
    /\ keyCache h' = keyCache h.
Proof.
  induction ss as [|s ss IH]; intros pre xs h Ht Hch Hlen Hnd Htx Hall.
  - destruct xs; [|discriminate]. exists h. simpl. split; [reflexivity|].
    split; [exact Ht|]. split; [intros j x s n Hj; inversion Hj|].
    repeat split.
  - destruct xs as [|x xs]; [discriminate|]. simpl in Hlen.
    apply NoDup_cons in Hnd as [Hx Hnd].
    apply Forall_cons in Hall as [(n & Hn & Hty & Hmk) Hall].
    assert (Hxt : x <> t) by (intros ->; apply Htx; left).
    cbn [map patch_slots].
    assert (Hlt : (length pre <? length pre + length (x :: xs)) = true)
      by (apply Nat.ltb_lt; simpl; lia).
    rewrite Hlt.
    destruct (slot_text h t tn (length pre) x n s Ht) as (h1 & Hs & E1 & K1);
      [rewrite Hch; apply list_lookup_middle; reflexivity|assumption..|].
    rewrite Hs. cbn [dbind].
    destruct (IH (pre ++ [x]) xs h1) as (h' & Hp & Ht' & Hpatched & Hfr & Hdom & Hk).
    + rewrite E1, lookup_insert_ne by exact Hxt. exact Ht.
    + rewrite <- app_assoc. exact Hch.
    + lia.
    + exact Hnd.
    + intros Hin. apply Htx. right. exact Hin.
    + apply Forall_forall. intros y Hy. rewrite Forall_forall in Hall.
      destruct (Hall y Hy) as (ny & Hny & A & B). exists ny.
      split; [|split; assumption]. rewrite E1, lookup_insert_ne; [exact Hny|].
      intros ->. contradiction.
    + rewrite length_app in Hp. simpl in Hp. rewrite Nat.add_1_r in Hp.
      replace (length pre + length (x :: xs)) with (S (length pre) + length xs)
        by (simpl; lia).
      exists h'. split; [exact Hp|]. split; [exact Ht'|]. split; [|split; [|split]].
      * intros j y s' ny Hj Hs' Hny. destruct j as [|j]; simpl in Hj, Hs'.
        -- injection Hj as <-. injection Hs' as <-. rewrite Hn in Hny.
           injection Hny as <-. rewrite (Hfr x Hx), E1. apply lookup_insert_eq.
        -- apply (Hpatched j y s' ny Hj Hs').
           rewrite E1, lookup_insert_ne; [exact Hny|].
           intros ->. apply Hx. eapply list_elem_of_lookup_2, Hj.
      * intros z Hz. rewrite Hfr.
        -- rewrite E1. apply lookup_insert_ne. intros ->. apply Hz. left.
        -- intros Hin. apply Hz. right. exact Hin.
      * rewrite Hdom, E1. rewrite dom_insert_L.
        apply subseteq_union_1_L, singleton_subseteq_l, elem_of_dom. eauto.
      * rewrite Hk. exact K1.
Qed.

(** X18.  The children of the parent are text nodes and the new list
    holds as many strings: every text node gets the string of its slot
    as its text and keeps its identity and its place; no node is
    created, removed or moved, and nothing else changes. *)
Theorem text_children_are_patched_in_place h t tn ss :
  nodes h !! t = Some tn -> markup tn = None ->
  length ss = length (childNodes tn) ->
  NoDup (childNodes tn) -> t ∉ childNodes tn ->
  Forall (text_node h) (childNodes tn) ->
  exists h',
    updateChildren stringify t (map VText ss) h = DOk tt h'
    /\ children_of h' t = childNodes tn
    /\ (forall j x s n, childNodes tn !! j = Some x -> ss !! j = Some s ->
          nodes h !! x = Some n -> nodes h' !! x = Some (with_data s n))
    /\ (forall z, z ∉ childNodes tn -> nodes h' !! z = nodes h !! z)
    /\ dom (nodes h') = dom (nodes h)
    /\ keyCache h' = keyCache h.
Proof.
  intros Ht Hmk Hlen Hnd Htx Hall.
  unfold updateChildren, updateChildren_. rewrite Ht, Hmk.
  rewrite length_map, Hlen, Nat.min_id.
  destruct (patch_text_slots t tn ss [] (childNodes tn) h Ht eq_refl Hlen Hnd Htx Hall)
    as (h' & Hp & Ht' & Hpatched & Hfr & Hdom & Hk).
  simpl in Hp. rewrite Hp. cbn [dbind]. rewrite Ht', Nat.sub_diag.
  cbn [remove_trailing dbind]. rewrite Nat.ltb_irrefl.
  exists h'. split; [reflexivity|].
  split; [unfold children_of; rewrite Ht'; reflexivity|].
  repeat (split; [assumption|]). assumption.
Qed.

End Texts.

(** Two text nodes under one parent. *)
Definition two_texts : Dom := rendered [VText "one"; VText "two"] root.

Lemma text_children_are_patched_in_place_witness :
  exists h',
    updateChildren no_json 0 (map VText ["uno"; "two"]) two_texts = DOk tt h'
    /\ children_of h' 0 = [2; 3]
    /\ (forall j x s n, [2; 3] !! j = Some x -> ["uno"; "two"] !! j = Some s ->
          nodes two_texts !! x = Some n -> nodes h' !! x = Some (with_data s n))
    /\ (forall z, z ∉ [2; 3] -> nodes h' !! z = nodes two_texts !! z)
    /\ dom (nodes h') = dom (nodes two_texts)
    /\ keyCache h' = keyCache two_texts.
Proof.
  destruct (text_children_are_patched_in_place no_json two_texts 0
              (default (blank_node 1 "") (nodes two_texts !! 0)) ["uno"; "two"])
    as (h' & H1 & H2 & H3 & H4 & H5 & H6).
  - vm_compute. reflexivity.
  - vm_compute. reflexivity.
  - vm_compute. reflexivity.
  - replace (childNodes (default (blank_node 1 "") (nodes two_texts !! 0))) with [2; 3]
      by (vm_compute; reflexivity).
    repeat (apply NoDup_cons; split; [outside|]). apply NoDup_nil. exact Logic.I.
  - replace (childNodes (default (blank_node 1 "") (nodes two_texts !! 0))) with [2; 3]
      by (vm_compute; reflexivity).
    outside.
  - replace (childNodes (default (blank_node 1 "") (nodes two_texts !! 0))) with [2; 3]
      by (vm_compute; reflexivity).
    repeat (apply Forall_cons; split;
            [eexists; split; [vm_compute; reflexivity|split; reflexivity]|]).
    apply Forall_nil. exact Logic.I.
  - exists h'. split; [exact H1|]. split; [exact H2|].
    split; [exact H3|]. split; [exact H4|]. split; [exact H5|exact H6].
Defined.

(** ** Building descriptions: [createElement]

    The children handed to [createElement] are values or arrays of
    values.  A value is [null], [undefined], a boolean, a number, a
    string or a description object; function values and arrays inside
    arrays, which the source keeps as they are, are not covered. *)

Inductive Atom : Type :=
  | ANull
  | AUndefined
  | ABool (b : bool)
  | ANum (z : Z)
  | AStr (s : string)
  | AElem (tag : string) (props : option Props) (children : list VNode).

Inductive Arg : Type :=
  | One (a : Atom)
  | Many (l : list Atom).

(** The inner function of [collect]: [null], [undefined] and [""] are
    dropped, an object is kept, anything else becomes a string. *)
Definition keep (a : Atom) : option VNode :=
  match a with
  | ANull | AUndefined => None
  | ABool b => Some (VText (if b then "true" else "false"))
  | ANum z => Some (VText (pretty z))
  | AStr s => if String.eqb s "" then None else Some (VText s)
  | AElem tag props children => Some (VElem tag props children)
  end.

(** [collect(children)] *)
Definition collect (args : list Arg) : list VNode :=
  concat (map (fun a => match a with
                        | One x => option_list (keep x)
                        | Many l => omap keep l
                        end) args).

(** What [createElement] returns for a tag that is a string or
    [undefined]. *)
Inductive Built : Type :=
  | BNode (o : VNode)
  | BList (l : list VNode).

(** [createElement(t, e, ...children)] for a string tag ([Some t]) and
    for [undefined] ([None]), and [Fragment(props, ...children)]. *)
Definition createElement_ (t : option string) (e : option Props) (args : list Arg)
    : Built :=
  match t with
  | Some tag => BNode (VElem tag e (collect args))
  | None => BList (collect args)
  end.

Definition Fragment (e : option Props) (args : list Arg) : list VNode := collect args.

(** The values of a child list, arrays spliced in. *)
Definition atoms (args : list Arg) : list Atom :=
  concat (map (fun a => match a with One x => [x] | Many l => l end) args).

(** The value that stands for a description. *)
Definition atom_of (o : VNode) : Atom :=
  match o with
  | VText s => AStr s
  | VElem tag props children => AElem tag props children
  end.

Lemma omap_keep_singletons (l : list Atom) :
  omap keep l = concat (map (fun x => option_list (keep x)) l).
Proof.
  induction l as [|a l IH]; [reflexivity|]. simpl. rewrite <- IH.
  destruct (keep a); reflexivity.
Qed.

Lemma collect_atoms args : collect args = omap keep (atoms args).
Proof.
  unfold collect, atoms. induction args as [|a args IH]; [reflexivity|].
  simpl. rewrite IH. destruct a as [x|l]; simpl.
  - destruct (keep x); reflexivity.
  - rewrite omap_app. reflexivity.
Qed.

Lemma pretty_N_go_length (x : N) : forall s,
  String.length s <= String.length (pretty_N_go x s).
Proof.
  induction (N.lt_wf_0 x) as [x _ IH]. intros s.
  assert (x = 0 \/ 0 < x)%N as [->|Hx] by lia; [rewrite pretty_N_go_0; lia|].
  rewrite pretty_N_go_step by exact Hx.
  etransitivity; [|apply IH; apply N.div_lt; lia]. simpl. lia.
Qed.

Lemma pretty_Z_nonempty (z : Z) : pretty z <> "".
Proof.
  assert (HN : forall p, pretty (N.pos p) <> "").
  { intros p. unfold pretty, pretty_N.
    destruct (decide (N.pos p = 0)%N); [discriminate|].
    rewrite pretty_N_go_step by lia. intros H.
    pose proof (pretty_N_go_length (N.pos p `div` 10)
                  (String (pretty_N_char (N.pos p `mod` 10)) "")) as Hl.
    rewrite H in Hl. simpl in Hl. lia. }
  destruct z as [|p|p]; [discriminate|apply HN|discriminate].
Qed.

(** X19.  [collect] splices arrays into the child list in place, keeps
    the order, and never yields an empty text; a list of descriptions
    without empty texts, handed over one by one or as one array, comes
    back unchanged. *)
Theorem collect_splices_and_drops_empty (args : list Arg) :
  collect args = collect (map One (atoms args))
  /\ collect args = collect [Many (atoms args)]
  /\ Forall (fun o => o <> VText "") (collect args)
  /\ length (collect args) <= length (atoms args)
  /\ forall os, Forall (fun o => o <> VText "") os ->
       collect (map (fun o => One (atom_of o)) os) = os
       /\ collect [Many (map atom_of os)] = os.
Proof.
  assert (Hone : forall l, atoms (map One l) = l).
  { induction l as [|a l IH]; [reflexivity|]. unfold atoms in *. simpl.
    rewrite IH. reflexivity. }
  assert (Hmany : forall l, atoms [Many l] = l).
  { intros l. unfold atoms. simpl. apply app_nil_r. }
  assert (Hback : forall os, Forall (fun o => o <> VText "") os ->
                             omap keep (map atom_of os) = os).
  { induction 1 as [|o os Ho _ IH]; [reflexivity|].
    change (omap keep (map atom_of (o :: os)))
      with (match keep (atom_of o) with
            | Some y => y :: omap keep (map atom_of os)
            | None => omap keep (map atom_of os)
            end).
    rewrite IH. destruct o as [s|tag ps cs]; simpl; [|reflexivity].
    destruct (String.eqb s "") eqn:E; [|reflexivity].
    apply String.eqb_eq in E. subst s. contradiction. }
  split; [rewrite !collect_atoms, Hone; reflexivity|].
  split; [rewrite !collect_atoms, Hmany; reflexivity|].
  split.
  { rewrite collect_atoms. apply Forall_forall. intros o Ho.
    apply list_elem_of_omap in Ho as (a & _ & Ha). intros ->.
    destruct a as [| |b|z|s|tag ps cs]; simpl in Ha; try discriminate.
    - destruct b; discriminate.
    - injection Ha as Ha. exact (pretty_Z_nonempty z Ha).
    - destruct (String.eqb s "") eqn:E; [discriminate|]. injection Ha as ->.
      discriminate. }
  split.
  { rewrite collect_atoms. generalize (atoms args) as l.
    induction l as [|a l IH]; [reflexivity|].
    change (omap keep (a :: l))
      with (match keep a with Some y => y :: omap keep l | None => omap keep l end).
    destruct (keep a); simpl; lia. }
  intros os Hos. split.
  - rewrite collect_atoms.
    replace (atoms (map (fun o => One (atom_of o)) os)) with (map atom_of os);
      [apply Hback, Hos|].
    rewrite <- (Hone (map atom_of os)), map_map. reflexivity.
  - rewrite collect_atoms, Hmany. apply Hback, Hos.
Qed.

(** ** A key that is registered to a detached node *)

(** Putting a detached node [u] into the slot of [i] and [i] to the
    end: [t.replaceChild(u, i); t.appendChild(i)]. *)
Lemma revive h t tn u nu i ni l1 l2 :
  nodes h !! t = Some tn -> childNodes tn = l1 ++ i :: l2 ->
  NoDup (childNodes tn) -> u ∉ childNodes tn ->
  nodes h !! u = Some nu -> parentNode nu = None ->
  nodes h !! i = Some ni -> parentNode ni = Some t -> nodeType ni <> 11 ->
  not_ancestor h u t -> not_ancestor h i t ->
  dbind (replaceChild t u i h) (fun _ h1 => appendChild t i h1)
  = DOk tt (set_node u (with_parent (Some t) nu)
              (set_node t (with_children (l1 ++ u :: l2 ++ [i]) tn) h)).
Proof.
  intros Ht Hl Hnd Hu Hnu Hpu Hni Hpi Hty Hau Hai.
  pose proof (not_ancestor_ne _ _ _ Hau) as Hut.
  pose proof (not_ancestor_ne _ _ _ Hai) as Hit.
  assert (Hin : i ∈ childNodes tn).
  { rewrite Hl. apply elem_of_app. right. left. }
  assert (Hui : u <> i) by (intros ->; contradiction).
  assert (Hi1 : i ∉ l1).
  { rewrite Hl in Hnd. apply NoDup_app in Hnd as (_ & Hd & _).
    intros H1. apply (Hd i H1). left. }
  unfold replaceChild. rewrite Ht, Hnu, (not_ancestor_contains _ _ _ Hau).
  destruct (decide (i ∈ childNodes tn)); [|contradiction].
  destruct (decide (u = i)); [contradiction|].
  rewrite (detach_detached u nu h Hnu Hpu), Ht. cbn [nodes set_node]. lookups.
  rewrite Hni. cbn [nodes set_node]. lookups. rewrite Hnu. cbn [dbind].
  rewrite Hl, (subst_first_app i u l1 l2 Hi1).
  match goal with |- appendChild t i ?H = _ => set (h4 := H) end.
  assert (Hp4 : forall z, z ∉ [u; i] -> parent_of h4 z = parent_of h z).
  { intros z Hz. unfold parent_of, h4, set_node. cbn [nodes].
    assert (z <> u) by (intros ->; apply Hz; left).
    assert (z <> i) by (intros ->; apply Hz; right; left).
    lookups. destruct (decide (z = t)) as [->|Hzt].
    - lookups. rewrite Ht. reflexivity.
    - lookups. reflexivity. }
  assert (Hai4 : not_ancestor h4 i t).
  { apply (not_ancestor_frame h h4 [u; i] i Hp4); [|exact Hai].
    repeat constructor; assumption. }
  assert (Ht4 : nodes h4 !! t = Some (with_children (l1 ++ u :: l2) tn)).
  { unfold h4, set_node. cbn [nodes]. lookups. reflexivity. }
  assert (Hi4 : nodes h4 !! i = Some (with_parent None ni)).
  { unfold h4, set_node. cbn [nodes]. lookups. reflexivity. }
  unfold appendChild. rewrite Ht4, Hi4, (not_ancestor_contains _ _ _ Hai4).
  cbn [nodeType with_parent].
  destruct (nodeType ni =? 11) eqn:E; [apply Nat.eqb_eq in E; contradiction|].
  unfold append_one.
  rewrite (detach_detached i (with_parent None ni) h4 Hi4 eq_refl), Ht4.
  cbn [nodes set_node]. lookups. rewrite Hi4. f_equal.
  unfold set_node. cbn [nodes keyCache]. f_equal.
  unfold h4, set_node. cbn [nodes]. apply map_eq. intros z.
  rewrite (with_parent_restore t ni Hpi).
  destruct (decide (z = i)) as [->|Hzi]; [lookups; symmetry; exact Hni|].
  destruct (decide (z = u)) as [->|Hzu]; [lookups; reflexivity|].
  destruct (decide (z = t)) as [->|Hzt].
  { lookups. f_equal. cbn [childNodes with_children].
    rewrite <- app_assoc. reflexivity. }
  lookups. reflexivity.
Qed.


(** The keyed inputs a, b rendered, then b alone: the node of a (2) is
    detached and still registered. *)
Definition only_b : Dom := rendered [item "b"] (rendered [item "a"; item "b"] root).


(** ** Properties are compared with the previous render *)

(** X23.  [updateProps] compares a property with the value of the
    previous render, not with the node: a property that the new
    description gives the value it had in the previous one is not
    assigned, so whatever value the node got in between stays. *)
Theorem unchanged_property_is_not_reassigned h t n sp ps r v :
  nodes h !! t = Some n -> _props n = Some sp ->
  NoDup (map fst ps) ->
  own_name r ->
  prop r sp = Some v -> prop r ps = Some v ->
  exists h' n',
    updateProps t (Some ps) h = DOk tt h'
    /\ nodes h' !! t = Some n'
    /\ attrs n' !! r = attrs n !! r.
Proof.
  intros Ht Hsp Hnd Hr Hv Hps.
  destruct (updateProps_effect h t n (Some ps) Ht)
    as (h' & n' & Hu & E & _ & _ & _ & _ & _ & _ & _ & Ha & _).
  rewrite Hsp in Ha. simpl in Ha.
  exists h', n'. split; [exact Hu|]. split; [rewrite E; apply lookup_insert_eq|].
  rewrite (Ha r Hr). unfold written.
  rewrite (mergeProps_prop sp ps r v Hnd Hps).
  destruct (decide (prop r sp = Some v)); [reflexivity|contradiction].
Qed.

(** An input rendered with the value "a" into which "typed" was
    entered since. *)
Definition typed_input : Node :=
  {| nodeType := 1; nodeName := "INPUT"; data := "";
     childNodes := []; parentNode := None;
     _props := Some [("value", PStr "a")];
     attrs := {[ "value" := PStr "typed" ]}; style := [];
     dataset := ∅; markup := None |}.

Definition typed : Dom :=
  {| nodes := {[ 1 := typed_input ]}; keyCache := ∅ |}.

Lemma unchanged_property_is_not_reassigned_witness :
  exists h' n',
    updateProps 1 (Some [("value", PStr "a")]) typed = DOk tt h'
    /\ nodes h' !! 1 = Some n'
    /\ attrs n' !! "value" = Some (PStr "typed").
Proof.
  destruct (unchanged_property_is_not_reassigned typed 1 typed_input
              [("value", PStr "a")] [("value", PStr "a")] "value" (PStr "a"))
    as (h' & n' & H1 & H2 & H3).
  - vm_compute. reflexivity.
  - reflexivity.
  - repeat constructor; intros H; inversion H.
  - split; reflexivity.
  - reflexivity.
  - reflexivity.
  - exists h', n'. split; [exact H1|]. split; [exact H2|].
    rewrite H3. vm_compute. reflexivity.
Defined.

(** ** Rendering one description *)

(** Appending a node that [create] has just made to a node that
    existed before. *)
Lemma appendChild_created h h1 t tn y ny :
  parents_exist h ->
  (forall z n, nodes h !! z = Some n -> nodes h1 !! z = Some n) ->
  nodes h !! y = None -> nodes h !! t = Some tn ->
  nodes h1 !! y = Some ny -> parentNode ny = None -> nodeType ny <> 11 ->
  appendChild t y h1
  = DOk tt (set_node y (with_parent (Some t) ny)
              (set_node t (with_children (childNodes tn ++ [y]) tn) h1)).
Proof.
  intros Hpe Hext Hy Ht Hny Hp Hty.
  assert (Hyt : y <> t) by (intros ->; rewrite Ht in Hy; discriminate).
  unfold appendChild. rewrite (Hext t tn Ht), Hny.
  assert (Hcont : contains h1 y t = false).
  { unfold contains. eapply absent_is_no_ancestor; eauto. }
  rewrite Hcont.
  destruct (nodeType ny =? 11) eqn:E; [apply Nat.eqb_eq in E; contradiction|].
  unfold append_one. rewrite (detach_detached y ny h1 Hny Hp), (Hext t tn Ht).
  simpl. rewrite lookup_insert_ne by congruence. rewrite Hny. reflexivity.
Qed.



(** ** A key that is not registered *)


Lemma one_input_parents : parents_exist one_input.
Proof.
  assert (H : map_Forall
                (fun _ n => match parentNode n with
                            | Some q => is_Some (nodes one_input !! q)
                            | None => True
                            end) (nodes one_input)).
  { apply map_Forall_to_list. vm_compute. repeat constructor; eexists; reflexivity. }
  intros z n q Hz Hq. specialize (H z n Hz). simpl in H. rewrite Hq in H. exact H.
Qed.


(** ** Strings over nodes with the same text *)

Section SameText.

Variable stringify : VNode -> string.
Variable h : Dom.

Lemma patch_slots_same_text t tn : forall ss pre xs,
  nodes h !! t = Some tn -> childNodes tn = pre ++ xs ->
  Forall2 (fun s x => textContent h x = Some s) ss xs ->
  patch_slots stringify (update stringify) t (map VText ss) (length pre)
    (length (childNodes tn)) h = DOk tt h.
Proof.
  induction ss as [|s ss IH]; intros pre xs Ht Hch Hall; [reflexivity|].
  inversion Hall as [|s' x ss' xs' Hs Hrest]; subst.
  cbn [map patch_slots].
  assert (Hlt : (length pre <? length (childNodes tn)) = true).
  { apply Nat.ltb_lt. rewrite Hch, length_app. simpl. lia. }
  rewrite Hlt.
  assert (Hslot : slot stringify (update stringify) t (length pre) (VText s) h
                  = DOk tt h).
  { unfold slot, child_at. rewrite Ht, Hch.
    rewrite list_lookup_middle by reflexivity. rewrite Hs, String.eqb_refl.
    reflexivity. }
  rewrite Hslot. cbn [dbind].
  specialize (IH (pre ++ [x]) xs' Ht).
  rewrite length_app in IH. simpl in IH. rewrite Nat.add_1_r in IH.
  apply IH; [rewrite <- app_assoc; exact Hch|exact Hrest].
Qed.

(** X28.  A string in the new list is compared with the text content of
    the node in its slot, whatever kind of node that is: when every
    string of the list equals the text content of the node in its slot,
    [updateChildren] changes nothing, so an element whose text is the
    string stays where a text is described. *)
Theorem strings_equal_to_content_change_nothing t tn ss :
  nodes h !! t = Some tn -> markup tn = None ->
  Forall2 (fun s x => textContent h x = Some s) ss (childNodes tn) ->
  updateChildren stringify t (map VText ss) h = DOk tt h.
Proof.
  intros Ht Hmk Hall. unfold updateChildren, updateChildren_. rewrite Ht, Hmk.
  pose proof (Forall2_length _ _ _ Hall) as Hlen.
  rewrite length_map, <- Hlen, Nat.min_id. rewrite Hlen.
  pose proof (patch_slots_same_text t tn ss [] (childNodes tn) Ht eq_refl Hall) as Hp.
  simpl in Hp. rewrite Hp.
  cbn [dbind]. rewrite Ht, Nat.sub_diag. cbn [remove_trailing dbind].
  rewrite <- Hlen, Nat.ltb_irrefl. reflexivity.
Qed.

End SameText.

(** A list with one item that holds the text "A" in a span. *)
Definition boxed_text : Dom := rendered [VElem "span" None [VText "A"]] root.

Lemma strings_equal_to_content_change_nothing_witness :
  updateChildren no_json 0 (map VText ["A"]) boxed_text = DOk tt boxed_text
  /\ (exists n, nodes boxed_text !! 2 = Some n /\ nodeName n = "SPAN")
  /\ children_of boxed_text 0 = [2].
Proof.
  split; [|split; [eexists; split; vm_compute; reflexivity|vm_compute; reflexivity]].
  apply (strings_equal_to_content_change_nothing no_json boxed_text 0
           (default (blank_node 1 "") (nodes boxed_text !! 0)) ["A"]).
  - vm_compute. reflexivity.
  - vm_compute. reflexivity.
  - replace (childNodes (default (blank_node 1 "") (nodes boxed_text !! 0))) with [2]
      by (vm_compute; reflexivity).
    constructor; [vm_compute; reflexivity|constructor].
Defined.

End VDom.
